(** * service_line.py: request state machine, dispatch engine, hierarchy

    A shallow embedding of [src/service_line.py] (version 2.4) and the
    properties of its request state machine, its per-time-unit dispatcher
    and its one-level hierarchy.

    Modelling conventions.
    - Python integers are unbounded: they are [Z].
    - Request objects are shared (a chief request keeps references to the
      sub-requests that sit in the collaborators' queues), so they live in
      an object store: a reference is an index of the store, an attribute
      read is a lookup, an attribute write an in-place update.  A Python
      reference cannot dangle; the lookup is the total one, and every
      reference the program creates is shown to be inside the store.
    - Service lines are owned by exactly one holder (a variable or a
      hierarchy), so they are passed by value.
    - [quit()] raises [SystemExit]; list indexing may raise [IndexError],
      a division [ZeroDivisionError], arithmetic on [None] [TypeError].
    - The module [random] is external: it is taken through the interface
      [RandomSource].
    - Floating-point results ([/], [np.mean]) are idealised as exact
      rationals; [int(a/b)] is the quotient truncated toward zero, which is
      what the float quotient of the source gives on the integers that reach
      it (the weights that [run] draws, far below 2^53).
    - [print] is not modelled. *)

From Stdlib Require Import ZArith QArith Lia Lqa.
From stdpp Require Import base tactics option list.

Local Open Scope Z_scope.

(** ** Simulation parameters and constants (lines 44-68) *)

Definition TOTAL_NR_OF_TIME_UNITS : Z := 3000.
Definition TIME_TO_SERVE_A_REQUEST : Z := 20.
Definition MULTIPLICATION_FACTOR : Z := 2.
Definition RANDOM_VARIABLE_WEIGHTS : bool := true.
Definition RANDOM_PRIORITY_SET : bool := true.
Definition PRIORITY_PROBABILITY_PER_REQUEST : Q := 2 # 10.
Definition REQUEST_PROBABILITY_PER_TIME_UNIT : Q := 13 # 1000.
Definition SUBREQUEST_PROBABILITY_PER_REQUEST : Q := 8 # 10.
Definition NR_OF_COLLABORATORS : Z := 3.
Definition RANDOM_MAX_TIME_TO_SERVE_A_REQUEST : Z :=
  MULTIPLICATION_FACTOR * TIME_TO_SERVE_A_REQUEST.

(** ACTIVE_REQUEST = 1, REQUEST_COMPLETION = 2, WAITING_REQUEST = 3. *)
Inductive Status : Set :=
  | ACTIVE_REQUEST
  | REQUEST_COMPLETION
  | WAITING_REQUEST.

(** SEQUENTIAL = 1 ... RANDOMCHOICE = 5. *)
Inductive Strategy : Set :=
  | SEQUENTIAL
  | CONCURRENT
  | LOOKFORMAX
  | LOOKFORMIN
  | RANDOMCHOICE.

#[global] Instance Status_eq_dec : EqDecision Status.
Proof. solve_decision. Defined.

#[global] Instance Strategy_eq_dec : EqDecision Strategy.
Proof. solve_decision. Defined.

Definition strategy_of_Z (service_type : Z) : option Strategy :=
  if service_type =? 1 then Some SEQUENTIAL
  else if service_type =? 2 then Some CONCURRENT
  else if service_type =? 3 then Some LOOKFORMAX
  else if service_type =? 4 then Some LOOKFORMIN
  else if service_type =? 5 then Some RANDOMCHOICE
  else None.

(** ** Exceptions and outcomes *)

Inductive exn : Set :=
  | SystemExit
  | IndexError
  | ZeroDivisionError
  | TypeError.

Inductive outcome (A : Type) : Type :=
  | Done (a : A)
  | Raise (e : exn).

Arguments Done {A} a.
Arguments Raise {A} e.

(** References to request objects. *)
Abbreviation loc := nat (only parsing).

(** One entry of the arrivals LOG:
    (time_unit, time_to_serve, priority, is_delegated). *)
Definition arrival : Type := Z * Z * bool * bool.

(** ** The interface of Python's [random] module *)

Class RandomSource (G : Type) := {
  (** [random.random()]: a number in [[0,1)]. *)
  random : G -> Q * G;
  (** [random.randint(a,b)]: an integer between [a] and [b], both included. *)
  randint : Z -> Z -> G -> Z * G;
  (** [random.choice(seq)] is [seq[randbelow(len(seq))]]. *)
  randbelow : nat -> G -> nat * G;
  randint_range : forall a b g, a <= b -> a <= fst (randint a b g) <= b;
  randbelow_lt : forall n g, (0 < n)%nat -> (fst (randbelow n g) < n)%nat
}.

(** A source that reads its draws from a tape (used to run the model on
    concrete inputs); an exhausted tape keeps drawing 0. *)
Definition tape_draw (g : list nat) : nat * list nat :=
  match g with
  | [] => (O, [])
  | k :: g' => (k, g')
  end.

#[global] Program Instance tape_source : RandomSource (list nat) := {|
  random g := (Z.of_nat (fst (tape_draw g) mod 1000) # 1000, snd (tape_draw g));
  randint a b g := (a + Z.of_nat (fst (tape_draw g)) mod (b - a + 1), snd (tape_draw g));
  randbelow n g := ((fst (tape_draw g) mod n)%nat, snd (tape_draw g))
|}.
Next Obligation.
  intros a b g Hab. cbn.
  pose proof (Z.mod_pos_bound (Z.of_nat (fst (tape_draw g))) (b - a + 1)).
  lia.
Qed.
Next Obligation.
  intros n g Hn. cbn. apply Nat.mod_upper_bound. lia.
Qed.

(** ** Class myServiceRequest (lines 81-151) *)

Module myServiceRequest.

Record t : Type := mk {
  service_id : Z;
  time_to_start : Z;
  time_to_live : Z;
  minimum_duration : Z;
  time_of_completion : option Z;
  status : Status;
  priority : bool;
  list_of_requests_it_is_waiting_for : list loc
}.

Definition set_time_to_live (v : Z) (r : t) : t :=
  mk (service_id r) (time_to_start r) v (minimum_duration r)
     (time_of_completion r) (status r) (priority r)
     (list_of_requests_it_is_waiting_for r).

Definition set_status (v : Status) (r : t) : t :=
  mk (service_id r) (time_to_start r) (time_to_live r) (minimum_duration r)
     (time_of_completion r) v (priority r)
     (list_of_requests_it_is_waiting_for r).

Definition set_time_of_completion (v : option Z) (r : t) : t :=
  mk (service_id r) (time_to_start r) (time_to_live r) (minimum_duration r)
     v (status r) (priority r)
     (list_of_requests_it_is_waiting_for r).

(** The class attributes are all [None] before the constructor runs. *)
#[global] Instance inhabited : Inhabited t :=
  populate (mk 0 0 0 0 None REQUEST_COMPLETION false []).

(** The object store. *)
Abbreviation store := (list t) (only parsing).

(** [__init__] (lines 99-110): the new object is appended to the store;
    [next_id] is the global ID_REQUESTS, incremented by the caller's
    state. *)
Definition init (next_id : Z) (time_to_start time_to_live : Z)
    (activate_priority : bool)
    (list_of_requests_it_is_waiting_for : list loc) : t :=
  mk next_id time_to_start time_to_live time_to_live None
     (match list_of_requests_it_is_waiting_for with
      | [] => ACTIVE_REQUEST
      | _ :: _ => WAITING_REQUEST
      end)
     activate_priority list_of_requests_it_is_waiting_for.

(** The loop of lines 130-132: [false] as soon as a sub-request is not
    completed. *)
Fixpoint all_completed (h : store) (rs : list loc) : bool :=
  match rs with
  | [] => true
  | r :: rs' =>
      if decide (status (h !!! r) <> REQUEST_COMPLETION) then false
      else all_completed h rs'
  end.

(** [serve_request] (lines 116-135). *)
Definition serve_request (self : loc) (time_unit : Z) (h : store)
    : outcome (bool * store) :=
  let r := h !!! self in
  match status r with
  | ACTIVE_REQUEST =>
      let r1 := set_time_to_live (time_to_live r - 1) r in
      if 0 <? time_to_live r1 then Done (true, <[self := r1]> h)
      else
        let r2 := set_status REQUEST_COMPLETION r1 in
        let r3 := set_time_of_completion (Some time_unit) r2 in
        Done (true, <[self := r3]> h)
  | WAITING_REQUEST =>
      match list_of_requests_it_is_waiting_for r with
      | [] => Raise SystemExit
      | _ :: _ =>
          if all_completed h (list_of_requests_it_is_waiting_for r)
          then Done (true, <[self := set_status ACTIVE_REQUEST r]> h)
          else Done (false, h)
      end
  | REQUEST_COMPLETION => Done (false, h)
  end.

End myServiceRequest.

(** ** Process-wide state: the object store, the three global identifier
    counters (lines 57-59) and the state of the random generator *)

Record World (G : Type) : Type := mkWorld {
  heap : myServiceRequest.store;
  ID_REQUESTS : Z;
  ID_SERVICE_LINE : Z;
  ID_HIERARCHY : Z;
  rng : G
}.

Arguments mkWorld {G} _ _ _ _ _.
Arguments heap {G} _.
Arguments ID_REQUESTS {G} _.
Arguments ID_SERVICE_LINE {G} _.
Arguments ID_HIERARCHY {G} _.
Arguments rng {G} _.

Definition set_heap {G} (h : myServiceRequest.store) (w : World G) : World G :=
  mkWorld h (ID_REQUESTS w) (ID_SERVICE_LINE w) (ID_HIERARCHY w) (rng w).

Definition set_rng {G} (g : G) (w : World G) : World G :=
  mkWorld (heap w) (ID_REQUESTS w) (ID_SERVICE_LINE w) (ID_HIERARCHY w) g.

(** Computations that read and write the process state and may raise. *)
Definition M (G A : Type) : Type := World G -> outcome (A * World G).

#[global] Instance M_ret {G} : MRet (M G) :=
  fun A (a : A) w => Done (a, w).

#[global] Instance M_bind {G} : MBind (M G) :=
  fun A B (f : A -> M G B) (m : M G A) w =>
    match m w with
    | Done (a, w') => f a w'
    | Raise e => Raise e
    end.

Definition raise {G A} (e : exn) : M G A := fun _ => Raise e.

Definition get_heap {G} : M G myServiceRequest.store :=
  fun w => Done (heap w, w).

(** Drawing from the generator. *)
Definition draw {G A} (f : G -> A * G) : M G A :=
  fun w => Done (fst (f (rng w)), set_rng (snd (f (rng w))) w).

(** [a / b] on integers with [b > 0], and [np.mean] of a non-empty list of
    integers, as exact rationals. *)
Definition true_div (a b : Z) : Q := a # Z.to_pos b.

Definition sum_list (d : list Z) : Z := foldr Z.add 0 d.

Definition np_mean (d : list Z) : Q := true_div (sum_list d) (Z.of_nat (length d)).

(** [x < y] on the idealised floats. *)
Definition Qltb (x y : Q) : bool := negb (Qle_bool y x).

(** [range(n)]. *)
Definition range (n : Z) : list Z := Z.of_nat <$> seq 0 (Z.to_nat n).

(** ** Class myServiceLine (lines 161-414) *)

Module myServiceLine.
Import myServiceRequest.

Record t : Type := mk {
  service_line_id : Z;
  queue : list loc;
  arrivals : list arrival;
  nr_of_times_empty_line : Z;
  percentage_of_active_requests : Q;
  accumulate_nr_of_active_requests : Z;
  max_nr_of_pending_requests : Z;
  concurrent_idx : Z;
  service_type : Strategy
}.

Definition set_queue (v : list loc) (s : t) : t :=
  mk (service_line_id s) v (arrivals s) (nr_of_times_empty_line s)
     (percentage_of_active_requests s) (accumulate_nr_of_active_requests s)
     (max_nr_of_pending_requests s) (concurrent_idx s) (service_type s).

Definition set_arrivals (v : list arrival) (s : t) : t :=
  mk (service_line_id s) (queue s) v (nr_of_times_empty_line s)
     (percentage_of_active_requests s) (accumulate_nr_of_active_requests s)
     (max_nr_of_pending_requests s) (concurrent_idx s) (service_type s).

Definition set_nr_of_times_empty_line (v : Z) (s : t) : t :=
  mk (service_line_id s) (queue s) (arrivals s) v
     (percentage_of_active_requests s) (accumulate_nr_of_active_requests s)
     (max_nr_of_pending_requests s) (concurrent_idx s) (service_type s).

Definition set_percentage_of_active_requests (v : Q) (s : t) : t :=
  mk (service_line_id s) (queue s) (arrivals s) (nr_of_times_empty_line s)
     v (accumulate_nr_of_active_requests s)
     (max_nr_of_pending_requests s) (concurrent_idx s) (service_type s).

Definition set_accumulate_nr_of_active_requests (v : Z) (s : t) : t :=
  mk (service_line_id s) (queue s) (arrivals s) (nr_of_times_empty_line s)
     (percentage_of_active_requests s) v
     (max_nr_of_pending_requests s) (concurrent_idx s) (service_type s).

Definition set_max_nr_of_pending_requests (v : Z) (s : t) : t :=
  mk (service_line_id s) (queue s) (arrivals s) (nr_of_times_empty_line s)
     (percentage_of_active_requests s) (accumulate_nr_of_active_requests s)
     v (concurrent_idx s) (service_type s).

Definition set_concurrent_idx (v : Z) (s : t) : t :=
  mk (service_line_id s) (queue s) (arrivals s) (nr_of_times_empty_line s)
     (percentage_of_active_requests s) (accumulate_nr_of_active_requests s)
     (max_nr_of_pending_requests s) v (service_type s).

Definition set_service_type (v : Strategy) (s : t) : t :=
  mk (service_line_id s) (queue s) (arrivals s) (nr_of_times_empty_line s)
     (percentage_of_active_requests s) (accumulate_nr_of_active_requests s)
     (max_nr_of_pending_requests s) (concurrent_idx s) v.

(** [[r for r in self.queue if r.status == ACTIVE_REQUEST]]. *)
Definition active_requests (h : store) (q : list loc) : list loc :=
  filter (fun r => status (h !!! r) = ACTIVE_REQUEST) q.

(** [[r for r in self.queue if r.priority]]. *)
Definition priority_requests (h : store) (q : list loc) : list loc :=
  filter (fun r => priority (h !!! r) = true) q.

(** Line 268: the requests still to be served beyond the cursor. *)
Definition remaining_requests (h : store) (q : list loc) (idx : Z) : list loc :=
  filter (fun r1 =>
            (status (h !!! r1) = ACTIVE_REQUEST \/
             status (h !!! r1) = WAITING_REQUEST) /\
            service_id (h !!! r1) > idx) q.

Section WithRandom.
Context {G : Type} `{RandomSource G}.

(** [__init__] (lines 180-197). *)
Definition init (service_type : Z) : M G t :=
  fun w =>
    match strategy_of_Z service_type with
    | Some s =>
        Done (mk (ID_SERVICE_LINE w) [] [] 0 0%Q 0 0 0 s,
              mkWorld (heap w) (ID_REQUESTS w) (ID_SERVICE_LINE w + 1)
                      (ID_HIERARCHY w) (rng w))
    | None => Raise SystemExit
    end.

(** The constructor call of line 206: a fresh object with the next
    request identifier. *)
Definition new_request (time_to_start time_to_live : Z)
    (activate_priority : bool) (waiting_for : list loc) : M G loc :=
  fun w =>
    Done (length (heap w),
          mkWorld (heap w ++ [myServiceRequest.init (ID_REQUESTS w)
                                time_to_start time_to_live
                                activate_priority waiting_for])
                  (ID_REQUESTS w + 1) (ID_SERVICE_LINE w)
                  (ID_HIERARCHY w) (rng w)).

(** [insert_new_incoming_request] (lines 203-216). *)
Definition insert_new_incoming_request (self : t) (time_unit : Z)
    (time_to_serve_the_request : Z) (activate_priority : bool)
    (list_of_requests_it_is_waiting_for : list loc) : M G (loc * t) :=
  r ← new_request time_unit time_to_serve_the_request activate_priority
                  list_of_requests_it_is_waiting_for;
  h ← get_heap;
  let self1 := set_queue (queue self ++ [r]) self in
  let l := Z.of_nat (length (active_requests h (queue self1))) in
  let self2 :=
    if max_nr_of_pending_requests self1 <? l
    then set_max_nr_of_pending_requests l self1 else self1 in
  let self3 :=
    set_arrivals
      (arrivals self2 ++
       [(time_unit, time_to_serve_the_request, activate_priority,
         match list_of_requests_it_is_waiting_for with
         | [] => false
         | _ :: _ => true
         end)]) self2 in
  mret (r, self3).

(** Lines 240-243: serve the priority requests in queue order until
    one of them reports work done. *)
Fixpoint serve_first_priority (q : list loc) (time_unit : Z) (h : store)
    : outcome (bool * store) :=
  match q with
  | [] => Done (false, h)
  | r :: q' =>
      if priority (h !!! r) then
        match serve_request r time_unit h with
        | Done (true, h') => Done (true, h')
        | Done (false, h') => serve_first_priority q' time_unit h'
        | Raise e => Raise e
        end
      else serve_first_priority q' time_unit h
  end.

(** Lines 250-252 (SEQUENTIAL). *)
Fixpoint serve_first (q : list loc) (time_unit : Z) (h : store)
    : outcome (bool * store) :=
  match q with
  | [] => Done (false, h)
  | r :: q' =>
      match serve_request r time_unit h with
      | Done (true, h') => Done (true, h')
      | Done (false, h') => serve_first q' time_unit h'
      | Raise e => Raise e
      end
  end.

(** Lines 262-271 (CONCURRENT): [whole] is [self.queue], [q] what is
    left of the iteration; the result is the new cursor when a request
    has been found. *)
Fixpoint serve_rotating (whole q : list loc) (idx : Z) (time_unit : Z)
    (h : store) : outcome (option Z * store) :=
  match q with
  | [] => Done (None, h)
  | r :: q' =>
      match serve_request r time_unit h with
      | Done (b, h') =>
          if b && (idx <? service_id (h' !!! r)) then
            let idx' := service_id (h' !!! r) in
            if (length (remaining_requests h' whole idx') =? 0)%nat
            then Done (Some 0, h')
            else Done (Some idx', h')
          else serve_rotating whole q' idx time_unit h'
      | Raise e => Raise e
      end
  end.

(** Lines 282-286 (LOOKFORMAX). *)
Fixpoint look_for_max (q : list loc) (h : store) (max_weight : Z)
    (request_with_max_weight : option loc) : option loc :=
  match q with
  | [] => request_with_max_weight
  | r :: q' =>
      if max_weight <? time_to_live (h !!! r)
      then look_for_max q' h (time_to_live (h !!! r)) (Some r)
      else look_for_max q' h max_weight request_with_max_weight
  end.

(** Lines 302-306 (LOOKFORMIN). *)
Fixpoint look_for_min (q : list loc) (h : store) (min_weight : Z)
    (request_with_min_weight : option loc) : option loc :=
  match q with
  | [] => request_with_min_weight
  | r :: q' =>
      if time_to_live (h !!! r) <? min_weight
      then look_for_min q' h (time_to_live (h !!! r)) (Some r)
      else look_for_min q' h min_weight request_with_min_weight
  end.

(** The return value of [serve_request] is dropped (lines 293, 313,
    325). *)
Definition serve_and_ignore (r : loc) (time_unit : Z) (h : store)
    : outcome store :=
  match serve_request r time_unit h with
  | Done (_, h') => Done h'
  | Raise e => Raise e
  end.

Definition empty_time_unit (self : t) : t :=
  set_nr_of_times_empty_line (nr_of_times_empty_line self + 1) self.

(** Lines 247-326: the configured strategy. *)
Definition apply_strategy (self : t) (time_unit : Z) : M G (bool * t) :=
  fun w =>
    let h := heap w in
    match service_type self with
    | SEQUENTIAL =>
        match serve_first (queue self) time_unit h with
        | Done (true, h') => Done ((true, self), set_heap h' w)
        | Done (false, h') =>
            Done ((false, empty_time_unit self), set_heap h' w)
        | Raise e => Raise e
        end
    | CONCURRENT =>
        match serve_rotating (queue self) (queue self)
                (concurrent_idx self) time_unit h with
        | Done (Some idx, h') =>
            Done ((true, set_concurrent_idx idx self), set_heap h' w)
        | Done (None, h') =>
            Done ((false, empty_time_unit self), set_heap h' w)
        | Raise e => Raise e
        end
    | LOOKFORMAX =>
        match look_for_max (queue self) h (-1) None with
        | None => Done ((false, empty_time_unit self), w)
        | Some r =>
            match serve_and_ignore r time_unit h with
            | Done h' => Done ((true, self), set_heap h' w)
            | Raise e => Raise e
            end
        end
    | LOOKFORMIN =>
        match look_for_min (queue self) h
                (3 * RANDOM_MAX_TIME_TO_SERVE_A_REQUEST) None with
        | None => Done ((false, empty_time_unit self), w)
        | Some r =>
            match serve_and_ignore r time_unit h with
            | Done h' => Done ((true, self), set_heap h' w)
            | Raise e => Raise e
            end
        end
    | RANDOMCHOICE =>
        match queue self with
        | [] => Done ((false, empty_time_unit self), w)
        | _ :: _ =>
            let (i, g) := randbelow (length (queue self)) (rng w) in
            match queue self !! i with
            | None => Raise IndexError
            | Some r =>
                match serve_and_ignore r time_unit h with
                | Done h' => Done ((true, self), set_rng g (set_heap h' w))
                | Raise e => Raise e
                end
            end
        end
    end.

(** Lines 227-237: the statistics of a non-empty queue. *)
Definition observe_queue (self : t) (h : store) : t :=
  let l := length (queue self) in
  if (0 <? l)%nat then
    let nr_of_active_requests :=
      Z.of_nat (length (active_requests h (queue self))) in
    set_percentage_of_active_requests
      (true_div nr_of_active_requests (Z.of_nat l))
      (set_accumulate_nr_of_active_requests
         (accumulate_nr_of_active_requests self + nr_of_active_requests)
         self)
  else self.

(** Lines 238-243: the mandatory service of priority requests. *)
Definition serve_priority (self : t) (time_unit : Z) (h : store)
    : outcome (bool * store) :=
  if (0 <? length (queue self))%nat then
    if (0 <? length (priority_requests h (queue self)))%nat
    then serve_first_priority (queue self) time_unit h
    else Done (false, h)
  else Done (false, h).

(** [process_queued_requests] (lines 222-337).  The final [else] of
    the strategy chain is unreachable: the constructor admits the five
    strategies only. *)
Definition process_queued_requests (self : t) (time_unit : Z)
    : M G (bool * t) :=
  fun w =>
    let self1 := observe_queue self (heap w) in
    match serve_priority self time_unit (heap w) with
    | Done (true, h') => Done ((true, self1), set_heap h' w)
    | Done (false, h') => apply_strategy self1 time_unit (set_heap h' w)
    | Raise e => Raise e
    end.

(** Lines 354-359 and 475-480: the weight of a generated request. *)
Definition draw_time_to_serve : M G Z :=
  if RANDOM_VARIABLE_WEIGHTS
  then draw (randint 1 RANDOM_MAX_TIME_TO_SERVE_A_REQUEST)
  else mret TIME_TO_SERVE_A_REQUEST.

(** Lines 361-367 and 482-488: the priority of a generated request. *)
Definition draw_priority : M G bool :=
  if RANDOM_PRIORITY_SET then
    x ← draw random;
    mret (Qltb x PRIORITY_PROBABILITY_PER_REQUEST)
  else mret false.

(** Lines 376 and 514: the entries of the LOG at [time_unit]. *)
Definition search_result_list (arrivals : list arrival) (time_unit : Z)
    : list arrival :=
  filter (fun a => fst (fst (fst a)) = time_unit) arrivals.

(** The body of the loop of [run] (lines 350-384). *)
Definition run_time_unit (arrivals : list arrival) (self : t)
    (time_unit : Z) : M G t :=
  match arrivals with
  | [] =>
      x ← draw random;
      if Qltb x REQUEST_PROBABILITY_PER_TIME_UNIT then
        random_time_to_serve_a_request ← draw_time_to_serve;
        activate_prioritized_request ← draw_priority;
        rs ← insert_new_incoming_request self time_unit
               random_time_to_serve_a_request
               activate_prioritized_request [];
        mret (snd rs)
      else
        bs ← process_queued_requests self time_unit;
        mret (snd bs)
  | _ :: _ =>
      match search_result_list arrivals time_unit with
      | [] =>
          bs ← process_queued_requests self time_unit;
          mret (snd bs)
      | (_, time_to_serve_the_request, activate_priority, _) :: _ =>
          rs ← insert_new_incoming_request self time_unit
                 time_to_serve_the_request activate_priority [];
          mret (snd rs)
      end
  end.

(** The loop of line 349 over the given time units. *)
Fixpoint run_loop (arrivals : list arrival) (self : t)
    (time_units : list Z) : M G t :=
  match time_units with
  | [] => mret self
  | time_unit :: rest =>
      self' ← run_time_unit arrivals self time_unit;
      run_loop arrivals self' rest
  end.

(** Lines 387 and 536: the extra working time of the completed
    requests of a queue. *)
Fixpoint extra_durations (h : store) (q : list loc) : outcome (list Z) :=
  match q with
  | [] => Done []
  | r :: q' =>
      if decide (status (h !!! r) = REQUEST_COMPLETION) then
        match time_of_completion (h !!! r) with
        | None => Raise TypeError
        | Some c =>
            match extra_durations h q' with
            | Done d =>
                Done (c - time_to_start (h !!! r)
                        - minimum_duration (h !!! r) :: d)
            | Raise e => Raise e
            end
        end
      else extra_durations h q'
  end.

(** Lines 385-400 and 534-549: the performance parameters of a line. *)
Definition performance (self : t) : M G (list Q) :=
  fun w =>
    match extra_durations (heap w) (queue self) with
    | Raise e => Raise e
    | Done [] => Raise SystemExit
    | Done (x :: d') =>
        let d := x :: d' in
        let average_extra_duration := np_mean d in
        let average_active_requests_for_time_unit :=
          true_div (accumulate_nr_of_active_requests self)
                   TOTAL_NR_OF_TIME_UNITS in
        Done ([average_extra_duration;
               average_active_requests_for_time_unit;
               inject_Z (nr_of_times_empty_line self);
               percentage_of_active_requests self;
               inject_Z (max_nr_of_pending_requests self)], w)
    end.

(** [run] (lines 346-400); the line after the run is returned with
    the performance parameters. *)
Definition run (self : t) (arrivals : list arrival) : M G (list Q * t) :=
  self' ← run_loop arrivals self (range TOTAL_NR_OF_TIME_UNITS);
  v ← performance self';
  mret (v, self').

End WithRandom.
End myServiceLine.

(** ** Class myServiceLineHierarchy (lines 425-562) *)

Module myServiceLineHierarchy.
Import myServiceRequest.

Record t : Type := mk {
  hierarchy_id : Z;
  chief : myServiceLine.t;
  list_of_collaborators : list myServiceLine.t;
  nr_of_collaborators : Z
}.

Definition set_chief (v : myServiceLine.t) (s : t) : t :=
  mk (hierarchy_id s) v (list_of_collaborators s) (nr_of_collaborators s).

Definition set_list_of_collaborators (v : list myServiceLine.t) (s : t) : t :=
  mk (hierarchy_id s) (chief s) v (nr_of_collaborators s).

Section WithRandom.
Context {G : Type} `{RandomSource G}.

(** Lines 447-448. *)
Fixpoint append_collaborators (n : nat) (collaborator_service_type : Z)
    (l : list myServiceLine.t) : M G (list myServiceLine.t) :=
  match n with
  | O => mret l
  | S n' =>
      c ← myServiceLine.init collaborator_service_type;
      append_collaborators n' collaborator_service_type (l ++ [c])
  end.

(** [__init__] (lines 440-448). *)
Definition init (chief_service_type nr_of_collaborators
                 collaborator_service_type : Z) : M G t :=
  id ← (fun w => Done (ID_HIERARCHY w,
                       mkWorld (heap w) (ID_REQUESTS w)
                               (ID_SERVICE_LINE w) (ID_HIERARCHY w + 1)
                               (rng w)));
  c ← myServiceLine.init chief_service_type;
  l ← append_collaborators (Z.to_nat nr_of_collaborators)
        collaborator_service_type [];
  mret (mk id c l nr_of_collaborators).

(** Lines 499-500 and 527-528: one sub-request in the queue of every
    collaborator, collected in [sub_requests]. *)
Fixpoint insert_sub_requests (indices : list Z)
    (collaborators : list myServiceLine.t) (time_unit : Z)
    (time_to_serve : Z) (activate_priority : bool)
    (sub_requests : list loc) : M G (list myServiceLine.t * list loc) :=
  match indices with
  | [] => mret (collaborators, sub_requests)
  | i :: indices' =>
      match collaborators !! Z.to_nat i with
      | None => raise IndexError
      | Some c =>
          rc ← myServiceLine.insert_new_incoming_request c time_unit
                 time_to_serve activate_priority [];
          insert_sub_requests indices'
            (<[Z.to_nat i := snd rc]> collaborators) time_unit
            time_to_serve activate_priority (sub_requests ++ [fst rc])
      end
  end.

(** Lines 509-510 and 519-520: every collaborator serves its queue. *)
Fixpoint process_collaborators (indices : list Z)
    (collaborators : list myServiceLine.t) (time_unit : Z)
    : M G (list myServiceLine.t) :=
  match indices with
  | [] => mret collaborators
  | i :: indices' =>
      match collaborators !! Z.to_nat i with
      | None => raise IndexError
      | Some c =>
          bc ← myServiceLine.process_queued_requests c time_unit;
          process_collaborators indices'
            (<[Z.to_nat i := snd bc]> collaborators) time_unit
      end
  end.

(** Lines 526-529 (and 493-501 once the share is known): the request
    is subdivided. *)
Definition insert_delegated (self : t) (time_unit : Z)
    (time_to_serve : Z) (activate_priority : bool) : M G t :=
  cs ← insert_sub_requests (range (nr_of_collaborators self))
         (list_of_collaborators self) time_unit time_to_serve
         activate_priority [];
  rc ← myServiceLine.insert_new_incoming_request (chief self) time_unit
         time_to_serve activate_priority (snd cs);
  mret (set_chief (snd rc) (set_list_of_collaborators (fst cs) self)).

(** Lines 505 and 533: the request is not subdivided. *)
Definition insert_direct (self : t) (time_unit : Z)
    (time_to_serve : Z) (activate_priority : bool) : M G t :=
  rc ← myServiceLine.insert_new_incoming_request (chief self) time_unit
         time_to_serve activate_priority [];
  mret (set_chief (snd rc) self).

(** Lines 508-510 and 518-520: the chief, then every collaborator. *)
Definition process_all (self : t) (time_unit : Z) : M G t :=
  bc ← myServiceLine.process_queued_requests (chief self) time_unit;
  l ← process_collaborators (range (nr_of_collaborators self))
        (list_of_collaborators self) time_unit;
  mret (set_chief (snd bc) (set_list_of_collaborators l self)).

(** Line 497: [int(a / b) + 1].  The source divides in floating point;
    the integer quotient is the same number for the weights that line 476
    draws (1 to RANDOM_MAX_TIME_TO_SERVE_A_REQUEST), the only ones that
    reach this line. *)
Definition time_to_serve_a_subrequest (time_to_serve_a_request : Z)
    (nr_of_collaborators : Z) : M G Z :=
  if nr_of_collaborators + 1 =? 0 then raise ZeroDivisionError
  else mret (time_to_serve_a_request ÷ (nr_of_collaborators + 1) + 1).

(** The body of the loop of [run] (lines 471-533). *)
Definition run_time_unit (arrivals : list arrival) (self : t)
    (time_unit : Z) : M G t :=
  match arrivals with
  | [] =>
      x ← draw random;
      if Qltb x REQUEST_PROBABILITY_PER_TIME_UNIT then
        random_time_to_serve_a_request ← myServiceLine.draw_time_to_serve;
        activate_prioritized_request ← myServiceLine.draw_priority;
        y ← draw random;
        if Qltb y SUBREQUEST_PROBABILITY_PER_REQUEST then
          random_time_to_serve_a_subrequest ←
            time_to_serve_a_subrequest random_time_to_serve_a_request
              (nr_of_collaborators self);
          insert_delegated self time_unit
            random_time_to_serve_a_subrequest activate_prioritized_request
        else
          insert_direct self time_unit random_time_to_serve_a_request
            activate_prioritized_request
      else process_all self time_unit
  | _ :: _ =>
      match myServiceLine.search_result_list arrivals time_unit with
      | [] => process_all self time_unit
      | (_, time_to_serve_the_request, activate_priority, delegated) :: _ =>
          if delegated
          then insert_delegated self time_unit time_to_serve_the_request
                 activate_priority
          else insert_direct self time_unit time_to_serve_the_request
                 activate_priority
      end
  end.

Fixpoint run_loop (arrivals : list arrival) (self : t)
    (time_units : list Z) : M G t :=
  match time_units with
  | [] => mret self
  | time_unit :: rest =>
      self' ← run_time_unit arrivals self time_unit;
      run_loop arrivals self' rest
  end.

(** [run] (lines 457-549): the performance parameters are those of the
    chief. *)
Definition run (self : t) (arrivals : list arrival) : M G (list Q * t) :=
  self' ← run_loop arrivals self (range TOTAL_NR_OF_TIME_UNITS);
  v ← myServiceLine.performance (chief self');
  mret (v, self').

End WithRandom.
End myServiceLineHierarchy.


(** ** Module-level code (lines 588-595 and 703) *)

(** Line 703: the LOG that [emulate_multiple_lines_multiple_strategies]
    hands to the single lines: the delegated entries of the LOG of the
    chief, each with the weight of the whole request, that is the share
    of one line times the number of lines of the hierarchy. *)
Definition arrivals_for_single_line (chief_arrivals : list arrival)
    : list arrival :=
  (fun '(x, time_to_serve_the_request, y, delegated) =>
     (x, (NR_OF_COLLABORATORS + 1) * time_to_serve_the_request, y,
      delegated))
    <$> filter (fun a => snd a = true) chief_arrivals.

(** A numpy float: finite (idealised as an exact rational), an infinity
    or not-a-number.  A division of numpy floats by zero gives one of the
    last three, with a warning and no exception. *)
Inductive np_float : Type :=
  | Finite (q : Q)
  | PlusInfinity
  | MinusInfinity
  | NotANumber.

(** [a / b] on finite numpy floats. *)
Definition np_div (a b : Q) : np_float :=
  if Qeq_bool b 0 then
    match (a ?= 0)%Q with
    | Eq => NotANumber
    | Gt => PlusInfinity
    | Lt => MinusInfinity
    end
  else Finite (a / b).

(** [a - x] for a finite [a]. *)
Definition np_rsub (a : Q) (x : np_float) : np_float :=
  match x with
  | Finite q => Finite (a - q)
  | PlusInfinity => MinusInfinity
  | MinusInfinity => PlusInfinity
  | NotANumber => NotANumber
  end.

(** [x + b] for a finite [b]. *)
Definition np_add (x : np_float) (b : Q) : np_float :=
  match x with
  | Finite q => Finite (q + b)
  | other => other
  end.

(** [get_total_score] (lines 588-595) on the array that [run] returns:
    [-results[0]/max_average_extra_time_for_request
     - results[1]/max_average_active_request_per_time_unit
     + results[2]/TOTAL_NR_OF_TIME_UNITS - results[4]/max_queue_length
     - results[3]]. *)
Definition get_total_score (results : list Q) : outcome np_float :=
  match results with
  | r0 :: r1 :: r2 :: r3 :: r4 :: _ =>
      let max_average_extra_time_for_request :=
        inject_Z (4 * RANDOM_MAX_TIME_TO_SERVE_A_REQUEST) in
      let max_average_active_request_per_time_unit := r4 in
      let max_queue_length :=
        true_div TOTAL_NR_OF_TIME_UNITS RANDOM_MAX_TIME_TO_SERVE_A_REQUEST in
      Done
        (np_add
           (np_add
              (np_add
                 (np_rsub (- r0 / max_average_extra_time_for_request)
                    (np_div r1 max_average_active_request_per_time_unit))
                 (r2 / inject_Z TOTAL_NR_OF_TIME_UNITS))
              (- (r4 / max_queue_length)))
           (- r3))
  | _ => Raise IndexError
  end.

(** * Specification vocabulary *)

Import myServiceRequest.

(** One call of [serve_request] at [time_unit] takes the attributes [r] of
    the served request to [r']: nothing happens, one unit of work is done,
    the last unit is done, or a waiting request wakes up. *)
Inductive req_step (time_unit : Z) (r : myServiceRequest.t)
    : myServiceRequest.t -> bool -> Prop :=
  | step_idle :
      status r <> ACTIVE_REQUEST -> req_step time_unit r r false
  | step_work :
      status r = ACTIVE_REQUEST -> 0 < time_to_live r - 1 ->
      req_step time_unit r (set_time_to_live (time_to_live r - 1) r) true
  | step_complete :
      status r = ACTIVE_REQUEST -> time_to_live r - 1 <= 0 ->
      req_step time_unit r
        (set_time_of_completion (Some time_unit)
           (set_status REQUEST_COMPLETION
              (set_time_to_live (time_to_live r - 1) r))) true
  | step_wake :
      status r = WAITING_REQUEST ->
      list_of_requests_it_is_waiting_for r <> [] ->
      req_step time_unit r (set_status ACTIVE_REQUEST r) true.


(** The store [h'] is what a sequence of [serve_request] calls on [rs],
    all at [time_unit], makes of [h]. *)
Inductive serves (time_unit : Z) : list loc -> store -> store -> Prop :=
  | serves_nil h : serves time_unit [] h h
  | serves_cons r b rs h h1 h2 :
      serve_request r time_unit h = Done (b, h1) ->
      serves time_unit rs h1 h2 ->
      serves time_unit (r :: rs) h h2.

(** A request as the constructor and [serve_request] leave it: waiting
    only for something, completed only with a completion time. *)
Definition well_formed (r : myServiceRequest.t) : Prop :=
  (status r = WAITING_REQUEST -> list_of_requests_it_is_waiting_for r <> []) /\
  (status r = REQUEST_COMPLETION -> time_of_completion r <> None).

(** At most [k - time_to_start] units of work have been done on [r], and
    if [r] is completed its extra duration is not negative. *)
Definition timed (k : Z) (r : myServiceRequest.t) : Prop :=
  minimum_duration r - time_to_live r <= k - time_to_start r /\
  (status r = REQUEST_COMPLETION ->
   exists c, time_of_completion r = Some c /\
             0 <= c - time_to_start r - minimum_duration r).

(** The requests [owned] (the queue of a line, the queues of a hierarchy)
    are distinct objects of the store, well formed and on time. *)
Definition consistent (k : Z) (owned : list loc) (h : store) : Prop :=
  NoDup owned /\
  forall r, r ∈ owned ->
    (r < length h)%nat /\ well_formed (h !!! r) /\ timed k (h !!! r).

(** The completed requests of a queue, in the order of the queue, and the
    extra duration of one of them: its completion time minus its arrival
    time minus its original weight (lines 387 and 536). *)
Definition completed_requests (h : store) (q : list loc) : list loc :=
  filter (fun r => status (h !!! r) = REQUEST_COMPLETION) q.

Definition extra_duration_of (h : store) (r : loc) (x : Z) : Prop :=
  exists c, time_of_completion (h !!! r) = Some c /\
            x = c - time_to_start (h !!! r) - minimum_duration (h !!! r).

(** A request that has been served: it does not wait, and work has been
    done on it or it has been woken up. *)
Definition served (r : myServiceRequest.t) : Prop :=
  status r <> WAITING_REQUEST /\
  (time_to_live r < minimum_duration r \/
   list_of_requests_it_is_waiting_for r <> []).

(** The cursor of a line is 0, or the line is CONCURRENT and its cursor is
    the identifier of a served request of its queue. *)
Definition cursor_on_served_request (self : myServiceLine.t) (h : store)
    : Prop :=
  myServiceLine.concurrent_idx self = 0 \/
  (myServiceLine.service_type self = CONCURRENT /\
   exists r, r ∈ myServiceLine.queue self /\
             service_id (h !!! r) = myServiceLine.concurrent_idx self /\
             served (h !!! r)).

(** The same, with what keeps it true from call to call: the requests of
    the queue are in the store, none with more work left than its
    weight. *)
Definition cursor_sound (self : myServiceLine.t) (h : store) : Prop :=
  Forall (fun r => (r < length h)%nat /\
                   time_to_live (h !!! r) <= minimum_duration (h !!! r))
    (myServiceLine.queue self) /\
  cursor_on_served_request self h.

(** What [process_queued_requests] never changes in a line. *)
Definition same_queue (self self' : myServiceLine.t) : Prop :=
  myServiceLine.queue self' = myServiceLine.queue self /\
  myServiceLine.arrivals self' = myServiceLine.arrivals self /\
  myServiceLine.max_nr_of_pending_requests self' =
  myServiceLine.max_nr_of_pending_requests self /\
  myServiceLine.service_type self' = myServiceLine.service_type self /\
  myServiceLine.service_line_id self' = myServiceLine.service_line_id self.

(** What the service of requests never changes in the process state. *)
Definition same_counters {G} (w w' : World G) : Prop :=
  ID_REQUESTS w' = ID_REQUESTS w /\
  ID_SERVICE_LINE w' = ID_SERVICE_LINE w /\
  ID_HIERARCHY w' = ID_HIERARCHY w.

(** The time units of a loop come one after the other, after [k]. *)
Fixpoint ticks_after (k : Z) (time_units : list Z) : Prop :=
  match time_units with
  | [] => True
  | time_unit :: rest => k < time_unit /\ ticks_after time_unit rest
  end.

(** The requests in the queues of a hierarchy: the chief's, then those of
    the collaborators. *)
Definition queues (collaborators : list myServiceLine.t) : list loc :=
  concat (myServiceLine.queue <$> collaborators).

Definition owned (self : myServiceLineHierarchy.t) : list loc :=
  myServiceLine.queue (myServiceLineHierarchy.chief self) ++
  queues (myServiceLineHierarchy.list_of_collaborators self).

(** A hierarchy as the constructor leaves it: as many lines as
    collaborators. *)
Definition staffed (self : myServiceLineHierarchy.t) : Prop :=
  0 <= myServiceLineHierarchy.nr_of_collaborators self /\
  length (myServiceLineHierarchy.list_of_collaborators self) =
  Z.to_nat (myServiceLineHierarchy.nr_of_collaborators self).

(** The sub-requests that one subdivision creates: [n] objects with
    consecutive identifiers from [id]. *)
Definition new_sub_requests (id : Z) (n : nat) (time_unit ttl : Z)
    (prio : bool) : list myServiceRequest.t :=
  (fun j => myServiceRequest.init (id + Z.of_nat j) time_unit ttl prio [])
    <$> seq 0 n.

(** The same for all the lines of a hierarchy. *)
Definition cursors_sound (self : myServiceLineHierarchy.t) (h : store)
    : Prop :=
  cursor_sound (myServiceLineHierarchy.chief self) h /\
  Forall (fun c => cursor_sound c h)
    (myServiceLineHierarchy.list_of_collaborators self).

(** ** Concrete inputs *)

(** The process state when the program starts (lines 57-59), with a tape
    of draws. *)
Definition fresh_world (tape : list nat) : World (list nat) :=
  mkWorld [] 1 1 1 tape.

(** What is left of an outcome when only the returned value counts. *)
Definition returned {A B C : Type} (o : outcome (A * B * C)) : outcome A :=
  match o with
  | Done (a, _, _) => Done a
  | Raise e => Raise e
  end.

(** The returned value without the process state. *)
Definition value_of {A B : Type} (o : outcome (A * B)) : outcome A :=
  match o with
  | Done (a, _) => Done a
  | Raise e => Raise e
  end.

(** A store with a completed sub-request and the request that waits for
    it. *)
Definition waiting_store : list myServiceRequest.t :=
  [myServiceRequest.mk 1 0 0 2 (Some 2) REQUEST_COMPLETION false [];
   myServiceRequest.mk 2 0 2 2 None WAITING_REQUEST false [0%nat]].

(** A CONCURRENT line after [insert_new_incoming_request(0, 2, True)] and
    [insert_new_incoming_request(1, 3, False)]. *)
Definition two_requests_line (s : Strategy) : myServiceLine.t :=
  myServiceLine.mk 1 [0%nat; 1%nat]
    [(0, 2, true, false); (1, 3, false, false)] 0 0 0 2 0 s.

Definition two_requests_world : World (list nat) :=
  mkWorld [myServiceRequest.mk 1 0 2 2 None ACTIVE_REQUEST true [];
           myServiceRequest.mk 2 1 3 3 None ACTIVE_REQUEST false []]
          3 2 1 [].

(** A LOOKFORMIN line with an active request and a completed one. *)
Definition one_completed_line : myServiceLine.t :=
  myServiceLine.mk 1 [0%nat; 1%nat]
    [(0, 2, false, false); (1, 1, false, false)] 0 (1 # 2) 2 2 0 LOOKFORMIN.

Definition one_completed_world : World (list nat) :=
  mkWorld [myServiceRequest.mk 1 0 2 2 None ACTIVE_REQUEST false [];
           myServiceRequest.mk 2 1 0 1 (Some 2) REQUEST_COMPLETION false []]
          3 2 1 [].

(** A new hierarchy of three collaborators, all SEQUENTIAL. *)
Definition new_line (id : Z) (s : Strategy) : myServiceLine.t :=
  myServiceLine.mk id [] [] 0 0 0 0 0 s.

Definition three_collaborators : myServiceLineHierarchy.t :=
  myServiceLineHierarchy.mk 1 (new_line 1 SEQUENTIAL)
    [new_line 2 SEQUENTIAL; new_line 3 SEQUENTIAL; new_line 4 SEQUENTIAL] 3.

(** A CONCURRENT line with two active requests (identifiers 1 and 2)
    and its cursor at [idx]. *)
Definition rotating_line (idx : Z) : myServiceLine.t :=
  myServiceLine.mk 1 [0%nat; 1%nat]
    [(0, 2, false, false); (1, 3, false, false)] 0 0 0 2 idx CONCURRENT.

Definition rotating_world : World (list nat) :=
  mkWorld [myServiceRequest.mk 1 0 2 2 None ACTIVE_REQUEST false [];
           myServiceRequest.mk 2 1 3 3 None ACTIVE_REQUEST false []]
          3 2 1 [].

(** A new hierarchy of a CONCURRENT chief and one SEQUENTIAL collaborator,
    and a LOG of three requests, the third of them delegated. *)
Definition rotation_hierarchy : myServiceLineHierarchy.t :=
  myServiceLineHierarchy.mk 1 (new_line 1 CONCURRENT)
    [new_line 2 SEQUENTIAL] 1.

Definition rotation_world : World (list nat) := mkWorld [] 1 3 2 [].

Definition rotation_log : list arrival :=
  [(0, 5, false, false); (1, 1, false, false); (3, 9, false, true)].

(** Draws that make a request of weight 10 arrive (5/1000 < 0.013, weight
    1 + 9), without priority (0.5 >= 0.2), subdivided (0.1 < 0.8). *)
Definition fan_out_world : World (list nat) :=
  mkWorld [] 1 5 2 [5; 9; 500; 100]%nat.

(** Two runs, one after the other in the same process, each of a new
    line with the same strategy and the same LOG. *)
Definition run_twice (service_type : Z) (arrivals : list arrival)
    : M (list nat) (list Q * list Q) :=
  line1 ← myServiceLine.init service_type;
  r1 ← myServiceLine.run line1 arrivals;
  line2 ← myServiceLine.init service_type;
  r2 ← myServiceLine.run line2 arrivals;
  mret (fst r1, fst r2).

(** A LOOKFORMIN line whose only request has weight 120, after
    [insert_new_incoming_request(0, 120)]. *)
Definition heavy_request_line : myServiceLine.t :=
  myServiceLine.mk 1 [0%nat] [(0, 120, false, false)] 0 0 0 1 0 LOOKFORMIN.

Definition heavy_request_world : World (list nat) :=
  mkWorld [myServiceRequest.mk 1 0 120 120 None ACTIVE_REQUEST false []]
          2 2 1 [].

(** A run of a new hierarchy (process state after the constructor: five
    lines have been numbered). *)
Definition run_hierarchy (chief_service_type nr collaborator_service_type : Z)
    (arrivals : list arrival) : M (list nat) (list Q * myServiceLineHierarchy.t) :=
  self ← myServiceLineHierarchy.init chief_service_type nr
           collaborator_service_type;
  myServiceLineHierarchy.run self arrivals.

(** The greatest number of active requests in the queue of the chief
    over the states between the time units of a run. *)
Fixpoint peak_of_active_requests (arrivals : list arrival)
    (self : myServiceLineHierarchy.t) (time_units : list Z)
    (w : World (list nat)) : Z :=
  let now :=
    Z.of_nat (length (myServiceLine.active_requests (heap w)
                        (myServiceLine.queue
                           (myServiceLineHierarchy.chief self)))) in
  match time_units with
  | [] => now
  | time_unit :: rest =>
      match myServiceLineHierarchy.run_time_unit arrivals self time_unit w with
      | Done (self', w') =>
          Z.max now (peak_of_active_requests arrivals self' rest w')
      | Raise _ => now
      end
  end.

(** ** Two runs side by side *)

(** The same request with its identifier moved by [d]. *)
Definition shift (d : Z) (r : myServiceRequest.t) : myServiceRequest.t :=
  myServiceRequest.mk (service_id r + d) (time_to_start r) (time_to_live r)
    (minimum_duration r) (time_of_completion r) (status r) (priority r)
    (list_of_requests_it_is_waiting_for r).

(** The objects [p.1] of the store [ha] and [p.2] of the store [hb] are
    the same request up to the identifier; it waits for nothing, and
    identifiers start at 1 (line 57). *)
Definition twin (d : Z) (ha hb : list myServiceRequest.t) (p : nat * nat)
    : Prop :=
  (p.1 < length ha)%nat /\ (p.2 < length hb)%nat /\
  hb !!! p.2 = shift d (ha !!! p.1) /\
  status (ha !!! p.1) <> WAITING_REQUEST /\
  1 <= service_id (ha !!! p.1) /\ 1 <= service_id (hb !!! p.2).

Definition twins (d : Z) (ha hb : list myServiceRequest.t)
    (ps : list (nat * nat)) : Prop :=
  NoDup ps.*1 /\ NoDup ps.*2 /\ Forall (twin d ha hb) ps.

(** The cursors of two CONCURRENT lines point to the same request. *)
Definition twin_cursors (d : Z) (ca cb : Z) : Prop :=
  (ca = 0 /\ cb = 0) \/ cb = ca + d.

(** Two lines with the same history: queues of twins, equal LOG,
    counters and strategy. *)
Definition twin_lines (d : Z) (ps : list (nat * nat))
    (sa sb : myServiceLine.t) : Prop :=
  myServiceLine.queue sa = ps.*1 /\ myServiceLine.queue sb = ps.*2 /\
  myServiceLine.arrivals sa = myServiceLine.arrivals sb /\
  myServiceLine.nr_of_times_empty_line sa =
  myServiceLine.nr_of_times_empty_line sb /\
  myServiceLine.percentage_of_active_requests sa =
  myServiceLine.percentage_of_active_requests sb /\
  myServiceLine.accumulate_nr_of_active_requests sa =
  myServiceLine.accumulate_nr_of_active_requests sb /\
  myServiceLine.max_nr_of_pending_requests sa =
  myServiceLine.max_nr_of_pending_requests sb /\
  myServiceLine.service_type sa = myServiceLine.service_type sb /\
  twin_cursors d (myServiceLine.concurrent_idx sa)
    (myServiceLine.concurrent_idx sb).

(** The generator is not consulted: the LOG is replayed and the strategy
    draws nothing. *)
Definition draws_nothing (s : Strategy) (arrivals : list arrival) : Prop :=
  s <> RANDOMCHOICE /\ arrivals <> [].

(** Two process states: identifiers that differ by [d], and the same
    state of the generator unless it is not consulted. *)
Definition twin_worlds {G} (d : Z) (s : Strategy) (arrivals : list arrival)
    (ps : list (nat * nat)) (wa wb : World G) : Prop :=
  twins d (heap wa) (heap wb) ps /\
  ID_REQUESTS wb = ID_REQUESTS wa + d /\
  1 <= ID_REQUESTS wa /\ 1 <= ID_REQUESTS wb /\
  (rng wa = rng wb \/ draws_nothing s arrivals).

(** The two searches of LOOKFORMAX (LOOKFORMIN) have selected twins, or
    nothing. *)
Definition twin_choice (ps : list (nat * nat)) (oa ob : option nat) : Prop :=
  match oa, ob with
  | None, None => True
  | Some a, Some b => (a, b) ∈ ps
  | _, _ => False
  end.

(** The two scans of CONCURRENT have set twin cursors, or none. *)
Definition twin_found (d : Z) (oa ob : option Z) : Prop :=
  match oa, ob with
  | None, None => True
  | Some a, Some b => twin_cursors d a b
  | _, _ => False
  end.

(** ** Histories of a request and of the store *)

(** [serve_request] called on the same request, once in each of
    [time_units]. *)
Fixpoint serve_repeatedly (self : loc) (time_units : list Z) (h : store)
    : outcome store :=
  match time_units with
  | [] => Done h
  | time_unit :: rest =>
      match serve_request self time_unit h with
      | Done (_, h') => serve_repeatedly self rest h'
      | Raise e => Raise e
      end
  end.

(** The request [r'] is a later state of the request [r]: the same
    identity, arrival data and sub-requests, no more work left, nothing
    changed once completed, and never back to waiting. *)
Definition evolved (r r' : myServiceRequest.t) : Prop :=
  service_id r' = service_id r /\
  time_to_start r' = time_to_start r /\
  minimum_duration r' = minimum_duration r /\
  priority r' = priority r /\
  list_of_requests_it_is_waiting_for r' =
  list_of_requests_it_is_waiting_for r /\
  time_to_live r' <= time_to_live r /\
  (status r = REQUEST_COMPLETION -> r' = r) /\
  (status r' = WAITING_REQUEST -> r' = r).

(** The store [h'] is a later state of the store [h]: the objects of
    [h] are still there, each in a later state. *)
Definition evolves (h h' : store) : Prop :=
  (length h <= length h')%nat /\
  forall r, (r < length h)%nat -> evolved (h !!! r) (h' !!! r).

(** ** The books of a line *)

(** The entry that [insert_new_incoming_request] writes in the LOG for
    the request [r] (line 214). *)
Definition log_entry (r : myServiceRequest.t) : arrival :=
  (time_to_start r, minimum_duration r, priority r,
   match list_of_requests_it_is_waiting_for r with
   | [] => false
   | _ :: _ => true
   end).

Definition log_of (h : store) (q : list loc) : list arrival :=
  (fun r => log_entry (h !!! r)) <$> q.

(** The time units of the entries of a LOG. *)
Definition times (arrivals : list arrival) : list Z :=
  (fun a => fst (fst (fst a))) <$> arrivals.

(** The books of a line after the time units up to [k]: the LOG has the
    entry of every request of the queue, in queue order and with time
    units that increase; every time unit so far has seen an arrival or
    a call of the dispatcher; the statistics are in their ranges. *)
Definition accounted (k : Z) (self : myServiceLine.t) (h : store) : Prop :=
  Forall (fun r => (r < length h)%nat) (myServiceLine.queue self) /\
  myServiceLine.arrivals self = log_of h (myServiceLine.queue self) /\
  ticks_after (-1) (times (myServiceLine.arrivals self)) /\
  Forall (fun t => t <= k) (times (myServiceLine.arrivals self)) /\
  0 <= myServiceLine.nr_of_times_empty_line self /\
  myServiceLine.nr_of_times_empty_line self +
    Z.of_nat (length (myServiceLine.queue self)) <= k + 1 /\
  0 <= myServiceLine.accumulate_nr_of_active_requests self /\
  (0 <= myServiceLine.percentage_of_active_requests self <= 1)%Q /\
  0 <= myServiceLine.max_nr_of_pending_requests self
    <= Z.of_nat (length (myServiceLine.queue self)).

(** A line of its own, to which nothing is delegated: no request of the
    queue waits or has sub-requests, so the peak counter bounds the number
    of active requests, now and on the average. *)
Definition undelegated (k : Z) (self : myServiceLine.t) (h : store) : Prop :=
  (forall r, r ∈ myServiceLine.queue self ->
     status (h !!! r) <> WAITING_REQUEST /\
     list_of_requests_it_is_waiting_for (h !!! r) = []) /\
  Z.of_nat (length (myServiceLine.active_requests h
                      (myServiceLine.queue self)))
    <= myServiceLine.max_nr_of_pending_requests self /\
  myServiceLine.accumulate_nr_of_active_requests self
    <= (k + 1) * myServiceLine.max_nr_of_pending_requests self /\
  (myServiceLine.queue self <> [] ->
   1 <= myServiceLine.max_nr_of_pending_requests self).

(** The greatest number of active requests in the queue of a line over
    the states between the time units of its loop. *)
Fixpoint peak_of_line {G} `{RandomSource G} (arrivals : list arrival)
    (self : myServiceLine.t) (time_units : list Z) (w : World G) : Z :=
  let now :=
    Z.of_nat (length (myServiceLine.active_requests (heap w)
                        (myServiceLine.queue self))) in
  match time_units with
  | [] => now
  | time_unit :: rest =>
      match myServiceLine.run_time_unit arrivals self time_unit w with
      | Done (self', w') => Z.max now (peak_of_line arrivals self' rest w')
      | Raise _ => now
      end
  end.

(** ** Replaying a LOG *)

(** The entries of a LOG that a replay admits: for every time unit, in
    order, the first entry of the LOG with that time unit (lines 376-381
    and 514-519). *)
Definition admitted (arrivals : list arrival) (time_units : list Z)
    : list arrival :=
  omap (fun time_unit =>
          head (myServiceLine.search_result_list arrivals time_unit))
       time_units.

(** A line of its own replays an entry without its delegation flag
    (line 381 does not pass it on, line 214 then records False). *)
Definition undelegate (a : arrival) : arrival :=
  (fst (fst (fst a)), snd (fst (fst a)), snd (fst a), false).

(** ** Delegation *)

(** The requests [owned] by a hierarchy respect the order of delegation
    after the time units up to [k]: the sub-requests of an owned request
    are owned; a request that does not wait has all its sub-requests
    completed; a completed request was completed by the time unit [k],
    and strictly after each of its sub-requests. *)
Definition delegation (k : Z) (owned : list loc) (h : store) : Prop :=
  forall r, r ∈ owned ->
    (forall s, s ∈ list_of_requests_it_is_waiting_for (h !!! r) ->
       s ∈ owned) /\
    (status (h !!! r) <> WAITING_REQUEST ->
     forall s, s ∈ list_of_requests_it_is_waiting_for (h !!! r) ->
       status (h !!! s) = REQUEST_COMPLETION) /\
    (status (h !!! r) = REQUEST_COMPLETION ->
     exists c, time_of_completion (h !!! r) = Some c /\ c <= k /\
       forall s, s ∈ list_of_requests_it_is_waiting_for (h !!! r) ->
         exists cs, time_of_completion (h !!! s) = Some cs /\ cs < c).

(** ** Identifiers *)

(** The requests of the queue of a line are numbered consecutively from
    [first], in queue order, and the global counter is the next number. *)
Definition numbered {G} (first : Z) (self : myServiceLine.t) (w : World G)
    : Prop :=
  Forall (fun r => (r < length (heap w))%nat) (myServiceLine.queue self) /\
  (fun r => service_id (heap w !!! r)) <$> myServiceLine.queue self =
  (fun i => first + Z.of_nat i)
    <$> seq 0 (length (myServiceLine.queue self)) /\
  ID_REQUESTS w = first + Z.of_nat (length (myServiceLine.queue self)).

(** A hierarchy of [nr] collaborators replays an entry with its
    delegation flag, unless it has no collaborator: no sub-request is
    created then, and line 214 records False. *)
Definition redelegate (nr : Z) (a : arrival) : arrival :=
  (fst (fst (fst a)), snd (fst (fst a)), snd (fst a), snd a && (0 <? nr)).

(** ** More concrete inputs *)

(** A line after [insert_new_incoming_request(0, 2)] and
    [insert_new_incoming_request(1, 3)], no request with priority. *)
Definition plain_line (s : Strategy) : myServiceLine.t :=
  myServiceLine.mk 1 [0%nat; 1%nat]
    [(0, 2, false, false); (1, 3, false, false)] 0 0 0 2 0 s.

Definition plain_world (tape : list nat) : World (list nat) :=
  mkWorld [myServiceRequest.mk 1 0 2 2 None ACTIVE_REQUEST false [];
           myServiceRequest.mk 2 1 3 3 None ACTIVE_REQUEST false []]
          3 2 1 tape.

(** A LOG of two requests, and the same arrivals in a LOG with a second
    entry for the first time unit, an entry outside the timeline, and
    other delegation flags. *)
Definition short_log : list arrival :=
  [(0, 2, false, false); (1, 1, false, false)].

Definition noisy_log : list arrival :=
  [(1, 1, false, true); (0, 2, false, true); (0, 9, true, false);
   (5000, 1, false, false)].

(** * Properties *)

(** ** The request state machine *)

Lemma all_completed_true (h : store) (rs : list loc) :
  all_completed h rs = true <->
  forall r, r ∈ rs -> status (h !!! r) = REQUEST_COMPLETION.
Proof.
  induction rs as [|r rs IH]; simpl.
  - split; [intros _ r Hr; inversion Hr | reflexivity].
  - destruct (decide (status (h !!! r) <> REQUEST_COMPLETION)) as [Hn|Hc].
    + split; [discriminate|]. intros Hall. exfalso. apply Hn, Hall. left.
    + rewrite IH. split.
      * intros Hall r' Hr'. apply elem_of_cons in Hr' as [->|Hr'].
        -- by apply dec_stable in Hc.
        -- by apply Hall.
      * intros Hall r' Hr'. apply Hall. by right.
Qed.

Lemma all_completed_false (h : store) (rs : list loc) :
  all_completed h rs = false <->
  exists r, r ∈ rs /\ status (h !!! r) <> REQUEST_COMPLETION.
Proof.
  split.
  - intros Hf. induction rs as [|r rs IH]; simpl in Hf; [discriminate|].
    destruct (decide (status (h !!! r) <> REQUEST_COMPLETION)) as [Hn|Hc].
    + exists r. split; [left|done].
    + destruct (IH Hf) as (r' & Hr' & Hs). exists r'. split; [by right|done].
  - intros (r & Hr & Hs). destruct (all_completed h rs) eqn:E; [|done].
    exfalso. apply Hs. by apply (proj1 (all_completed_true h rs) E).
Qed.

(** [serve_request] writes the served object only, and what it writes is
    one step of the state machine. *)
Lemma serve_request_done (self : loc) (time_unit : Z) (h h' : store) (b : bool) :
  serve_request self time_unit h = Done (b, h') ->
  exists r', h' = <[self := r']> h /\ req_step time_unit (h !!! self) r' b.
Proof.
  assert (Hid : h = <[self := h !!! self]> h).
  { destruct (decide (self < length h)%nat) as [Hlt|Hge].
    - symmetry. by apply list_insert_id, list_lookup_lookup_total_lt.
    - symmetry. apply list_insert_ge. lia. }
  unfold serve_request. intros Hs.
  destruct (status (h !!! self)) eqn:Est.
  - destruct (0 <? time_to_live (set_time_to_live _ _)) eqn:Ettl;
      simpl in Ettl; injection Hs as <- <-; eexists; (split; [reflexivity|]).
    + apply step_work; [done|]. by apply Z.ltb_lt.
    + apply step_complete; [done|]. by apply Z.ltb_ge.
  - injection Hs as <- <-. exists (h !!! self). split; [done|].
    apply step_idle. congruence.
  - destruct (list_of_requests_it_is_waiting_for (h !!! self))
      as [|d ds] eqn:Ew; [discriminate|].
    destruct (all_completed h (d :: ds)) eqn:Eall; injection Hs as <- <-.
    + eexists. split; [reflexivity|]. apply step_wake; [done|]. by rewrite Ew.
    + exists (h !!! self). split; [done|]. apply step_idle. congruence.
Qed.

(** The only exception of [serve_request] is the [quit()] of line 128. *)
Lemma serve_request_raise (self : loc) (time_unit : Z) (h : store) (e : exn) :
  serve_request self time_unit h = Raise e ->
  e = SystemExit /\ status (h !!! self) = WAITING_REQUEST /\
  list_of_requests_it_is_waiting_for (h !!! self) = [].
Proof.
  unfold serve_request. intros Hs.
  destruct (status (h !!! self)) eqn:Est.
  - destruct (0 <? _); discriminate.
  - discriminate.
  - destruct (list_of_requests_it_is_waiting_for (h !!! self)).
    + by inversion Hs.
    + destruct (all_completed _ _); discriminate.
Qed.

(** A call that reports no work leaves the store as it was. *)
Lemma serve_request_false (self : loc) (time_unit : Z) (h h' : store) :
  serve_request self time_unit h = Done (false, h') -> h' = h.
Proof.
  unfold serve_request. intros Hs.
  destruct (status (h !!! self)).
  - destruct (0 <? _); discriminate.
  - congruence.
  - destruct (list_of_requests_it_is_waiting_for (h !!! self));
      [discriminate|].
    destruct (all_completed _ _); congruence.
Qed.

(** C2. [serve_request] on a waiting request: with no sub-request it
    stops the program ([quit()]); while a sub-request is not completed it
    returns [False] and changes nothing; once all of them are completed
    the request becomes active, [True] is returned, and its time to live
    is the one it had. *)
Theorem serve_request_waiting (h : store) (self : loc) (time_unit : Z) :
  status (h !!! self) = WAITING_REQUEST ->
  let waiting_for := list_of_requests_it_is_waiting_for (h !!! self) in
  (waiting_for = [] -> serve_request self time_unit h = Raise SystemExit) /\
  ((exists r, r ∈ waiting_for /\ status (h !!! r) <> REQUEST_COMPLETION) ->
   serve_request self time_unit h = Done (false, h)) /\
  (waiting_for <> [] ->
   (forall r, r ∈ waiting_for -> status (h !!! r) = REQUEST_COMPLETION) ->
   exists h',
     serve_request self time_unit h = Done (true, h') /\
     h' = <[self := set_status ACTIVE_REQUEST (h !!! self)]> h /\
     (forall other, other <> self -> h' !!! other = h !!! other) /\
     ((self < length h)%nat ->
      status (h' !!! self) = ACTIVE_REQUEST /\
      time_to_live (h' !!! self) = time_to_live (h !!! self) /\
      time_of_completion (h' !!! self) = time_of_completion (h !!! self))).
Proof.
  intros Hw waiting_for. unfold serve_request. rewrite Hw.
  fold waiting_for. repeat split.
  - by intros ->.
  - intros Hex. destruct waiting_for as [|d ds] eqn:E.
    + destruct Hex as (r & Hr & _). inversion Hr.
    + by rewrite (proj2 (all_completed_false h (d :: ds)) Hex).
  - intros Hne Hall. destruct waiting_for as [|d ds] eqn:E; [done|].
    rewrite (proj2 (all_completed_true h (d :: ds)) Hall).
    eexists. split; [reflexivity|]. split; [reflexivity|]. split.
    + intros other Ho. by apply list_lookup_total_insert_ne.
    + intros Hlt. by rewrite list_lookup_total_insert_eq.
Qed.

(** One step of the state machine keeps a request well formed. *)
Lemma req_step_well_formed (time_unit : Z) (r r' : myServiceRequest.t) (b : bool) :
  req_step time_unit r r' b -> well_formed r -> well_formed r'.
Proof.
  intros Hs [Hw Hc].
  destruct Hs; unfold well_formed; simpl; split; intros; auto;
    congruence.
Qed.

(** A request on time before [time_unit] is on time after one step at
    [time_unit]. *)
Lemma req_step_timed (time_unit : Z) (r r' : myServiceRequest.t) (b : bool) :
  req_step time_unit r r' b -> timed (time_unit - 1) r -> timed time_unit r'.
Proof.
  intros Hs [Hk Hc]. destruct Hs; unfold timed; simpl.
  - split; [lia|done].
  - split; [lia|]. intros. congruence.
  - split; [lia|]. intros _. exists time_unit. split; [done|]. lia.
  - split; [lia|]. intros. congruence.
Qed.

Lemma timed_mono (k k' : Z) (r : myServiceRequest.t) :
  k <= k' -> timed k r -> timed k' r.
Proof. intros Hk [H1 H2]. split; [lia|done]. Qed.

(** One step never gives work back, and never un-completes. *)
Lemma req_step_fields (time_unit : Z) (r r' : myServiceRequest.t) (b : bool) :
  req_step time_unit r r' b ->
  service_id r' = service_id r /\
  time_to_start r' = time_to_start r /\
  minimum_duration r' = minimum_duration r /\
  priority r' = priority r /\
  list_of_requests_it_is_waiting_for r' = list_of_requests_it_is_waiting_for r /\
  time_to_live r' <= time_to_live r /\
  (status r = REQUEST_COMPLETION -> r' = r) /\
  (status r' = WAITING_REQUEST -> r' = r).
Proof.
  intros Hs. destruct Hs; simpl; repeat split; try done; try lia;
    intros; congruence.
Qed.

(** *** Sequences of services *)

Lemma serves_app (time_unit : Z) (rs1 rs2 : list loc) (h h1 h2 : store) :
  serves time_unit rs1 h h1 -> serves time_unit rs2 h1 h2 ->
  serves time_unit (rs1 ++ rs2) h h2.
Proof.
  induction 1 as [|r b rs h h1' h2' Hs Hrest IH]; intros Hrs2; simpl; [done|].
  eapply serves_cons; [exact Hs|]. by apply IH.
Qed.

Lemma serves_length (time_unit : Z) (rs : list loc) (h h' : store) :
  serves time_unit rs h h' -> length h' = length h.
Proof.
  induction 1 as [|r b rs h h1 h2 Hs Hrest IH]; [done|].
  destruct (serve_request_done _ _ _ _ _ Hs) as (r' & -> & _).
  by rewrite IH, length_insert.
Qed.

(** The requests that are not served are not touched. *)
Lemma serves_frame (time_unit : Z) (rs : list loc) (h h' : store) (l : loc) :
  serves time_unit rs h h' -> l ∉ rs -> h' !!! l = h !!! l.
Proof.
  induction 1 as [|r b rs h h1 h2 Hs Hrest IH]; intros Hl; [done|].
  apply not_elem_of_cons in Hl as [Hne Hl].
  destruct (serve_request_done _ _ _ _ _ Hs) as (r' & -> & _).
  rewrite IH by done. by apply list_lookup_total_insert_ne.
Qed.

(** A request served once has made one step (or none). *)
Lemma serves_step (time_unit : Z) (rs : list loc) (h h' : store) (l : loc) :
  serves time_unit rs h h' -> NoDup rs -> l ∈ rs ->
  h' !!! l = h !!! l \/ exists b, req_step time_unit (h !!! l) (h' !!! l) b.
Proof.
  induction 1 as [|r b rs h h1 h2 Hs Hrest IH]; intros Hnd Hl;
    [inversion Hl|].
  apply NoDup_cons in Hnd as [Hr Hnd].
  destruct (serve_request_done _ _ _ _ _ Hs) as (r' & Hh1 & Hstep).
  apply elem_of_cons in Hl as [->|Hl].
  - rewrite (serves_frame _ _ _ _ _ Hrest Hr). subst h1.
    destruct (decide (r < length h)%nat) as [Hlt|Hge].
    + right. exists b. by rewrite list_lookup_total_insert_eq.
    + left. by rewrite list_insert_ge by lia.
  - assert (l <> r) by (intros ->; done).
    destruct (IH Hnd Hl) as [Heq|[b' Hst]]; subst h1.
    + left. rewrite Heq. by apply list_lookup_total_insert_ne.
    + right. exists b'. by rewrite list_lookup_total_insert_ne in Hst.
Qed.

(** ** The dispatcher: priority requests *)

Section Simulation.
Context {G : Type} `{RandomSource G}.
Import myServiceLine.

Lemma serve_first_priority_skip (pre q : list loc) (time_unit : Z) (h : store) :
  (forall x, x ∈ pre -> priority (h !!! x) = false) ->
  serve_first_priority (pre ++ q) time_unit h =
  serve_first_priority q time_unit h.
Proof.
  induction pre as [|x pre IH]; intros Hpre; simpl; [done|].
  rewrite (Hpre x) by left. apply IH. intros y Hy. apply Hpre. by right.
Qed.

Lemma priority_requests_nonempty (h : store) (q : list loc) (r : loc) :
  r ∈ q -> priority (h !!! r) = true ->
  (0 <? length (priority_requests h q))%nat = true.
Proof.
  intros Hr Hp. apply Nat.ltb_lt.
  assert (Hin : r ∈ priority_requests h q).
  { unfold priority_requests. apply list_elem_of_filter. done. }
  destruct (priority_requests h q); [inversion Hin|simpl; lia].
Qed.

Lemma serve_priority_first (self : myServiceLine.t) (time_unit : Z)
    (h h1 : store) (pre post : list loc) (r : loc) :
  queue self = pre ++ r :: post ->
  (forall x, x ∈ pre -> priority (h !!! x) = false) ->
  priority (h !!! r) = true ->
  serve_request r time_unit h = Done (true, h1) ->
  serve_priority self time_unit h = Done (true, h1).
Proof.
  intros Hq Hpre Hp Hs. unfold serve_priority.
  rewrite (priority_requests_nonempty h (queue self) r); [| |done].
  - rewrite Hq, length_app. simpl.
    replace (0 <? length pre + S (length post))%nat with true
      by (symmetry; apply Nat.ltb_lt; lia).
    rewrite serve_first_priority_skip by done. simpl. by rewrite Hp, Hs.
  - rewrite Hq. apply elem_of_app. right. left.
Qed.

(** With a priority request that is active in the queue, the scan ends on
    the first priority request whose service reports work. *)
Lemma serve_first_priority_active (q : list loc) (time_unit : Z) (h : store)
    (a : loc) :
  a ∈ q -> priority (h !!! a) = true -> status (h !!! a) = ACTIVE_REQUEST ->
  (forall x, x ∈ q -> status (h !!! x) = WAITING_REQUEST ->
             list_of_requests_it_is_waiting_for (h !!! x) <> []) ->
  exists pre r post h1,
    q = pre ++ r :: post /\
    priority (h !!! r) = true /\
    (forall x, x ∈ pre -> priority (h !!! x) = true ->
               serve_request x time_unit h = Done (false, h)) /\
    serve_request r time_unit h = Done (true, h1) /\
    serve_first_priority q time_unit h = Done (true, h1).
Proof.
  induction q as [|x q IH]; intros Ha Hp Hact Hwait; [inversion Ha|].
  destruct (serve_request x time_unit h) as [[b h1]|e] eqn:Es.
  - destruct (priority (h !!! x)) eqn:Epx; [destruct b|].
    + exists [], x, q, h1. simpl. rewrite Epx, Es. repeat split; try done.
      intros y Hy. inversion Hy.
    + pose proof (serve_request_false _ _ _ _ Es) as ->.
      assert (Hax : a ∈ q).
      { apply elem_of_cons in Ha as [->|Ha]; [|done]. exfalso.
        unfold serve_request in Es. rewrite Hact in Es.
        destruct (0 <? _); discriminate. }
      destruct (IH Hax Hp Hact) as (pre & r & post & h1 & -> & Hpr & Hpre & Hs & Hsc).
      { intros y Hy. apply Hwait. by right. }
      exists (x :: pre), r, post, h1. simpl. rewrite Epx, Es.
      repeat split; try done.
      intros y Hy Hpy. apply elem_of_cons in Hy as [->|Hy]; [done|].
      by apply Hpre.
    + assert (Hax : a ∈ q).
      { apply elem_of_cons in Ha as [->|Ha]; [congruence|done]. }
      destruct (IH Hax Hp Hact) as (pre & r & post & h2 & -> & Hpr & Hpre & Hs & Hsc).
      { intros y Hy. apply Hwait. by right. }
      exists (x :: pre), r, post, h2. simpl. rewrite Epx.
      repeat split; try done.
      intros y Hy Hpy. apply elem_of_cons in Hy as [->|Hy]; [congruence|].
      by apply Hpre.
  - destruct (serve_request_raise _ _ _ _ Es) as (_ & Hw & Hnil).
    exfalso. apply (Hwait x); [left|done|done].
Qed.

(** C1. Whatever the strategy of the line: when the first request of the
    queue with the priority flag reports work, [process_queued_requests]
    returns [True] at once, with the store that this service left and the
    line as the statistics of lines 227-237 left it (no strategy has
    run: cursor and empty-line counter are untouched).  With a priority
    request that is active in the queue, one call serves a priority
    request and returns [True] in this way. *)
Theorem priority_preemption (self : myServiceLine.t) (time_unit : Z)
    (w : World G) :
  (forall pre r post h1,
     queue self = pre ++ r :: post ->
     (forall x, x ∈ pre -> priority (heap w !!! x) = false) ->
     priority (heap w !!! r) = true ->
     serve_request r time_unit (heap w) = Done (true, h1) ->
     process_queued_requests self time_unit w =
     Done ((true, observe_queue self (heap w)), set_heap h1 w)) /\
  (forall a,
     a ∈ queue self ->
     priority (heap w !!! a) = true ->
     status (heap w !!! a) = ACTIVE_REQUEST ->
     (forall x, x ∈ queue self -> status (heap w !!! x) = WAITING_REQUEST ->
                list_of_requests_it_is_waiting_for (heap w !!! x) <> []) ->
     exists pre r post h1,
       queue self = pre ++ r :: post /\
       priority (heap w !!! r) = true /\
       (forall x, x ∈ pre -> priority (heap w !!! x) = true ->
                  serve_request x time_unit (heap w) = Done (false, heap w)) /\
       serve_request r time_unit (heap w) = Done (true, h1) /\
       process_queued_requests self time_unit w =
       Done ((true, observe_queue self (heap w)), set_heap h1 w) /\
       service_type (observe_queue self (heap w)) = service_type self /\
       concurrent_idx (observe_queue self (heap w)) = concurrent_idx self /\
       nr_of_times_empty_line (observe_queue self (heap w)) =
       nr_of_times_empty_line self).
Proof.
  split.
  - intros pre r post h1 Hq Hpre Hp Hs. unfold process_queued_requests.
    by rewrite (serve_priority_first self time_unit (heap w) h1 pre post r).
  - intros a Ha Hp Hact Hwait.
    destruct (serve_first_priority_active (queue self) time_unit (heap w) a
                Ha Hp Hact Hwait)
      as (pre & r & post & h1 & Hq & Hpr & Hpre & Hs & Hsc).
    exists pre, r, post, h1. repeat split; try done.
    + unfold process_queued_requests, serve_priority.
      rewrite (priority_requests_nonempty (heap w) (queue self) a) by done.
      replace (0 <? length (queue self))%nat with true; [by rewrite Hsc|].
      symmetry. apply Nat.ltb_lt. rewrite Hq, length_app. simpl. lia.
    + unfold observe_queue. by destruct (0 <? _)%nat.
    + unfold observe_queue. by destruct (0 <? _)%nat.
    + unfold observe_queue. by destruct (0 <? _)%nat.
Qed.

(** ** The dispatcher: LOOKFORMIN *)

(** The sentinel of line 301. *)
Lemma look_for_min_sentinel : 3 * RANDOM_MAX_TIME_TO_SERVE_A_REQUEST = 120.
Proof. reflexivity. Qed.

(** What the search of lines 302-306 returns: a request of the queue
    below the starting weight and minimal in the queue, or the starting
    candidate when no request is below the starting weight. *)
Lemma look_for_min_spec (q : list loc) (h : store) (min_weight : Z)
    (best : option loc) :
  (exists r, look_for_min q h min_weight best = Some r /\ r ∈ q /\
             time_to_live (h !!! r) < min_weight /\
             forall x, x ∈ q -> time_to_live (h !!! r) <= time_to_live (h !!! x)) \/
  (look_for_min q h min_weight best = best /\
   forall x, x ∈ q -> min_weight <= time_to_live (h !!! x)).
Proof.
  revert min_weight best. induction q as [|y q IH]; intros m best; simpl.
  - right. split; [done|]. intros x Hx. inversion Hx.
  - destruct (time_to_live (h !!! y) <? m) eqn:E.
    + apply Z.ltb_lt in E. left.
      destruct (IH (time_to_live (h !!! y)) (Some y))
        as [(r & Hr & Hin & Hlt & Hmin)|[Hr Hall]].
      * exists r. repeat split; [done|by right|lia|].
        intros x Hx. apply elem_of_cons in Hx as [->|Hx]; [lia|by apply Hmin].
      * exists y. repeat split; [done|left|done|].
        intros x Hx. apply elem_of_cons in Hx as [->|Hx]; [lia|by apply Hall].
    + apply Z.ltb_ge in E.
      destruct (IH m best) as [(r & Hr & Hin & Hlt & Hmin)|[Hr Hall]].
      * left. exists r. repeat split; [done|by right|done|].
        intros x Hx. apply elem_of_cons in Hx as [->|Hx]; [lia|by apply Hmin].
      * right. split; [done|].
        intros x Hx. apply elem_of_cons in Hx as [->|Hx]; [lia|by apply Hall].
Qed.

(** A priority scan that reports no work has changed nothing. *)
Lemma serve_first_priority_false (q : list loc) (time_unit : Z) (h h' : store) :
  serve_first_priority q time_unit h = Done (false, h') -> h' = h.
Proof.
  revert h. induction q as [|x q IH]; intros h; simpl.
  - congruence.
  - destruct (priority (h !!! x)); [|apply IH].
    destruct (serve_request x time_unit h) as [[[] h1]|e] eqn:Es;
      [discriminate| |discriminate].
    apply serve_request_false in Es as ->. apply IH.
Qed.

Lemma serve_priority_false (self : myServiceLine.t) (time_unit : Z)
    (h h' : store) :
  serve_priority self time_unit h = Done (false, h') -> h' = h.
Proof.
  unfold serve_priority. destruct (0 <? _)%nat; [|congruence].
  destruct (0 <? _)%nat; [|congruence]. apply serve_first_priority_false.
Qed.

(** C7. LOOKFORMIN with a completed request in the queue, on a call
    whose priority step serves nothing: the search selects a completed
    request, whose service returns [False]; the call returns [True], the
    empty-line counter is not incremented, and the store is the one
    before the call (no active or waiting request has moved). *)
Theorem look_for_min_selects_completed (self : myServiceLine.t)
    (time_unit : Z) (w : World G) (c : loc) (h1 : store) :
  service_type self = LOOKFORMIN ->
  serve_priority self time_unit (heap w) = Done (false, h1) ->
  c ∈ queue self ->
  status (heap w !!! c) = REQUEST_COMPLETION ->
  (forall x, x ∈ queue self ->
     status (heap w !!! x) = REQUEST_COMPLETION ->
     time_to_live (heap w !!! x) <= 0) ->
  (forall x, x ∈ queue self ->
     status (heap w !!! x) <> REQUEST_COMPLETION ->
     0 < time_to_live (heap w !!! x)) ->
  exists r,
    look_for_min (queue self) (heap w)
      (3 * RANDOM_MAX_TIME_TO_SERVE_A_REQUEST) None = Some r /\
    r ∈ queue self /\
    status (heap w !!! r) = REQUEST_COMPLETION /\
    (forall x, x ∈ queue self ->
       time_to_live (heap w !!! r) <= time_to_live (heap w !!! x)) /\
    serve_request r time_unit (heap w) = Done (false, heap w) /\
    process_queued_requests self time_unit w =
    Done ((true, observe_queue self (heap w)), w) /\
    nr_of_times_empty_line (observe_queue self (heap w)) =
    nr_of_times_empty_line self.
Proof.
  intros Hst Hprio Hc Hcst Hdone Hlive.
  pose proof (serve_priority_false _ _ _ _ Hprio) as ->.
  destruct (look_for_min_spec (queue self) (heap w)
              (3 * RANDOM_MAX_TIME_TO_SERVE_A_REQUEST) None)
    as [(r & Hr & Hin & Hlt & Hmin)|[_ Hall]].
  - assert (Hrst : status (heap w !!! r) = REQUEST_COMPLETION).
    { destruct (decide (status (heap w !!! r) = REQUEST_COMPLETION)); [done|].
      pose proof (Hlive r Hin n). pose proof (Hmin c Hc).
      pose proof (Hdone c Hc Hcst). lia. }
    assert (Hserve : serve_request r time_unit (heap w) = Done (false, heap w)).
    { unfold serve_request. by rewrite Hrst. }
    exists r. repeat split; try done.
    + unfold process_queued_requests. rewrite Hprio.
      assert (Hot : service_type (observe_queue self (heap w)) = LOOKFORMIN).
      { unfold observe_queue. by destruct (0 <? _)%nat. }
      assert (Hoq : queue (observe_queue self (heap w)) = queue self).
      { unfold observe_queue. by destruct (0 <? _)%nat. }
      unfold apply_strategy. rewrite Hot, Hoq. simpl heap. rewrite Hr.
      unfold serve_and_ignore. rewrite Hserve. by destruct w.
    + unfold observe_queue. by destruct (0 <? _)%nat.
  - pose proof (Hall c Hc). pose proof (Hdone c Hc Hcst).
    rewrite look_for_min_sentinel in *. lia.
Qed.

(** ** The dispatcher: the cursor of CONCURRENT *)

Lemma observe_queue_fields (self : myServiceLine.t) (h : store) :
  queue (observe_queue self h) = queue self /\
  service_type (observe_queue self h) = service_type self /\
  concurrent_idx (observe_queue self h) = concurrent_idx self /\
  nr_of_times_empty_line (observe_queue self h) = nr_of_times_empty_line self /\
  max_nr_of_pending_requests (observe_queue self h) =
  max_nr_of_pending_requests self /\
  arrivals (observe_queue self h) = arrivals self /\
  service_line_id (observe_queue self h) = service_line_id self.
Proof. unfold observe_queue. by destruct (0 <? _)%nat. Qed.

(** A successful scan of lines 262-271 stops at the first request [r]
    whose service reports work with an identifier above the cursor. *)
Lemma serve_rotating_some (whole q : list loc) (idx : Z) (time_unit : Z)
    (h h' : store) (c : Z) :
  serve_rotating whole q idx time_unit h = Done (Some c, h') ->
  exists pre r post h0,
    q = pre ++ r :: post /\
    serve_rotating whole pre idx time_unit h = Done (None, h0) /\
    serve_request r time_unit h0 = Done (true, h') /\
    idx < service_id (h' !!! r) /\
    c = match remaining_requests h' whole (service_id (h' !!! r)) with
        | [] => 0
        | _ :: _ => service_id (h' !!! r)
        end.
Proof.
  revert h. induction q as [|x q IH]; intros h; simpl; [discriminate|].
  destruct (serve_request x time_unit h) as [[b h1]|e] eqn:Es; [|discriminate].
  destruct (b && (idx <? service_id (h1 !!! x))) eqn:Eb.
  - apply andb_true_iff in Eb as [-> Hlt]. apply Z.ltb_lt in Hlt.
    intros Hr. exists [], x, q, h. simpl.
    destruct (remaining_requests h1 whole (service_id (h1 !!! x))) eqn:Erem;
      simpl in Hr; injection Hr as <- <-; rewrite Erem; repeat split; done.
  - intros Hr. destruct (IH _ Hr) as (pre & r & post & h0 & -> & Hpre & Hs & Hlt & Hc).
    exists (x :: pre), r, post, h0. simpl. rewrite Es, Eb. done.
Qed.

(** The strategy branch changes the cursor under CONCURRENT only. *)
Lemma apply_strategy_cursor (self self' : myServiceLine.t) (time_unit : Z)
    (w w' : World G) (b : bool) :
  apply_strategy self time_unit w = Done ((b, self'), w') ->
  concurrent_idx self' = concurrent_idx self \/
  (service_type self = CONCURRENT /\ b = true /\
   exists c, serve_rotating (queue self) (queue self) (concurrent_idx self)
               time_unit (heap w) = Done (Some c, heap w') /\
             concurrent_idx self' = c).
Proof.
  unfold apply_strategy. destruct (service_type self) eqn:Est.
  - destruct (serve_first _ _ _) as [[[] h1]|e]; intros Hr;
      [injection Hr as <- <- <-|injection Hr as <- <- <-|discriminate];
      by left.
  - destruct (serve_rotating _ _ _ _ _) as [[[c|] h1]|e] eqn:Er; intros Hr;
      [injection Hr as <- <- <-|injection Hr as <- <- <-|discriminate].
    + right. repeat split. by exists c.
    + by left.
  - destruct (look_for_max _ _ _ _); intros Hr.
    + destruct (serve_and_ignore _ _ _); [|discriminate].
      injection Hr as <- <- <-. by left.
    + injection Hr as <- <- <-. by left.
  - destruct (look_for_min _ _ _ _); intros Hr.
    + destruct (serve_and_ignore _ _ _); [|discriminate].
      injection Hr as <- <- <-. by left.
    + injection Hr as <- <- <-. by left.
  - destruct (queue self); intros Hr.
    + injection Hr as <- <- <-. by left.
    + destruct (randbelow _ _) as [i g]. destruct (_ !! i); [|discriminate].
      destruct (serve_and_ignore _ _ _); [|discriminate].
      injection Hr as <- <- <-. by left.
Qed.

(** Every call of the dispatcher leaves the cursor as it was, or has gone
    through the scan of CONCURRENT and found a request. *)
Lemma process_queued_requests_cursor (self self' : myServiceLine.t)
    (time_unit : Z) (w w' : World G) (b : bool) :
  process_queued_requests self time_unit w = Done ((b, self'), w') ->
  concurrent_idx self' = concurrent_idx self \/
  (service_type self = CONCURRENT /\ b = true /\
   serve_priority self time_unit (heap w) = Done (false, heap w) /\
   exists pre r post h0,
     queue self = pre ++ r :: post /\
     serve_rotating (queue self) pre (concurrent_idx self) time_unit
       (heap w) = Done (None, h0) /\
     serve_request r time_unit h0 = Done (true, heap w') /\
     concurrent_idx self < service_id (heap w' !!! r) /\
     concurrent_idx self' =
     match remaining_requests (heap w') (queue self)
             (service_id (heap w' !!! r)) with
     | [] => 0
     | _ :: _ => service_id (heap w' !!! r)
     end).
Proof.
  unfold process_queued_requests.
  destruct (serve_priority self time_unit (heap w)) as [[[] h1]|e] eqn:Ep;
    [|intros Hr|discriminate].
  - intros Hr. injection Hr as <- <- <-. left.
    apply observe_queue_fields.
  - pose proof (serve_priority_false _ _ _ _ Ep) as ->.
    destruct (observe_queue_fields self (heap w))
      as (Hq & Hst & Hidx & _).
    destruct (apply_strategy_cursor _ _ _ _ _ _ Hr)
      as [Hsame|(Hconc & -> & c & Hrot & Hc)].
    + left. congruence.
    + right. rewrite Hst in Hconc. rewrite Hq, Hidx in Hrot. simpl in Hrot.
      destruct (serve_rotating_some _ _ _ _ _ _ _ Hrot)
        as (pre & r & post & h0 & Hqq & Hpre & Hs & Hlt & Hcc).
      repeat split; try done.
      exists pre, r, post, h0. repeat split; try done. congruence.
Qed.

(** ** The dispatcher: its effect on the store *)

Lemma serve_request_well_formed (x : loc) (time_unit : Z) (h h1 : store)
    (b : bool) (l : loc) :
  serve_request x time_unit h = Done (b, h1) ->
  well_formed (h !!! l) -> well_formed (h1 !!! l).
Proof.
  intros Hs Hwf. destruct (serve_request_done _ _ _ _ _ Hs) as (r' & -> & Hst).
  destruct (decide (x = l)) as [->|Hne].
  - destruct (decide (l < length h)%nat).
    + rewrite list_lookup_total_insert_eq by done.
      by eapply req_step_well_formed.
    + by rewrite list_insert_ge by lia.
  - by rewrite list_lookup_total_insert_ne.
Qed.

Lemma serve_request_total (x : loc) (time_unit : Z) (h : store) :
  well_formed (h !!! x) -> exists b h1, serve_request x time_unit h = Done (b, h1).
Proof.
  intros [Hw _]. destruct (serve_request x time_unit h) as [[b h1]|e] eqn:Es.
  - by exists b, h1.
  - destruct (serve_request_raise _ _ _ _ Es) as (_ & Hst & Hnil).
    by destruct (Hw Hst).
Qed.

Lemma serve_first_priority_total (q : list loc) (time_unit : Z) (h : store) :
  (forall l, l ∈ q -> well_formed (h !!! l)) ->
  exists b h', serve_first_priority q time_unit h = Done (b, h').
Proof.
  revert h. induction q as [|x q IH]; intros h Hwf; simpl; [by eexists _, _|].
  assert (Hq : forall h1 b, serve_request x time_unit h = Done (b, h1) ->
               forall l, l ∈ q -> well_formed (h1 !!! l)).
  { intros h1 b Hs l Hl. eapply serve_request_well_formed; [exact Hs|].
    apply Hwf. by right. }
  destruct (priority (h !!! x)).
  - destruct (serve_request_total x time_unit h) as (b & h1 & Hs);
      [apply Hwf; left|].
    rewrite Hs. destruct b; [by eexists _, _|]. by eapply IH, Hq.
  - apply IH. intros l Hl. apply Hwf. by right.
Qed.

Lemma serve_first_total (q : list loc) (time_unit : Z) (h : store) :
  (forall l, l ∈ q -> well_formed (h !!! l)) ->
  exists b h', serve_first q time_unit h = Done (b, h').
Proof.
  revert h. induction q as [|x q IH]; intros h Hwf; simpl; [by eexists _, _|].
  destruct (serve_request_total x time_unit h) as (b & h1 & Hs);
    [apply Hwf; left|].
  rewrite Hs. destruct b; [by eexists _, _|]. apply IH.
  intros l Hl. eapply serve_request_well_formed; [exact Hs|].
  apply Hwf. by right.
Qed.

Lemma serve_rotating_total (whole q : list loc) (idx : Z) (time_unit : Z)
    (h : store) :
  (forall l, l ∈ q -> well_formed (h !!! l)) ->
  exists c h', serve_rotating whole q idx time_unit h = Done (c, h').
Proof.
  revert h. induction q as [|x q IH]; intros h Hwf; simpl; [by eexists _, _|].
  destruct (serve_request_total x time_unit h) as (b & h1 & Hs);
    [apply Hwf; left|].
  rewrite Hs. destruct (b && _).
  - destruct (_ =? _)%nat; by eexists _, _.
  - apply IH. intros l Hl. eapply serve_request_well_formed; [exact Hs|].
    apply Hwf. by right.
Qed.

Lemma serve_first_priority_serves (q : list loc) (time_unit : Z) (h h' : store)
    (b : bool) :
  serve_first_priority q time_unit h = Done (b, h') ->
  exists rs, rs `sublist_of` q /\ serves time_unit rs h h'.
Proof.
  revert h. induction q as [|x q IH]; intros h; simpl.
  - intros Hr. injection Hr as <- <-. exists []. split; [done|constructor].
  - destruct (priority (h !!! x)).
    + destruct (serve_request x time_unit h) as [[[] h1]|e] eqn:Es;
        [|intros Hr|discriminate].
      * intros Hr. injection Hr as <- <-. exists [x]. split.
        -- apply sublist_skip, sublist_nil_l.
        -- eapply serves_cons; [exact Es|constructor].
      * destruct (IH _ Hr) as (rs & Hsub & Hrs). exists (x :: rs). split.
        -- by apply sublist_skip.
        -- by eapply serves_cons.
    + intros Hr. destruct (IH _ Hr) as (rs & Hsub & Hrs). exists rs.
      split; [by apply sublist_cons|done].
Qed.

Lemma serve_first_serves (q : list loc) (time_unit : Z) (h h' : store)
    (b : bool) :
  serve_first q time_unit h = Done (b, h') ->
  exists rs, rs `sublist_of` q /\ serves time_unit rs h h'.
Proof.
  revert h. induction q as [|x q IH]; intros h; simpl.
  - intros Hr. injection Hr as <- <-. exists []. split; [done|constructor].
  - destruct (serve_request x time_unit h) as [[[] h1]|e] eqn:Es;
      [|intros Hr|discriminate].
    + intros Hr. injection Hr as <- <-. exists [x]. split.
      * apply sublist_skip, sublist_nil_l.
      * eapply serves_cons; [exact Es|constructor].
    + destruct (IH _ Hr) as (rs & Hsub & Hrs). exists (x :: rs). split.
      * by apply sublist_skip.
      * by eapply serves_cons.
Qed.

Lemma serve_rotating_serves (whole q : list loc) (idx : Z) (time_unit : Z)
    (h h' : store) (c : option Z) :
  serve_rotating whole q idx time_unit h = Done (c, h') ->
  exists rs, rs `sublist_of` q /\ serves time_unit rs h h'.
Proof.
  revert h. induction q as [|x q IH]; intros h; simpl.
  - intros Hr. injection Hr as <- <-. exists []. split; [done|constructor].
  - destruct (serve_request x time_unit h) as [[b h1]|e] eqn:Es;
      [|discriminate].
    destruct (b && _).
    + intros Hr. assert (h' = h1) as ->.
      { destruct (_ =? _)%nat; by injection Hr as <- <-. }
      exists [x]. split.
      * apply sublist_skip, sublist_nil_l.
      * eapply serves_cons; [exact Es|constructor].
    + intros Hr. destruct (IH _ Hr) as (rs & Hsub & Hrs). exists (x :: rs).
      split.
      * by apply sublist_skip.
      * by eapply serves_cons.
Qed.

Lemma serve_and_ignore_serves (r : loc) (time_unit : Z) (h h' : store) :
  serve_and_ignore r time_unit h = Done h' -> serves time_unit [r] h h'.
Proof.
  unfold serve_and_ignore.
  destruct (serve_request r time_unit h) as [[b h1]|e] eqn:Es; [|discriminate].
  intros Hr. injection Hr as <-. eapply serves_cons; [exact Es|constructor].
Qed.

Lemma serve_and_ignore_total (r : loc) (time_unit : Z) (h : store) :
  well_formed (h !!! r) -> exists h', serve_and_ignore r time_unit h = Done h'.
Proof.
  intros Hwf. unfold serve_and_ignore.
  destruct (serve_request_total r time_unit h Hwf) as (b & h1 & ->).
  by exists h1.
Qed.

Lemma look_for_max_elem (q : list loc) (h : store) (max_weight : Z)
    (best : option loc) (r : loc) :
  look_for_max q h max_weight best = Some r -> r ∈ q \/ best = Some r.
Proof.
  revert max_weight best. induction q as [|x q IH]; intros m best; simpl.
  - by right.
  - destruct (m <? _); intros Hr; destruct (IH _ _ Hr) as [Hin|Hb].
    + left. by right.
    + injection Hb as ->. left. left.
    + left. by right.
    + by right.
Qed.

Lemma look_for_min_elem (q : list loc) (h : store) (min_weight : Z)
    (best : option loc) (r : loc) :
  look_for_min q h min_weight best = Some r -> r ∈ q \/ best = Some r.
Proof.
  revert min_weight best. induction q as [|x q IH]; intros m best; simpl.
  - by right.
  - destruct (_ <? m); intros Hr; destruct (IH _ _ Hr) as [Hin|Hb].
    + left. by right.
    + injection Hb as ->. left. left.
    + left. by right.
    + by right.
Qed.

(** The strategy serves requests of the queue, each at most once, and
    changes nothing else in the store. *)
Lemma apply_strategy_serves (self self' : myServiceLine.t) (time_unit : Z)
    (w w' : World G) (b : bool) :
  apply_strategy self time_unit w = Done ((b, self'), w') ->
  same_queue self self' /\ same_counters w w' /\
  exists rs, rs `sublist_of` queue self /\ serves time_unit rs (heap w) (heap w').
Proof.
  unfold apply_strategy, same_queue, same_counters.
  destruct (service_type self) eqn:Est.
  - destruct (serve_first _ _ _) as [[[] h1]|e] eqn:Ef; intros Hr;
      [injection Hr as <- <- <-|injection Hr as <- <- <-|discriminate];
      (split; [done|]); (split; [done|]);
      by apply serve_first_serves in Ef.
  - destruct (serve_rotating _ _ _ _ _) as [[[c|] h1]|e] eqn:Er; intros Hr;
      [injection Hr as <- <- <-|injection Hr as <- <- <-|discriminate];
      (split; [done|]); (split; [done|]);
      by apply serve_rotating_serves in Er.
  - destruct (look_for_max _ _ _ _) as [r|] eqn:El; intros Hr.
    + destruct (serve_and_ignore _ _ _) as [h1|] eqn:Ei; [|discriminate].
      injection Hr as <- <- <-. (split; [done|]); (split; [done|]).
      exists [r]. split; [|by apply serve_and_ignore_serves].
      apply singleton_sublist_l.
      by destruct (look_for_max_elem _ _ _ _ _ El).
    + injection Hr as <- <- <-. (split; [done|]); (split; [done|]).
      exists []. split; [apply sublist_nil_l|constructor].
  - destruct (look_for_min _ _ _ _) as [r|] eqn:El; intros Hr.
    + destruct (serve_and_ignore _ _ _) as [h1|] eqn:Ei; [|discriminate].
      injection Hr as <- <- <-. (split; [done|]); (split; [done|]).
      exists [r]. split; [|by apply serve_and_ignore_serves].
      apply singleton_sublist_l.
      by destruct (look_for_min_elem _ _ _ _ _ El).
    + injection Hr as <- <- <-. (split; [done|]); (split; [done|]).
      exists []. split; [apply sublist_nil_l|constructor].
  - destruct (queue self) as [|x q] eqn:Eq; intros Hr.
    + injection Hr as <- <- <-. (split; [done|]); (split; [done|]).
      exists []. split; [apply sublist_nil_l|constructor].
    + destruct (randbelow _ _) as [i g].
      destruct (_ !! i) as [r|] eqn:Ei; [|discriminate].
      destruct (serve_and_ignore _ _ _) as [h1|] eqn:Es; [|discriminate].
      injection Hr as <- <- <-. (split; [by rewrite Eq|]); (split; [done|]).
      exists [r]. split; [|by apply serve_and_ignore_serves].
      apply singleton_sublist_l. by eapply list_elem_of_lookup_2.
Qed.

(** So does the whole call. *)
Lemma process_queued_requests_serves (self self' : myServiceLine.t)
    (time_unit : Z) (w w' : World G) (b : bool) :
  process_queued_requests self time_unit w = Done ((b, self'), w') ->
  same_queue self self' /\ same_counters w w' /\
  exists rs, rs `sublist_of` queue self /\ serves time_unit rs (heap w) (heap w').
Proof.
  unfold process_queued_requests.
  destruct (observe_queue_fields self (heap w))
    as (Hq & Hst & Hidx & Hne & Hmax & Harr & Hid).
  destruct (serve_priority self time_unit (heap w)) as [[[] h1]|e] eqn:Ep;
    [|intros Hr|discriminate].
  - intros Hr. injection Hr as <- <- <-. split; [done|]. split; [done|].
    unfold serve_priority in Ep. destruct (0 <? _)%nat; [|discriminate].
    destruct (0 <? _)%nat; [|discriminate].
    by apply serve_first_priority_serves in Ep.
  - pose proof (serve_priority_false _ _ _ _ Ep) as ->.
    destruct (apply_strategy_serves _ _ _ _ _ _ Hr)
      as ((Hq' & Harr' & Hmax' & Hst' & Hid') & Hc & rs & Hsub & Hrs).
    split; [unfold same_queue; repeat split; congruence|].
    split; [done|]. exists rs. split; [by rewrite <- Hq|done].
Qed.

(** With well-formed requests in its queue, the call raises nothing. *)
Lemma process_queued_requests_total (self : myServiceLine.t)
    (time_unit : Z) (w : World G) :
  (forall l, l ∈ queue self -> well_formed (heap w !!! l)) ->
  exists b self' w', process_queued_requests self time_unit w =
                     Done ((b, self'), w').
Proof.
  intros Hwf. unfold process_queued_requests.
  destruct (observe_queue_fields self (heap w)) as (Hq & Hst & _).
  assert (Hp : exists b h1, serve_priority self time_unit (heap w) = Done (b, h1)).
  { unfold serve_priority. destruct (0 <? _)%nat; [|by eexists _, _].
    destruct (0 <? _)%nat; [|by eexists _, _].
    by apply serve_first_priority_total. }
  destruct Hp as (b & h1 & Hp). rewrite Hp. destruct b; [by eexists _, _, _|].
  pose proof (serve_priority_false _ _ _ _ Hp) as ->.
  unfold apply_strategy. rewrite Hst, Hq. simpl heap.
  destruct (service_type self).
  - destruct (serve_first_total (queue self) time_unit (heap w) Hwf)
      as (b & h' & ->). destruct b; by eexists _, _, _.
  - destruct (serve_rotating_total (queue self) (queue self)
                (concurrent_idx (observe_queue self (heap w))) time_unit
                (heap w) Hwf) as (c & h' & ->).
    destruct c; by eexists _, _, _.
  - destruct (look_for_max _ _ _ _) as [r|] eqn:El; [|by eexists _, _, _].
    destruct (serve_and_ignore_total r time_unit (heap w)) as (h' & ->).
    + apply Hwf. by destruct (look_for_max_elem _ _ _ _ _ El).
    + by eexists _, _, _.
  - destruct (look_for_min _ _ _ _) as [r|] eqn:El; [|by eexists _, _, _].
    destruct (serve_and_ignore_total r time_unit (heap w)) as (h' & ->).
    + apply Hwf. by destruct (look_for_min_elem _ _ _ _ _ El).
    + by eexists _, _, _.
  - destruct (queue self) as [|x q] eqn:Eq; [by eexists _, _, _|].
    pose proof (randbelow_lt (length (x :: q)) (rng w)) as Hlt.
    destruct (randbelow _ _) as [i g]. simpl in Hlt.
    destruct (lookup_lt_is_Some_2 (x :: q) i) as [r Hr]; [simpl; lia|].
    rewrite Hr.
    destruct (serve_and_ignore_total r time_unit (heap w)) as (h' & ->).
    + apply Hwf. by eapply list_elem_of_lookup_2.
    + by eexists _, _, _.
Qed.

(** ** Computations *)

Lemma bind_done {A B} (m : M G A) (f : A -> M G B) (w : World G)
    (r : B * World G) :
  (m ≫= f) w = Done r -> exists a w1, m w = Done (a, w1) /\ f a w1 = Done r.
Proof.
  unfold mbind, M_bind. destruct (m w) as [[a w1]|e]; [|discriminate].
  intros Hr. by exists a, w1.
Qed.

Lemma bind_eq {A B} (m : M G A) (f : A -> M G B) (w w1 : World G) (a : A) :
  m w = Done (a, w1) -> (m ≫= f) w = f a w1.
Proof. unfold mbind, M_bind. by intros ->. Qed.

Lemma ret_done {A} (a a' : A) (w w' : World G) :
  (mret a : M G A) w = Done (a', w') -> a' = a /\ w' = w.
Proof. unfold mret, M_ret. intros Hr. by injection Hr as <- <-. Qed.

Lemma range_ticks (n : Z) : ticks_after (-1) (range n).
Proof.
  unfold range. change (-1) with (Z.of_nat 0 - 1).
  generalize (Z.to_nat n) as m. generalize 0%nat as a.
  intros a m. revert a. induction m as [|m IH]; intros a; simpl; [done|].
  split; [lia|]. replace (Z.of_nat a) with (Z.of_nat (S a) - 1) by lia.
  apply IH.
Qed.

(** ** The insertion of a request *)

(** What [insert_new_incoming_request] does: a new object at the end of
    the store, its reference at the end of the queue and of the LOG. *)
Lemma insert_new_incoming_request_done (self : myServiceLine.t)
    (time_unit ttl : Z) (prio : bool) (waiting_for : list loc) (w : World G) :
  exists self',
    insert_new_incoming_request self time_unit ttl prio waiting_for w =
    Done ((length (heap w), self'),
          mkWorld (heap w ++ [myServiceRequest.init (ID_REQUESTS w) time_unit
                                ttl prio waiting_for])
                  (ID_REQUESTS w + 1) (ID_SERVICE_LINE w) (ID_HIERARCHY w)
                  (rng w)) /\
    queue self' = queue self ++ [length (heap w)] /\
    arrivals self' =
    arrivals self ++ [(time_unit, ttl, prio,
                       match waiting_for with [] => false | _ :: _ => true end)] /\
    service_type self' = service_type self /\
    concurrent_idx self' = concurrent_idx self /\
    nr_of_times_empty_line self' = nr_of_times_empty_line self /\
    accumulate_nr_of_active_requests self' =
    accumulate_nr_of_active_requests self /\
    percentage_of_active_requests self' = percentage_of_active_requests self /\
    service_line_id self' = service_line_id self.
Proof.
  unfold insert_new_incoming_request, new_request, get_heap.
  unfold mbind, M_bind, mret, M_ret. simpl.
  eexists. split; [reflexivity|]. by destruct (_ <? _).
Qed.

Lemma init_well_formed (id time_unit ttl : Z) (prio : bool)
    (waiting_for : list loc) :
  well_formed (myServiceRequest.init id time_unit ttl prio waiting_for).
Proof.
  unfold well_formed, myServiceRequest.init. simpl.
  destruct waiting_for; split; intros; congruence.
Qed.

Lemma init_timed (id time_unit ttl : Z) (prio : bool)
    (waiting_for : list loc) :
  timed time_unit (myServiceRequest.init id time_unit ttl prio waiting_for).
Proof.
  unfold timed, myServiceRequest.init. simpl. split; [lia|].
  destruct waiting_for; intros; congruence.
Qed.

(** ** Consistency of the owned requests *)

Lemma consistent_mono (k k' : Z) (owned : list loc) (h : store) :
  k <= k' -> consistent k owned h -> consistent k' owned h.
Proof.
  intros Hk [Hnd Hall]. split; [done|]. intros r Hr.
  destruct (Hall r Hr) as (Hlt & Hwf & Ht).
  split; [done|]. split; [done|]. by eapply timed_mono.
Qed.

Lemma consistent_perm (k : Z) (owned owned' : list loc) (h : store) :
  owned ≡ₚ owned' -> consistent k owned h -> consistent k owned' h.
Proof.
  intros Hp [Hnd Hall]. split; [by rewrite <- Hp|].
  intros r Hr. apply Hall. by rewrite Hp.
Qed.

Lemma consistent_sublist (k : Z) (owned owned' : list loc) (h : store) :
  owned' `sublist_of` owned -> consistent k owned h -> consistent k owned' h.
Proof.
  intros Hs [Hnd Hall]. split; [by eapply sublist_NoDup|].
  intros r Hr. apply Hall. by eapply elem_of_sublist.
Qed.

(** One time unit of service, each request served at most once, keeps
    the owned requests consistent. *)
Lemma consistent_serves (time_unit : Z) (owned rs : list loc) (h h' : store) :
  consistent (time_unit - 1) owned h ->
  serves time_unit rs h h' -> NoDup rs ->
  consistent time_unit owned h'.
Proof.
  intros [Hnd Hall] Hs Hrs. split; [done|]. intros r Hr.
  destruct (Hall r Hr) as (Hlt & Hwf & Ht).
  rewrite (serves_length _ _ _ _ Hs). split; [done|].
  destruct (decide (r ∈ rs)) as [Hin|Hout].
  - destruct (serves_step _ _ _ _ r Hs Hrs Hin) as [->|[b Hst]].
    + split; [done|]. eapply timed_mono; [|exact Ht]. lia.
    + split; [by eapply req_step_well_formed|by eapply req_step_timed].
  - rewrite (serves_frame _ _ _ _ r Hs Hout). split; [done|].
    eapply timed_mono; [|exact Ht]. lia.
Qed.

(** New objects, consistent at their creation, join the owned ones. *)
Lemma consistent_alloc (k time_unit : Z) (owned : list loc) (h news : store) :
  consistent k owned h -> k <= time_unit ->
  Forall (fun r => well_formed r /\ timed time_unit r) news ->
  consistent time_unit (owned ++ seq (length h) (length news)) (h ++ news).
Proof.
  intros [Hnd Hall] Hk Hnews. split.
  - apply NoDup_app. split; [done|]. split; [|apply NoDup_seq].
    intros r Hr Hs. apply elem_of_seq in Hs. destruct (Hall r Hr). lia.
  - intros r Hr. rewrite length_app. apply elem_of_app in Hr as [Hr|Hr].
    + destruct (Hall r Hr) as (Hlt & Hwf & Ht).
      rewrite lookup_total_app_l by done.
      split; [lia|]. split; [done|]. by eapply timed_mono.
    + apply elem_of_seq in Hr. split; [lia|].
      rewrite lookup_total_app_r by lia.
      rewrite Forall_forall in Hnews. apply Hnews.
      apply list_elem_of_lookup_total_2. lia.
Qed.

(** ** One time unit of a line *)

Lemma draw_done {A} (f : G -> A * G) (w : World G) :
  draw f w = Done (fst (f (rng w)), set_rng (snd (f (rng w))) w).
Proof. reflexivity. Qed.

Lemma draw_time_to_serve_done (w : World G) :
  exists ttl g, draw_time_to_serve w = Done (ttl, set_rng g w) /\
                1 <= ttl <= RANDOM_MAX_TIME_TO_SERVE_A_REQUEST.
Proof.
  unfold draw_time_to_serve. simpl. eexists _, _. split; [reflexivity|].
  by apply randint_range.
Qed.

Lemma draw_priority_done (w : World G) :
  exists p g, draw_priority w = Done (p, set_rng g w).
Proof.
  unfold draw_priority. simpl. unfold mbind, M_bind. rewrite draw_done.
  by eexists _, _.
Qed.

(** A request is inserted: the queue stays consistent. *)
Lemma insert_consistent (k : Z) (self : myServiceLine.t) (time_unit ttl : Z)
    (prio : bool) (waiting_for : list loc) (w : World G) :
  consistent k (queue self) (heap w) -> k <= time_unit ->
  exists r self' w',
    insert_new_incoming_request self time_unit ttl prio waiting_for w =
    Done ((r, self'), w') /\
    consistent time_unit (queue self') (heap w') /\
    service_type self' = service_type self.
Proof.
  intros Hc Hk.
  destruct (insert_new_incoming_request_done self time_unit ttl prio
              waiting_for w) as (self' & Hi & Hq & _ & Hst & _).
  eexists _, _, _. split; [exact Hi|]. split; [|done]. rewrite Hq. simpl.
  apply (consistent_alloc k time_unit (queue self) (heap w) [_] Hc Hk).
  constructor; [|constructor].
  split; [apply init_well_formed|apply init_timed].
Qed.

(** The queue is served: it stays consistent. *)
Lemma process_consistent (k : Z) (self : myServiceLine.t) (time_unit : Z)
    (w : World G) :
  consistent k (queue self) (heap w) -> k < time_unit ->
  exists b self' w',
    process_queued_requests self time_unit w = Done ((b, self'), w') /\
    consistent time_unit (queue self') (heap w') /\
    service_type self' = service_type self.
Proof.
  intros Hc Hk.
  destruct (process_queued_requests_total self time_unit w)
    as (b & self' & w' & Hp).
  { intros l Hl. by destruct (proj2 Hc l Hl) as (_ & Hwf & _). }
  exists b, self', w'. split; [done|].
  destruct (process_queued_requests_serves _ _ _ _ _ _ Hp)
    as ((Hq & _ & _ & Hst & _) & _ & rs & Hsub & Hrs).
  split; [|done]. rewrite Hq.
  eapply (consistent_serves time_unit (queue self) rs); [|exact Hrs|].
  - eapply consistent_mono; [|exact Hc]. lia.
  - eapply sublist_NoDup; [|exact Hsub]. apply Hc.
Qed.

Lemma line_time_unit_consistent (k : Z) (arrivals : list arrival)
    (self : myServiceLine.t) (time_unit : Z) (w : World G) :
  consistent k (queue self) (heap w) -> k < time_unit ->
  exists self' w',
    myServiceLine.run_time_unit arrivals self time_unit w = Done (self', w') /\
    consistent time_unit (queue self') (heap w') /\
    service_type self' = service_type self.
Proof.
  intros Hc Hk. unfold myServiceLine.run_time_unit.
  destruct arrivals as [|a arrivals].
  - rewrite (bind_eq _ _ _ _ _ (draw_done _ _)).
    destruct (Qltb _ _).
    + destruct (draw_time_to_serve_done (set_rng (snd (random (rng w))) w))
        as (ttl & g1 & Ht & _).
      rewrite (bind_eq _ _ _ _ _ Ht).
      destruct (draw_priority_done (set_rng g1 (set_rng (snd (random (rng w))) w)))
        as (p & g2 & Hp).
      rewrite (bind_eq _ _ _ _ _ Hp).
      destruct (insert_consistent k self time_unit ttl p []
                  (set_rng g2 (set_rng g1 (set_rng (snd (random (rng w))) w))))
        as (r & self' & w' & Hi & Hc' & Hst); [done|lia|].
      rewrite (bind_eq _ _ _ _ _ Hi). by exists self', w'.
    + destruct (process_consistent k self time_unit
                  (set_rng (snd (random (rng w))) w))
        as (b & self' & w' & Hp & Hc' & Hst); [done|done|].
      rewrite (bind_eq _ _ _ _ _ Hp). by exists self', w'.
  - destruct (search_result_list _ _) as [|[[[x ttl] p] d] l].
    + destruct (process_consistent k self time_unit w)
        as (b & self' & w' & Hp & Hc' & Hst); [done|done|].
      rewrite (bind_eq _ _ _ _ _ Hp). by exists self', w'.
    + destruct (insert_consistent k self time_unit ttl p [] w)
        as (r & self' & w' & Hi & Hc' & Hst); [done|lia|].
      rewrite (bind_eq _ _ _ _ _ Hi). by exists self', w'.
Qed.

Lemma line_run_loop_consistent (k : Z) (arrivals : list arrival)
    (self : myServiceLine.t) (time_units : list Z) (w : World G) :
  consistent k (queue self) (heap w) -> ticks_after k time_units ->
  exists k' self' w',
    myServiceLine.run_loop arrivals self time_units w = Done (self', w') /\
    consistent k' (queue self') (heap w') /\
    service_type self' = service_type self.
Proof.
  revert k self w. induction time_units as [|t ts IH]; intros k self w Hc Ht.
  - exists k, self, w. by simpl.
  - destruct Ht as [Hk Hts].
    destruct (line_time_unit_consistent k arrivals self t w Hc Hk)
      as (self1 & w1 & Hr & Hc1 & Hst1).
    destruct (IH t self1 w1 Hc1 Hts) as (k' & self' & w' & Hl & Hc' & Hst').
    exists k', self', w'. simpl. rewrite (bind_eq _ _ _ _ _ Hr).
    split; [done|]. split; [done|]. congruence.
Qed.

(** ** The performance parameters *)

Lemma extra_durations_done (k : Z) (h : store) (q owned : list loc) :
  consistent k owned h -> (forall r, r ∈ q -> r ∈ owned) ->
  exists d, extra_durations h q = Done d /\ Forall (fun x => 0 <= x) d /\
            (d = [] <-> forall r, r ∈ q -> status (h !!! r) <> REQUEST_COMPLETION).
Proof.
  intros Hc. induction q as [|x q IH]; intros Hq; simpl.
  - exists []. split; [done|]. split; [constructor|]. split; [|done].
    intros _ r Hr. inversion Hr.
  - destruct IH as (d & Hd & Hpos & Hnil).
    { intros r Hr. apply Hq. by right. }
    destruct (decide (status (h !!! x) = REQUEST_COMPLETION)) as [Hx|Hx].
    + destruct (proj2 Hc x) as (_ & _ & _ & Hdone); [apply Hq; left|].
      destruct (Hdone Hx) as (c & -> & Hge). rewrite Hd.
      eexists. split; [reflexivity|]. split; [by constructor|].
      split; [discriminate|]. intros Hall. exfalso. by apply (Hall x); [left|].
    + exists d. split; [done|]. split; [done|]. rewrite Hnil. split.
      * intros Hall r Hr. apply elem_of_cons in Hr as [->|Hr]; [done|].
        by apply Hall.
      * intros Hall r Hr. apply Hall. by right.
Qed.

Lemma sum_list_nonneg (d : list Z) :
  Forall (fun x => 0 <= x) d -> 0 <= sum_list d.
Proof. induction 1; simpl; lia. Qed.

Lemma np_mean_nonneg (d : list Z) :
  Forall (fun x => 0 <= x) d -> (0 <= np_mean d)%Q.
Proof.
  intros Hd. unfold np_mean, true_div, Qle. simpl.
  pose proof (sum_list_nonneg d Hd). lia.
Qed.

(** Lines 385-400: [quit()] when no request of the queue is completed,
    five numbers otherwise, the first of them not negative. *)
Lemma performance_spec (k : Z) (self : myServiceLine.t) (owned : list loc)
    (w : World G) :
  consistent k owned (heap w) -> (forall r, r ∈ queue self -> r ∈ owned) ->
  ((forall r, r ∈ queue self -> status (heap w !!! r) <> REQUEST_COMPLETION) ->
   performance self w = Raise SystemExit) /\
  ((exists r, r ∈ queue self /\ status (heap w !!! r) = REQUEST_COMPLETION) ->
   exists v, performance self w = Done (v, w) /\ length v = 5%nat /\
             (0 <= nth 0 v 0)%Q /\
             nth 4 v 0%Q = inject_Z (max_nr_of_pending_requests self)).
Proof.
  intros Hc Hq.
  destruct (extra_durations_done k (heap w) (queue self) owned Hc Hq)
    as (d & Hd & Hpos & Hnil).
  unfold performance. rewrite Hd. split.
  - intros Hall. apply Hnil in Hall. by subst d.
  - intros (r & Hr & Hst). destruct d as [|x d'].
    + exfalso. by apply (proj1 Hnil eq_refl r).
    + eexists. split; [reflexivity|]. split; [done|]. split; [|done].
      simpl nth. by apply np_mean_nonneg.
Qed.

(** The list that line 387 builds holds the extra durations of the completed
    requests of the queue, in the order of the queue. *)
Lemma extra_durations_completed (h : store) (q : list loc) (d : list Z) :
  extra_durations h q = Done d ->
  Forall2 (extra_duration_of h) (completed_requests h q) d.
Proof.
  unfold completed_requests. revert d.
  induction q as [|r q IH]; intros d; simpl.
  - intros [= <-]. constructor.
  - rewrite filter_cons.
    destruct (decide (status (h !!! r) = REQUEST_COMPLETION)) as [Hst|Hst];
      [|apply IH].
    destruct (time_of_completion (h !!! r)) as [c|] eqn:Hc; [|discriminate].
    destruct (extra_durations h q) as [d'|e]; [|discriminate].
    intros [= <-]. constructor; [|by apply IH]. by exists c.
Qed.

(** Lines 385-400: what [performance] returns when it returns. *)
Lemma performance_done (self : myServiceLine.t) (v : list Q) (w w' : World G) :
  performance self w = Done (v, w') ->
  w' = w /\
  exists d,
    Forall2 (extra_duration_of (heap w))
      (completed_requests (heap w) (queue self)) d /\
    v = [np_mean d;
         true_div (accumulate_nr_of_active_requests self)
           TOTAL_NR_OF_TIME_UNITS;
         inject_Z (nr_of_times_empty_line self);
         percentage_of_active_requests self;
         inject_Z (max_nr_of_pending_requests self)].
Proof.
  unfold performance.
  destruct (extra_durations (heap w) (queue self)) as [[|x d]|e] eqn:Hd;
    [discriminate| |discriminate].
  intros [= <- <-]. split; [done|]. exists (x :: d).
  split; [by apply extra_durations_completed|done].
Qed.


(** ** The hierarchy *)

Lemma serves_well_formed (time_unit : Z) (rs : list loc) (h h' : store)
    (l : loc) :
  serves time_unit rs h h' -> well_formed (h !!! l) -> well_formed (h' !!! l).
Proof.
  induction 1 as [|r b rs h h1 h2 Hs Hrest IH]; [done|].
  intros Hwf. apply IH. by eapply serve_request_well_formed.
Qed.

Lemma queues_insert (cs : list myServiceLine.t) (i : nat)
    (c c' : myServiceLine.t) (new : list loc) :
  cs !! i = Some c -> queue c' = queue c ++ new ->
  queues (<[i := c']> cs) ≡ₚ queues cs ++ new.
Proof.
  intros Hi Hq. unfold queues.
  rewrite <- (take_drop_middle cs i c Hi) at 2.
  rewrite insert_take_drop by by eapply lookup_lt_Some.
  rewrite !fmap_app, !fmap_cons, !concat_app, !concat_cons, Hq.
  rewrite <- !app_assoc. f_equiv. f_equiv. apply Permutation_app_comm.
Qed.

Lemma queues_insert_same (cs : list myServiceLine.t) (i : nat)
    (c c' : myServiceLine.t) :
  cs !! i = Some c -> queue c' = queue c ->
  queues (<[i := c']> cs) = queues cs.
Proof.
  intros Hi Hq. unfold queues.
  rewrite <- (take_drop_middle cs i c Hi) at 2.
  rewrite insert_take_drop by by eapply lookup_lt_Some.
  by rewrite !fmap_app, !fmap_cons, Hq.
Qed.

Lemma queues_sublist (cs : list myServiceLine.t) (i : nat)
    (c : myServiceLine.t) :
  cs !! i = Some c ->
  queues cs = queues (take i cs) ++ queue c ++ queues (drop (S i) cs).
Proof.
  intros Hi. unfold queues.
  rewrite <- (take_drop_middle cs i c Hi) at 1.
  by rewrite fmap_app, fmap_cons, concat_app, concat_cons.
Qed.

Lemma queues_elem_of (cs : list myServiceLine.t) (i : nat)
    (c : myServiceLine.t) (l : loc) :
  cs !! i = Some c -> l ∈ queue c -> l ∈ queues cs.
Proof.
  intros Hi Hl. rewrite (queues_sublist cs i c Hi).
  apply elem_of_app. right. apply elem_of_app. by left.
Qed.

Lemma queues_fmap (cs cs' : list myServiceLine.t) :
  queue <$> cs' = queue <$> cs -> queues cs' = queues cs.
Proof. unfold queues. by intros ->. Qed.

(** Lines 509-510: every collaborator serves its own queue. *)
Lemma process_collaborators_spec (m a : nat) (cs : list myServiceLine.t)
    (time_unit : Z) (w : World G) :
  (a + m <= length cs)%nat ->
  (forall l, l ∈ queues cs -> well_formed (heap w !!! l)) ->
  exists cs' w',
    myServiceLineHierarchy.process_collaborators (Z.of_nat <$> seq a m) cs
      time_unit w = Done (cs', w') /\
    queue <$> cs' = queue <$> cs /\ same_counters w w' /\
    exists rs, rs `sublist_of` queues (drop a cs) /\
               serves time_unit rs (heap w) (heap w').
Proof.
  revert a cs w. induction m as [|m IH]; intros a cs w Hlen Hwf; simpl.
  - exists cs, w. split; [done|]. split; [done|]. split; [done|].
    exists []. split; [apply sublist_nil_l|constructor].
  - rewrite Nat2Z.id.
    destruct (lookup_lt_is_Some_2 cs a) as [c Hc]; [lia|]. rewrite Hc.
    destruct (process_queued_requests_total c time_unit w)
      as (b & c' & w1 & Hp).
    { intros l Hl. apply Hwf. by eapply queues_elem_of. }
    rewrite (bind_eq _ _ _ _ _ Hp). simpl.
    destruct (process_queued_requests_serves _ _ _ _ _ _ Hp)
      as ((Hq & _) & Hcnt & rs1 & Hsub1 & Hrs1).
    assert (Hqs : queue <$> <[a := c']> cs = queue <$> cs).
    { rewrite list_fmap_insert, Hq. apply list_insert_id.
      by rewrite list_lookup_fmap, Hc. }
    destruct (IH (S a) (<[a := c']> cs) w1) as (cs' & w' & Hl & Hqs' & Hcnt' & rs2 & Hsub2 & Hrs2).
    { rewrite length_insert. lia. }
    { intros l Hl. rewrite (queues_fmap _ _ Hqs) in Hl.
      eapply serves_well_formed; [exact Hrs1|]. by apply Hwf. }
    exists cs', w'. split; [done|]. split; [congruence|]. split.
    { destruct Hcnt as (? & ? & ?), Hcnt' as (? & ? & ?).
      unfold same_counters. repeat split; congruence. }
    exists (rs1 ++ rs2). split; [|by eapply serves_app].
    rewrite (drop_S cs c a Hc). unfold queues at 1. rewrite fmap_cons.
    simpl. apply sublist_app; [done|].
    rewrite drop_insert_lt in Hsub2 by lia. done.
Qed.

(** Lines 508-510: the chief, then every collaborator; each request of
    the hierarchy is served at most once. *)
Lemma process_all_spec (self : myServiceLineHierarchy.t) (time_unit : Z)
    (w : World G) :
  staffed self ->
  (forall l, l ∈ owned self -> well_formed (heap w !!! l)) ->
  exists self' w',
    myServiceLineHierarchy.process_all self time_unit w = Done (self', w') /\
    owned self' = owned self /\ staffed self' /\
    queue (myServiceLineHierarchy.chief self') =
    queue (myServiceLineHierarchy.chief self) /\
    same_counters w w' /\
    exists rs, rs `sublist_of` owned self /\
               serves time_unit rs (heap w) (heap w').
Proof.
  intros [Hn Hlen] Hwf. unfold myServiceLineHierarchy.process_all.
  destruct (process_queued_requests_total
              (myServiceLineHierarchy.chief self) time_unit w)
    as (b & c' & w1 & Hp).
  { intros l Hl. apply Hwf. unfold owned. apply elem_of_app. by left. }
  rewrite (bind_eq _ _ _ _ _ Hp). simpl.
  destruct (process_queued_requests_serves _ _ _ _ _ _ Hp)
    as ((Hq & _) & Hcnt & rs1 & Hsub1 & Hrs1).
  destruct (process_collaborators_spec
              (Z.to_nat (myServiceLineHierarchy.nr_of_collaborators self)) 0
              (myServiceLineHierarchy.list_of_collaborators self)
              time_unit w1)
    as (cs' & w' & Hl & Hqs & Hcnt' & rs2 & Hsub2 & Hrs2).
  { lia. }
  { intros l Hl. eapply serves_well_formed; [exact Hrs1|].
    apply Hwf. unfold owned. apply elem_of_app. by right. }
  unfold range. rewrite (bind_eq _ _ _ _ _ Hl). simpl.
  eexists _, _. split; [reflexivity|]. simpl.
  split; [unfold owned; simpl; by rewrite Hq, (queues_fmap _ _ Hqs)|].
  split.
  { split; simpl; [done|].
    rewrite <- Hlen, <- (length_fmap queue cs'), Hqs. apply length_fmap. }
  split; [done|]. split.
  { destruct Hcnt as (? & ? & ?), Hcnt' as (? & ? & ?).
    unfold same_counters. repeat split; congruence. }
  exists (rs1 ++ rs2). split; [|by eapply serves_app].
  unfold owned. by apply sublist_app.
Qed.

Lemma new_sub_requests_S (id : Z) (n : nat) (time_unit ttl : Z) (prio : bool) :
  new_sub_requests id (S n) time_unit ttl prio =
  myServiceRequest.init id time_unit ttl prio [] ::
  new_sub_requests (id + 1) n time_unit ttl prio.
Proof.
  unfold new_sub_requests. simpl. rewrite Z.add_0_r. f_equal.
  rewrite <- fmap_S_seq, <- list_fmap_compose. apply list_fmap_ext.
  intros i j _. simpl. f_equal. lia.
Qed.

Lemma new_sub_requests_length (id : Z) (n : nat) (time_unit ttl : Z)
    (prio : bool) :
  length (new_sub_requests id n time_unit ttl prio) = n.
Proof. unfold new_sub_requests. by rewrite length_fmap, length_seq. Qed.

(** Lines 499-500: one new sub-request at the end of the queue of every
    collaborator, and their references, in order, in [sub_requests]. *)
Lemma insert_sub_requests_spec (m a : nat) (cs : list myServiceLine.t)
    (time_unit ttl : Z) (prio : bool) (subs : list loc) (w : World G) :
  (a + m <= length cs)%nat ->
  exists cs' w',
    myServiceLineHierarchy.insert_sub_requests (Z.of_nat <$> seq a m) cs
      time_unit ttl prio subs w =
    Done ((cs', subs ++ seq (length (heap w)) m), w') /\
    heap w' = heap w ++ new_sub_requests (ID_REQUESTS w) m time_unit ttl prio /\
    ID_REQUESTS w' = ID_REQUESTS w + Z.of_nat m /\
    ID_SERVICE_LINE w' = ID_SERVICE_LINE w /\
    ID_HIERARCHY w' = ID_HIERARCHY w /\
    rng w' = rng w /\
    length cs' = length cs /\
    (forall i c, cs !! i = Some c ->
       exists c', cs' !! i = Some c' /\
         queue c' = queue c ++
           (if decide (a <= i < a + m)%nat
            then [(length (heap w) + (i - a))%nat] else [])) /\
    queues cs' ≡ₚ queues cs ++ seq (length (heap w)) m.
Proof.
  revert a cs subs w. induction m as [|m IH]; intros a cs subs w Hlen; simpl.
  - exists cs, w. rewrite !app_nil_r, Z.add_0_r. repeat split; try done.
    intros i c Hi. exists c. split; [done|].
    destruct (decide _); [lia|by rewrite app_nil_r].
  - rewrite Nat2Z.id.
    destruct (lookup_lt_is_Some_2 cs a) as [c Hc]; [lia|]. rewrite Hc.
    destruct (insert_new_incoming_request_done c time_unit ttl prio [] w)
      as (c' & Hi & Hq & _).
    rewrite (bind_eq _ _ _ _ _ Hi). simpl fst. simpl snd.
    match type of Hi with _ = Done (_, ?w0) => set (w1 := w0) in * end.
    destruct (IH (S a) (<[a := c']> cs) (subs ++ [length (heap w)]) w1)
      as (cs' & w' & Hl & Hh & Hid & Hsl & Hhi & Hrng & Hlen' & Hpt & Hperm).
    { rewrite length_insert. lia. }
    subst w1.
    simpl in Hh, Hid, Hsl, Hhi, Hrng, Hl, Hpt, Hperm.
    rewrite length_app in Hl, Hpt, Hperm. simpl in Hl, Hpt, Hperm.
    rewrite Nat.add_1_r in Hl, Hpt, Hperm.
    exists cs', w'. rewrite <- app_assoc in Hl. simpl in Hl.
    split; [exact Hl|]. split.
    { rewrite Hh, new_sub_requests_S, <- app_assoc. done. }
    split; [lia|]. split; [done|]. split; [done|]. split; [done|].
    split; [by rewrite Hlen', length_insert|]. split.
    + intros i c0 Hi0. destruct (decide (i = a)) as [->|Hne].
      * rewrite Hc in Hi0. injection Hi0 as <-.
        destruct (Hpt a c') as (c'' & Hc'' & Hq'').
        { apply list_lookup_insert_eq. by eapply lookup_lt_Some. }
        exists c''. split; [done|]. rewrite Hq'', Hq.
        repeat case_decide; try lia.
        rewrite app_nil_r. do 2 f_equal. lia.
      * destruct (Hpt i c0) as (c'' & Hc'' & Hq'').
        { by rewrite list_lookup_insert_ne. }
        exists c''. split; [done|]. rewrite Hq''. f_equal.
        repeat case_decide; try lia; [|done].
        f_equal. lia.
    + rewrite Hperm, (queues_insert cs a c c' [length (heap w)] Hc Hq).
      by rewrite <- app_assoc.
Qed.

(** Lines 493-501 and 526-529: the request is subdivided. *)
Lemma insert_delegated_spec (self : myServiceLineHierarchy.t)
    (time_unit ttl : Z) (prio : bool) (w : World G) :
  staffed self ->
  let n := Z.to_nat (myServiceLineHierarchy.nr_of_collaborators self) in
  let base := length (heap w) in
  exists self' w',
    myServiceLineHierarchy.insert_delegated self time_unit ttl prio w =
    Done (self', w') /\
    heap w' =
    heap w ++ new_sub_requests (ID_REQUESTS w) n time_unit ttl prio ++
    [myServiceRequest.init (ID_REQUESTS w + Z.of_nat n) time_unit ttl prio
       (seq base n)] /\
    ID_REQUESTS w' = ID_REQUESTS w + Z.of_nat n + 1 /\
    rng w' = rng w /\
    staffed self' /\
    myServiceLineHierarchy.nr_of_collaborators self' =
    myServiceLineHierarchy.nr_of_collaborators self /\
    queue (myServiceLineHierarchy.chief self') =
    queue (myServiceLineHierarchy.chief self) ++ [(base + n)%nat] /\
    (forall i c,
       myServiceLineHierarchy.list_of_collaborators self !! i = Some c ->
       exists c',
         myServiceLineHierarchy.list_of_collaborators self' !! i = Some c' /\
         queue c' = queue c ++ [(base + i)%nat]) /\
    owned self' ≡ₚ owned self ++ seq base (S n).
Proof.
  intros [Hn Hlen] n base. unfold myServiceLineHierarchy.insert_delegated.
  destruct (insert_sub_requests_spec n 0
              (myServiceLineHierarchy.list_of_collaborators self)
              time_unit ttl prio [] w)
    as (cs' & w1 & Hl & Hh & Hid & Hsl & Hhi & Hrng & Hlen' & Hpt & Hperm).
  { subst n. lia. }
  unfold range. fold n. rewrite (bind_eq _ _ _ _ _ Hl). simpl fst. simpl snd.
  destruct (insert_new_incoming_request_done
              (myServiceLineHierarchy.chief self) time_unit ttl prio
              (seq (length (heap w)) n) w1)
    as (c' & Hi & Hq & _).
  rewrite (bind_eq _ _ _ _ _ Hi). simpl.
  eexists _, _. split; [reflexivity|]. simpl.
  rewrite Hh, Hid, Hrng, length_app, new_sub_requests_length in *.
  split; [by rewrite <- app_assoc|]. split; [done|]. split; [done|].
  split; [split; simpl; [done|congruence]|]. split; [done|].
  split; [done|]. split.
  - intros i c Hc. destruct (Hpt i c Hc) as (c'' & Hc'' & Hq'').
    exists c''. split; [done|]. rewrite Hq''.
    pose proof (lookup_lt_Some _ _ _ Hc). case_decide; [|lia].
    do 2 f_equal. lia.
  - unfold owned. simpl. rewrite Hq, Hperm. fold base.
    change (base :: seq (S base) n) with (seq base (S n)).
    rewrite seq_S. rewrite <- !app_assoc. f_equiv. simpl.
    rewrite (app_assoc (queues _)). apply Permutation_cons_append.
Qed.

(** Lines 505 and 533: the request is not subdivided. *)
Lemma insert_direct_spec (self : myServiceLineHierarchy.t)
    (time_unit ttl : Z) (prio : bool) (w : World G) :
  exists self' w',
    myServiceLineHierarchy.insert_direct self time_unit ttl prio w =
    Done (self', w') /\
    heap w' = heap w ++ [myServiceRequest.init (ID_REQUESTS w) time_unit ttl
                           prio []] /\
    myServiceLineHierarchy.list_of_collaborators self' =
    myServiceLineHierarchy.list_of_collaborators self /\
    myServiceLineHierarchy.nr_of_collaborators self' =
    myServiceLineHierarchy.nr_of_collaborators self /\
    queue (myServiceLineHierarchy.chief self') =
    queue (myServiceLineHierarchy.chief self) ++ [length (heap w)] /\
    owned self' ≡ₚ owned self ++ seq (length (heap w)) 1.
Proof.
  unfold myServiceLineHierarchy.insert_direct.
  destruct (insert_new_incoming_request_done
              (myServiceLineHierarchy.chief self) time_unit ttl prio [] w)
    as (c' & Hi & Hq & _).
  rewrite (bind_eq _ _ _ _ _ Hi). simpl.
  eexists _, _. split; [reflexivity|]. simpl. repeat split; try done.
  unfold owned. simpl. rewrite Hq, <- !app_assoc. f_equiv.
  apply Permutation_app_comm.
Qed.

Lemma new_sub_requests_consistent (id : Z) (n : nat) (time_unit ttl : Z)
    (prio : bool) :
  Forall (fun r => well_formed r /\ timed time_unit r)
    (new_sub_requests id n time_unit ttl prio).
Proof.
  unfold new_sub_requests. apply Forall_fmap, Forall_forall. intros j _.
  simpl. split; [apply init_well_formed|apply init_timed].
Qed.

(** ** One time unit of a hierarchy *)

Lemma hierarchy_time_unit_consistent (k : Z) (arrivals : list arrival)
    (self : myServiceLineHierarchy.t) (time_unit : Z) (w : World G) :
  staffed self -> consistent k (owned self) (heap w) -> k < time_unit ->
  exists self' w',
    myServiceLineHierarchy.run_time_unit arrivals self time_unit w =
    Done (self', w') /\
    staffed self' /\ consistent time_unit (owned self') (heap w').
Proof.
  intros Hst Hc Hk.
  assert (Hdel : forall ttl prio (w0 : World G), heap w0 = heap w ->
    exists self' w',
      myServiceLineHierarchy.insert_delegated self time_unit ttl prio w0 =
      Done (self', w') /\
      staffed self' /\ consistent time_unit (owned self') (heap w')).
  { intros ttl prio w0 Hw0.
    destruct (insert_delegated_spec self time_unit ttl prio w0 Hst)
      as (self' & w' & Hi & Hh & _ & _ & Hst' & _ & _ & _ & Hperm).
    exists self', w'. split; [done|]. split; [done|].
    eapply consistent_perm; [symmetry; exact Hperm|].
    rewrite Hh, Hw0.
    replace (S (Z.to_nat (myServiceLineHierarchy.nr_of_collaborators self)))
      with (length (new_sub_requests (ID_REQUESTS w0)
                      (Z.to_nat (myServiceLineHierarchy.nr_of_collaborators self))
                      time_unit ttl prio ++
                    [myServiceRequest.init
                       (ID_REQUESTS w0 +
                        Z.of_nat (Z.to_nat (myServiceLineHierarchy.nr_of_collaborators self)))
                       time_unit ttl prio
                       (seq (length (heap w))
                          (Z.to_nat (myServiceLineHierarchy.nr_of_collaborators self)))]))
      by (rewrite length_app, new_sub_requests_length; simpl; lia).
    apply (consistent_alloc k); [done|lia|].
    apply Forall_app. split; [apply new_sub_requests_consistent|].
    constructor; [|constructor].
    split; [apply init_well_formed|apply init_timed]. }
  assert (Hdir : forall ttl prio (w0 : World G), heap w0 = heap w ->
    exists self' w',
      myServiceLineHierarchy.insert_direct self time_unit ttl prio w0 =
      Done (self', w') /\
      staffed self' /\ consistent time_unit (owned self') (heap w')).
  { intros ttl prio w0 Hw0.
    destruct (insert_direct_spec self time_unit ttl prio w0)
      as (self' & w' & Hi & Hh & Hcs & Hnr & _ & Hperm).
    exists self', w'. split; [done|].
    split; [destruct Hst; split; congruence|].
    eapply consistent_perm; [symmetry; exact Hperm|].
    rewrite Hh, Hw0.
    apply (consistent_alloc k time_unit (owned self) (heap w) [_]);
      [done|lia|].
    constructor; [|constructor].
    split; [apply init_well_formed|apply init_timed]. }
  assert (Hall : forall w0 : World G, heap w0 = heap w ->
    exists self' w',
      myServiceLineHierarchy.process_all self time_unit w0 = Done (self', w') /\
      staffed self' /\ consistent time_unit (owned self') (heap w')).
  { intros w0 Hw0.
    destruct (process_all_spec self time_unit w0 Hst)
      as (self' & w' & Hp & Ho & Hst' & _ & _ & rs & Hsub & Hrs).
    { intros l Hl. rewrite Hw0. by destruct (proj2 Hc l Hl) as (_ & Hwf & _). }
    exists self', w'. split; [done|]. split; [done|]. rewrite Ho.
    eapply (consistent_serves time_unit (owned self) rs).
    - eapply consistent_mono; [|exact Hc]. lia.
    - by rewrite <- Hw0.
    - eapply sublist_NoDup; [|exact Hsub]. apply Hc. }
  unfold myServiceLineHierarchy.run_time_unit.
  destruct arrivals as [|a arrivals].
  - rewrite (bind_eq _ _ _ _ _ (draw_done _ _)).
    destruct (Qltb _ _); [|by apply Hall].
    destruct (draw_time_to_serve_done (set_rng (snd (random (rng w))) w))
      as (ttl & g1 & Ht & _).
    rewrite (bind_eq _ _ _ _ _ Ht).
    destruct (draw_priority_done (set_rng g1 (set_rng (snd (random (rng w))) w)))
      as (p & g2 & Hp).
    rewrite (bind_eq _ _ _ _ _ Hp).
    rewrite (bind_eq _ _ _ _ _ (draw_done _ _)).
    destruct (Qltb _ _); [|by apply Hdir].
    unfold myServiceLineHierarchy.time_to_serve_a_subrequest.
    destruct (Z.eqb_spec (myServiceLineHierarchy.nr_of_collaborators self + 1) 0)
      as [Hz|Hnz]; [destruct Hst; lia|].
    unfold mbind at 1, M_bind at 1. unfold mret at 1, M_ret at 1.
    by apply Hdel.
  - destruct (search_result_list _ _) as [|[[[x ttl] p] d] l];
      [by apply Hall|].
    destruct d; [by apply Hdel|by apply Hdir].
Qed.

Lemma hierarchy_run_loop_consistent (k : Z) (arrivals : list arrival)
    (self : myServiceLineHierarchy.t) (time_units : list Z) (w : World G) :
  staffed self -> consistent k (owned self) (heap w) ->
  ticks_after k time_units ->
  exists k' self' w',
    myServiceLineHierarchy.run_loop arrivals self time_units w =
    Done (self', w') /\
    staffed self' /\ consistent k' (owned self') (heap w').
Proof.
  revert k self w.
  induction time_units as [|t ts IH]; intros k self w Hst Hc Ht.
  - exists k, self, w. by simpl.
  - destruct Ht as [Hk Hts].
    destruct (hierarchy_time_unit_consistent k arrivals self t w Hst Hc Hk)
      as (self1 & w1 & Hr & Hst1 & Hc1).
    destruct (IH t self1 w1 Hst1 Hc1 Hts) as (k' & self' & w' & Hl & Hst' & Hc').
    exists k', self', w'. simpl. by rewrite (bind_eq _ _ _ _ _ Hr).
Qed.

(** ** The constructors *)

Lemma line_init_done (service_type : Z) (w w' : World G)
    (self : myServiceLine.t) :
  myServiceLine.init service_type w = Done (self, w') ->
  queue self = [] /\ heap w' = heap w /\ ID_REQUESTS w' = ID_REQUESTS w /\
  rng w' = rng w /\ concurrent_idx self = 0 /\
  max_nr_of_pending_requests self = 0 /\
  strategy_of_Z service_type = Some (myServiceLine.service_type self).
Proof.
  unfold myServiceLine.init. destruct (strategy_of_Z service_type);
    [|discriminate].
  intros Hr. by injection Hr as <- <-.
Qed.

Lemma append_collaborators_done (n : nat) (service_type : Z)
    (l l' : list myServiceLine.t) (w w' : World G) :
  myServiceLineHierarchy.append_collaborators n service_type l w =
  Done (l', w') ->
  length l' = (length l + n)%nat /\ queues l' = queues l /\
  heap w' = heap w /\ ID_REQUESTS w' = ID_REQUESTS w /\ rng w' = rng w.
Proof.
  revert l w. induction n as [|n IH]; intros l w; simpl.
  - intros Hr. apply ret_done in Hr as [-> ->]. repeat split; lia.
  - intros Hr. apply bind_done in Hr as (c & w1 & Hc & Hr).
    destruct (line_init_done _ _ _ _ Hc) as (Hq & Hh & Hid & Hrng & _).
    destruct (IH _ _ Hr) as (Hlen & Hqs & Hh' & Hid' & Hrng').
    rewrite length_app in Hlen. simpl in Hlen.
    repeat split; try congruence; try lia.
    rewrite Hqs. unfold queues. rewrite fmap_app, concat_app. simpl.
    by rewrite Hq, !app_nil_r.
Qed.

Lemma hierarchy_init_done (chief_service_type nr collaborator_service_type : Z)
    (w w' : World G) (self : myServiceLineHierarchy.t) :
  myServiceLineHierarchy.init chief_service_type nr
    collaborator_service_type w = Done (self, w') ->
  owned self = [] /\ heap w' = heap w /\ ID_REQUESTS w' = ID_REQUESTS w /\
  rng w' = rng w /\
  myServiceLineHierarchy.nr_of_collaborators self = nr /\
  length (myServiceLineHierarchy.list_of_collaborators self) = Z.to_nat nr /\
  max_nr_of_pending_requests (myServiceLineHierarchy.chief self) = 0.
Proof.
  unfold myServiceLineHierarchy.init. intros Hr.
  apply bind_done in Hr as (id & w1 & Hid & Hr).
  injection Hid as <- <-.
  apply bind_done in Hr as (c & w2 & Hc & Hr).
  apply bind_done in Hr as (l & w3 & Hl & Hr).
  apply ret_done in Hr as [-> ->].
  destruct (line_init_done _ _ _ _ Hc) as (Hq & Hh & Hi & Hrng & _ & Hmax & _).
  destruct (append_collaborators_done _ _ _ _ _ _ Hl)
    as (Hlen & Hqs & Hh' & Hi' & Hrng').
  unfold owned. simpl in *. rewrite Hq, Hqs.
  repeat split; try congruence.
Qed.

Lemma consistent_nil (k : Z) (h : store) : consistent k [] h.
Proof. split; [constructor|]. intros r Hr. inversion Hr. Qed.

(** ** Whole runs *)

(** A run of a line whose queue is consistent at time 0: the loop ends,
    the queue is consistent at the end, and the performance parameters
    are those of [performance_spec]. *)
Lemma line_run_spec (self : myServiceLine.t) (arrivals : list arrival)
    (w : World G) :
  consistent (-1) (queue self) (heap w) ->
  exists k self' w',
    myServiceLine.run_loop arrivals self (range TOTAL_NR_OF_TIME_UNITS) w =
    Done (self', w') /\
    consistent k (queue self') (heap w') /\
    ((forall r, r ∈ queue self' ->
        status (heap w' !!! r) <> REQUEST_COMPLETION) ->
     myServiceLine.run self arrivals w = Raise SystemExit) /\
    ((exists r, r ∈ queue self' /\
                status (heap w' !!! r) = REQUEST_COMPLETION) ->
     exists v, myServiceLine.run self arrivals w = Done ((v, self'), w') /\
               length v = 5%nat /\ (0 <= nth 0 v 0)%Q /\
               nth 4 v 0%Q = inject_Z (max_nr_of_pending_requests self')).
Proof.
  intros Hc.
  destruct (line_run_loop_consistent (-1) arrivals self
              (range TOTAL_NR_OF_TIME_UNITS) w Hc (range_ticks _))
    as (k & self' & w' & Hl & Hc' & _).
  exists k, self', w'. split; [done|]. split; [done|].
  destruct (performance_spec k self' (queue self') w' Hc') as [Hquit Hret];
    [done|].
  unfold myServiceLine.run. rewrite (bind_eq _ _ _ _ _ Hl). split.
  - intros Hnone. unfold mbind, M_bind. by rewrite (Hquit Hnone).
  - intros Hsome. destruct (Hret Hsome) as (v & Hv & Hlen & Hpos & Hmax).
    exists v. by rewrite (bind_eq _ _ _ _ _ Hv).
Qed.

Lemma hierarchy_run_spec (self : myServiceLineHierarchy.t)
    (arrivals : list arrival) (w : World G) :
  staffed self -> consistent (-1) (owned self) (heap w) ->
  exists k self' w',
    myServiceLineHierarchy.run_loop arrivals self
      (range TOTAL_NR_OF_TIME_UNITS) w = Done (self', w') /\
    consistent k (owned self') (heap w') /\
    ((forall r, r ∈ queue (myServiceLineHierarchy.chief self') ->
        status (heap w' !!! r) <> REQUEST_COMPLETION) ->
     myServiceLineHierarchy.run self arrivals w = Raise SystemExit) /\
    ((exists r, r ∈ queue (myServiceLineHierarchy.chief self') /\
                status (heap w' !!! r) = REQUEST_COMPLETION) ->
     exists v, myServiceLineHierarchy.run self arrivals w =
               Done ((v, self'), w') /\
               length v = 5%nat /\ (0 <= nth 0 v 0)%Q /\
               nth 4 v 0%Q =
               inject_Z (max_nr_of_pending_requests
                           (myServiceLineHierarchy.chief self'))).
Proof.
  intros Hst Hc.
  destruct (hierarchy_run_loop_consistent (-1) arrivals self
              (range TOTAL_NR_OF_TIME_UNITS) w Hst Hc (range_ticks _))
    as (k & self' & w' & Hl & _ & Hc').
  exists k, self', w'. split; [done|]. split; [done|].
  destruct (performance_spec k (myServiceLineHierarchy.chief self')
              (owned self') w' Hc') as [Hquit Hret].
  { intros r Hr. unfold owned. apply elem_of_app. by left. }
  unfold myServiceLineHierarchy.run. rewrite (bind_eq _ _ _ _ _ Hl). split.
  - intros Hnone. unfold mbind, M_bind. by rewrite (Hquit Hnone).
  - intros Hsome. destruct (Hret Hsome) as (v & Hv & Hlen & Hpos & Hmax).
    exists v. by rewrite (bind_eq _ _ _ _ _ Hv).
Qed.

(** C3. In every run of a new line, and in every run of a new hierarchy,
    every request that is completed at the end (in any queue) has
    completion time - arrival time - original weight >= 0, and the run
    either stops in [quit()] or returns parameters whose first one (the
    mean of these differences) is not negative.  The weights of the LOG
    need not even be positive. *)
Theorem extra_duration_not_negative :
  (forall (service_type : Z) (arrivals : list arrival) (w0 w : World G) self,
     myServiceLine.init service_type w0 = Done (self, w) ->
     exists self' w',
       myServiceLine.run_loop arrivals self
         (range TOTAL_NR_OF_TIME_UNITS) w = Done (self', w') /\
       (forall r, r ∈ queue self' ->
          status (heap w' !!! r) = REQUEST_COMPLETION ->
          exists c, time_of_completion (heap w' !!! r) = Some c /\
                    0 <= c - time_to_start (heap w' !!! r)
                           - minimum_duration (heap w' !!! r)) /\
       (myServiceLine.run self arrivals w = Raise SystemExit \/
        exists v, myServiceLine.run self arrivals w = Done ((v, self'), w') /\
                  (0 <= nth 0 v 0)%Q)) /\
  (forall (chief_service_type nr collaborator_service_type : Z)
          (arrivals : list arrival) (w0 w : World G) self,
     0 <= nr ->
     myServiceLineHierarchy.init chief_service_type nr
       collaborator_service_type w0 = Done (self, w) ->
     exists self' w',
       myServiceLineHierarchy.run_loop arrivals self
         (range TOTAL_NR_OF_TIME_UNITS) w = Done (self', w') /\
       (forall r, r ∈ owned self' ->
          status (heap w' !!! r) = REQUEST_COMPLETION ->
          exists c, time_of_completion (heap w' !!! r) = Some c /\
                    0 <= c - time_to_start (heap w' !!! r)
                           - minimum_duration (heap w' !!! r)) /\
       (myServiceLineHierarchy.run self arrivals w = Raise SystemExit \/
        exists v, myServiceLineHierarchy.run self arrivals w =
                  Done ((v, self'), w') /\
                  (0 <= nth 0 v 0)%Q)).
Proof.
  split.
  - intros st arrivals w0 w self Hi.
    destruct (line_init_done _ _ _ _ Hi) as (Hq & _).
    destruct (line_run_spec self arrivals w)
      as (k & self' & w' & Hl & Hc & Hquit & Hret).
    { rewrite Hq. apply consistent_nil. }
    exists self', w'. split; [done|]. split.
    + intros r Hr. by destruct (proj2 Hc r Hr) as (_ & _ & _ & Hdone).
    + destruct (decide (Exists (fun r => status (heap w' !!! r) =
                                         REQUEST_COMPLETION) (queue self')))
        as [Hex|Hnex].
      * right. apply Exists_exists in Hex.
        destruct (Hret Hex) as (v & Hv & _ & Hpos & _). by exists v.
      * left. apply Hquit. intros r Hr Hst. apply Hnex, Exists_exists.
        by exists r.
  - intros cst nr ost arrivals w0 w self Hnr Hi.
    destruct (hierarchy_init_done _ _ _ _ _ _ Hi)
      as (Ho & _ & _ & _ & Hn & Hlen & _).
    destruct (hierarchy_run_spec self arrivals w)
      as (k & self' & w' & Hl & Hc & Hquit & Hret).
    { split; congruence. }
    { rewrite Ho. apply consistent_nil. }
    exists self', w'. split; [done|]. split.
    + intros r Hr. by destruct (proj2 Hc r Hr) as (_ & _ & _ & Hdone).
    + destruct (decide (Exists (fun r => status (heap w' !!! r) =
                                         REQUEST_COMPLETION)
                          (queue (myServiceLineHierarchy.chief self'))))
        as [Hex|Hnex].
      * right. apply Exists_exists in Hex.
        destruct (Hret Hex) as (v & Hv & _ & Hpos & _). by exists v.
      * left. apply Hquit. intros r Hr Hst. apply Hnex, Exists_exists.
        by exists r.
Qed.

(** What a run returns when it returns: the statistics of the line after
    the loop. *)
Lemma line_run_returns (self self' : myServiceLine.t) (arrivals : list arrival)
    (v : list Q) (w w' : World G) :
  myServiceLine.run self arrivals w = Done ((v, self'), w') ->
  performance self' w' = Done (v, w').
Proof.
  unfold myServiceLine.run. intros Hrun.
  apply bind_done in Hrun as (s1 & w1 & Hloop & Hrun).
  apply bind_done in Hrun as (v1 & w2 & Hperf & Hret).
  apply ret_done in Hret as [[= <- <-] <-].
  apply performance_done in Hperf as Hw. destruct Hw as [-> _]. done.
Qed.

Lemma hierarchy_run_returns (self self' : myServiceLineHierarchy.t)
    (arrivals : list arrival) (v : list Q) (w w' : World G) :
  myServiceLineHierarchy.run self arrivals w = Done ((v, self'), w') ->
  performance (myServiceLineHierarchy.chief self') w' = Done (v, w').
Proof.
  unfold myServiceLineHierarchy.run. intros Hrun.
  apply bind_done in Hrun as (s1 & w1 & Hloop & Hrun).
  apply bind_done in Hrun as (v1 & w2 & Hperf & Hret).
  apply ret_done in Hret as [[= <- <-] <-].
  apply performance_done in Hperf as Hw. destruct Hw as [-> _]. done.
Qed.

(** C8. A run of a new line (of a new hierarchy with a number of
    collaborators that is not negative) always reaches the end of its
    time units; then, if no request of the queue of the line (of the
    chief) is completed, it stops in [quit()] and returns nothing, and
    otherwise it returns the five performance parameters computed from
    that queue and from the counters of the line (of the chief) as the
    loop has left them: the mean of the extra durations [d] of the
    completed requests of the queue, the accumulated number of active
    requests divided by the number of time units, the number of empty time
    units, the last ratio of active requests and the peak counter, in this
    order. *)
Theorem run_quits_or_returns :
  (forall (service_type : Z) (arrivals : list arrival) (w0 w : World G) self,
     myServiceLine.init service_type w0 = Done (self, w) ->
     exists self' w',
       myServiceLine.run_loop arrivals self
         (range TOTAL_NR_OF_TIME_UNITS) w = Done (self', w') /\
       ((forall r, r ∈ queue self' ->
           status (heap w' !!! r) <> REQUEST_COMPLETION) ->
        myServiceLine.run self arrivals w = Raise SystemExit) /\
       ((exists r, r ∈ queue self' /\
                   status (heap w' !!! r) = REQUEST_COMPLETION) ->
        exists v d,
          myServiceLine.run self arrivals w = Done ((v, self'), w') /\
          length v = 5%nat /\
          Forall2 (extra_duration_of (heap w'))
            (completed_requests (heap w') (queue self')) d /\
          v = [np_mean d;
               true_div (accumulate_nr_of_active_requests self')
                 TOTAL_NR_OF_TIME_UNITS;
               inject_Z (nr_of_times_empty_line self');
               percentage_of_active_requests self';
               inject_Z (max_nr_of_pending_requests self')])) /\
  (forall (chief_service_type nr collaborator_service_type : Z)
          (arrivals : list arrival) (w0 w : World G) self,
     0 <= nr ->
     myServiceLineHierarchy.init chief_service_type nr
       collaborator_service_type w0 = Done (self, w) ->
     exists self' w',
       myServiceLineHierarchy.run_loop arrivals self
         (range TOTAL_NR_OF_TIME_UNITS) w = Done (self', w') /\
       ((forall r, r ∈ queue (myServiceLineHierarchy.chief self') ->
           status (heap w' !!! r) <> REQUEST_COMPLETION) ->
        myServiceLineHierarchy.run self arrivals w = Raise SystemExit) /\
       ((exists r, r ∈ queue (myServiceLineHierarchy.chief self') /\
                   status (heap w' !!! r) = REQUEST_COMPLETION) ->
        exists v d,
          myServiceLineHierarchy.run self arrivals w =
          Done ((v, self'), w') /\
          length v = 5%nat /\
          Forall2 (extra_duration_of (heap w'))
            (completed_requests (heap w')
               (queue (myServiceLineHierarchy.chief self'))) d /\
          v = [np_mean d;
               true_div
                 (accumulate_nr_of_active_requests
                    (myServiceLineHierarchy.chief self'))
                 TOTAL_NR_OF_TIME_UNITS;
               inject_Z
                 (nr_of_times_empty_line (myServiceLineHierarchy.chief self'));
               percentage_of_active_requests
                 (myServiceLineHierarchy.chief self');
               inject_Z
                 (max_nr_of_pending_requests
                    (myServiceLineHierarchy.chief self'))])).
Proof.
  split.
  - intros st arrivals w0 w self Hi.
    destruct (line_init_done _ _ _ _ Hi) as (Hq & _).
    destruct (line_run_spec self arrivals w)
      as (k & self' & w' & Hl & Hc & Hquit & Hret).
    { rewrite Hq. apply consistent_nil. }
    exists self', w'. split; [done|]. split; [done|].
    intros Hex. destruct (Hret Hex) as (v & Hv & Hlen & _).
    destruct (performance_done _ _ _ _ (line_run_returns _ _ _ _ _ _ Hv))
      as (_ & d & Hd & Hvec).
    by exists v, d.
  - intros cst nr ost arrivals w0 w self Hnr Hi.
    destruct (hierarchy_init_done _ _ _ _ _ _ Hi)
      as (Ho & _ & _ & _ & Hn & Hlen & _).
    destruct (hierarchy_run_spec self arrivals w)
      as (k & self' & w' & Hl & Hc & Hquit & Hret).
    { split; congruence. }
    { rewrite Ho. apply consistent_nil. }
    exists self', w'. split; [done|]. split; [done|].
    intros Hex. destruct (Hret Hex) as (v & Hv & Hlen' & _).
    destruct (performance_done _ _ _ _ (hierarchy_run_returns _ _ _ _ _ _ Hv))
      as (_ & d & Hd & Hvec).
    by exists v, d.
Qed.

(** ** The subdivision of a generated request *)

Lemma draw_time_to_serve_eq (w : World G) :
  draw_time_to_serve w =
  Done (fst (randint 1 RANDOM_MAX_TIME_TO_SERVE_A_REQUEST (rng w)),
        set_rng (snd (randint 1 RANDOM_MAX_TIME_TO_SERVE_A_REQUEST (rng w))) w).
Proof. reflexivity. Qed.

Lemma draw_priority_eq (w : World G) :
  draw_priority w =
  Done (Qltb (fst (random (rng w))) PRIORITY_PROBABILITY_PER_REQUEST,
        set_rng (snd (random (rng w))) w).
Proof. reflexivity. Qed.

(** C4. A time unit of the run of a hierarchy with generated arrivals,
    when the draws say that a request arrives and that it is subdivided:
    the share of every collaborator is floor(weight / (collaborators + 1))
    + 1, it is positive; one sub-request with that share, starting at the
    current time unit, is appended to the queue of each of the [n]
    collaborators; and the request appended to the queue of the chief has
    the same share as its weight, the same time unit, and exactly these
    [n] sub-requests, in order, to wait for.  With 3 collaborators and
    weight 10 the share is 3. *)
Theorem hierarchy_fan_out (self : myServiceLineHierarchy.t) (time_unit : Z)
    (w : World G) :
  let nr := myServiceLineHierarchy.nr_of_collaborators self in
  let arrives := random (rng w) in
  let weight := randint 1 RANDOM_MAX_TIME_TO_SERVE_A_REQUEST (snd arrives) in
  let urgent := random (snd weight) in
  let subdivided := random (snd urgent) in
  let share := fst weight / (nr + 1) + 1 in
  let prio := Qltb (fst urgent) PRIORITY_PROBABILITY_PER_REQUEST in
  let n := Z.to_nat nr in
  let base := length (heap w) in
  staffed self ->
  Qltb (fst arrives) REQUEST_PROBABILITY_PER_TIME_UNIT = true ->
  Qltb (fst subdivided) SUBREQUEST_PROBABILITY_PER_REQUEST = true ->
  0 < share /\
  (nr = 3 -> fst weight = 10 -> share = 3) /\
  exists self' w',
    myServiceLineHierarchy.run_time_unit [] self time_unit w =
    Done (self', w') /\
    heap w' =
    heap w ++ new_sub_requests (ID_REQUESTS w) n time_unit share prio ++
    [myServiceRequest.init (ID_REQUESTS w + nr) time_unit share prio
       (seq base n)] /\
    length (myServiceLineHierarchy.list_of_collaborators self') = n /\
    (forall i c,
       myServiceLineHierarchy.list_of_collaborators self !! i = Some c ->
       exists c',
         myServiceLineHierarchy.list_of_collaborators self' !! i = Some c' /\
         queue c' = queue c ++ [(base + i)%nat] /\
         heap w' !!! (base + i)%nat =
         myServiceRequest.init (ID_REQUESTS w + Z.of_nat i) time_unit share
           prio []) /\
    queue (myServiceLineHierarchy.chief self') =
    queue (myServiceLineHierarchy.chief self) ++ [(base + n)%nat] /\
    heap w' !!! (base + n)%nat =
    myServiceRequest.init (ID_REQUESTS w + nr) time_unit share prio
      (seq base n).
Proof.
  intros nr arrives weight urgent subdivided share prio n base
         Hst Harr Hsub.
  pose proof Hst as [Hnr Hlen].
  assert (Hw : 1 <= fst weight <= RANDOM_MAX_TIME_TO_SERVE_A_REQUEST)
    by (by apply randint_range).
  assert (Hshare : 0 < share).
  { subst share. pose proof (Z.div_pos (fst weight) (nr + 1)). lia. }
  split; [done|]. split.
  { intros Hn3 Hw10. subst share. by rewrite Hn3, Hw10. }
  destruct (insert_delegated_spec self time_unit share prio
              (set_rng (snd subdivided) (set_rng (snd urgent)
                 (set_rng (snd weight) (set_rng (snd arrives) w)))) Hst)
    as (self' & w' & Hi & Hh & _ & _ & Hst' & Hnr' & Hq & Hpt & _).
  simpl in Hh, Hq, Hpt. rewrite Z2Nat.id in Hh by done.
  fold nr n base in Hh, Hq, Hpt.
  exists self', w'. split.
  - unfold myServiceLineHierarchy.run_time_unit.
    rewrite (bind_eq _ _ _ _ _ (draw_done _ _)). fold arrives. rewrite Harr.
    rewrite (bind_eq _ _ _ _ _ (draw_time_to_serve_eq _)). cbn [rng set_rng].
    fold weight.
    rewrite (bind_eq _ _ _ _ _ (draw_priority_eq _)). cbn [rng set_rng].
    fold urgent prio.
    rewrite (bind_eq _ _ _ _ _ (draw_done _ _)). cbn [rng set_rng]. fold subdivided.
    rewrite Hsub.
    unfold myServiceLineHierarchy.time_to_serve_a_subrequest. fold nr.
    destruct (Z.eqb_spec (nr + 1) 0) as [Hz|Hnz]; [lia|].
    unfold mbind at 1, M_bind at 1. unfold mret at 1, M_ret at 1.
    rewrite Z.quot_div_nonneg by lia. exact Hi.
  - split; [done|]. split.
    { destruct Hst' as [_ Hlen']. by rewrite Hlen', Hnr'. }
    split; [|split; [done|]].
    + intros i c Hc. destruct (Hpt i c Hc) as (c' & Hc' & Hq').
      exists c'. split; [done|]. split; [done|].
      pose proof (lookup_lt_Some _ _ _ Hc) as Hi'. rewrite Hh.
      rewrite lookup_total_app_r by lia.
      rewrite lookup_total_app_l
        by (rewrite new_sub_requests_length; lia).
      replace (base + i - length (heap w))%nat with i by (subst base; lia).
      unfold new_sub_requests.
      rewrite (@list_lookup_total_fmap nat _ _ Nat.inhabited _ (seq 0 n) i)
        by (rewrite length_seq; lia).
      by rewrite lookup_total_seq_lt by lia.
    + rewrite Hh, app_assoc. apply list_lookup_total_middle.
      by rewrite length_app, new_sub_requests_length.
Qed.

(** ** Replaying a LOG: two runs side by side *)

Lemma pairs_fst_inj (ps : list (nat * nat)) (a b b' : nat) :
  NoDup ps.*1 -> (a, b) ∈ ps -> (a, b') ∈ ps -> b = b'.
Proof.
  induction ps as [|[x y] ps IH]; simpl; intros Hnd H1 H2; [inversion H1|].
  apply NoDup_cons in Hnd as [Hx Hnd].
  apply elem_of_cons in H1 as [H1|H1], H2 as [H2|H2].
  - congruence.
  - injection H1 as -> ->. exfalso. apply Hx.
    apply list_elem_of_fmap. by exists (x, b').
  - injection H2 as -> ->. exfalso. apply Hx.
    apply list_elem_of_fmap. by exists (x, b).
  - by apply IH.
Qed.

Lemma pairs_snd_inj (ps : list (nat * nat)) (a a' b : nat) :
  NoDup ps.*2 -> (a, b) ∈ ps -> (a', b) ∈ ps -> a = a'.
Proof.
  induction ps as [|[x y] ps IH]; simpl; intros Hnd H1 H2; [inversion H1|].
  apply NoDup_cons in Hnd as [Hy Hnd].
  apply elem_of_cons in H1 as [H1|H1], H2 as [H2|H2].
  - congruence.
  - injection H1 as -> ->. exfalso. apply Hy.
    apply list_elem_of_fmap. by exists (a', y).
  - injection H2 as -> ->. exfalso. apply Hy.
    apply list_elem_of_fmap. by exists (a, y).
  - by apply IH.
Qed.

Lemma twins_elem (d : Z) (ha hb : store) (ps : list (nat * nat))
    (p : nat * nat) :
  twins d ha hb ps -> p ∈ ps -> twin d ha hb p.
Proof. intros (_ & _ & Hall) Hp. by apply (proj1 (Forall_forall _ _) Hall). Qed.

(** The service of twins gives the same answer and leaves twins. *)
Lemma serve_request_twins (d : Z) (ha hb : store) (ps : list (nat * nat))
    (xa xb : nat) (time_unit : Z) :
  twins d ha hb ps -> (xa, xb) ∈ ps ->
  exists b ha' hb',
    serve_request xa time_unit ha = Done (b, ha') /\
    serve_request xb time_unit hb = Done (b, hb') /\
    twins d ha' hb' ps /\
    service_id (ha' !!! xa) = service_id (ha !!! xa) /\
    service_id (hb' !!! xb) = service_id (hb !!! xb).
Proof.
  intros Htw Hx. pose proof (twins_elem _ _ _ _ _ Htw Hx) as Hp.
  destruct Hp as (Hla & Hlb & Hb & Hnw & Hia & Hib). simpl in *.
  assert (Hstep : exists b ra',
    serve_request xa time_unit ha = Done (b, <[xa := ra']> ha) /\
    serve_request xb time_unit hb = Done (b, <[xb := shift d ra']> hb) /\
    status ra' <> WAITING_REQUEST /\
    service_id ra' = service_id (ha !!! xa)).
  { unfold serve_request. rewrite Hb.
    destruct (status (ha !!! xa)) eqn:Est; simpl; rewrite Est.
    - destruct (0 <? time_to_live (ha !!! xa) - 1) eqn:Ettl.
      + eexists _, _. split; [reflexivity|]. split; [reflexivity|].
        simpl. split; [congruence|done].
      + eexists _, _. split; [reflexivity|]. split; [reflexivity|].
        simpl. split; [congruence|done].
    - exists false, (ha !!! xa). rewrite <- Hb.
      rewrite !list_insert_id by by apply list_lookup_lookup_total_lt.
      repeat split; congruence.
    - done. }
  destruct Hstep as (b & ra' & Ha & Hb' & Hnw' & Hid).
  exists b, (<[xa := ra']> ha), (<[xb := shift d ra']> hb).
  split; [done|]. split; [done|].
  destruct Htw as (Hn1 & Hn2 & Hall). split.
  - split; [done|]. split; [done|]. apply Forall_forall. intros [la lb] Hl.
    pose proof (proj1 (Forall_forall _ _) Hall _ Hl)
      as (Hl1 & Hl2 & Hl3 & Hl4 & Hl5 & Hl6). simpl in *.
    unfold twin. simpl. rewrite !length_insert.
    destruct (decide (la = xa)) as [->|Hne].
    + assert (lb = xb) as -> by by eapply pairs_fst_inj.
      rewrite !list_lookup_total_insert_eq by done.
      rewrite Hb in Hib. simpl in Hib.
      split; [done|]. split; [done|]. split; [done|]. split; [done|].
      simpl. lia.
    + assert (lb <> xb).
      { intros ->. apply Hne. by eapply pairs_snd_inj. }
      rewrite !list_lookup_total_insert_ne by done. done.
  - rewrite !list_lookup_total_insert_eq by done. simpl.
    split; [done|]. rewrite Hb. simpl. lia.
Qed.

(** Counting requests of two queues of twins with conditions that agree
    on twins. *)
Lemma filter_twins_length (Pa Pb : nat -> Prop)
    `{!forall x, Decision (Pa x)} `{!forall x, Decision (Pb x)}
    (ps : list (nat * nat)) :
  (forall p, p ∈ ps -> Pa p.1 <-> Pb p.2) ->
  length (filter Pa ps.*1) = length (filter Pb ps.*2).
Proof.
  induction ps as [|[a b] ps IH]; intros Hag; [done|].
  rewrite !fmap_cons, !filter_cons. simpl.
  pose proof (Hag (a, b) ltac:(left)) as Hab. simpl in Hab.
  assert (IH' : length (filter Pa ps.*1) = length (filter Pb ps.*2)).
  { apply IH. intros p Hp. apply Hag. by right. }
  destruct (decide (Pa a)), (decide (Pb b)); simpl; try tauto; lia.
Qed.

Lemma active_requests_twins (d : Z) (ha hb : store) (ps : list (nat * nat)) :
  twins d ha hb ps ->
  length (active_requests ha ps.*1) = length (active_requests hb ps.*2).
Proof.
  intros Htw. unfold active_requests. apply filter_twins_length.
  intros p Hp. destruct (twins_elem _ _ _ _ _ Htw Hp) as (_ & _ & -> & _).
  done.
Qed.

Lemma priority_requests_twins (d : Z) (ha hb : store)
    (ps : list (nat * nat)) :
  twins d ha hb ps ->
  length (priority_requests ha ps.*1) = length (priority_requests hb ps.*2).
Proof.
  intros Htw. unfold priority_requests. apply filter_twins_length.
  intros p Hp. destruct (twins_elem _ _ _ _ _ Htw Hp) as (_ & _ & -> & _).
  done.
Qed.

Lemma remaining_requests_twins (d : Z) (ha hb : store)
    (ps : list (nat * nat)) (idx : Z) :
  twins d ha hb ps ->
  length (remaining_requests ha ps.*1 idx) =
  length (remaining_requests hb ps.*2 (idx + d)).
Proof.
  intros Htw. unfold remaining_requests. apply filter_twins_length.
  intros p Hp. destruct (twins_elem _ _ _ _ _ Htw Hp) as (_ & _ & -> & _).
  simpl. split; intros [Hs Hi]; (split; [done|lia]).
Qed.

Lemma serve_first_priority_twins (d : Z) (ps P : list (nat * nat))
    (time_unit : Z) (ha hb : store) :
  twins d ha hb ps -> (forall p, p ∈ P -> p ∈ ps) ->
  exists b ha' hb',
    serve_first_priority P.*1 time_unit ha = Done (b, ha') /\
    serve_first_priority P.*2 time_unit hb = Done (b, hb') /\
    twins d ha' hb' ps.
Proof.
  revert ha hb. induction P as [|[xa xb] P IH]; intros ha hb Htw HP.
  - exists false, ha, hb. done.
  - simpl. assert (Hx : (xa, xb) ∈ ps) by (apply HP; left).
    assert (HP' : forall p, p ∈ P -> p ∈ ps) by (intros p Hp; apply HP; by right).
    destruct (twins_elem _ _ _ _ _ Htw Hx) as (_ & _ & Hb & _). simpl in Hb.
    assert (Hpr : priority (hb !!! xb) = priority (ha !!! xa)) by by rewrite Hb.
    rewrite Hpr. destruct (priority (ha !!! xa)); [|by apply IH].
    destruct (serve_request_twins d ha hb ps xa xb time_unit Htw Hx)
      as (b & ha' & hb' & -> & -> & Htw' & _).
    destruct b; [by exists true, ha', hb'|]. by apply IH.
Qed.

Lemma serve_first_twins (d : Z) (ps P : list (nat * nat))
    (time_unit : Z) (ha hb : store) :
  twins d ha hb ps -> (forall p, p ∈ P -> p ∈ ps) ->
  exists b ha' hb',
    serve_first P.*1 time_unit ha = Done (b, ha') /\
    serve_first P.*2 time_unit hb = Done (b, hb') /\
    twins d ha' hb' ps.
Proof.
  revert ha hb. induction P as [|[xa xb] P IH]; intros ha hb Htw HP.
  - exists false, ha, hb. done.
  - simpl. assert (Hx : (xa, xb) ∈ ps) by (apply HP; left).
    assert (HP' : forall p, p ∈ P -> p ∈ ps) by (intros p Hp; apply HP; by right).
    destruct (serve_request_twins d ha hb ps xa xb time_unit Htw Hx)
      as (b & ha' & hb' & -> & -> & Htw' & _).
    destruct b; [by exists true, ha', hb'|]. by apply IH.
Qed.

Lemma serve_rotating_twins (d : Z) (ps P : list (nat * nat))
    (ca cb : Z) (time_unit : Z) (ha hb : store) :
  twins d ha hb ps -> (forall p, p ∈ P -> p ∈ ps) -> twin_cursors d ca cb ->
  exists oa ob ha' hb',
    serve_rotating ps.*1 P.*1 ca time_unit ha = Done (oa, ha') /\
    serve_rotating ps.*2 P.*2 cb time_unit hb = Done (ob, hb') /\
    twin_found d oa ob /\ twins d ha' hb' ps.
Proof.
  revert ha hb. induction P as [|[xa xb] P IH]; intros ha hb Htw HP Hc.
  - exists None, None, ha, hb. done.
  - simpl. assert (Hx : (xa, xb) ∈ ps) by (apply HP; left).
    assert (HP' : forall p, p ∈ P -> p ∈ ps) by (intros p Hp; apply HP; by right).
    destruct (serve_request_twins d ha hb ps xa xb time_unit Htw Hx)
      as (b & ha' & hb' & -> & -> & Htw' & _).
    destruct (twins_elem _ _ _ _ _ Htw' Hx) as (_ & _ & Hb & _ & Hia & Hib).
    simpl in Hb, Hia, Hib.
    assert (Hidb : service_id (hb' !!! xb) = service_id (ha' !!! xa) + d)
      by by rewrite Hb.
    assert (Hlt : (ca <? service_id (ha' !!! xa)) =
                  (cb <? service_id (hb' !!! xb))).
    { destruct Hc as [[-> ->] | ->]; rewrite Hidb.
      - rewrite (proj2 (Z.ltb_lt 0 _)) by lia.
        rewrite (proj2 (Z.ltb_lt 0 _)) by lia. done.
      - destruct (Z.ltb_spec ca (service_id (ha' !!! xa))),
                 (Z.ltb_spec (ca + d) (service_id (ha' !!! xa) + d));
          done || lia. }
    rewrite <- Hlt. destruct (b && _); [|by apply IH].
    rewrite Hidb.
    rewrite <- (remaining_requests_twins d ha' hb' ps _ Htw').
    destruct (_ =? _)%nat.
    + exists (Some 0), (Some 0), ha', hb'.
      split; [done|]. split; [done|]. split; [by left|done].
    + eexists (Some _), (Some _), ha', hb'.
      split; [done|]. split; [done|]. split; [by right|done].
Qed.

Lemma look_for_max_twins (d : Z) (ps P : list (nat * nat)) (ha hb : store)
    (m : Z) (oa ob : option nat) :
  twins d ha hb ps -> (forall p, p ∈ P -> p ∈ ps) -> twin_choice ps oa ob ->
  twin_choice ps (look_for_max P.*1 ha m oa) (look_for_max P.*2 hb m ob).
Proof.
  intros Htw. revert m oa ob.
  induction P as [|[xa xb] P IH]; intros m oa ob HP Hc; [done|].
  simpl. assert (Hx : (xa, xb) ∈ ps) by (apply HP; left).
  assert (HP' : forall p, p ∈ P -> p ∈ ps) by (intros p Hp; apply HP; by right).
  destruct (twins_elem _ _ _ _ _ Htw Hx) as (_ & _ & Hb & _). simpl in Hb.
  assert (Httl : time_to_live (hb !!! xb) = time_to_live (ha !!! xa))
    by by rewrite Hb.
  rewrite Httl. destruct (m <? _); by apply IH.
Qed.

Lemma look_for_min_twins (d : Z) (ps P : list (nat * nat)) (ha hb : store)
    (m : Z) (oa ob : option nat) :
  twins d ha hb ps -> (forall p, p ∈ P -> p ∈ ps) -> twin_choice ps oa ob ->
  twin_choice ps (look_for_min P.*1 ha m oa) (look_for_min P.*2 hb m ob).
Proof.
  intros Htw. revert m oa ob.
  induction P as [|[xa xb] P IH]; intros m oa ob HP Hc; [done|].
  simpl. assert (Hx : (xa, xb) ∈ ps) by (apply HP; left).
  assert (HP' : forall p, p ∈ P -> p ∈ ps) by (intros p Hp; apply HP; by right).
  destruct (twins_elem _ _ _ _ _ Htw Hx) as (_ & _ & Hb & _). simpl in Hb.
  assert (Httl : time_to_live (hb !!! xb) = time_to_live (ha !!! xa))
    by by rewrite Hb.
  rewrite Httl. destruct (_ <? m); by apply IH.
Qed.

Lemma serve_and_ignore_twins (d : Z) (ps : list (nat * nat))
    (xa xb : nat) (time_unit : Z) (ha hb : store) :
  twins d ha hb ps -> (xa, xb) ∈ ps ->
  exists ha' hb',
    serve_and_ignore xa time_unit ha = Done ha' /\
    serve_and_ignore xb time_unit hb = Done hb' /\
    twins d ha' hb' ps.
Proof.
  intros Htw Hx. unfold serve_and_ignore.
  destruct (serve_request_twins d ha hb ps xa xb time_unit Htw Hx)
    as (b & ha' & hb' & -> & -> & Htw' & _).
  by exists ha', hb'.
Qed.

Lemma observe_queue_twins (d : Z) (ps : list (nat * nat))
    (sa sb : myServiceLine.t) (ha hb : store) :
  twin_lines d ps sa sb -> twins d ha hb ps ->
  twin_lines d ps (observe_queue sa ha) (observe_queue sb hb).
Proof.
  intros (Hqa & Hqb & Harr & Hne & Hpc & Hacc & Hmax & Hst & Hc) Htw.
  unfold observe_queue. rewrite Hqa, Hqb, !length_fmap.
  rewrite (active_requests_twins d ha hb ps Htw), Hacc.
  destruct (0 <? length ps)%nat; unfold twin_lines; simpl; done.
Qed.

Lemma apply_strategy_twins (d : Z) (s : Strategy) (arrivals : list arrival)
    (ps : list (nat * nat)) (sa sb : myServiceLine.t) (time_unit : Z)
    (wa wb : World G) :
  twin_lines d ps sa sb -> service_type sa = s ->
  twin_worlds d s arrivals ps wa wb ->
  exists b sa' sb' wa' wb',
    apply_strategy sa time_unit wa = Done ((b, sa'), wa') /\
    apply_strategy sb time_unit wb = Done ((b, sb'), wb') /\
    twin_lines d ps sa' sb' /\ service_type sa' = s /\
    twin_worlds d s arrivals ps wa' wb'.
Proof.
  intros Hl Hs (Htw & Hid & Hia & Hib & Hrng).
  pose proof Hl as (Hqa & Hqb & Harr & Hne & Hpc & Hacc & Hmax & Hst & Hc).
  assert (Hempty : twin_lines d ps (empty_time_unit sa) (empty_time_unit sb)).
  { unfold twin_lines, empty_time_unit. simpl. rewrite Hne. done. }
  unfold apply_strategy. rewrite <- Hst, Hs, Hqa, Hqb. destruct s.
  - destruct (serve_first_twins d ps ps time_unit (heap wa) (heap wb) Htw)
      as (b & ha' & hb' & -> & -> & Htw'); [done|].
    destruct b; eexists _, _, _, _, _; (split; [reflexivity|]);
      (split; [reflexivity|]); (split; [done|]); (split; [done|]);
      unfold twin_worlds; simpl; done.
  - destruct (serve_rotating_twins d ps ps (concurrent_idx sa)
                (concurrent_idx sb) time_unit (heap wa) (heap wb) Htw)
      as (oa & ob & ha' & hb' & -> & -> & Hf & Htw'); [done|done|].
    destruct oa as [ca|], ob as [cb|]; try done.
    + eexists _, _, _, _, _; (split; [reflexivity|]);
        (split; [reflexivity|]); (split; [|split; [done|]]).
      * unfold twin_lines. simpl. done.
      * unfold twin_worlds; simpl; done.
    + eexists _, _, _, _, _; (split; [reflexivity|]);
        (split; [reflexivity|]); (split; [done|]); (split; [done|]);
        unfold twin_worlds; simpl; done.
  - pose proof (look_for_max_twins d ps ps (heap wa) (heap wb) (-1) None None
                  Htw ltac:(done) I) as Hch.
    destruct (look_for_max ps.*1 _ _ _) as [xa|],
             (look_for_max ps.*2 _ _ _) as [xb|]; try done.
    + destruct (serve_and_ignore_twins d ps xa xb time_unit _ _ Htw Hch)
        as (ha' & hb' & -> & -> & Htw').
      eexists _, _, _, _, _; (split; [reflexivity|]);
        (split; [reflexivity|]); (split; [done|]); (split; [done|]);
        unfold twin_worlds; simpl; done.
    + eexists _, _, _, _, _; (split; [reflexivity|]);
        (split; [reflexivity|]); (split; [done|]); (split; [done|]);
        unfold twin_worlds; simpl; done.
  - pose proof (look_for_min_twins d ps ps (heap wa) (heap wb)
                  (3 * RANDOM_MAX_TIME_TO_SERVE_A_REQUEST) None None
                  Htw ltac:(done) I) as Hch.
    destruct (look_for_min ps.*1 _ _ _) as [xa|],
             (look_for_min ps.*2 _ _ _) as [xb|]; try done.
    + destruct (serve_and_ignore_twins d ps xa xb time_unit _ _ Htw Hch)
        as (ha' & hb' & -> & -> & Htw').
      eexists _, _, _, _, _; (split; [reflexivity|]);
        (split; [reflexivity|]); (split; [done|]); (split; [done|]);
        unfold twin_worlds; simpl; done.
    + eexists _, _, _, _, _; (split; [reflexivity|]);
        (split; [reflexivity|]); (split; [done|]); (split; [done|]);
        unfold twin_worlds; simpl; done.
  - destruct Hrng as [Hrng|[Hno _]]; [|done].
    destruct ps as [|[xa xb] ps'] eqn:Eps.
    + eexists _, _, _, _, _; (split; [reflexivity|]);
        (split; [reflexivity|]); (split; [done|]); (split; [done|]);
        unfold twin_worlds; simpl; repeat (split; [done|]); by left.
    + rewrite <- Eps in *. simpl.
      replace (ps.*1) with (xa :: ps'.*1) by by rewrite Eps.
      replace (ps.*2) with (xb :: ps'.*2) by by rewrite Eps.
      rewrite <- Hrng. simpl length. rewrite !length_fmap.
      pose proof (randbelow_lt (S (length ps')) (rng wa) ltac:(lia)) as Hlt.
      destruct (randbelow (S (length ps')) (rng wa)) as [i g]. simpl in Hlt.
      destruct (lookup_lt_is_Some_2 ps i) as [[ya yb] Hi];
        [rewrite Eps; simpl; lia|].
      replace (xa :: ps'.*1) with (ps.*1) by by rewrite Eps.
      replace (xb :: ps'.*2) with (ps.*2) by by rewrite Eps.
      rewrite !list_lookup_fmap, Hi. simpl.
      destruct (serve_and_ignore_twins d ps ya yb time_unit _ _ Htw)
        as (ha' & hb' & -> & -> & Htw'); [by eapply list_elem_of_lookup_2|].
      eexists _, _, _, _, _; (split; [reflexivity|]);
        (split; [reflexivity|]); (split; [done|]); (split; [done|]).
      unfold twin_worlds; simpl; repeat (split; [done|]); by left.
Qed.

Lemma process_queued_requests_twins (d : Z) (s : Strategy)
    (arrivals : list arrival) (ps : list (nat * nat))
    (sa sb : myServiceLine.t) (time_unit : Z) (wa wb : World G) :
  twin_lines d ps sa sb -> service_type sa = s ->
  twin_worlds d s arrivals ps wa wb ->
  exists b sa' sb' wa' wb',
    process_queued_requests sa time_unit wa = Done ((b, sa'), wa') /\
    process_queued_requests sb time_unit wb = Done ((b, sb'), wb') /\
    twin_lines d ps sa' sb' /\ service_type sa' = s /\
    twin_worlds d s arrivals ps wa' wb'.
Proof.
  intros Hl Hs Hw. pose proof Hw as (Htw & Hid & Hia & Hib & Hrng).
  pose proof Hl as (Hqa & Hqb & _).
  pose proof (observe_queue_twins d ps sa sb (heap wa) (heap wb) Hl Htw) as Ho.
  assert (Hos : service_type (observe_queue sa (heap wa)) = s).
  { by rewrite (proj1 (proj2 (observe_queue_fields sa (heap wa)))). }
  unfold process_queued_requests, serve_priority.
  rewrite Hqa, Hqb, !length_fmap.
  rewrite <- (priority_requests_twins d (heap wa) (heap wb) ps Htw).
  destruct (0 <? length ps)%nat;
    [destruct (0 <? length (priority_requests (heap wa) ps.*1))%nat|].
  - destruct (serve_first_priority_twins d ps ps time_unit (heap wa) (heap wb)
                Htw) as (b & ha' & hb' & -> & -> & Htw'); [done|].
    destruct b.
    + eexists _, _, _, _, _. split; [reflexivity|]. split; [reflexivity|].
      split; [done|]. split; [done|]. unfold twin_worlds. simpl. done.
    + apply apply_strategy_twins; [done|done|].
      unfold twin_worlds. simpl. done.
  - apply apply_strategy_twins; [done|done|].
    unfold twin_worlds. simpl. done.
  - apply apply_strategy_twins; [done|done|].
    unfold twin_worlds. simpl. done.
Qed.

Lemma insert_new_incoming_request_max (self : myServiceLine.t)
    (time_unit ttl : Z) (prio : bool) (waiting_for : list loc) (w : World G) :
  exists r self' w',
    insert_new_incoming_request self time_unit ttl prio waiting_for w =
    Done ((r, self'), w') /\
    max_nr_of_pending_requests self' =
    Z.max (max_nr_of_pending_requests self)
      (Z.of_nat (length (active_requests (heap w') (queue self')))).
Proof.
  unfold insert_new_incoming_request, new_request, get_heap.
  unfold mbind, M_bind, mret, M_ret. simpl.
  eexists _, _, _. split; [reflexivity|].
  destruct (Z.ltb_spec (max_nr_of_pending_requests self)
              (Z.of_nat (length (active_requests
                 (heap w ++ [myServiceRequest.init (ID_REQUESTS w) time_unit
                               ttl prio waiting_for])
                 (queue self ++ [length (heap w)]))))); simpl; lia.
Qed.

Lemma insert_new_incoming_request_twins (d : Z) (s : Strategy)
    (arrivals : list arrival) (ps : list (nat * nat))
    (sa sb : myServiceLine.t) (time_unit ttl : Z) (prio : bool)
    (wa wb : World G) :
  twin_lines d ps sa sb -> service_type sa = s ->
  twin_worlds d s arrivals ps wa wb ->
  exists ps' ra rb sa' sb' wa' wb',
    insert_new_incoming_request sa time_unit ttl prio [] wa =
    Done ((ra, sa'), wa') /\
    insert_new_incoming_request sb time_unit ttl prio [] wb =
    Done ((rb, sb'), wb') /\
    twin_lines d ps' sa' sb' /\ service_type sa' = s /\
    twin_worlds d s arrivals ps' wa' wb'.
Proof.
  intros Hl Hs (Htw & Hid & Hia & Hib & Hrng).
  pose proof Hl as (Hqa & Hqb & Harr & Hne & Hpc & Hacc & Hmax & Hst & Hc).
  destruct (insert_new_incoming_request_done sa time_unit ttl prio [] wa)
    as (sa' & Ha & Hqa' & Harra & Hsta & Hca & Hnea & Hacca & Hpca & _).
  destruct (insert_new_incoming_request_done sb time_unit ttl prio [] wb)
    as (sb' & Hb & Hqb' & Harrb & Hstb & Hcb & Hneb & Haccb & Hpcb & _).
  destruct (insert_new_incoming_request_max sa time_unit ttl prio [] wa)
    as (ra & sa2 & wa2 & Ha2 & Hmaxa).
  destruct (insert_new_incoming_request_max sb time_unit ttl prio [] wb)
    as (rb & sb2 & wb2 & Hb2 & Hmaxb).
  rewrite Ha in Ha2. injection Ha2 as <- <- <-.
  rewrite Hb in Hb2. injection Hb2 as <- <- <-.
  simpl in Hmaxa, Hmaxb.
  set (ps' := ps ++ [(length (heap wa), length (heap wb))]).
  set (na := myServiceRequest.init (ID_REQUESTS wa) time_unit ttl prio []) in *.
  set (nb := myServiceRequest.init (ID_REQUESTS wb) time_unit ttl prio []) in *.
  assert (Htw' : twins d (heap wa ++ [na]) (heap wb ++ [nb]) ps').
  { destruct Htw as (Hn1 & Hn2 & Hall). subst ps'.
    rewrite Forall_forall in Hall. split; [|split].
    - rewrite fmap_app. apply NoDup_app. split; [done|]. simpl. split.
      + intros x Hx Hx'. apply list_elem_of_singleton in Hx' as ->.
        apply list_elem_of_fmap in Hx as ([a b] & Hab & Hin). simpl in Hab.
        subst a. destruct (Hall _ Hin) as (Hlt & _). simpl in Hlt. lia.
      + apply NoDup_singleton.
    - rewrite fmap_app. apply NoDup_app. split; [done|]. simpl. split.
      + intros x Hx Hx'. apply list_elem_of_singleton in Hx' as ->.
        apply list_elem_of_fmap in Hx as ([a b] & Hab & Hin). simpl in Hab.
        subst b. destruct (Hall _ Hin) as (_ & Hlt & _). simpl in Hlt. lia.
      + apply NoDup_singleton.
    - apply Forall_app. split.
      + apply Forall_forall. intros [a b] Hin.
        destruct (Hall _ Hin) as (H1 & H2 & H3 & H4 & H5 & H6).
        simpl in *. unfold twin. simpl. rewrite !length_app.
        rewrite !lookup_total_app_l by done.
        repeat split; try done; lia.
      + constructor; [|constructor]. unfold twin. simpl.
        rewrite !length_app. simpl.
        rewrite !list_lookup_total_middle by done.
        subst na nb. unfold myServiceRequest.init, shift. simpl.
        rewrite Hid. repeat split; try done; lia. }
  exists ps', (length (heap wa)), (length (heap wb)), sa', sb'.
  eexists _, _. split; [exact Ha|]. split; [exact Hb|]. split; [|split].
  - unfold twin_lines. subst ps'. rewrite !fmap_app. simpl.
    rewrite Hqa', Hqb', Hqa, Hqb, Harra, Harrb, Hnea, Hneb, Hpca, Hpcb,
      Hacca, Haccb, Hsta, Hstb, Hca, Hcb, Hmaxa, Hmaxb, Harr, Hmax.
    repeat split; try done.
    pose proof (active_requests_twins d _ _ _ Htw') as Hact.
    rewrite !fmap_app in Hact. simpl in Hact.
    rewrite Hqa', Hqb', Hqa, Hqb. by rewrite Hact.
  - congruence.
  - unfold twin_worlds. simpl. split; [done|]. split; [lia|].
    split; [lia|]. split; [lia|done].
Qed.

Lemma twin_worlds_set_rng (d : Z) (s : Strategy) (arrivals : list arrival)
    (ps : list (nat * nat)) (wa wb : World G) (g : G) :
  twin_worlds d s arrivals ps wa wb ->
  twin_worlds d s arrivals ps (set_rng g wa) (set_rng g wb).
Proof.
  intros (Htw & Hid & Hia & Hib & _). unfold twin_worlds. simpl.
  repeat (split; [done|]). by left.
Qed.

Lemma line_time_unit_twins (d : Z) (s : Strategy) (arrivals : list arrival)
    (ps : list (nat * nat)) (sa sb : myServiceLine.t) (time_unit : Z)
    (wa wb : World G) :
  twin_lines d ps sa sb -> service_type sa = s ->
  twin_worlds d s arrivals ps wa wb ->
  exists ps' sa' sb' wa' wb',
    myServiceLine.run_time_unit arrivals sa time_unit wa = Done (sa', wa') /\
    myServiceLine.run_time_unit arrivals sb time_unit wb = Done (sb', wb') /\
    twin_lines d ps' sa' sb' /\ service_type sa' = s /\
    twin_worlds d s arrivals ps' wa' wb'.
Proof.
  intros Hl Hs Hw.
  assert (Hins : forall ttl prio (wa0 wb0 : World G),
    twin_worlds d s arrivals ps wa0 wb0 ->
    exists ps' sa' sb' wa' wb',
      (rs ← insert_new_incoming_request sa time_unit ttl prio [];
       mret (snd rs)) wa0 = Done (sa', wa') /\
      (rs ← insert_new_incoming_request sb time_unit ttl prio [];
       mret (snd rs)) wb0 = Done (sb', wb') /\
      twin_lines d ps' sa' sb' /\ service_type sa' = s /\
      twin_worlds d s arrivals ps' wa' wb').
  { intros ttl prio wa0 wb0 Hw0.
    destruct (insert_new_incoming_request_twins d s arrivals ps sa sb
                time_unit ttl prio wa0 wb0 Hl Hs Hw0)
      as (ps' & ra & rb & sa' & sb' & wa' & wb' & Ha & Hb & Hl' & Hs' & Hw').
    exists ps', sa', sb', wa', wb'.
    rewrite (bind_eq _ _ _ _ _ Ha), (bind_eq _ _ _ _ _ Hb). done. }
  assert (Hpro : forall (wa0 wb0 : World G),
    twin_worlds d s arrivals ps wa0 wb0 ->
    exists ps' sa' sb' wa' wb',
      (bs ← process_queued_requests sa time_unit;
       mret (snd bs)) wa0 = Done (sa', wa') /\
      (bs ← process_queued_requests sb time_unit;
       mret (snd bs)) wb0 = Done (sb', wb') /\
      twin_lines d ps' sa' sb' /\ service_type sa' = s /\
      twin_worlds d s arrivals ps' wa' wb').
  { intros wa0 wb0 Hw0.
    destruct (process_queued_requests_twins d s arrivals ps sa sb
                time_unit wa0 wb0 Hl Hs Hw0)
      as (b & sa' & sb' & wa' & wb' & Ha & Hb & Hl' & Hs' & Hw').
    exists ps, sa', sb', wa', wb'.
    rewrite (bind_eq _ _ _ _ _ Ha), (bind_eq _ _ _ _ _ Hb). done. }
  unfold myServiceLine.run_time_unit. destruct arrivals as [|a arrivals].
  - pose proof Hw as (_ & _ & _ & _ & [Hrng|[_ Hne]]); [|done].
    rewrite !(bind_eq _ _ _ _ _ (draw_done _ _)). rewrite <- Hrng.
    pose proof (twin_worlds_set_rng d s [] ps wa wb
                  (snd (random (rng wa))) Hw) as Hw1.
    destruct (Qltb _ _); [|by apply Hpro].
    rewrite !(bind_eq _ _ _ _ _ (draw_time_to_serve_eq _)).
    cbn [rng set_rng].
    set (g1 := snd (randint 1 RANDOM_MAX_TIME_TO_SERVE_A_REQUEST
                      (snd (random (rng wa))))).
    pose proof (twin_worlds_set_rng d s [] ps _ _ g1 Hw1) as Hw2.
    rewrite !(bind_eq _ _ _ _ _ (draw_priority_eq _)).
    cbn [rng set_rng].
    apply Hins. by apply twin_worlds_set_rng.
  - destruct (search_result_list _ _) as [|[[[x ttl] p] dl] l].
    + by apply Hpro.
    + by apply Hins.
Qed.

Lemma line_run_loop_twins (d : Z) (s : Strategy) (arrivals : list arrival)
    (time_units : list Z) (ps : list (nat * nat))
    (sa sb : myServiceLine.t) (wa wb : World G) :
  twin_lines d ps sa sb -> service_type sa = s ->
  twin_worlds d s arrivals ps wa wb ->
  exists ps' sa' sb' wa' wb',
    myServiceLine.run_loop arrivals sa time_units wa = Done (sa', wa') /\
    myServiceLine.run_loop arrivals sb time_units wb = Done (sb', wb') /\
    twin_lines d ps' sa' sb' /\
    twin_worlds d s arrivals ps' wa' wb'.
Proof.
  revert ps sa sb wa wb.
  induction time_units as [|t ts IH]; intros ps sa sb wa wb Hl Hs Hw.
  - exists ps, sa, sb, wa, wb. done.
  - destruct (line_time_unit_twins d s arrivals ps sa sb t wa wb Hl Hs Hw)
      as (ps1 & sa1 & sb1 & wa1 & wb1 & Ha & Hb & Hl1 & Hs1 & Hw1).
    destruct (IH ps1 sa1 sb1 wa1 wb1 Hl1 Hs1 Hw1)
      as (ps' & sa' & sb' & wa' & wb' & Ha' & Hb' & Hl' & Hw').
    exists ps', sa', sb', wa', wb'. simpl.
    rewrite (bind_eq _ _ _ _ _ Ha), (bind_eq _ _ _ _ _ Hb). done.
Qed.

Lemma extra_durations_twins (d : Z) (ps P : list (nat * nat))
    (ha hb : store) :
  twins d ha hb ps -> (forall p, p ∈ P -> p ∈ ps) ->
  extra_durations ha P.*1 = extra_durations hb P.*2.
Proof.
  intros Htw. induction P as [|[xa xb] P IH]; intros HP; [done|].
  rewrite !fmap_cons. cbn [extra_durations fst snd].
  assert (Hx : (xa, xb) ∈ ps) by (apply HP; left).
  destruct (twins_elem _ _ _ _ _ Htw Hx) as (_ & _ & Hb & _). simpl in Hb.
  assert (Hf : status (hb !!! xb) = status (ha !!! xa) /\
               time_of_completion (hb !!! xb) = time_of_completion (ha !!! xa) /\
               time_to_start (hb !!! xb) = time_to_start (ha !!! xa) /\
               minimum_duration (hb !!! xb) = minimum_duration (ha !!! xa))
    by by rewrite Hb.
  destruct Hf as (-> & -> & -> & ->). rewrite IH; [done|].
  intros p Hp. apply HP. by right.
Qed.

Lemma performance_twins (d : Z) (ps : list (nat * nat))
    (sa sb : myServiceLine.t) (wa wb : World G) :
  twin_lines d ps sa sb -> twins d (heap wa) (heap wb) ps ->
  value_of (performance sa wa) = value_of (performance sb wb).
Proof.
  intros (Hqa & Hqb & Harr & Hne & Hpc & Hacc & Hmax & Hst & Hc) Htw.
  unfold performance. rewrite Hqa, Hqb.
  rewrite (extra_durations_twins d ps ps (heap wa) (heap wb) Htw) by done.
  destruct (extra_durations (heap wb) ps.*2) as [[|x l]|e]; simpl; [done| |done].
  by rewrite Hne, Hpc, Hacc, Hmax.
Qed.

(** C10 (as amended).  Two runs of new lines with the same strategy and
    the same LOG, from process states whose request counters are at
    least 1 (the counter starts at 1 and only grows): both stop in
    [quit()], or both return the same performance parameters, provided
    that the two runs start from the same state of the random generator,
    or that the generator is not consulted at all (the LOG is not empty
    and the strategy is not RANDOMCHOICE). *)
Theorem replay_determinism (service_type : Z) (arrivals : list arrival)
    (wa0 wb0 wa wb : World G) (sa sb : myServiceLine.t) :
  myServiceLine.init service_type wa0 = Done (sa, wa) ->
  myServiceLine.init service_type wb0 = Done (sb, wb) ->
  1 <= ID_REQUESTS wa0 -> 1 <= ID_REQUESTS wb0 ->
  rng wa0 = rng wb0 \/
  (arrivals <> [] /\ strategy_of_Z service_type <> Some RANDOMCHOICE) ->
  returned (myServiceLine.run sa arrivals wa) =
  returned (myServiceLine.run sb arrivals wb).
Proof.
  intros Ha Hb Hia Hib Hrng.
  destruct (line_init_done _ _ _ _ Ha)
    as (Hqa & Hha & Hida & Hrnga & Hca & Hmaxa & Hsta).
  destruct (line_init_done _ _ _ _ Hb)
    as (Hqb & Hhb & Hidb & Hrngb & Hcb & Hmaxb & Hstb).
  set (d := ID_REQUESTS wb - ID_REQUESTS wa).
  assert (Hl : twin_lines d [] sa sb).
  { unfold myServiceLine.init in Ha, Hb.
    destruct (strategy_of_Z service_type); [|discriminate].
    injection Ha as <- <-. injection Hb as <- <-.
    unfold twin_lines, twin_cursors. simpl. repeat split; auto. }
  assert (Hw : twin_worlds d (myServiceLine.service_type sa) arrivals []
                 wa wb).
  { unfold twin_worlds. split.
    - split; [constructor|]. split; constructor.
    - split; [subst d; lia|]. split; [lia|]. split; [lia|].
      destruct Hrng as [Hrng|[Hne Hst]]; [left; congruence|right].
      split; [|done]. intros Heq. apply Hst. by rewrite Hsta, Heq. }
  destruct (line_run_loop_twins d (myServiceLine.service_type sa) arrivals
              (range TOTAL_NR_OF_TIME_UNITS) [] sa sb wa wb Hl eq_refl Hw)
    as (ps' & sa' & sb' & wa' & wb' & Hra & Hrb & Hl' & Htw' & _).
  pose proof (performance_twins d ps' sa' sb' wa' wb' Hl' Htw') as Hp.
  unfold myServiceLine.run.
  rewrite (bind_eq _ _ _ _ _ Hra), (bind_eq _ _ _ _ _ Hrb).
  clear Hra Hrb. unfold mbind, M_bind.
  destruct (performance sa' wa') as [[va wa2]|ea],
           (performance sb' wb') as [[vb wb2]|eb];
    cbn [value_of] in Hp; cbn [returned mret M_ret]; congruence.
Qed.

(** ** One request served time unit after time unit *)

Lemma serve_request_active (self : loc) (time_unit : Z) (h : store) :
  status (h !!! self) = ACTIVE_REQUEST ->
  serve_request self time_unit h =
  Done (true,
        <[self := if 0 <? time_to_live (h !!! self) - 1
                  then set_time_to_live (time_to_live (h !!! self) - 1)
                         (h !!! self)
                  else set_time_of_completion (Some time_unit)
                         (set_status REQUEST_COMPLETION
                            (set_time_to_live (time_to_live (h !!! self) - 1)
                               (h !!! self)))]> h).
Proof.
  intros Hs. unfold serve_request. rewrite Hs. cbn [time_to_live set_time_to_live].
  by destruct (0 <? time_to_live (h !!! self) - 1).
Qed.

Lemma serve_repeatedly_completed (self : loc) (time_units : list Z)
    (h : store) :
  status (h !!! self) = REQUEST_COMPLETION ->
  serve_repeatedly self time_units h = Done h.
Proof.
  intros Hs. induction time_units as [|t ts IH]; [done|].
  cbn [serve_repeatedly]. unfold serve_request. by rewrite Hs.
Qed.

(** X1: a request of weight n that is served once per time unit is
    still active, with one unit left, after n - 1 services; the n-th
    service completes it and stamps it with the time unit of that service;
    services after that change nothing. *)
Theorem request_completes_after_its_weight (h : store) (self : loc)
    (time_units : list Z) (last : Z) (later : list Z) :
  (self < length h)%nat ->
  status (h !!! self) = ACTIVE_REQUEST ->
  time_to_live (h !!! self) = Z.of_nat (length time_units) + 1 ->
  serve_repeatedly self time_units h =
  Done (<[self := set_time_to_live 1 (h !!! self)]> h) /\
  serve_repeatedly self (time_units ++ last :: later) h =
  Done (<[self := set_time_of_completion (Some last)
                    (set_status REQUEST_COMPLETION
                       (set_time_to_live 0 (h !!! self)))]> h).
Proof.
  revert h. induction time_units as [|t ts IH]; intros h Hlt Hs Httl.
  - cbn [length Z.of_nat Z.add] in Httl. split.
    + cbn [serve_repeatedly]. f_equal. symmetry. apply list_insert_id.
      rewrite list_lookup_lookup_total_lt by done. f_equal.
      destruct (h !!! self); cbn in *; by subst.
    + cbn [app serve_repeatedly]. rewrite serve_request_active by done.
      rewrite Httl. cbn [Z.sub Z.add Z.opp Z.pos_sub Z.ltb Z.compare].
      apply serve_repeatedly_completed.
      by rewrite list_lookup_total_insert_eq.
  - cbn [app serve_repeatedly]. rewrite serve_request_active by done.
    assert ((0 <? time_to_live (h !!! self) - 1) = true) as ->.
    { apply Z.ltb_lt. rewrite Httl. cbn [length]. lia. }
    set (h1 := <[self := _]> h).
    assert (Hself : h1 !!! self =
              set_time_to_live (time_to_live (h !!! self) - 1) (h !!! self)).
    { unfold h1. by rewrite list_lookup_total_insert_eq. }
    destruct (IH h1) as [IH1 IH2].
    + unfold h1. by rewrite length_insert.
    + by rewrite Hself.
    + rewrite Hself. cbn [time_to_live set_time_to_live]. rewrite Httl.
      cbn [length]. lia.
    + rewrite IH1, IH2, Hself. unfold h1. rewrite !list_insert_insert_eq.
      done.
Qed.

(** ** One call of the dispatcher *)

Lemma filter_none {A} (P : A -> Prop) `{forall x, Decision (P x)}
    (l : list A) :
  (forall x, x ∈ l -> ~ P x) -> filter P l = [].
Proof.
  induction l as [|a l IH]; intros Hno; [done|].
  rewrite filter_cons. destruct (decide (P a)) as [Hp|_].
  - exfalso. apply (Hno a); [left|done].
  - apply IH. intros x Hx. apply Hno. by right.
Qed.

Lemma serve_priority_none (self : myServiceLine.t) (time_unit : Z)
    (h : store) :
  (forall x, x ∈ queue self -> priority (h !!! x) = false) ->
  serve_priority self time_unit h = Done (false, h).
Proof.
  intros Hno. unfold serve_priority.
  destruct (0 <? length (queue self))%nat; [|done].
  assert (priority_requests h (queue self) = []) as ->; [|done].
  unfold priority_requests. apply filter_none.
  intros x Hx Hp. specialize (Hno x Hx). congruence.
Qed.

Lemma set_heap_heap (w : World G) : set_heap (heap w) w = w.
Proof. by destruct w. Qed.

Lemma serve_first_priority_one (q : list loc) (time_unit : Z)
    (h h' : store) :
  serve_first_priority q time_unit h = Done (true, h') ->
  exists r, r ∈ q /\ serve_request r time_unit h = Done (true, h').
Proof.
  induction q as [|x q IH]; cbn [serve_first_priority]; [discriminate|].
  destruct (priority (h !!! x)).
  - destruct (serve_request x time_unit h) as [[[] h1]|e] eqn:Hx;
      [| |discriminate].
    + intros [= <-]. exists x. split; [left|done].
    + apply serve_request_false in Hx as ->. intros Hq.
      destruct (IH Hq) as (r & Hr & Hs). exists r. split; [by right|done].
  - intros Hq. destruct (IH Hq) as (r & Hr & Hs).
    exists r. split; [by right|done].
Qed.

Lemma serve_first_one (q : list loc) (time_unit : Z) (h h' : store) :
  serve_first q time_unit h = Done (true, h') ->
  exists r, r ∈ q /\ serve_request r time_unit h = Done (true, h').
Proof.
  induction q as [|x q IH]; cbn [serve_first]; [discriminate|].
  destruct (serve_request x time_unit h) as [[[] h1]|e] eqn:Hx;
    [| |discriminate].
  - intros [= <-]. exists x. split; [left|done].
  - apply serve_request_false in Hx as ->. intros Hq.
    destruct (IH Hq) as (r & Hr & Hs). exists r. split; [by right|done].
Qed.

Lemma serve_first_false (q : list loc) (time_unit : Z) (h h' : store) :
  serve_first q time_unit h = Done (false, h') -> h' = h.
Proof.
  induction q as [|x q IH]; cbn [serve_first]; [by intros [= <-]|].
  destruct (serve_request x time_unit h) as [[[] h1]|e] eqn:Hx;
    [discriminate| |discriminate].
  apply serve_request_false in Hx as ->. exact IH.
Qed.

(** X2: on an empty queue every strategy reports an idle time unit:
    the call returns False, adds one to the count of empty time units and
    changes nothing else, neither in the line nor in the process state
    (RANDOMCHOICE does not draw). *)
Theorem dispatch_on_empty_queue (self : myServiceLine.t) (time_unit : Z)
    (w : World G) :
  queue self = [] ->
  process_queued_requests self time_unit w =
  Done ((false, empty_time_unit self), w).
Proof.
  intros Hq. unfold process_queued_requests, observe_queue, serve_priority.
  rewrite Hq. cbn [length Nat.ltb Nat.leb]. rewrite set_heap_heap.
  unfold apply_strategy. rewrite Hq.
  destruct (service_type self); cbn [serve_first serve_rotating look_for_max
    look_for_min]; by rewrite ?set_heap_heap.
Qed.

Lemma process_queued_requests_empty_line (self self' : myServiceLine.t)
    (time_unit : Z) (w w' : World G) (b : bool) :
  process_queued_requests self time_unit w = Done ((b, self'), w') ->
  nr_of_times_empty_line self' =
  nr_of_times_empty_line self + (if b then 0 else 1) /\
  accumulate_nr_of_active_requests self' =
  accumulate_nr_of_active_requests (observe_queue self (heap w)) /\
  percentage_of_active_requests self' =
  percentage_of_active_requests (observe_queue self (heap w)).
Proof.
  unfold process_queued_requests.
  pose proof (observe_queue_fields self (heap w)) as (Hq & _ & _ & He & _).
  destruct (serve_priority self time_unit (heap w)) as [[[] h1]|e];
    [| |discriminate].
  - intros [= <- <- _]. split; [lia|done].
  - revert He. generalize (observe_queue self (heap w)). intros s He.
    unfold apply_strategy.
    destruct (service_type s).
    + destruct (serve_first _ _ _) as [[[] h2]|e]; intros [= <- <- _];
        cbn; (split; [lia|done]).
    + destruct (serve_rotating _ _ _ _ _) as [[[c|] h2]|e];
        intros [= <- <- _]; cbn; (split; [lia|done]).
    + destruct (look_for_max _ _ _ _) as [r|].
      * destruct (serve_and_ignore _ _ _); intros [= <- <- _]; cbn;
          (split; [lia|done]).
      * intros [= <- <- _]; cbn; (split; [lia|done]).
    + destruct (look_for_min _ _ _ _) as [r|].
      * destruct (serve_and_ignore _ _ _); intros [= <- <- _]; cbn;
          (split; [lia|done]).
      * intros [= <- <- _]; cbn; (split; [lia|done]).
    + destruct (queue s); [intros [= <- <- _]; cbn; (split; [lia|done])|].
      destruct (randbelow _ _) as [i g].
      destruct (_ !! i); [|discriminate].
      destruct (serve_and_ignore _ _ _); intros [= <- <- _]; cbn;
        (split; [lia|done]).
Qed.

(** X3: the count of empty time units counts the calls that return
    False: a call that returns True leaves it, a call that returns False
    adds one. *)
Theorem empty_counter_counts_false_returns (self self' : myServiceLine.t)
    (time_unit : Z) (w w' : World G) (b : bool) :
  process_queued_requests self time_unit w = Done ((b, self'), w') ->
  nr_of_times_empty_line self' =
  nr_of_times_empty_line self + (if b then 0 else 1).
Proof.
  intros Hp. by apply process_queued_requests_empty_line in Hp as [He _].
Qed.

(** X4: SEQUENTIAL, LOOKFORMAX, LOOKFORMIN and RANDOMCHOICE serve at
    most one request in a call: a call that returns False leaves the whole
    process state as it was, and after a call that returns True the store
    is the one that a single [serve_request], on a request of the queue,
    makes of the store before the call. *)
Theorem one_request_served_per_call (self self' : myServiceLine.t)
    (time_unit : Z) (w w' : World G) (b : bool) :
  service_type self <> CONCURRENT ->
  process_queued_requests self time_unit w = Done ((b, self'), w') ->
  (b = false -> w' = w) /\
  (b = true ->
   exists r b', r ∈ queue self /\
                serve_request r time_unit (heap w) = Done (b', heap w')).
Proof.
  intros Hty. unfold process_queued_requests.
  pose proof (observe_queue_fields self (heap w)) as (Hq & Hs & _).
  destruct (serve_priority self time_unit (heap w)) as [[[] h1]|e] eqn:Hp;
    [| |discriminate].
  - intros [= <- <- <-]. split; [discriminate|]. intros _.
    unfold serve_priority in Hp.
    destruct (0 <? length (queue self))%nat; [|discriminate].
    destruct (0 <? length (priority_requests _ _))%nat; [|discriminate].
    apply serve_first_priority_one in Hp as (r & Hr & Hr').
    by exists r, true.
  - apply serve_priority_false in Hp as ->. rewrite set_heap_heap.
    revert Hq Hs. generalize (observe_queue self (heap w)). intros s Hq Hs.
    rewrite <- Hq. rewrite <- Hs in Hty. clear Hq Hs.
    unfold apply_strategy. destruct (service_type s); [| done | | |].
    + destruct (serve_first _ _ _) as [[[] h2]|e] eqn:Hf;
        intros [= <- <- <-]; (split; [|intros Hb]; try discriminate).
      * apply serve_first_one in Hf as (r & Hr & Hr'). by exists r, true.
      * intros _. apply serve_first_false in Hf as ->. apply set_heap_heap.
    + destruct (look_for_max _ _ _ _) as [r|] eqn:Hl.
      * destruct (serve_and_ignore _ _ _) as [h2|e] eqn:Hi;
          intros [= <- <- <-]. split; [discriminate|]. intros _.
        apply look_for_max_elem in Hl as [Hl|Hl]; [|discriminate].
        unfold serve_and_ignore in Hi.
        destruct (serve_request r time_unit (heap w)) as [[b' h3]|e] eqn:Hr;
          [|discriminate].
        injection Hi as ->. by exists r, b'.
      * intros [= <- <- <-]. split; [done|discriminate].
    + destruct (look_for_min _ _ _ _) as [r|] eqn:Hl.
      * destruct (serve_and_ignore _ _ _) as [h2|e] eqn:Hi;
          intros [= <- <- <-]. split; [discriminate|]. intros _.
        apply look_for_min_elem in Hl as [Hl|Hl]; [|discriminate].
        unfold serve_and_ignore in Hi.
        destruct (serve_request r time_unit (heap w)) as [[b' h3]|e] eqn:Hr;
          [|discriminate].
        injection Hi as ->. by exists r, b'.
      * intros [= <- <- <-]. split; [done|discriminate].
    + destruct (queue s) as [|x q] eqn:Hqs;
        [intros [= <- <- <-]; split; [done|discriminate]|].
      destruct (randbelow _ _) as [i g].
      destruct (_ !! i) as [r|] eqn:Hi; [|discriminate].
      destruct (serve_and_ignore _ _ _) as [h2|e] eqn:Hsi;
        intros [= <- <- <-]. split; [discriminate|]. intros _.
      unfold serve_and_ignore in Hsi.
      destruct (serve_request r time_unit (heap w)) as [[b' h3]|e] eqn:Hr;
        [|discriminate].
      injection Hsi as ->. exists r, b'. split; [|done].
      by eapply list_elem_of_lookup_2.
Qed.

(** ** What each strategy serves *)

Lemma serve_request_idle (x : loc) (time_unit : Z) (h : store) :
  status (h !!! x) = REQUEST_COMPLETION \/
  (status (h !!! x) = WAITING_REQUEST /\
   exists s, s ∈ list_of_requests_it_is_waiting_for (h !!! x) /\
             status (h !!! s) <> REQUEST_COMPLETION) ->
  serve_request x time_unit h = Done (false, h).
Proof.
  intros [Hc|[Hw Hs]].
  - unfold serve_request. by rewrite Hc.
  - by apply serve_request_waiting.
Qed.

Lemma serve_first_skip (pre q : list loc) (time_unit : Z) (h : store) :
  (forall x, x ∈ pre -> serve_request x time_unit h = Done (false, h)) ->
  serve_first (pre ++ q) time_unit h = serve_first q time_unit h.
Proof.
  induction pre as [|x pre IH]; intros Hpre; [done|].
  cbn [app serve_first]. rewrite Hpre by left.
  apply IH. intros y Hy. apply Hpre. by right.
Qed.

(** X5: SEQUENTIAL serves the first request of the queue that is
    neither completed nor waiting for an uncompleted sub-request (no
    request of the queue having priority): requests that cannot be served
    do not block the ones behind them. *)
Theorem sequential_serves_first_unfinished (self : myServiceLine.t)
    (time_unit : Z) (w : World G) (pre post : list loc) (r : loc) :
  service_type self = SEQUENTIAL ->
  queue self = pre ++ r :: post ->
  (forall x, x ∈ queue self -> priority (heap w !!! x) = false) ->
  (forall x, x ∈ pre ->
     status (heap w !!! x) = REQUEST_COMPLETION \/
     (status (heap w !!! x) = WAITING_REQUEST /\
      exists s, s ∈ list_of_requests_it_is_waiting_for (heap w !!! x) /\
                status (heap w !!! s) <> REQUEST_COMPLETION)) ->
  status (heap w !!! r) = ACTIVE_REQUEST ->
  exists h1,
    serve_request r time_unit (heap w) = Done (true, h1) /\
    (forall x, x <> r -> h1 !!! x = heap w !!! x) /\
    process_queued_requests self time_unit w =
    Done ((true, observe_queue self (heap w)), set_heap h1 w).
Proof.
  intros Hty Hq Hno Hpre Hr.
  pose proof (serve_request_active r time_unit (heap w) Hr) as Hs.
  eexists. split; [exact Hs|]. split.
  { intros x Hx. by rewrite list_lookup_total_insert_ne. }
  unfold process_queued_requests. rewrite serve_priority_none by done.
  rewrite set_heap_heap.
  pose proof (observe_queue_fields self (heap w)) as (Hq' & Hs' & _).
  unfold apply_strategy. rewrite Hs', Hty, Hq', Hq.
  rewrite serve_first_skip.
  - cbn [serve_first]. by rewrite Hs.
  - intros x Hx. by apply serve_request_idle, Hpre.
Qed.

Lemma look_for_max_first (q : list loc) (h : store) (max_weight : Z)
    (best : option loc) :
  (look_for_max q h max_weight best = best /\
   forall x, x ∈ q -> time_to_live (h !!! x) <= max_weight) \/
  (exists pre r post,
     q = pre ++ r :: post /\
     look_for_max q h max_weight best = Some r /\
     max_weight < time_to_live (h !!! r) /\
     (forall x, x ∈ pre -> time_to_live (h !!! x) < time_to_live (h !!! r)) /\
     (forall x, x ∈ post -> time_to_live (h !!! x) <= time_to_live (h !!! r))).
Proof.
  revert max_weight best. induction q as [|a q IH]; intros m best.
  - left. split; [done|]. intros x Hx. inversion Hx.
  - cbn [look_for_max]. destruct (m <? time_to_live (h !!! a)) eqn:Hlt.
    + apply Z.ltb_lt in Hlt. right.
      destruct (IH (time_to_live (h !!! a)) (Some a))
        as [[He Hall]|(pre & r & post & -> & He & Hm & Hpre & Hpost)].
      * exists [], a, q. split; [done|]. split; [done|]. split; [done|].
        split; [intros x Hx; inversion Hx|done].
      * exists (a :: pre), r, post. split; [done|]. split; [done|].
        split; [lia|]. split; [|done].
        intros x Hx. apply elem_of_cons in Hx as [->|Hx]; [done|].
        by apply Hpre.
    + apply Z.ltb_ge in Hlt.
      destruct (IH m best)
        as [[He Hall]|(pre & r & post & -> & He & Hm & Hpre & Hpost)].
      * left. split; [done|].
        intros x Hx. apply elem_of_cons in Hx as [->|Hx]; [done|].
        by apply Hall.
      * right. exists (a :: pre), r, post. split; [done|]. split; [done|].
        split; [done|]. split; [|done].
        intros x Hx. apply elem_of_cons in Hx as [->|Hx]; [lia|].
        by apply Hpre.
Qed.

(** X6: LOOKFORMAX serves the request with the greatest remaining
    workload, the first one in queue order among equals, whenever some
    request of the queue has a remaining workload that is not negative
    (no request of the queue having priority); the call returns True
    whatever the status of that request. *)
Theorem look_for_max_serves_heaviest (self : myServiceLine.t)
    (time_unit : Z) (w : World G) :
  service_type self = LOOKFORMAX ->
  (forall x, x ∈ queue self -> priority (heap w !!! x) = false) ->
  (forall x, x ∈ queue self -> well_formed (heap w !!! x)) ->
  (exists x, x ∈ queue self /\ 0 <= time_to_live (heap w !!! x)) ->
  exists pre r post b h1,
    queue self = pre ++ r :: post /\
    (forall x, x ∈ pre ->
       time_to_live (heap w !!! x) < time_to_live (heap w !!! r)) /\
    (forall x, x ∈ post ->
       time_to_live (heap w !!! x) <= time_to_live (heap w !!! r)) /\
    serve_request r time_unit (heap w) = Done (b, h1) /\
    process_queued_requests self time_unit w =
    Done ((true, observe_queue self (heap w)), set_heap h1 w).
Proof.
  intros Hty Hno Hwf (x & Hx & Hpos).
  destruct (look_for_max_first (queue self) (heap w) (-1) None)
    as [[_ Hall]|(pre & r & post & Hq & He & Hm & Hpre & Hpost)].
  { specialize (Hall x Hx). lia. }
  destruct (serve_request_total r time_unit (heap w)) as (b & h1 & Hs).
  { apply Hwf. rewrite Hq. apply elem_of_app. right. left. }
  exists pre, r, post, b, h1. split; [done|]. split; [done|].
  split; [done|]. split; [done|].
  unfold process_queued_requests. rewrite serve_priority_none by done.
  rewrite set_heap_heap.
  pose proof (observe_queue_fields self (heap w)) as (Hq' & Hs' & _).
  unfold apply_strategy. rewrite Hs', Hty, Hq', He.
  unfold serve_and_ignore. by rewrite Hs.
Qed.

(** X7: RANDOMCHOICE on a queue that is not empty draws one index
    below the length of the queue and serves the request at that index:
    the choice never falls outside the queue, and the call returns True
    whatever the status of the chosen request (no request of the queue
    having priority). *)
Theorem random_choice_serves_queue_member (self : myServiceLine.t)
    (time_unit : Z) (w : World G) :
  service_type self = RANDOMCHOICE ->
  queue self <> [] ->
  (forall x, x ∈ queue self -> priority (heap w !!! x) = false) ->
  (forall x, x ∈ queue self -> well_formed (heap w !!! x)) ->
  let choice := randbelow (length (queue self)) (rng w) in
  exists r b h1,
    queue self !! fst choice = Some r /\
    serve_request r time_unit (heap w) = Done (b, h1) /\
    process_queued_requests self time_unit w =
    Done ((true, observe_queue self (heap w)),
          set_rng (snd choice) (set_heap h1 w)).
Proof.
  intros Hty Hne Hno Hwf choice.
  assert (Hlt : (fst choice < length (queue self))%nat).
  { apply randbelow_lt. destruct (queue self); [done|cbn; lia]. }
  destruct (lookup_lt_is_Some_2 _ _ Hlt) as [r Hr].
  destruct (serve_request_total r time_unit (heap w)) as (b & h1 & Hs).
  { apply Hwf. by eapply list_elem_of_lookup_2. }
  exists r, b, h1. split; [done|]. split; [done|].
  unfold process_queued_requests. rewrite serve_priority_none by done.
  rewrite set_heap_heap.
  pose proof (observe_queue_fields self (heap w)) as (Hq' & Hs' & _).
  unfold apply_strategy. rewrite Hs', Hty, Hq'.
  destruct (queue self) as [|a q] eqn:Hq; [done|].
  fold choice. destruct choice as [i g] eqn:Hc. cbn [fst snd] in *.
  rewrite Hr. unfold serve_and_ignore. by rewrite Hs.
Qed.

Lemma serve_rotating_behind_cursor (whole pre post : list loc) (r : loc)
    (idx time_unit : Z) (h : store) :
  NoDup (pre ++ [r]) ->
  (forall x, x ∈ pre ++ [r] ->
     (x < length h)%nat /\ status (h !!! x) = ACTIVE_REQUEST) ->
  (forall x, x ∈ pre -> service_id (h !!! x) <= idx) ->
  idx < service_id (h !!! r) ->
  exists c h',
    serve_rotating whole (pre ++ r :: post) idx time_unit h =
    Done (Some c, h') /\
    length h' = length h /\
    (forall x, x ∈ pre ++ [r] ->
       time_to_live (h' !!! x) = time_to_live (h !!! x) - 1) /\
    (forall x, x ∉ pre ++ [r] -> h' !!! x = h !!! x).
Proof.
  revert h. induction pre as [|a pre IH]; intros h Hnd Hact Hids Hr.
  - destruct (Hact r) as [Hlt Hs]; [left|].
    pose proof (serve_request_done r time_unit h) as Hd.
    rewrite (serve_request_active r time_unit h Hs) in *.
    set (h1 := <[r := _]> h) in *.
    destruct (Hd h1 true eq_refl) as (r' & Hh1 & Hstep).
    assert (Hr1 : h1 !!! r = r').
    { rewrite Hh1. by rewrite list_lookup_total_insert_eq. }
    apply req_step_fields in Hstep as Hf.
    destruct Hf as (Hid & _).
    cbn [app serve_rotating]. rewrite serve_request_active by done. fold h1.
    rewrite Hr1, Hid.
    assert ((idx <? service_id (h !!! r)) = true) as -> by by apply Z.ltb_lt.
    cbn [andb].
    assert (Hlen : length h1 = length h) by (unfold h1; by rewrite length_insert).
    assert (Httl : forall x, x ∈ [r] ->
              time_to_live (h1 !!! x) = time_to_live (h !!! x) - 1).
    { intros x Hx. apply list_elem_of_singleton in Hx as ->.
      unfold h1. rewrite list_lookup_total_insert_eq by done.
      by destruct (0 <? _). }
    assert (Hfr : forall x, x ∉ [r] -> h1 !!! x = h !!! x).
    { intros x Hx. unfold h1. rewrite list_lookup_total_insert_ne; [done|].
      intros ->. apply Hx. left. }
    destruct (length (remaining_requests h1 whole (service_id (h !!! r)))
              =? 0)%nat; eexists _, h1; done.
  - destruct (Hact a) as [Hlt Hs]; [left|].
    cbn [app serve_rotating]. rewrite serve_request_active by done.
    set (h1 := <[a := _]> h).
    assert (Ha1 : service_id (h1 !!! a) = service_id (h !!! a)).
    { unfold h1. rewrite list_lookup_total_insert_eq by done.
      by destruct (0 <? _). }
    rewrite Ha1.
    assert ((idx <? service_id (h !!! a)) = false) as ->.
    { apply Z.ltb_ge, Hids. left. }
    cbn [andb].
    assert (Hother : forall x, x <> a -> h1 !!! x = h !!! x).
    { intros x Hx. unfold h1. by rewrite list_lookup_total_insert_ne. }
    assert (Hlen : length h1 = length h) by (unfold h1; by rewrite length_insert).
    cbn [app] in Hnd. apply NoDup_cons in Hnd as [Hna Hnd].
    destruct (IH h1) as (c & h' & Hrun & Hlen' & Httl & Hfr).
    + done.
    + intros x Hx. rewrite Hlen, Hother.
      * apply Hact. by right.
      * intros ->. done.
    + intros x Hx. rewrite Hother.
      * apply Hids. by right.
      * intros ->. apply Hna, elem_of_app. by left.
    + rewrite Hother; [done|]. intros ->. apply Hna, elem_of_app. right. left.
    + exists c, h'. split; [done|]. split; [lia|]. split.
      * intros x Hx. cbn [app] in Hx. apply elem_of_cons in Hx as [->|Hx].
        -- rewrite Hfr by done. unfold h1.
           rewrite list_lookup_total_insert_eq by done. by destruct (0 <? _).
        -- rewrite Httl by done. rewrite Hother; [done|]. by intros ->.
      * intros x Hx. rewrite Hfr.
        -- apply Hother. intros ->. apply Hx. left.
        -- intros Hin. apply Hx. by right.
Qed.

(** X8: CONCURRENT can serve several requests in one call: every
    request of the queue is served in turn until one whose identifier is
    greater than the cursor reports work.  So when the queue starts with
    active requests whose identifiers are not greater than the cursor,
    followed by an active request whose identifier is greater, one call
    does one unit of work on each of them (no request of the queue
    having priority). *)
Theorem concurrent_serves_up_to_cursor (self : myServiceLine.t)
    (time_unit : Z) (w : World G) (pre post : list loc) (r : loc) :
  service_type self = CONCURRENT ->
  queue self = pre ++ r :: post ->
  NoDup (pre ++ [r]) ->
  (forall x, x ∈ queue self -> priority (heap w !!! x) = false) ->
  (forall x, x ∈ pre ++ [r] ->
     (x < length (heap w))%nat /\ status (heap w !!! x) = ACTIVE_REQUEST) ->
  (forall x, x ∈ pre -> service_id (heap w !!! x) <= concurrent_idx self) ->
  concurrent_idx self < service_id (heap w !!! r) ->
  exists self' w',
    process_queued_requests self time_unit w = Done ((true, self'), w') /\
    (forall x, x ∈ pre ++ [r] ->
       time_to_live (heap w' !!! x) = time_to_live (heap w !!! x) - 1) /\
    (forall x, x ∉ pre ++ [r] -> heap w' !!! x = heap w !!! x) /\
    nr_of_times_empty_line self' = nr_of_times_empty_line self.
Proof.
  intros Hty Hq Hnd Hno Hact Hids Hr.
  pose proof (observe_queue_fields self (heap w))
    as (Hq' & Hs' & Hc' & He' & _).
  destruct (serve_rotating_behind_cursor (queue self) pre post r
              (concurrent_idx self) time_unit (heap w))
    as (c & h' & Hrun & _ & Httl & Hfr); [done..|].
  exists (set_concurrent_idx c (observe_queue self (heap w))), (set_heap h' w).
  split; [|done].
  unfold process_queued_requests. rewrite serve_priority_none by done.
  rewrite set_heap_heap.
  unfold apply_strategy. rewrite Hs', Hty, Hq', Hc'.
  rewrite Hq at 2. by rewrite Hrun.
Qed.

(** ** The store only evolves *)

Lemma evolved_refl (r : myServiceRequest.t) : evolved r r.
Proof. unfold evolved. repeat split; (done || lia). Qed.

Lemma evolved_trans (r1 r2 r3 : myServiceRequest.t) :
  evolved r1 r2 -> evolved r2 r3 -> evolved r1 r3.
Proof.
  intros (Ha1 & Ha2 & Ha3 & Ha4 & Ha5 & Ha6 & Ha7 & Ha8)
         (Hb1 & Hb2 & Hb3 & Hb4 & Hb5 & Hb6 & Hb7 & Hb8).
  unfold evolved.
  split; [congruence|]. split; [congruence|]. split; [congruence|].
  split; [congruence|]. split; [congruence|]. split; [lia|]. split.
  - intros Hc. rewrite Hb7; [by apply Ha7|]. rewrite Ha7; done.
  - intros Hw. specialize (Hb8 Hw). subst r3. by apply Ha8.
Qed.

Lemma req_step_evolved (time_unit : Z) (r r' : myServiceRequest.t)
    (b : bool) :
  req_step time_unit r r' b -> evolved r r'.
Proof. intros Hs. by apply req_step_fields in Hs. Qed.

Lemma evolves_refl (h : store) : evolves h h.
Proof. split; [done|]. intros r _. apply evolved_refl. Qed.

Lemma evolves_trans (h1 h2 h3 : store) :
  evolves h1 h2 -> evolves h2 h3 -> evolves h1 h3.
Proof.
  intros [Hl1 He1] [Hl2 He2]. split; [lia|].
  intros r Hr. eapply evolved_trans; [by apply He1|]. apply He2. lia.
Qed.

Lemma serve_request_evolves (x : loc) (time_unit : Z) (h h' : store)
    (b : bool) :
  serve_request x time_unit h = Done (b, h') -> evolves h h'.
Proof.
  intros Hs. apply serve_request_done in Hs as (r' & -> & Hstep).
  split; [by rewrite length_insert|].
  intros r Hr. destruct (decide (x = r)) as [->|Hne].
  - rewrite list_lookup_total_insert_eq by done.
    by eapply req_step_evolved.
  - rewrite list_lookup_total_insert_ne by done. apply evolved_refl.
Qed.

Lemma serves_evolves (time_unit : Z) (rs : list loc) (h h' : store) :
  serves time_unit rs h h' -> evolves h h'.
Proof.
  induction 1 as [h|r b rs h h1 h2 Hs _ IH]; [apply evolves_refl|].
  eapply evolves_trans; [|exact IH]. by eapply serve_request_evolves.
Qed.

Lemma alloc_evolves (h news : store) : evolves h (h ++ news).
Proof.
  split; [rewrite length_app; lia|].
  intros r Hr. rewrite lookup_total_app_l by done. apply evolved_refl.
Qed.

Lemma process_queued_requests_evolves (self self' : myServiceLine.t)
    (time_unit : Z) (w w' : World G) (b : bool) :
  process_queued_requests self time_unit w = Done ((b, self'), w') ->
  evolves (heap w) (heap w').
Proof.
  intros Hp. apply process_queued_requests_serves in Hp
    as (_ & _ & rs & _ & Hs).
  by eapply serves_evolves.
Qed.

Lemma insert_new_incoming_request_evolves (self self' : myServiceLine.t)
    (time_unit ttl : Z) (prio : bool) (waiting_for : list loc)
    (w w' : World G) (r : loc) :
  insert_new_incoming_request self time_unit ttl prio waiting_for w =
  Done ((r, self'), w') ->
  evolves (heap w) (heap w').
Proof.
  destruct (insert_new_incoming_request_done self time_unit ttl prio
              waiting_for w) as (s & -> & _).
  intros [= _ _ <-]. apply alloc_evolves.
Qed.

(** What one time unit of the loop of a line does: maybe some draws,
    then either a call of the dispatcher or the arrival of a request. *)
Lemma line_time_unit_cases (arrivals : list arrival)
    (self self' : myServiceLine.t) (time_unit : Z) (w w' : World G) :
  myServiceLine.run_time_unit arrivals self time_unit w = Done (self', w') ->
  exists g,
    (exists b, process_queued_requests self time_unit (set_rng g w) =
               Done ((b, self'), w')) \/
    (exists ttl prio r,
       insert_new_incoming_request self time_unit ttl prio [] (set_rng g w) =
       Done ((r, self'), w') /\
       match arrivals with
       | [] => 1 <= ttl <= RANDOM_MAX_TIME_TO_SERVE_A_REQUEST
       | _ :: _ =>
           exists t d, head (search_result_list arrivals time_unit) =
                       Some (t, ttl, prio, d)
       end).
Proof.
  unfold myServiceLine.run_time_unit. destruct arrivals as [|a arrivals].
  - rewrite (bind_eq _ _ _ _ _ (draw_done _ _)).
    destruct (Qltb _ _).
    + destruct (draw_time_to_serve_done (set_rng (snd (random (rng w))) w))
        as (ttl & g1 & Ht & Hrange).
      rewrite (bind_eq _ _ _ _ _ Ht).
      destruct (draw_priority_done
                  (set_rng g1 (set_rng (snd (random (rng w))) w)))
        as (p & g2 & Hp).
      rewrite (bind_eq _ _ _ _ _ Hp).
      intros Hi. apply bind_done in Hi as ([r s] & w1 & Hi & Hr).
      apply ret_done in Hr as [-> ->]. exists g2. right.
      exists ttl, p, r. by split.
    + intros Hp. apply bind_done in Hp as ([b s] & w1 & Hp & Hr).
      apply ret_done in Hr as [-> ->].
      exists (snd (random (rng w))). left. by exists b.
  - destruct (search_result_list _ _) as [|[[[x ttl] p] d] l] eqn:Hsr.
    + intros Hp. apply bind_done in Hp as ([b s] & w1 & Hp & Hr).
      apply ret_done in Hr as [-> ->].
      exists (rng w). left. exists b. by destruct w.
    + intros Hi. apply bind_done in Hi as ([r s] & w1 & Hi & Hr).
      apply ret_done in Hr as [-> ->].
      exists (rng w). right. exists ttl, p, r.
      split; [by destruct w|]. by exists x, d.
Qed.

(** An invariant of the dispatcher and of the arrivals is an invariant of
    the loop of a line. *)
Lemma line_run_loop_ind (I : Z -> myServiceLine.t -> store -> Prop)
    (arrivals : list arrival) :
  (forall k t self (w : World G) b self' w',
     I k self (heap w) -> k < t ->
     process_queued_requests self t w = Done ((b, self'), w') ->
     I t self' (heap w')) ->
  (forall k t self (w : World G) ttl prio r self' w',
     I k self (heap w) -> k < t ->
     insert_new_incoming_request self t ttl prio [] w =
     Done ((r, self'), w') ->
     I t self' (heap w')) ->
  forall time_units k self (w : World G) self' w',
    I k self (heap w) -> ticks_after k time_units ->
    myServiceLine.run_loop arrivals self time_units w = Done (self', w') ->
    I (default k (last time_units)) self' (heap w').
Proof.
  intros Hproc Hins time_units.
  induction time_units as [|t ts IH]; intros k self w self' w' Hi Ht Hrun.
  - cbn in Hrun. apply ret_done in Hrun as [-> ->]. done.
  - destruct Ht as [Hk Hts]. cbn [myServiceLine.run_loop] in Hrun.
    apply bind_done in Hrun as (self1 & w1 & Hstep & Hrun).
    assert (Hi1 : I t self1 (heap w1)).
    { apply line_time_unit_cases in Hstep
        as (g & [(b & Hp)|(ttl & prio & r & Hin & _)]).
      - eapply (Hproc k t self (set_rng g w)); [done|done|exact Hp].
      - eapply (Hins k t self (set_rng g w)); [done|done|exact Hin]. }
    specialize (IH t self1 w1 self' w' Hi1 Hts Hrun).
    rewrite last_cons. by destruct (last ts).
Qed.

Lemma line_run_loop_evolves (arrivals : list arrival)
    (self self' : myServiceLine.t) (time_units : list Z) (w w' : World G) :
  myServiceLine.run_loop arrivals self time_units w = Done (self', w') ->
  evolves (heap w) (heap w').
Proof.
  revert self w. induction time_units as [|t ts IH]; intros self w Hrun.
  - cbn in Hrun. apply ret_done in Hrun as [-> ->]. apply evolves_refl.
  - cbn [myServiceLine.run_loop] in Hrun.
    apply bind_done in Hrun as (self1 & w1 & Hstep & Hrun).
    eapply evolves_trans; [|by eapply IH].
    apply line_time_unit_cases in Hstep
      as (g & [(b & Hp)|(ttl & prio & r & Hin & _)]).
    + by apply process_queued_requests_evolves in Hp.
    + by apply insert_new_incoming_request_evolves in Hin.
Qed.

(** ** The books of a line are kept *)

Lemma log_of_evolves (h h' : store) (q : list loc) :
  Forall (fun r => (r < length h)%nat) q -> evolves h h' ->
  log_of h' q = log_of h q.
Proof.
  intros Hq [_ He]. unfold log_of. apply Forall_fmap_ext_1.
  eapply Forall_impl; [exact Hq|]. intros r Hr. cbn beta.
  destruct (He r Hr) as (_ & H2 & H3 & H4 & H5 & _).
  unfold log_entry. by rewrite H2, H3, H4, H5.
Qed.

Lemma ticks_after_snoc (lo k t : Z) (l : list Z) :
  ticks_after lo l -> Forall (fun x => x <= k) l -> lo <= k -> k < t ->
  ticks_after lo (l ++ [t]).
Proof.
  revert lo. induction l as [|a l IH]; intros lo Hl Hk Hlo Ht.
  - cbn. lia.
  - destruct Hl as [Ha Hl]. apply Forall_cons in Hk as [Hak Hk].
    cbn. split; [done|]. by apply IH.
Qed.

Lemma true_div_range (a b : Z) :
  0 <= a <= b -> 0 < b -> (0 <= true_div a b <= 1)%Q.
Proof.
  intros Ha Hb. unfold true_div, Qle. cbn.
  rewrite Z2Pos.id by done. lia.
Qed.

Lemma active_requests_length (h : store) (q : list loc) :
  0 <= Z.of_nat (length (active_requests h q)) <= Z.of_nat (length q).
Proof.
  split; [lia|]. apply inj_le. unfold active_requests. apply length_filter.
Qed.

Lemma observe_queue_statistics (self : myServiceLine.t) (h : store) :
  0 <= accumulate_nr_of_active_requests self ->
  (0 <= percentage_of_active_requests self <= 1)%Q ->
  accumulate_nr_of_active_requests self
    <= accumulate_nr_of_active_requests (observe_queue self h)
    <= accumulate_nr_of_active_requests self +
       Z.of_nat (length (active_requests h (queue self))) /\
  (0 <= percentage_of_active_requests (observe_queue self h) <= 1)%Q.
Proof.
  intros Hacc Hpct. unfold observe_queue.
  pose proof (active_requests_length h (queue self)) as Hl.
  destruct (0 <? length (queue self))%nat eqn:Hlen.
  - apply Nat.ltb_lt in Hlen. cbn. split; [lia|].
    apply true_div_range; lia.
  - split; [lia|done].
Qed.

Lemma line_init_accounted (service_type : Z) (w w' : World G)
    (self : myServiceLine.t) :
  myServiceLine.init service_type w = Done (self, w') ->
  accounted (-1) self (heap w') /\ undelegated (-1) self (heap w').
Proof.
  unfold myServiceLine.init. destruct (strategy_of_Z service_type);
    [|discriminate].
  intros [= <- <-]. unfold accounted, undelegated. cbn.
  split.
  - split; [constructor|]. split; [done|]. split; [done|].
    split; [constructor|]. split; [lia|]. split; [lia|]. split; [lia|].
    split; [|lia]. unfold Qle; cbn; lia.
  - split; [intros r Hr; inversion Hr|]. split; [lia|]. split; [lia|done].
Qed.

Lemma process_accounted (k t : Z) (self self' : myServiceLine.t)
    (w w' : World G) (b : bool) :
  accounted k self (heap w) -> k < t ->
  process_queued_requests self t w = Done ((b, self'), w') ->
  accounted t self' (heap w').
Proof.
  intros (Hin & Hlog & Hticks & Hle & He0 & He & Hacc & Hpct & Hmax) Hk Hp.
  pose proof (process_queued_requests_evolves _ _ _ _ _ _ Hp) as Hev.
  pose proof (process_queued_requests_empty_line _ _ _ _ _ _ Hp)
    as (He' & Hacc' & Hpct').
  apply process_queued_requests_serves in Hp
    as ((Hq & Harr & Hm & _) & _ & _).
  destruct (observe_queue_statistics self (heap w) Hacc Hpct) as [Ha Hb].
  unfold accounted. rewrite Hq, Harr, Hm, He', Hacc', Hpct'.
  split.
  { eapply Forall_impl; [exact Hin|]. intros r Hr. destruct Hev as [Hl _]. cbn beta in *. lia. }
  split; [by rewrite (log_of_evolves (heap w))|].
  split; [done|].
  split.
  { eapply Forall_impl; [exact Hle|]. intros x Hx. cbn in *. lia. }
  split; [destruct b; lia|]. split; [destruct b; lia|].
  split; [lia|]. split; done.
Qed.

Lemma insert_accounted (k t : Z) (self self' : myServiceLine.t)
    (ttl : Z) (prio : bool) (waiting_for : list loc) (w w' : World G)
    (r : loc) :
  accounted k self (heap w) -> k < t ->
  insert_new_incoming_request self t ttl prio waiting_for w =
  Done ((r, self'), w') ->
  accounted t self' (heap w').
Proof.
  intros (Hin & Hlog & Hticks & Hle & He0 & He & Hacc & Hpct & Hmax) Hk.
  destruct (insert_new_incoming_request_max self t ttl prio waiting_for w)
    as (r2 & s2 & w2 & Hi2 & Hm').
  destruct (insert_new_incoming_request_done self t ttl prio waiting_for w)
    as (s & Hi & Hq & Harr & _ & _ & He' & Hacc' & Hpct' & _).
  rewrite Hi in Hi2. injection Hi2 as <- <- <-.
  rewrite Hi. intros [= <- <- <-]. cbn [heap] in *.
  pose proof (active_requests_length
    (heap w ++ [myServiceRequest.init (ID_REQUESTS w) t ttl prio waiting_for])
    (queue s)) as Hcount.
  unfold accounted. rewrite Hq in *. rewrite Harr, He', Hacc', Hpct', Hm'.
  rewrite length_app in *. cbn [length] in *.
  split.
  { apply Forall_forall. intros x Hx.
    apply elem_of_app in Hx as [Hx|Hx].
    - rewrite Forall_forall in Hin. specialize (Hin x Hx). lia.
    - apply list_elem_of_singleton in Hx as ->. lia. }
  split.
  { unfold log_of. rewrite fmap_app. f_equal.
    - rewrite Hlog. unfold log_of. apply Forall_fmap_ext_1.
      eapply Forall_impl; [exact Hin|]. intros x Hx. cbn beta.
      by rewrite lookup_total_app_l.
    - cbn. rewrite lookup_total_app_r by done.
      rewrite Nat.sub_diag. cbn. by destruct waiting_for. }
  assert (Hk1 : -1 <= k) by lia.
  split.
  { unfold times. rewrite fmap_app. cbn.
    by apply (ticks_after_snoc (-1) k). }
  split.
  { unfold times. rewrite fmap_app. apply Forall_app. split.
    - eapply Forall_impl; [exact Hle|]. intros x Hx. cbn in *. lia.
    - apply Forall_singleton. cbn. lia. }
  rewrite !length_app. cbn [length].
  split; [done|]. split; [lia|]. split; [done|]. split; [done|]. lia.
Qed.

Lemma filter_ext_in {A} (P Q : A -> Prop) `{forall x, Decision (P x)}
    `{forall x, Decision (Q x)} (l : list A) :
  Forall (fun x => P x <-> Q x) l -> filter P l = filter Q l.
Proof.
  induction 1 as [|a l Ha _ IH]; [done|].
  rewrite !filter_cons, IH.
  destruct (decide (P a)), (decide (Q a)); tauto.
Qed.

Lemma active_requests_evolves (h h' : store) (q : list loc) :
  Forall (fun r => (r < length h)%nat) q -> evolves h h' ->
  (forall r, r ∈ q -> status (h !!! r) <> WAITING_REQUEST) ->
  (forall r, r ∈ q -> status (h' !!! r) <> WAITING_REQUEST) /\
  (length (active_requests h' q) <= length (active_requests h q))%nat.
Proof.
  intros Hin [_ He] Hnw.
  assert (Hst : forall r, r ∈ q ->
            status (h' !!! r) <> WAITING_REQUEST /\
            (status (h' !!! r) = ACTIVE_REQUEST ->
             status (h !!! r) = ACTIVE_REQUEST)).
  { intros r Hr. rewrite Forall_forall in Hin.
    destruct (He r (Hin r Hr)) as (_ & _ & _ & _ & _ & _ & Hc & Hw).
    specialize (Hnw r Hr). split.
    - intros Hw'. apply Hnw. by rewrite <- (Hw Hw').
    - intros Ha. destruct (status (h !!! r)) eqn:Hs; [done| |done].
      rewrite (Hc eq_refl) in Ha. congruence. }
  split; [intros r Hr; by apply Hst|].
  unfold active_requests. clear Hin Hnw.
  induction q as [|a q IH]; [done|].
  rewrite !filter_cons.
  assert (IH' : (length (filter (fun r => status (h' !!! r) = ACTIVE_REQUEST) q)
                 <= length (filter (fun r => status (h !!! r) = ACTIVE_REQUEST) q))%nat).
  { apply IH. intros r Hr. apply Hst. by right. }
  destruct (Hst a) as [_ Ha]; [left|].
  destruct (decide (status (h' !!! a) = ACTIVE_REQUEST)) as [Ha'|_].
  - rewrite decide_True by auto. cbn. lia.
  - destruct (decide (status (h !!! a) = ACTIVE_REQUEST)); cbn; lia.
Qed.

Lemma process_undelegated (k t : Z) (self self' : myServiceLine.t)
    (w w' : World G) (b : bool) :
  accounted k self (heap w) -> undelegated k self (heap w) -> k < t ->
  process_queued_requests self t w = Done ((b, self'), w') ->
  undelegated t self' (heap w') /\
  max_nr_of_pending_requests self' = max_nr_of_pending_requests self /\
  queue self' = queue self.
Proof.
  intros (Hin & _ & _ & _ & He0 & He & Hacc & Hpct & Hmax)
    (Hnw & Hc & Ha & Hone) Hk Hp.
  pose proof (process_queued_requests_evolves _ _ _ _ _ _ Hp) as Hev.
  pose proof (process_queued_requests_empty_line _ _ _ _ _ _ Hp)
    as (_ & Hacc' & _).
  apply process_queued_requests_serves in Hp
    as ((Hq & _ & Hm & _) & _ & _).
  destruct (observe_queue_statistics self (heap w) Hacc Hpct) as [Hb _].
  destruct (active_requests_evolves (heap w) (heap w') (queue self) Hin Hev)
    as [Hnw' Hlen]; [intros r Hr; by apply Hnw|].
  split; [|done]. unfold undelegated. rewrite Hq, Hm, Hacc'.
  split.
  { intros r Hr. split; [by apply Hnw'|].
    rewrite Forall_forall in Hin. destruct Hev as [_ Hev].
    destruct (Hev r (Hin r Hr)) as (_ & _ & _ & _ & -> & _). by apply Hnw. }
  split; [lia|]. split; [nia|done].
Qed.

Lemma insert_undelegated (k t : Z) (self self' : myServiceLine.t)
    (ttl : Z) (prio : bool) (w w' : World G) (r : loc) :
  accounted k self (heap w) -> undelegated k self (heap w) -> k < t ->
  insert_new_incoming_request self t ttl prio [] w = Done ((r, self'), w') ->
  undelegated t self' (heap w') /\
  max_nr_of_pending_requests self' =
  Z.max (max_nr_of_pending_requests self)
    (Z.of_nat (length (active_requests (heap w') (queue self')))) /\
  length (active_requests (heap w') (queue self')) =
  S (length (active_requests (heap w) (queue self))).
Proof.
  intros (Hin & _ & _ & _ & He0 & He & Hacc & Hpct & Hmax)
    (Hnw & Hc & Ha & Hone) Hk.
  destruct (insert_new_incoming_request_max self t ttl prio [] w)
    as (r2 & s2 & w2 & Hi2 & Hm').
  destruct (insert_new_incoming_request_done self t ttl prio [] w)
    as (s & Hi & Hq & _ & _ & _ & _ & Hacc' & _).
  rewrite Hi in Hi2. injection Hi2 as <- <- <-.
  rewrite Hi. intros [= <- <- <-]. cbn [heap] in *.
  set (h' := heap w ++ _) in *.
  assert (Hold : forall x, x ∈ queue self -> h' !!! x = heap w !!! x).
  { intros x Hx. unfold h'. rewrite lookup_total_app_l; [done|].
    rewrite Forall_forall in Hin. by apply Hin. }
  assert (Hnew : h' !!! length (heap w) =
                 myServiceRequest.init (ID_REQUESTS w) t ttl prio []).
  { unfold h'. rewrite lookup_total_app_r by done.
    by rewrite Nat.sub_diag. }
  assert (Hcount : length (active_requests h' (queue s)) =
                   S (length (active_requests (heap w) (queue self)))).
  { rewrite Hq. unfold active_requests. rewrite filter_app, length_app.
    rewrite filter_cons, filter_nil, Hnew. cbn [status myServiceRequest.init].
    rewrite decide_True by done. cbn [length].
    rewrite Nat.add_1_r. f_equal. f_equal.
    apply filter_ext_in. eapply Forall_impl; [exact Hin|].
    intros x Hx. cbn beta in *. unfold h'. by rewrite lookup_total_app_l. }
  split; [|done]. unfold undelegated. rewrite Hm', Hacc', Hcount.
  split.
  { intros x Hx. rewrite Hq in Hx. apply elem_of_app in Hx as [Hx|Hx].
    - rewrite Hold by done. by apply Hnw.
    - apply list_elem_of_singleton in Hx as ->. by rewrite Hnew. }
  split; [lia|]. split; [nia|]. intros _. lia.
Qed.

(** The books of a line of its own after its loop. *)
Lemma line_run_loop_books (arrivals : list arrival)
    (self self' : myServiceLine.t) (time_units : list Z) (k : Z)
    (w w' : World G) :
  accounted k self (heap w) -> undelegated k self (heap w) ->
  ticks_after k time_units ->
  myServiceLine.run_loop arrivals self time_units w = Done (self', w') ->
  accounted (default k (last time_units)) self' (heap w') /\
  undelegated (default k (last time_units)) self' (heap w').
Proof.
  intros Ha Hu Ht Hrun.
  apply (line_run_loop_ind
           (fun k self h => accounted k self h /\ undelegated k self h)
           arrivals) with (k := k) (self := self) (w := w); try done.
  - intros k0 t s w0 b s' w0' [Ha0 Hu0] Hk Hp. split.
    + by eapply process_accounted.
    + by eapply process_undelegated.
  - intros k0 t s w0 ttl prio r s' w0' [Ha0 Hu0] Hk Hi. split.
    + by eapply insert_accounted.
    + by eapply insert_undelegated.
Qed.

(** ** A run of a line of its own *)

Lemma performance_world (self : myServiceLine.t) (v : list Q)
    (w w' : World G) :
  performance self w = Done (v, w') ->
  w' = w /\
  exists v0,
    v = [v0;
         true_div (accumulate_nr_of_active_requests self)
           TOTAL_NR_OF_TIME_UNITS;
         inject_Z (nr_of_times_empty_line self);
         percentage_of_active_requests self;
         inject_Z (max_nr_of_pending_requests self)] /\
    exists r, r ∈ queue self /\ status (heap w !!! r) = REQUEST_COMPLETION.
Proof.
  unfold performance.
  destruct (extra_durations (heap w) (queue self)) as [[|x d]|e] eqn:Hd;
    [discriminate| |discriminate].
  intros [= <- <-]. split; [done|]. eexists. split; [done|].
  clear -Hd. revert x d Hd.
  induction (queue self) as [|a q IH]; intros x d; cbn [extra_durations];
    [discriminate|].
  destruct (decide (status (heap w !!! a) = REQUEST_COMPLETION)) as [Hc|_].
  - intros _. exists a. split; [left|done].
  - intros Hd. destruct (IH x d Hd) as (r & Hr & Hs).
    exists r. split; [by right|done].
Qed.

Lemma line_run_done (self self' : myServiceLine.t) (arrivals : list arrival)
    (v : list Q) (w w' : World G) :
  myServiceLine.run self arrivals w = Done ((v, self'), w') ->
  myServiceLine.run_loop arrivals self (range TOTAL_NR_OF_TIME_UNITS) w =
  Done (self', w') /\
  performance self' w' = Done (v, w').
Proof.
  unfold myServiceLine.run. intros Hrun.
  apply bind_done in Hrun as (s1 & w1 & Hloop & Hrun).
  apply bind_done in Hrun as (v1 & w2 & Hperf & Hret).
  apply ret_done in Hret as [[= <- <-] <-].
  apply performance_world in Hperf as Hw. destruct Hw as [-> _]. done.
Qed.

Lemma last_range_total :
  last (range TOTAL_NR_OF_TIME_UNITS) = Some (TOTAL_NR_OF_TIME_UNITS - 1).
Proof. vm_compute. reflexivity. Qed.

Lemma line_run_books (service_type : Z) (arrivals : list arrival)
    (w0 w : World G) (self : myServiceLine.t) :
  myServiceLine.init service_type w0 = Done (self, w) ->
  exists self' w',
    myServiceLine.run_loop arrivals self (range TOTAL_NR_OF_TIME_UNITS) w =
    Done (self', w') /\
    accounted (TOTAL_NR_OF_TIME_UNITS - 1) self' (heap w') /\
    undelegated (TOTAL_NR_OF_TIME_UNITS - 1) self' (heap w').
Proof.
  intros Hinit.
  apply line_init_done in Hinit as Hnew. destruct Hnew as (Hq & _).
  destruct (line_run_spec self arrivals w) as (k & self' & w' & Hrun & _).
  { rewrite Hq. apply consistent_nil. }
  exists self', w'. split; [done|].
  apply line_init_accounted in Hinit as [Ha Hu].
  pose proof (line_run_loop_books arrivals self self'
                (range TOTAL_NR_OF_TIME_UNITS) (-1) w w' Ha Hu
                (range_ticks _) Hrun) as Hb.
  by rewrite last_range_total in Hb.
Qed.

(** X9: after the loop of [run] the LOG of a line has one entry for
    every request of its queue, in queue order: the time unit of the
    arrival, the weight, the priority, and False for the delegation, since
    nothing is delegated to a line of its own. *)
Theorem line_log_mirrors_queue (service_type : Z) (arrivals : list arrival)
    (w0 w : World G) (self : myServiceLine.t) :
  myServiceLine.init service_type w0 = Done (self, w) ->
  exists self' w',
    myServiceLine.run_loop arrivals self (range TOTAL_NR_OF_TIME_UNITS) w =
    Done (self', w') /\
    myServiceLine.arrivals self' =
    (fun r => (time_to_start (heap w' !!! r),
               minimum_duration (heap w' !!! r),
               priority (heap w' !!! r), false)) <$> queue self'.
Proof.
  intros Hinit.
  destruct (line_run_books service_type arrivals w0 w self Hinit)
    as (self' & w' & Hrun & (_ & Hlog & _) & (Hnw & _)).
  exists self', w'. split; [done|]. rewrite Hlog. unfold log_of.
  apply Forall_fmap_ext_1, Forall_forall. intros r Hr.
  unfold log_entry. by destruct (Hnw r Hr) as [_ ->].
Qed.

(** X10: the time units of the LOG of a line increase strictly and
    lie in the timeline: no time unit has two arrivals, and the entries
    are in the order of their arrival. *)
Theorem line_log_is_chronological (service_type : Z)
    (arrivals : list arrival) (w0 w : World G) (self : myServiceLine.t) :
  myServiceLine.init service_type w0 = Done (self, w) ->
  exists self' w',
    myServiceLine.run_loop arrivals self (range TOTAL_NR_OF_TIME_UNITS) w =
    Done (self', w') /\
    ticks_after (-1) (times (myServiceLine.arrivals self')) /\
    Forall (fun t => t < TOTAL_NR_OF_TIME_UNITS)
      (times (myServiceLine.arrivals self')).
Proof.
  intros Hinit.
  destruct (line_run_books service_type arrivals w0 w self Hinit)
    as (self' & w' & Hrun & (_ & _ & Hticks & Hle & _) & _).
  exists self', w'. split; [done|]. split; [done|].
  eapply Forall_impl; [exact Hle|]. intros t Ht. cbn beta in *. lia.
Qed.

(** X11: the statistics that a run of a line returns are in their
    ranges: the mean number of active requests is between 0 and the peak;
    the empty time units and the arrivals together are at most the time
    units of the timeline; the last ratio of active requests is between 0
    and 1; the peak is between 1 and the number of requests. *)
Theorem line_statistics_in_range (service_type : Z)
    (arrivals : list arrival) (w0 w w' : World G)
    (self self' : myServiceLine.t) (v : list Q) :
  myServiceLine.init service_type w0 = Done (self, w) ->
  myServiceLine.run self arrivals w = Done ((v, self'), w') ->
  exists v0 accumulated empty ratio peak,
    v = [v0; true_div accumulated TOTAL_NR_OF_TIME_UNITS; inject_Z empty;
         ratio; inject_Z peak] /\
    0 <= accumulated <= TOTAL_NR_OF_TIME_UNITS * peak /\
    (0 <= true_div accumulated TOTAL_NR_OF_TIME_UNITS <= inject_Z peak)%Q /\
    0 <= empty /\
    empty + Z.of_nat (length (queue self')) <= TOTAL_NR_OF_TIME_UNITS /\
    (0 <= ratio <= 1)%Q /\
    1 <= peak <= Z.of_nat (length (queue self')).
Proof.
  intros Hinit Hrun. apply line_run_done in Hrun as [Hloop Hperf].
  destruct (line_run_books service_type arrivals w0 w self Hinit)
    as (s & w1 & Hloop' & Ha & Hu).
  rewrite Hloop in Hloop'. injection Hloop' as <- <-.
  apply performance_world in Hperf as (_ & v0 & -> & r & Hr & _).
  destruct Ha as (_ & _ & _ & _ & He0 & He & Hacc & Hpct & Hmax).
  destruct Hu as (_ & _ & Hmean & Hone).
  assert (Hne : queue self' <> []) by (intros Hq; rewrite Hq in Hr; inversion Hr).
  specialize (Hone Hne).
  eexists v0, _, _, _, _. split; [reflexivity|].
  unfold TOTAL_NR_OF_TIME_UNITS in *.
  split; [lia|]. split.
  { unfold true_div, Qle. cbn. lia. }
  split; [done|]. split; [lia|]. split; [done|]. lia.
Qed.

(** ** The peak counter of a line of its own *)

Lemma peak_of_line_now (arrivals : list arrival) (self : myServiceLine.t)
    (time_units : list Z) (w : World G) :
  Z.of_nat (length (active_requests (heap w) (queue self)))
    <= peak_of_line arrivals self time_units w.
Proof.
  destruct time_units as [|t ts]; cbn [peak_of_line]; [lia|].
  destruct (myServiceLine.run_time_unit arrivals self t w) as [[s1 w1]|e];
    lia.
Qed.

Lemma line_run_loop_peak (arrivals : list arrival) (time_units : list Z)
    (k : Z) (self self' : myServiceLine.t) (w w' : World G) :
  accounted k self (heap w) -> undelegated k self (heap w) ->
  ticks_after k time_units ->
  myServiceLine.run_loop arrivals self time_units w = Done (self', w') ->
  max_nr_of_pending_requests self' =
  Z.max (max_nr_of_pending_requests self)
    (peak_of_line arrivals self time_units w).
Proof.
  revert k self w. induction time_units as [|t ts IH];
    intros k self w Ha Hu Ht Hrun.
  - cbn in Hrun. apply ret_done in Hrun as [-> ->]. cbn [peak_of_line].
    destruct Hu as (_ & Hc & _). lia.
  - destruct Ht as [Hk Hts]. cbn [myServiceLine.run_loop] in Hrun.
    apply bind_done in Hrun as (s1 & w1 & Hstep & Hrun).
    cbn [peak_of_line]. rewrite Hstep.
    pose proof (peak_of_line_now arrivals s1 ts w1) as Hnow1.
    pose proof Hu as (_ & Hc & _).
    apply line_time_unit_cases in Hstep
      as (g & [(b & Hp)|(ttl & prio & r & Hin & _)]).
    + pose proof (process_accounted k t self s1 (set_rng g w) w1 b Ha Hk Hp)
        as Ha1.
      destruct (process_undelegated k t self s1 (set_rng g w) w1 b Ha Hu Hk Hp)
        as (Hu1 & Hm & _).
      rewrite (IH t s1 w1 Ha1 Hu1 Hts Hrun), Hm. lia.
    + pose proof (insert_accounted k t self s1 ttl prio [] (set_rng g w) w1 r
                    Ha Hk Hin) as Ha1.
      destruct (insert_undelegated k t self s1 ttl prio (set_rng g w) w1 r
                  Ha Hu Hk Hin) as (Hu1 & Hm & _).
      rewrite (IH t s1 w1 Ha1 Hu1 Hts Hrun), Hm. lia.
Qed.

(** X12: for a line of its own the fifth performance parameter is the
    peak number of simultaneously active requests: after the loop of [run]
    the counter [max_nr_of_pending_requests] is the greatest number of
    active requests that the queue has held between two time units. *)
Theorem line_peak_counter_is_peak (service_type : Z)
    (arrivals : list arrival) (w0 w : World G) (self : myServiceLine.t) :
  myServiceLine.init service_type w0 = Done (self, w) ->
  exists self' w',
    myServiceLine.run_loop arrivals self (range TOTAL_NR_OF_TIME_UNITS) w =
    Done (self', w') /\
    max_nr_of_pending_requests self' =
    peak_of_line arrivals self (range TOTAL_NR_OF_TIME_UNITS) w.
Proof.
  intros Hinit.
  destruct (line_run_books service_type arrivals w0 w self Hinit)
    as (self' & w' & Hrun & _).
  exists self', w'. split; [done|].
  apply line_init_done in Hinit as Hnew.
  destruct Hnew as (Hq & _ & _ & _ & _ & Hm & _).
  apply line_init_accounted in Hinit as [Ha Hu].
  rewrite (line_run_loop_peak arrivals (range TOTAL_NR_OF_TIME_UNITS) (-1)
             self self' w w' Ha Hu (range_ticks _) Hrun), Hm.
  pose proof (peak_of_line_now arrivals self (range TOTAL_NR_OF_TIME_UNITS) w).
  lia.
Qed.

(** ** Replaying a LOG on a line *)

Lemma search_result_list_time (arrivals : list arrival) (time_unit : Z)
    (a : arrival) :
  a ∈ search_result_list arrivals time_unit -> fst (fst (fst a)) = time_unit.
Proof.
  unfold search_result_list. intros Ha.
  by apply list_elem_of_filter in Ha as [Ha _].
Qed.

Lemma line_replay_time_unit (arrivals : list arrival)
    (self self' : myServiceLine.t) (time_unit : Z) (w w' : World G) :
  arrivals <> [] ->
  myServiceLine.run_time_unit arrivals self time_unit w = Done (self', w') ->
  myServiceLine.arrivals self' =
  myServiceLine.arrivals self ++
  (undelegate <$> admitted arrivals [time_unit]).
Proof.
  intros Hne. unfold myServiceLine.run_time_unit, admitted.
  destruct arrivals as [|a0 l]; [done|]. cbn [omap list_omap].
  destruct (search_result_list (a0 :: l) time_unit)
    as [|[[[x ttl] p] d] rest] eqn:Hs; cbn [head].
  - intros Hp. apply bind_done in Hp as ([b s] & w1 & Hp & Hr).
    apply ret_done in Hr as [-> ->]. cbn [snd].
    apply process_queued_requests_serves in Hp as ((_ & -> & _) & _).
    cbn. by rewrite app_nil_r.
  - intros Hi. apply bind_done in Hi as ([r s] & w1 & Hi & Hr).
    apply ret_done in Hr as [-> ->].
    destruct (insert_new_incoming_request_done self time_unit ttl p [] w)
      as (s' & Hi' & _ & Harr & _).
    rewrite Hi' in Hi. injection Hi as _ <- _. cbn [snd]. rewrite Harr.
    assert (Hx : x = time_unit).
    { apply (search_result_list_time (a0 :: l) time_unit (x, ttl, p, d)).
      rewrite Hs. left. }
    by rewrite Hx.
Qed.

Lemma admitted_cons (arrivals : list arrival) (t : Z) (ts : list Z) :
  admitted arrivals (t :: ts) = admitted arrivals [t] ++ admitted arrivals ts.
Proof.
  unfold admitted. cbn [omap list_omap].
  by destruct (head (search_result_list arrivals t)).
Qed.

Lemma line_replay_loop (arrivals : list arrival) (time_units : list Z)
    (self self' : myServiceLine.t) (w w' : World G) :
  arrivals <> [] ->
  myServiceLine.run_loop arrivals self time_units w = Done (self', w') ->
  myServiceLine.arrivals self' =
  myServiceLine.arrivals self ++
  (undelegate <$> admitted arrivals time_units).
Proof.
  intros Hne. revert self w.
  induction time_units as [|t ts IH]; intros self w Hrun.
  - cbn in Hrun. apply ret_done in Hrun as [-> ->]. cbn.
    by rewrite app_nil_r.
  - cbn [myServiceLine.run_loop] in Hrun.
    apply bind_done in Hrun as (s1 & w1 & Hstep & Hrun).
    rewrite (IH s1 w1 Hrun).
    rewrite (line_replay_time_unit arrivals self s1 t w w1 Hne Hstep).
    rewrite (admitted_cons arrivals t ts), fmap_app. by rewrite app_assoc.
Qed.

Lemma ticks_after_lt (lo : Z) (l : list Z) (x : Z) :
  ticks_after lo l -> x ∈ l -> lo < x.
Proof.
  revert lo. induction l as [|a l IH]; intros lo Hl Hx; [inversion Hx|].
  destruct Hl as [Ha Hl]. apply elem_of_cons in Hx as [->|Hx]; [done|].
  specialize (IH a Hl Hx). lia.
Qed.

Lemma search_result_list_none (arrivals : list arrival) (time_unit : Z) :
  (forall a, a ∈ arrivals -> fst (fst (fst a)) <> time_unit) ->
  search_result_list arrivals time_unit = [].
Proof. intros Hno. unfold search_result_list. by apply filter_none. Qed.

Lemma admitted_ext (l1 l2 : list arrival) (time_units : list Z) :
  (forall t, t ∈ time_units ->
     head (search_result_list l1 t) = head (search_result_list l2 t)) ->
  admitted l1 time_units = admitted l2 time_units.
Proof.
  induction time_units as [|t ts IH]; intros Hext; [done|].
  rewrite (admitted_cons l1), (admitted_cons l2). f_equal.
  - unfold admitted. cbn [omap list_omap]. rewrite Hext; [done|left].
  - apply IH. intros t' Ht'. apply Hext. by right.
Qed.

Lemma admitted_nil (time_units : list Z) : admitted [] time_units = [].
Proof. induction time_units as [|t ts IH]; [done|]. by rewrite admitted_cons, IH. Qed.

Lemma admitted_chronological (m a : nat) (l : list arrival) :
  ticks_after (Z.of_nat a - 1) (times l) ->
  Forall (fun t => t < Z.of_nat (a + m)) (times l) ->
  admitted l (Z.of_nat <$> seq a m) = l.
Proof.
  revert a l. induction m as [|m IH]; intros a l Hticks Hlt.
  - destruct l as [|x l]; [done|]. exfalso.
    destruct Hticks as [Hx _]. apply Forall_cons in Hlt as [Hx' _].
    cbn beta in *. lia.
  - cbn [seq fmap list_fmap]. rewrite admitted_cons.
    destruct l as [|x l]; [by rewrite !admitted_nil|].
    cbn [times fmap list_fmap] in Hticks, Hlt. destruct Hticks as [Hx Hl].
    apply Forall_cons in Hlt as [Hx' Hl'].
    fold (times l) in *.
    destruct (decide (fst (fst (fst x)) = Z.of_nat a)) as [He|Hn].
    + assert (Hhead : admitted (x :: l) [Z.of_nat a] = [x]).
      { unfold admitted, search_result_list. cbn [omap list_omap].
        rewrite filter_cons. by rewrite decide_True. }
      rewrite Hhead. cbn [app]. f_equal.
      transitivity (admitted l (Z.of_nat <$> seq (S a) m)); [|apply IH].
      * apply admitted_ext. intros t Ht.
        apply list_elem_of_fmap in Ht as (i & -> & Hi).
        apply elem_of_seq in Hi.
        unfold search_result_list. rewrite filter_cons.
        rewrite decide_False; [done|]. lia.
      * rewrite He in Hl. by replace (Z.of_nat (S a) - 1) with (Z.of_nat a) by lia.
      * eapply Forall_impl; [exact Hl'|]. intros t Ht. cbn beta in *. lia.
    + assert (Hhead : admitted (x :: l) [Z.of_nat a] = []).
      { unfold admitted. cbn [omap list_omap].
        rewrite search_result_list_none; [done|].
        intros y Hy. apply elem_of_cons in Hy as [->|Hy]; [done|].
        assert (fst (fst (fst x)) < fst (fst (fst y))); [|lia].
        apply (ticks_after_lt _ (times l)); [done|].
        unfold times. apply list_elem_of_fmap. by exists y. }
      rewrite Hhead. cbn [app]. apply (IH (S a) (x :: l)).
      * cbn [times fmap list_fmap]. split; [lia|done].
      * cbn [times fmap list_fmap]. apply Forall_cons. split; [lia|].
        eapply Forall_impl; [exact Hl'|]. intros t Ht. cbn beta in *. lia.
Qed.

(** X13: a replay admits, for every time unit of the timeline in
    turn, the first entry of the given LOG that has that time unit, and
    nothing else: after the loop of [run] on a non-empty LOG, the LOG of
    the line is the list of these entries, with the delegation flag
    False.  Further entries of a time unit and entries outside the
    timeline are dropped. *)
Theorem replay_admits_first_entry_per_time_unit (service_type : Z)
    (arrivals : list arrival) (w0 w : World G) (self : myServiceLine.t) :
  myServiceLine.init service_type w0 = Done (self, w) ->
  arrivals <> [] ->
  exists self' w',
    myServiceLine.run_loop arrivals self (range TOTAL_NR_OF_TIME_UNITS) w =
    Done (self', w') /\
    myServiceLine.arrivals self' =
    undelegate <$> admitted arrivals (range TOTAL_NR_OF_TIME_UNITS).
Proof.
  intros Hinit Hne.
  destruct (line_run_books service_type arrivals w0 w self Hinit)
    as (self' & w' & Hrun & _).
  exists self', w'. split; [done|].
  rewrite (line_replay_loop arrivals _ self self' w w' Hne Hrun).
  unfold myServiceLine.init in Hinit.
  destruct (strategy_of_Z service_type); [|discriminate].
  by injection Hinit as <- _.
Qed.

(** X14: the LOG that a run of a line leaves can be replayed: a new
    line, of any strategy, that runs on that LOG (not empty) admits the
    same requests at the same time units and ends with the same LOG. *)
Theorem replay_of_recorded_log (service_type service_type' : Z)
    (arrivals : list arrival) (w0 w w1 v0 v : World G)
    (self self1 other : myServiceLine.t) :
  myServiceLine.init service_type w0 = Done (self, w) ->
  myServiceLine.run_loop arrivals self (range TOTAL_NR_OF_TIME_UNITS) w =
  Done (self1, w1) ->
  myServiceLine.arrivals self1 <> [] ->
  myServiceLine.init service_type' v0 = Done (other, v) ->
  exists other1 v1,
    myServiceLine.run_loop (myServiceLine.arrivals self1) other
      (range TOTAL_NR_OF_TIME_UNITS) v = Done (other1, v1) /\
    myServiceLine.arrivals other1 = myServiceLine.arrivals self1.
Proof.
  intros Hinit Hrun Hne Hinit'.
  destruct (line_run_books service_type arrivals w0 w self Hinit)
    as (s & w2 & Hrun2 & (_ & Hlog & Hticks & Hle & _) & (Hnw & _)).
  rewrite Hrun in Hrun2. injection Hrun2 as <- <-.
  destruct (line_run_books service_type' (myServiceLine.arrivals self1)
              v0 v other Hinit') as (other1 & v1 & Hrun' & _).
  exists other1, v1. split; [done|].
  rewrite (line_replay_loop _ _ other other1 v v1 Hne Hrun').
  assert (myServiceLine.arrivals other = []) as ->.
  { unfold myServiceLine.init in Hinit'.
    destruct (strategy_of_Z service_type'); [|discriminate].
    by injection Hinit' as <- _. }
  cbn [app]. unfold range.
  rewrite (admitted_chronological (Z.to_nat TOTAL_NR_OF_TIME_UNITS) 0).
  - rewrite Hlog. unfold log_of. rewrite <- list_fmap_compose.
    apply Forall_fmap_ext_1, Forall_forall. intros r Hr. cbn.
    unfold log_entry, undelegate. cbn. by destruct (Hnw r Hr) as [_ ->].
  - done.
  - eapply Forall_impl; [exact Hle|]. intros t Ht. cbn beta in *.
    unfold TOTAL_NR_OF_TIME_UNITS in *. lia.
Qed.

Lemma line_time_unit_ext (l1 l2 : list arrival) (self : myServiceLine.t)
    (time_unit : Z) (w : World G) :
  l1 <> [] -> l2 <> [] ->
  undelegate <$> head (search_result_list l1 time_unit) =
  undelegate <$> head (search_result_list l2 time_unit) ->
  myServiceLine.run_time_unit l1 self time_unit w =
  myServiceLine.run_time_unit l2 self time_unit w.
Proof.
  intros H1 H2. unfold myServiceLine.run_time_unit.
  destruct l1 as [|a1 l1]; [done|]. destruct l2 as [|a2 l2]; [done|].
  destruct (search_result_list (a1 :: l1) time_unit)
    as [|[[[x1 t1] p1] d1] r1];
    destruct (search_result_list (a2 :: l2) time_unit)
      as [|[[[x2 t2] p2] d2] r2]; cbn; try done.
  by intros [= _ -> ->].
Qed.

(** X15: a replay depends on the given LOG only through the first
    entry of each time unit of the timeline, and of that entry only
    through the weight and the priority: two non-empty LOGs that agree on
    these give the same run, whatever their order, their further entries
    and their delegation flags. *)
Theorem replay_reads_first_entries_only (l1 l2 : list arrival)
    (self : myServiceLine.t) (w : World G) :
  l1 <> [] -> l2 <> [] ->
  (forall time_unit, time_unit ∈ range TOTAL_NR_OF_TIME_UNITS ->
     undelegate <$> head (search_result_list l1 time_unit) =
     undelegate <$> head (search_result_list l2 time_unit)) ->
  myServiceLine.run self l1 w = myServiceLine.run self l2 w.
Proof.
  intros H1 H2 Hext. unfold myServiceLine.run.
  assert (Hloop : forall ts s (w1 : World G),
            (forall t, t ∈ ts -> t ∈ range TOTAL_NR_OF_TIME_UNITS) ->
            myServiceLine.run_loop l1 s ts w1 =
            myServiceLine.run_loop l2 s ts w1).
  { induction ts as [|t ts IH]; intros s w1 Hin; [done|].
    cbn [myServiceLine.run_loop]. unfold mbind, M_bind.
    rewrite (line_time_unit_ext l1 l2 s t w1 H1 H2) by (apply Hext, Hin; left).
    destruct (myServiceLine.run_time_unit l2 s t w1) as [[s2 w2]|e]; [|done].
    apply IH. intros t' Ht'. apply Hin. by right. }
  unfold mbind, M_bind. by rewrite Hloop.
Qed.

(** ** The steps of a hierarchy *)

Lemma process_collaborators_evolves (indices : list Z)
    (cs cs' : list myServiceLine.t) (time_unit : Z) (w w' : World G) :
  myServiceLineHierarchy.process_collaborators indices cs time_unit w =
  Done (cs', w') ->
  evolves (heap w) (heap w').
Proof.
  revert cs w. induction indices as [|i indices IH]; intros cs w.
  - cbn. intros Hr. apply ret_done in Hr as [_ ->]. apply evolves_refl.
  - cbn [myServiceLineHierarchy.process_collaborators].
    destruct (cs !! Z.to_nat i) as [c|]; [|discriminate].
    intros Hrun. apply bind_done in Hrun as ([b c'] & w1 & Hp & Hrun).
    eapply evolves_trans; [|by eapply IH].
    by eapply process_queued_requests_evolves.
Qed.

Lemma insert_sub_requests_evolves (indices : list Z)
    (cs cs' : list myServiceLine.t) (time_unit ttl : Z) (prio : bool)
    (subs subs' : list loc) (w w' : World G) :
  myServiceLineHierarchy.insert_sub_requests indices cs time_unit ttl prio
    subs w = Done ((cs', subs'), w') ->
  evolves (heap w) (heap w').
Proof.
  revert cs subs w. induction indices as [|i indices IH]; intros cs subs w.
  - cbn. intros Hr. apply ret_done in Hr as [_ ->]. apply evolves_refl.
  - cbn [myServiceLineHierarchy.insert_sub_requests].
    destruct (cs !! Z.to_nat i) as [c|]; [|discriminate].
    intros Hrun. apply bind_done in Hrun as ([r c'] & w1 & Hi & Hrun).
    eapply evolves_trans; [|by eapply IH].
    by eapply insert_new_incoming_request_evolves.
Qed.

Lemma process_all_done (self self' : myServiceLineHierarchy.t)
    (time_unit : Z) (w w' : World G) :
  myServiceLineHierarchy.process_all self time_unit w = Done (self', w') ->
  exists b w1,
    process_queued_requests (myServiceLineHierarchy.chief self) time_unit w =
    Done ((b, myServiceLineHierarchy.chief self'), w1) /\
    myServiceLineHierarchy.process_collaborators
      (range (myServiceLineHierarchy.nr_of_collaborators self))
      (myServiceLineHierarchy.list_of_collaborators self) time_unit w1 =
    Done (myServiceLineHierarchy.list_of_collaborators self', w') /\
    myServiceLineHierarchy.nr_of_collaborators self' =
    myServiceLineHierarchy.nr_of_collaborators self.
Proof.
  unfold myServiceLineHierarchy.process_all. intros Hrun.
  apply bind_done in Hrun as ([b c] & w1 & Hp & Hrun).
  apply bind_done in Hrun as (l & w2 & Hc & Hrun).
  apply ret_done in Hrun as [-> ->]. by exists b, w1.
Qed.

Lemma insert_delegated_done (self self' : myServiceLineHierarchy.t)
    (time_unit ttl : Z) (prio : bool) (w w' : World G) :
  myServiceLineHierarchy.insert_delegated self time_unit ttl prio w =
  Done (self', w') ->
  exists subs w1 r,
    myServiceLineHierarchy.insert_sub_requests
      (range (myServiceLineHierarchy.nr_of_collaborators self))
      (myServiceLineHierarchy.list_of_collaborators self) time_unit ttl
      prio [] w =
    Done ((myServiceLineHierarchy.list_of_collaborators self', subs), w1) /\
    insert_new_incoming_request (myServiceLineHierarchy.chief self)
      time_unit ttl prio subs w1 =
    Done ((r, myServiceLineHierarchy.chief self'), w') /\
    myServiceLineHierarchy.nr_of_collaborators self' =
    myServiceLineHierarchy.nr_of_collaborators self.
Proof.
  unfold myServiceLineHierarchy.insert_delegated. intros Hrun.
  apply bind_done in Hrun as ([cs subs] & w1 & Hs & Hrun).
  apply bind_done in Hrun as ([r c] & w2 & Hi & Hrun).
  apply ret_done in Hrun as [-> ->]. by exists subs, w1, r.
Qed.

Lemma insert_direct_done (self self' : myServiceLineHierarchy.t)
    (time_unit ttl : Z) (prio : bool) (w w' : World G) :
  myServiceLineHierarchy.insert_direct self time_unit ttl prio w =
  Done (self', w') ->
  exists r,
    insert_new_incoming_request (myServiceLineHierarchy.chief self)
      time_unit ttl prio [] w =
    Done ((r, myServiceLineHierarchy.chief self'), w') /\
    myServiceLineHierarchy.list_of_collaborators self' =
    myServiceLineHierarchy.list_of_collaborators self /\
    myServiceLineHierarchy.nr_of_collaborators self' =
    myServiceLineHierarchy.nr_of_collaborators self.
Proof.
  unfold myServiceLineHierarchy.insert_direct. intros Hrun.
  apply bind_done in Hrun as ([r c] & w1 & Hi & Hrun).
  apply ret_done in Hrun as [-> ->]. by exists r.
Qed.

(** What one time unit of the loop of a hierarchy does: maybe some
    draws, then either the dispatchers of all the lines, or the arrival
    of a request that is subdivided, or the arrival of one that is not. *)
Lemma hierarchy_time_unit_cases (arrivals : list arrival)
    (self self' : myServiceLineHierarchy.t) (time_unit : Z)
    (w w' : World G) :
  myServiceLineHierarchy.run_time_unit arrivals self time_unit w =
  Done (self', w') ->
  exists g,
    myServiceLineHierarchy.process_all self time_unit (set_rng g w) =
    Done (self', w') \/
    (exists ttl prio,
       myServiceLineHierarchy.insert_delegated self time_unit ttl prio
         (set_rng g w) = Done (self', w')) \/
    (exists ttl prio,
       myServiceLineHierarchy.insert_direct self time_unit ttl prio
         (set_rng g w) = Done (self', w')).
Proof.
  unfold myServiceLineHierarchy.run_time_unit.
  destruct arrivals as [|a arrivals].
  - rewrite (bind_eq _ _ _ _ _ (draw_done _ _)).
    destruct (Qltb _ _).
    + destruct (draw_time_to_serve_done (set_rng (snd (random (rng w))) w))
        as (ttl & g1 & Ht & Hrange).
      rewrite (bind_eq _ _ _ _ _ Ht).
      destruct (draw_priority_done
                  (set_rng g1 (set_rng (snd (random (rng w))) w)))
        as (p & g2 & Hp).
      rewrite (bind_eq _ _ _ _ _ Hp).
      rewrite (bind_eq _ _ _ _ _ (draw_done _ _)).
      cbn [rng set_rng].
      destruct (Qltb _ _).
      * intros Hrun. apply bind_done in Hrun as (share & w1 & Hs & Hrun).
        unfold myServiceLineHierarchy.time_to_serve_a_subrequest in Hs.
        destruct (_ =? 0); [discriminate|].
        apply ret_done in Hs as [-> ->].
        eexists. right. left. eexists _, _. exact Hrun.
      * intros Hrun. eexists. right. right. eexists _, _. exact Hrun.
    + intros Hrun. eexists. left. exact Hrun.
  - destruct (search_result_list _ _) as [|[[[x ttl] p] d] l].
    + intros Hrun. exists (rng w). left. by destruct w.
    + destruct d; intros Hrun; exists (rng w); right; [left|right];
        exists ttl, p; by destruct w.
Qed.

Lemma hierarchy_time_unit_evolves (arrivals : list arrival)
    (self self' : myServiceLineHierarchy.t) (time_unit : Z)
    (w w' : World G) :
  myServiceLineHierarchy.run_time_unit arrivals self time_unit w =
  Done (self', w') ->
  evolves (heap w) (heap w').
Proof.
  intros Hstep. apply hierarchy_time_unit_cases in Hstep
    as (g & [Hp|[(ttl & prio & Hd)|(ttl & prio & Hd)]]).
  - apply process_all_done in Hp as (b & w1 & Hp & Hc & _).
    eapply (evolves_trans _ (heap w1)).
    + by apply process_queued_requests_evolves in Hp.
    + by eapply process_collaborators_evolves.
  - apply insert_delegated_done in Hd as (subs & w1 & r & Hs & Hi & _).
    eapply (evolves_trans _ (heap w1)).
    + by apply insert_sub_requests_evolves in Hs.
    + by eapply insert_new_incoming_request_evolves.
  - apply insert_direct_done in Hd as (r & Hi & _).
    by apply insert_new_incoming_request_evolves in Hi.
Qed.

Lemma hierarchy_run_loop_evolves (arrivals : list arrival)
    (self self' : myServiceLineHierarchy.t) (time_units : list Z)
    (w w' : World G) :
  myServiceLineHierarchy.run_loop arrivals self time_units w =
  Done (self', w') ->
  evolves (heap w) (heap w').
Proof.
  revert self w. induction time_units as [|t ts IH]; intros self w Hrun.
  - cbn in Hrun. apply ret_done in Hrun as [-> ->]. apply evolves_refl.
  - cbn [myServiceLineHierarchy.run_loop] in Hrun.
    apply bind_done in Hrun as (self1 & w1 & Hstep & Hrun).
    eapply evolves_trans; [|by eapply IH].
    by eapply hierarchy_time_unit_evolves.
Qed.

(** X16: a run never undoes anything: whatever the line or the
    hierarchy, the LOG and the time units of its loop, every request
    object that exists before the loop is still there after it, with the
    same identifier, arrival time, weight, priority and sub-requests, with
    no more work left than before, and exactly as it was if it was
    completed; no request goes back to waiting. *)
Theorem runs_only_evolve_requests (arrivals : list arrival)
    (time_units : list Z) (w w' : World G) :
  (forall self self',
     myServiceLine.run_loop arrivals self time_units w = Done (self', w') ->
     evolves (heap w) (heap w')) /\
  (forall self self',
     myServiceLineHierarchy.run_loop arrivals self time_units w =
     Done (self', w') ->
     evolves (heap w) (heap w')).
Proof.
  split; intros self self' Hrun.
  - by eapply line_run_loop_evolves.
  - by eapply hierarchy_run_loop_evolves.
Qed.

(** An invariant of the dispatcher and of the arrivals that later states
    of the store keep is an invariant of the chief in the loop of a
    hierarchy. *)
Lemma hierarchy_run_loop_chief_ind
    (I : Z -> myServiceLine.t -> store -> Prop) (arrivals : list arrival) :
  (forall k self h h', I k self h -> evolves h h' -> I k self h') ->
  (forall k t self (w : World G) b self' w',
     I k self (heap w) -> k < t ->
     process_queued_requests self t w = Done ((b, self'), w') ->
     I t self' (heap w')) ->
  (forall k t self (w : World G) ttl prio subs r self' w',
     I k self (heap w) -> k < t ->
     insert_new_incoming_request self t ttl prio subs w =
     Done ((r, self'), w') ->
     I t self' (heap w')) ->
  forall time_units k self (w : World G) self' w',
    I k (myServiceLineHierarchy.chief self) (heap w) ->
    ticks_after k time_units ->
    myServiceLineHierarchy.run_loop arrivals self time_units w =
    Done (self', w') ->
    I (default k (last time_units)) (myServiceLineHierarchy.chief self')
      (heap w').
Proof.
  intros Hev Hproc Hins time_units.
  induction time_units as [|t ts IH]; intros k self w self' w' Hi Ht Hrun.
  - cbn in Hrun. apply ret_done in Hrun as [-> ->]. done.
  - destruct Ht as [Hk Hts]. cbn [myServiceLineHierarchy.run_loop] in Hrun.
    apply bind_done in Hrun as (self1 & w1 & Hstep & Hrun).
    assert (Hi1 : I t (myServiceLineHierarchy.chief self1) (heap w1)).
    { apply hierarchy_time_unit_cases in Hstep
        as (g & [Hp|[(ttl & prio & Hd)|(ttl & prio & Hd)]]).
      - apply process_all_done in Hp as (b & w2 & Hp & Hc & _).
        apply (Hev t _ (heap w2)).
        + eapply (Hproc k t _ (set_rng g w)); [done|done|exact Hp].
        + by eapply process_collaborators_evolves.
      - apply insert_delegated_done in Hd as (subs & w2 & r & Hs & Hin & _).
        eapply (Hins k t _ w2); [|done|exact Hin].
        apply (Hev k _ (heap w)); [done|].
        by apply insert_sub_requests_evolves in Hs.
      - apply insert_direct_done in Hd as (r & Hin & _).
        eapply (Hins k t _ (set_rng g w)); [done|done|exact Hin]. }
    specialize (IH t self1 w1 self' w' Hi1 Hts Hrun).
    rewrite last_cons. by destruct (last ts).
Qed.

Lemma accounted_evolves (k : Z) (self : myServiceLine.t) (h h' : store) :
  accounted k self h -> evolves h h' -> accounted k self h'.
Proof.
  intros (Hin & Hlog & Hrest) Hev. unfold accounted.
  split.
  { eapply Forall_impl; [exact Hin|]. intros r Hr. destruct Hev as [Hl _].
    cbn beta in *. lia. }
  split; [|done]. by rewrite (log_of_evolves h).
Qed.

Lemma hierarchy_run_books (chief_service_type nr collaborator_service_type : Z)
    (arrivals : list arrival) (w0 w : World G)
    (self : myServiceLineHierarchy.t) :
  0 <= nr ->
  myServiceLineHierarchy.init chief_service_type nr
    collaborator_service_type w0 = Done (self, w) ->
  exists self' w',
    myServiceLineHierarchy.run_loop arrivals self
      (range TOTAL_NR_OF_TIME_UNITS) w = Done (self', w') /\
    accounted (TOTAL_NR_OF_TIME_UNITS - 1)
      (myServiceLineHierarchy.chief self') (heap w').
Proof.
  intros Hnr Hinit.
  apply hierarchy_init_done in Hinit as Hnew.
  destruct Hnew as (Hown & _ & _ & _ & Hnr' & Hlen & _).
  destruct (hierarchy_run_spec self arrivals w)
    as (k & self' & w' & Hrun & _).
  { split; [lia|]. by rewrite Hnr'. }
  { rewrite Hown. apply consistent_nil. }
  exists self', w'. split; [done|].
  assert (Ha : accounted (-1) (myServiceLineHierarchy.chief self) (heap w)).
  { unfold myServiceLineHierarchy.init in Hinit.
    apply bind_done in Hinit as (id & w1 & _ & Hinit).
    apply bind_done in Hinit as (c & w2 & Hc & Hinit).
    apply bind_done in Hinit as (l & w3 & Hl & Hinit).
    apply ret_done in Hinit as [-> ->]. cbn.
    apply line_init_accounted in Hc as [Ha _].
    apply append_collaborators_done in Hl as (_ & _ & -> & _). done. }
  pose proof (hierarchy_run_loop_chief_ind accounted arrivals
                accounted_evolves
                (fun k t s w0 b s' w0' => process_accounted k t s s' w0 w0' b)
                (fun k t s w0 ttl prio subs r s' w0' =>
                   insert_accounted k t s s' ttl prio subs w0 w0' r)
                (range TOTAL_NR_OF_TIME_UNITS) (-1) self w self' w' Ha
                (range_ticks _) Hrun) as Hb.
  by rewrite last_range_total in Hb.
Qed.

(** X17: after the loop of [run] of a hierarchy the LOG of the chief
    has one entry for every request of the chief's queue, in queue order:
    the time unit of the arrival, the weight, the priority, and whether
    the request has sub-requests; the time units of the entries increase
    strictly and lie in the timeline. *)
Theorem chief_log_mirrors_queue
    (chief_service_type nr collaborator_service_type : Z)
    (arrivals : list arrival) (w0 w : World G)
    (self : myServiceLineHierarchy.t) :
  0 <= nr ->
  myServiceLineHierarchy.init chief_service_type nr
    collaborator_service_type w0 = Done (self, w) ->
  exists self' w',
    myServiceLineHierarchy.run_loop arrivals self
      (range TOTAL_NR_OF_TIME_UNITS) w = Done (self', w') /\
    let chief := myServiceLineHierarchy.chief self' in
    myServiceLine.arrivals chief =
    (fun r => (time_to_start (heap w' !!! r),
               minimum_duration (heap w' !!! r),
               priority (heap w' !!! r),
               match list_of_requests_it_is_waiting_for (heap w' !!! r) with
               | [] => false
               | _ :: _ => true
               end)) <$> queue chief /\
    ticks_after (-1) (times (myServiceLine.arrivals chief)) /\
    Forall (fun t => t < TOTAL_NR_OF_TIME_UNITS)
      (times (myServiceLine.arrivals chief)).
Proof.
  intros Hnr Hinit.
  destruct (hierarchy_run_books chief_service_type nr
              collaborator_service_type arrivals w0 w self Hnr Hinit)
    as (self' & w' & Hrun & (_ & Hlog & Hticks & Hle & _)).
  exists self', w'. split; [done|]. cbn zeta. split; [done|].
  split; [done|].
  eapply Forall_impl; [exact Hle|]. intros t Ht. cbn beta in *. lia.
Qed.

Lemma hierarchy_run_done (self self' : myServiceLineHierarchy.t)
    (arrivals : list arrival) (v : list Q) (w w' : World G) :
  myServiceLineHierarchy.run self arrivals w = Done ((v, self'), w') ->
  myServiceLineHierarchy.run_loop arrivals self
    (range TOTAL_NR_OF_TIME_UNITS) w = Done (self', w') /\
  performance (myServiceLineHierarchy.chief self') w' = Done (v, w').
Proof.
  unfold myServiceLineHierarchy.run. intros Hrun.
  apply bind_done in Hrun as (s1 & w1 & Hloop & Hrun).
  apply bind_done in Hrun as (v1 & w2 & Hperf & Hret).
  apply ret_done in Hret as [[= <- <-] <-].
  apply performance_world in Hperf as Hw. destruct Hw as [-> _]. done.
Qed.

(** X18: the statistics that a run of a hierarchy returns are those
    of the chief and are in their ranges: the accumulated number of active
    requests is not negative; the chief's empty time units and arrivals
    together are at most the time units of the timeline; the last ratio
    of active requests is between 0 and 1; the peak counter is between 0
    and the number of requests of the chief. *)
Theorem chief_statistics_in_range
    (chief_service_type nr collaborator_service_type : Z)
    (arrivals : list arrival) (w0 w w' : World G)
    (self self' : myServiceLineHierarchy.t) (v : list Q) :
  0 <= nr ->
  myServiceLineHierarchy.init chief_service_type nr
    collaborator_service_type w0 = Done (self, w) ->
  myServiceLineHierarchy.run self arrivals w = Done ((v, self'), w') ->
  let chief := myServiceLineHierarchy.chief self' in
  exists v0 accumulated empty ratio peak,
    v = [v0; true_div accumulated TOTAL_NR_OF_TIME_UNITS; inject_Z empty;
         ratio; inject_Z peak] /\
    0 <= accumulated /\
    0 <= empty /\
    empty + Z.of_nat (length (queue chief)) <= TOTAL_NR_OF_TIME_UNITS /\
    (0 <= ratio <= 1)%Q /\
    0 <= peak <= Z.of_nat (length (queue chief)).
Proof.
  intros Hnr Hinit Hrun chief. subst chief.
  apply hierarchy_run_done in Hrun as [Hloop Hperf].
  destruct (hierarchy_run_books chief_service_type nr
              collaborator_service_type arrivals w0 w self Hnr Hinit)
    as (s & w1 & Hloop' & Ha).
  rewrite Hloop in Hloop'. injection Hloop' as <- <-.
  apply performance_world in Hperf as (_ & v0 & -> & _).
  destruct Ha as (_ & _ & _ & _ & He0 & He & Hacc & Hpct & Hmax).
  eexists v0, _, _, _, _. split; [reflexivity|].
  unfold TOTAL_NR_OF_TIME_UNITS in *.
  split; [done|]. split; [done|]. split; [lia|]. done.
Qed.

(** ** The constructor of a hierarchy *)

Lemma append_collaborators_eq (n : nat) (service_type : Z)
    (l : list myServiceLine.t) (w : World G) :
  myServiceLineHierarchy.append_collaborators n service_type l w =
  match n, strategy_of_Z service_type with
  | O, _ => Done (l, w)
  | S _, None => Raise SystemExit
  | S _, Some s =>
      Done (l ++ ((fun i => new_line (ID_SERVICE_LINE w + Z.of_nat i) s)
                    <$> seq 0 n),
            mkWorld (heap w) (ID_REQUESTS w) (ID_SERVICE_LINE w + Z.of_nat n)
                    (ID_HIERARCHY w) (rng w))
  end.
Proof.
  revert l w. induction n as [|n IH]; intros l w; [done|].
  cbn [myServiceLineHierarchy.append_collaborators].
  unfold mbind, M_bind, myServiceLine.init.
  destruct (strategy_of_Z service_type) as [s|] eqn:Hs; [|done].
  rewrite IH, ?Hs. cbn [ID_SERVICE_LINE heap ID_REQUESTS ID_HIERARCHY rng].
  destruct n as [|n].
  - cbn. rewrite Z.add_0_r. done.
  - f_equal. f_equal.
    + rewrite <- app_assoc. f_equal. cbn [app].
      change (seq 0 (S (S n))) with (0%nat :: seq 1 (S n)).
      rewrite fmap_cons, Z.add_0_r. f_equal. unfold new_line.
      rewrite <- (fmap_S_seq 0), <- list_fmap_compose.
      apply list_fmap_ext. intros i x _. cbn. f_equal. lia.
    + f_equal. lia.
Qed.

(** X19: the constructor of a hierarchy numbers the hierarchy, then
    the chief, then the collaborators, with consecutive identifiers from
    the global counters, and gives every line an empty queue, an empty
    LOG and statistics at zero.  It quits when the chief's strategy is
    unknown, and when the collaborators' strategy is unknown and there is
    at least one collaborator; with no collaborator (a count of zero or
    less, which is stored as it is) the collaborators' strategy is not
    looked at. *)
Theorem hierarchy_constructor
    (chief_service_type nr collaborator_service_type : Z) (w : World G) :
  myServiceLineHierarchy.init chief_service_type nr
    collaborator_service_type w =
  match strategy_of_Z chief_service_type,
        (if 0 <? nr then strategy_of_Z collaborator_service_type
         else Some SEQUENTIAL) with
  | Some chief_strategy, Some strategy =>
      Done (myServiceLineHierarchy.mk (ID_HIERARCHY w)
              (new_line (ID_SERVICE_LINE w) chief_strategy)
              ((fun i => new_line (ID_SERVICE_LINE w + 1 + Z.of_nat i)
                           strategy) <$> seq 0 (Z.to_nat nr))
              nr,
            mkWorld (heap w) (ID_REQUESTS w)
                    (ID_SERVICE_LINE w + 1 + Z.max 0 nr)
                    (ID_HIERARCHY w + 1) (rng w))
  | _, _ => Raise SystemExit
  end.
Proof.
  unfold myServiceLineHierarchy.init, mbind, M_bind, myServiceLine.init.
  cbn [ID_SERVICE_LINE heap ID_REQUESTS ID_HIERARCHY rng].
  destruct (strategy_of_Z chief_service_type) as [sc|]; [|done].
  rewrite append_collaborators_eq.
  cbn [ID_SERVICE_LINE heap ID_REQUESTS ID_HIERARCHY rng].
  destruct (0 <? nr) eqn:Hnr.
  - apply Z.ltb_lt in Hnr.
    destruct (Z.to_nat nr) as [|n] eqn:Hn; [lia|].
    destruct (strategy_of_Z collaborator_service_type) as [s|]; [|done].
    unfold mret, M_ret. cbn [app]. do 3 f_equal. lia.
  - apply Z.ltb_ge in Hnr.
    replace (Z.to_nat nr) with 0%nat by lia.
    unfold mret, M_ret. cbn. do 3 f_equal. lia.
Qed.

(** ** The order of delegation *)

Lemma serve_request_wake (x : loc) (time_unit : Z) (h h' : store) :
  serve_request x time_unit h = Done (true, h') ->
  status (h !!! x) = WAITING_REQUEST ->
  forall s, s ∈ list_of_requests_it_is_waiting_for (h !!! x) ->
    status (h !!! s) = REQUEST_COMPLETION.
Proof.
  unfold serve_request. intros Hs Hw. rewrite Hw in Hs.
  destruct (list_of_requests_it_is_waiting_for (h !!! x)) as [|a l];
    [discriminate|].
  destruct (all_completed h (a :: l)) eqn:Hall; [|discriminate].
  by apply all_completed_true.
Qed.

Lemma serve_request_cases (x : loc) (time_unit : Z) (h h' : store)
    (b : bool) :
  serve_request x time_unit h = Done (b, h') ->
  forall y, h' !!! y = h !!! y \/
            (y = x /\ req_step time_unit (h !!! x) (h' !!! x) b).
Proof.
  intros Hs y. apply serve_request_done in Hs as (r' & -> & Hstep).
  rewrite !list_lookup_total_insert.
  destruct (decide (x = y /\ (x < length h)%nat)) as [[<- Hlt]|Hn];
    [|by left].
  right. split; [done|]. rewrite decide_True by done. done.
Qed.

Lemma serve_request_delegated (owned : list loc) (x : loc) (time_unit : Z)
    (h h' : store) (b : bool) :
  serve_request x time_unit h = Done (b, h') ->
  (forall r, r ∈ owned -> status (h !!! r) <> WAITING_REQUEST ->
     forall s, s ∈ list_of_requests_it_is_waiting_for (h !!! r) ->
       status (h !!! s) = REQUEST_COMPLETION) ->
  forall r, r ∈ owned -> status (h' !!! r) <> WAITING_REQUEST ->
    forall s, s ∈ list_of_requests_it_is_waiting_for (h' !!! r) ->
      status (h' !!! s) = REQUEST_COMPLETION.
Proof.
  intros Hs Hd r Hr Hnw s Hsub.
  pose proof (serve_request_cases x time_unit h h' b Hs) as Hcases.
  assert (Hkeep : status (h !!! s) = REQUEST_COMPLETION ->
                  status (h' !!! s) = REQUEST_COMPLETION).
  { intros Hc. destruct (Hcases s) as [->|[-> Hstep]]; [done|].
    apply req_step_fields in Hstep
      as (_ & _ & _ & _ & _ & _ & Hsame & _).
    by rewrite (Hsame Hc). }
  apply Hkeep.
  destruct (Hcases r) as [He|[-> Hstep]].
  - rewrite He in *. by apply (Hd r).
  - pose proof (req_step_fields _ _ _ _ Hstep)
      as (_ & _ & _ & _ & Hsubs & _).
    rewrite Hsubs in Hsub.
    inversion Hstep as [Hidle Heq|Hact Hlt Heq|Hact Hle Heq|Hwait Hne Heq];
      subst b.
    + apply (Hd x); [done| |done]. by rewrite Heq.
    + apply (Hd x); [done| |done]. by rewrite Hact.
    + apply (Hd x); [done| |done]. by rewrite Hact.
    + by apply (serve_request_wake x time_unit h h').
Qed.

Lemma serves_delegated (owned : list loc) (time_unit : Z) (rs : list loc)
    (h h' : store) :
  serves time_unit rs h h' ->
  (forall r, r ∈ owned -> status (h !!! r) <> WAITING_REQUEST ->
     forall s, s ∈ list_of_requests_it_is_waiting_for (h !!! r) ->
       status (h !!! s) = REQUEST_COMPLETION) ->
  forall r, r ∈ owned -> status (h' !!! r) <> WAITING_REQUEST ->
    forall s, s ∈ list_of_requests_it_is_waiting_for (h' !!! r) ->
      status (h' !!! s) = REQUEST_COMPLETION.
Proof.
  induction 1 as [h|x b rs h h1 h2 Hs _ IH]; [done|].
  intros Hd. apply IH. by eapply serve_request_delegated.
Qed.

Lemma serves_cases (time_unit : Z) (rs : list loc) (h h' : store) :
  serves time_unit rs h h' -> NoDup rs ->
  forall l, h' !!! l = h !!! l \/
            exists b, req_step time_unit (h !!! l) (h' !!! l) b.
Proof.
  intros Hs Hnd l. destruct (decide (l ∈ rs)) as [Hin|Hout].
  - by eapply serves_step.
  - left. by eapply serves_frame.
Qed.

Lemma req_step_inv (time_unit : Z) (r r' : myServiceRequest.t) (b : bool) :
  req_step time_unit r r' b ->
  r' = r \/
  (status r = ACTIVE_REQUEST /\ status r' = ACTIVE_REQUEST) \/
  (status r = ACTIVE_REQUEST /\ status r' = REQUEST_COMPLETION /\
   time_of_completion r' = Some time_unit) \/
  (status r = WAITING_REQUEST /\ status r' = ACTIVE_REQUEST).
Proof.
  destruct 1 as [Hidle|Hact Hlt|Hact Hle|Hwait Hne].
  - by left.
  - right. left. by split.
  - right. right. left. by split.
  - right. right. right. by split.
Qed.

Lemma delegation_serves (k time_unit : Z) (owned rs : list loc)
    (h h' : store) :
  delegation k owned h -> k < time_unit ->
  serves time_unit rs h h' -> NoDup rs ->
  delegation time_unit owned h'.
Proof.
  intros Hd Hk Hs Hnd.
  pose proof (serves_cases time_unit rs h h' Hs Hnd) as Hcases.
  assert (Hev : forall l, evolved (h !!! l) (h' !!! l)).
  { intros l. destruct (Hcases l) as [->|[b Hstep]];
      [apply evolved_refl|by eapply req_step_evolved]. }
  assert (Hd' := serves_delegated owned time_unit rs h h' Hs
                   (fun r Hr => proj1 (proj2 (Hd r Hr)))).
  assert (Hsame : forall r, r ∈ owned -> h' !!! r = h !!! r ->
            status (h !!! r) = REQUEST_COMPLETION ->
            exists c, time_of_completion (h' !!! r) = Some c /\
              c <= time_unit /\
              forall s, s ∈ list_of_requests_it_is_waiting_for (h' !!! r) ->
                exists cs, time_of_completion (h' !!! s) = Some cs /\ cs < c).
  { intros r Hr He Hc. rewrite He.
    destruct (Hd r Hr) as (_ & Hsubs & Hdone).
    destruct (Hdone Hc) as (c & Htoc & Hle & Hord).
    exists c. split; [done|]. split; [lia|].
    intros s Hsub. destruct (Hord s Hsub) as (cs & Hcs & Hlt).
    exists cs. split; [|done].
    destruct (Hev s) as (_ & _ & _ & _ & _ & _ & Hfinal & _).
    rewrite Hfinal; [done|]. apply Hsubs; [|done]. by rewrite Hc. }
  intros r Hr. destruct (Hd r Hr) as (Hown & Hsubs & Hdone).
  destruct (Hev r) as (_ & _ & _ & _ & Hlist & _).
  split; [by rewrite Hlist|]. split; [by apply Hd'|].
  intros Hc. destruct (Hcases r) as [He|[b Hstep]].
  - apply Hsame; [done|done|]. by rewrite <- He.
  - apply req_step_inv in Hstep
      as [Heq|[[Hact Hact']|[(Hact & _ & Htoc)|[Hwait Hact']]]].
    + apply Hsame; [done|done|]. by rewrite <- Heq.
    + exfalso. congruence.
    + exists time_unit. split; [done|]. split; [lia|].
      intros s Hsub. rewrite Hlist in Hsub.
      assert (Hsc : status (h !!! s) = REQUEST_COMPLETION).
      { apply Hsubs; [|done]. by rewrite Hact. }
      destruct (Hd s (Hown s Hsub)) as (_ & _ & Hsdone).
      destruct (Hsdone Hsc) as (cs & Hcs & Hle' & _).
      exists cs. split; [|lia].
      destruct (Hev s) as (_ & _ & _ & _ & _ & _ & Hfinal & _).
      by rewrite Hfinal.
    + exfalso. congruence.
Qed.

Lemma delegation_perm (k : Z) (owned owned' : list loc) (h : store) :
  owned ≡ₚ owned' -> delegation k owned h -> delegation k owned' h.
Proof.
  intros Hperm Hd r Hr. rewrite <- Hperm in Hr.
  destruct (Hd r Hr) as (Hown & Hrest). split; [|done].
  intros s Hs. rewrite <- Hperm. by apply Hown.
Qed.

Lemma delegation_alloc (k time_unit : Z) (owned : list loc)
    (h news : store) :
  (forall r, r ∈ owned -> (r < length h)%nat) ->
  delegation k owned h -> k <= time_unit ->
  Forall (fun n =>
            status n <> REQUEST_COMPLETION /\
            (status n <> WAITING_REQUEST ->
             list_of_requests_it_is_waiting_for n = []) /\
            forall s, s ∈ list_of_requests_it_is_waiting_for n ->
                      s ∈ owned ++ seq (length h) (length news)) news ->
  delegation time_unit (owned ++ seq (length h) (length news)) (h ++ news).
Proof.
  intros Hin Hd Hk Hnews r Hr. apply elem_of_app in Hr as [Hr|Hr].
  - destruct (Hd r Hr) as (Hown & Hsubs & Hdone).
    rewrite lookup_total_app_l by by apply Hin.
    assert (Hs : forall s,
              s ∈ list_of_requests_it_is_waiting_for (h !!! r) ->
              (h ++ news) !!! s = h !!! s).
    { intros s Hsub. apply lookup_total_app_l, Hin, Hown, Hsub. }
    split; [intros s Hsub; apply elem_of_app; left; by apply Hown|].
    split.
    + intros Hnw s Hsub. rewrite Hs by done. by apply Hsubs.
    + intros Hc. destruct (Hdone Hc) as (c & Htoc & Hle & Hord).
      exists c. split; [done|]. split; [lia|].
      intros s Hsub. rewrite Hs by done. by apply Hord.
  - apply elem_of_seq in Hr. rewrite lookup_total_app_r by lia.
    rewrite Forall_forall in Hnews.
    destruct (Hnews (news !!! (r - length h)%nat))
      as (Hnc & Hnone & Hown).
    { apply list_elem_of_lookup_total_2. lia. }
    split; [done|]. split.
    + intros Hnw s Hsub. rewrite (Hnone Hnw) in Hsub. inversion Hsub.
    + intros Hc. done.
Qed.

Lemma hierarchy_time_unit_delegation (k : Z) (arrivals : list arrival)
    (self self' : myServiceLineHierarchy.t) (time_unit : Z)
    (w w' : World G) :
  staffed self -> consistent k (owned self) (heap w) ->
  delegation k (owned self) (heap w) -> k < time_unit ->
  myServiceLineHierarchy.run_time_unit arrivals self time_unit w =
  Done (self', w') ->
  delegation time_unit (owned self') (heap w').
Proof.
  intros Hst Hc Hd Hk Hstep.
  assert (Hin : forall r, r ∈ owned self -> (r < length (heap w))%nat).
  { intros r Hr. by destruct (proj2 Hc r Hr) as (Hlt & _). }
  apply hierarchy_time_unit_cases in Hstep
    as (g & [Hp|[(ttl & prio & Hi)|(ttl & prio & Hi)]]).
  - destruct (process_all_spec self time_unit (set_rng g w) Hst)
      as (s1 & w1 & Hp1 & Ho & _ & _ & _ & rs & Hsub & Hrs).
    { intros l Hl. by destruct (proj2 Hc l Hl) as (_ & Hwf & _). }
    rewrite Hp in Hp1. injection Hp1 as <- <-. rewrite Ho.
    eapply (delegation_serves k time_unit (owned self) rs); [done|done|done|].
    eapply sublist_NoDup; [|exact Hsub]. apply Hc.
  - destruct (insert_delegated_spec self time_unit ttl prio (set_rng g w) Hst)
      as (s1 & w1 & Hi1 & Hh & _ & _ & _ & _ & _ & _ & Hperm).
    rewrite Hi in Hi1. injection Hi1 as <- <-.
    eapply delegation_perm; [symmetry; exact Hperm|].
    rewrite Hh. cbn [heap set_rng].
    set (n := Z.to_nat (myServiceLineHierarchy.nr_of_collaborators self)).
    set (news := new_sub_requests _ n time_unit ttl prio ++ [_]).
    assert (Hlen : length news = S n).
    { unfold news. rewrite length_app, new_sub_requests_length. cbn. lia. }
    rewrite <- Hlen.
    apply (delegation_alloc k); [done|done|lia|].
    unfold news. apply Forall_app. split.
    + unfold new_sub_requests. apply Forall_fmap, Forall_forall.
      intros j _. cbn. split; [done|]. split; [done|].
      intros s Hs. inversion Hs.
    + apply Forall_singleton. unfold myServiceRequest.init. cbn.
      split; [by destruct (seq _ n)|]. split; [by destruct (seq _ n)|].
      intros s Hs. apply elem_of_app. right.
      rewrite length_app, new_sub_requests_length. cbn [length].
      apply elem_of_seq in Hs. apply elem_of_seq. lia.
  - destruct (insert_direct_spec self time_unit ttl prio (set_rng g w))
      as (s1 & w1 & Hi1 & Hh & _ & _ & _ & Hperm).
    rewrite Hi in Hi1. injection Hi1 as <- <-.
    eapply delegation_perm; [symmetry; exact Hperm|].
    rewrite Hh. cbn [heap set_rng].
    apply (delegation_alloc k time_unit (owned self) (heap w) [_]);
      [done|done|lia|].
    apply Forall_singleton. cbn. split; [done|]. split; [done|].
    intros s Hs. inversion Hs.
Qed.

Lemma hierarchy_run_loop_delegation (arrivals : list arrival)
    (time_units : list Z) (k : Z) (self self' : myServiceLineHierarchy.t)
    (w w' : World G) :
  staffed self -> consistent k (owned self) (heap w) ->
  delegation k (owned self) (heap w) -> ticks_after k time_units ->
  myServiceLineHierarchy.run_loop arrivals self time_units w =
  Done (self', w') ->
  exists k', delegation k' (owned self') (heap w').
Proof.
  revert k self w. induction time_units as [|t ts IH];
    intros k self w Hst Hc Hd Ht Hrun.
  - cbn in Hrun. apply ret_done in Hrun as [-> ->]. by exists k.
  - destruct Ht as [Hk Hts]. cbn [myServiceLineHierarchy.run_loop] in Hrun.
    apply bind_done in Hrun as (s1 & w1 & Hstep & Hrun).
    destruct (hierarchy_time_unit_consistent k arrivals self t w Hst Hc Hk)
      as (s2 & w2 & Hstep2 & Hst1 & Hc1).
    rewrite Hstep in Hstep2. injection Hstep2 as <- <-.
    apply (IH t s1 w1 Hst1 Hc1); [|done|done].
    exact (hierarchy_time_unit_delegation k arrivals self s1 t w w1
             Hst Hc Hd Hk Hstep).
Qed.

(** X20: in a hierarchy a request that delegates is served only after
    every one of its sub-requests is completed, and it is completed
    strictly later than each of them: after the loop of [run], a request
    of the chief that is not waiting has all its sub-requests completed,
    and if it is completed, its time of completion is greater than the
    time of completion of each sub-request. *)
Theorem delegating_request_completes_last
    (chief_service_type nr collaborator_service_type : Z)
    (arrivals : list arrival) (w0 w : World G)
    (self : myServiceLineHierarchy.t) :
  0 <= nr ->
  myServiceLineHierarchy.init chief_service_type nr
    collaborator_service_type w0 = Done (self, w) ->
  exists self' w',
    myServiceLineHierarchy.run_loop arrivals self
      (range TOTAL_NR_OF_TIME_UNITS) w = Done (self', w') /\
    forall r, r ∈ queue (myServiceLineHierarchy.chief self') ->
      (status (heap w' !!! r) <> WAITING_REQUEST ->
       forall s, s ∈ list_of_requests_it_is_waiting_for (heap w' !!! r) ->
         status (heap w' !!! s) = REQUEST_COMPLETION) /\
      (status (heap w' !!! r) = REQUEST_COMPLETION ->
       exists c, time_of_completion (heap w' !!! r) = Some c /\
         forall s, s ∈ list_of_requests_it_is_waiting_for (heap w' !!! r) ->
           exists cs, time_of_completion (heap w' !!! s) = Some cs /\
                      cs < c).
Proof.
  intros Hnr Hinit.
  apply hierarchy_init_done in Hinit as Hnew.
  destruct Hnew as (Hown & _ & _ & _ & Hnr' & Hlen & _).
  assert (Hst : staffed self) by (split; [lia|by rewrite Hnr']).
  assert (Hc : consistent (-1) (owned self) (heap w)).
  { rewrite Hown. apply consistent_nil. }
  destruct (hierarchy_run_spec self arrivals w Hst Hc)
    as (k & self' & w' & Hrun & _).
  exists self', w'. split; [done|].
  destruct (hierarchy_run_loop_delegation arrivals
              (range TOTAL_NR_OF_TIME_UNITS) (-1) self self' w w' Hst Hc)
    as (k' & Hd); [|apply range_ticks|done|].
  { rewrite Hown. intros r Hr. inversion Hr. }
  intros r Hr. destruct (Hd r) as (_ & Hsubs & Hdone).
  { unfold owned. apply elem_of_app. by left. }
  split; [done|]. intros Hcomp.
  destruct (Hdone Hcomp) as (c & Htoc & _ & Hord). by exists c.
Qed.

(** ** Weights *)

(** X21: line 497 is reached with a weight that [run] has just drawn,
    between 1 and RANDOM_MAX_TIME_TO_SERVE_A_REQUEST (on these weights the
    float quotient of the source, truncated, is the integer quotient of the
    model).  For such a weight the share of a request that is subdivided
    among a chief and [nr] collaborators is at least 1 and the shares
    together cover the weight of the request, with less than one unit in
    excess per line; with -1 collaborators the division of line 497 is by
    zero. *)
Theorem sub_request_share (weight nr : Z) (w : World G) :
  1 <= weight <= RANDOM_MAX_TIME_TO_SERVE_A_REQUEST ->
  (nr = -1 ->
   myServiceLineHierarchy.time_to_serve_a_subrequest weight nr w =
   Raise ZeroDivisionError) /\
  (0 <= nr ->
   exists share,
     myServiceLineHierarchy.time_to_serve_a_subrequest weight nr w =
     Done (share, w) /\
     1 <= share <= weight + 1 /\
     weight < (nr + 1) * share <= weight + nr + 1).
Proof.
  intros [Hw _].
  unfold myServiceLineHierarchy.time_to_serve_a_subrequest. split.
  - intros ->. done.
  - intros Hnr. destruct (Z.eqb_spec (nr + 1) 0) as [Hz|_]; [lia|].
    eexists. split; [reflexivity|].
    rewrite Z.quot_div_nonneg by lia.
    pose proof (Z.div_mod weight (nr + 1)) as Hdm.
    pose proof (Z.mod_pos_bound weight (nr + 1)) as Hmod.
    pose proof (Z.div_pos weight (nr + 1)) as Hpos.
    pose proof (Z.div_le_upper_bound weight (nr + 1) weight) as Hub.
    split; [split; [lia|]; assert (weight / (nr + 1) <= weight); [|lia];
            apply Hub; nia|].
    nia.
Qed.

Lemma hierarchy_time_unit_generated (self self' : myServiceLineHierarchy.t)
    (time_unit : Z) (w w' : World G) :
  myServiceLineHierarchy.run_time_unit [] self time_unit w =
  Done (self', w') ->
  exists g,
    myServiceLineHierarchy.process_all self time_unit (set_rng g w) =
    Done (self', w') \/
    (exists weight prio,
       1 <= weight <= RANDOM_MAX_TIME_TO_SERVE_A_REQUEST /\
       myServiceLineHierarchy.insert_delegated self time_unit
         (weight ÷ (myServiceLineHierarchy.nr_of_collaborators self + 1) + 1)
         prio (set_rng g w) = Done (self', w')) \/
    (exists ttl prio,
       1 <= ttl <= RANDOM_MAX_TIME_TO_SERVE_A_REQUEST /\
       myServiceLineHierarchy.insert_direct self time_unit ttl prio
         (set_rng g w) = Done (self', w')).
Proof.
  unfold myServiceLineHierarchy.run_time_unit.
  rewrite (bind_eq _ _ _ _ _ (draw_done _ _)).
  destruct (Qltb _ _).
  - destruct (draw_time_to_serve_done (set_rng (snd (random (rng w))) w))
      as (ttl & g1 & Ht & Hrange).
    rewrite (bind_eq _ _ _ _ _ Ht).
    destruct (draw_priority_done
                (set_rng g1 (set_rng (snd (random (rng w))) w)))
      as (p & g2 & Hp).
    rewrite (bind_eq _ _ _ _ _ Hp).
    rewrite (bind_eq _ _ _ _ _ (draw_done _ _)).
    cbn [rng set_rng].
    destruct (Qltb _ _).
    + intros Hrun. apply bind_done in Hrun as (share & w1 & Hs & Hrun).
      unfold myServiceLineHierarchy.time_to_serve_a_subrequest in Hs.
      destruct (_ =? 0); [discriminate|].
      apply ret_done in Hs as [-> ->].
      eexists. right. left. eexists ttl, _. split; [done|]. exact Hrun.
    + intros Hrun. eexists. right. right. eexists ttl, _.
      split; [done|]. exact Hrun.
  - intros Hrun. eexists. left. exact Hrun.
Qed.

Lemma line_generated_weights (time_units : list Z)
    (self self' : myServiceLine.t) (w w' : World G) :
  myServiceLine.run_loop [] self time_units w = Done (self', w') ->
  Forall (fun a => 1 <= snd (fst (fst a))
                   <= RANDOM_MAX_TIME_TO_SERVE_A_REQUEST)
    (myServiceLine.arrivals self) ->
  Forall (fun a => 1 <= snd (fst (fst a))
                   <= RANDOM_MAX_TIME_TO_SERVE_A_REQUEST)
    (myServiceLine.arrivals self').
Proof.
  revert self w. induction time_units as [|t ts IH]; intros self w Hrun Hall.
  - cbn in Hrun. apply ret_done in Hrun as [-> ->]. done.
  - cbn [myServiceLine.run_loop] in Hrun.
    apply bind_done in Hrun as (s1 & w1 & Hstep & Hrun).
    apply (IH s1 w1 Hrun).
    apply line_time_unit_cases in Hstep
      as (g & [(b & Hp)|(ttl & prio & r & Hin & Hrange)]).
    + apply process_queued_requests_serves in Hp as ((_ & -> & _) & _). done.
    + destruct (insert_new_incoming_request_done self t ttl prio []
                  (set_rng g w)) as (s & Hi & _ & Harr & _).
      rewrite Hi in Hin. injection Hin as _ <- _. rewrite Harr.
      apply Forall_app. split; [done|]. by apply Forall_singleton.
Qed.

Lemma hierarchy_generated_weights (time_units : list Z)
    (self self' : myServiceLineHierarchy.t) (w w' : World G) :
  0 < myServiceLineHierarchy.nr_of_collaborators self ->
  myServiceLineHierarchy.run_loop [] self time_units w = Done (self', w') ->
  let in_range nr := fun a : arrival =>
    1 <= snd (fst (fst a))
      <= (if snd a
          then RANDOM_MAX_TIME_TO_SERVE_A_REQUEST ÷ (nr + 1) + 1
          else RANDOM_MAX_TIME_TO_SERVE_A_REQUEST) in
  Forall (in_range (myServiceLineHierarchy.nr_of_collaborators self))
    (myServiceLine.arrivals (myServiceLineHierarchy.chief self)) ->
  Forall (in_range (myServiceLineHierarchy.nr_of_collaborators self))
    (myServiceLine.arrivals (myServiceLineHierarchy.chief self')) /\
  myServiceLineHierarchy.nr_of_collaborators self' =
  myServiceLineHierarchy.nr_of_collaborators self.
Proof.
  intros Hnr Hrun in_range. revert self w Hnr Hrun.
  induction time_units as [|t ts IH]; intros self w Hnr Hrun Hall.
  - cbn in Hrun. apply ret_done in Hrun as [-> ->]. done.
  - cbn [myServiceLineHierarchy.run_loop] in Hrun.
    apply bind_done in Hrun as (s1 & w1 & Hstep & Hrun).
    set (nr := myServiceLineHierarchy.nr_of_collaborators self) in *.
    assert (Hshare : forall weight,
              1 <= weight <= RANDOM_MAX_TIME_TO_SERVE_A_REQUEST ->
              1 <= weight ÷ (nr + 1) + 1
                <= RANDOM_MAX_TIME_TO_SERVE_A_REQUEST ÷ (nr + 1) + 1 /\
              RANDOM_MAX_TIME_TO_SERVE_A_REQUEST ÷ (nr + 1) + 1
                <= RANDOM_MAX_TIME_TO_SERVE_A_REQUEST).
    { intros weight Hw. unfold RANDOM_MAX_TIME_TO_SERVE_A_REQUEST,
        MULTIPLICATION_FACTOR, TIME_TO_SERVE_A_REQUEST in *.
      rewrite !Z.quot_div_nonneg by lia.
      pose proof (Z.div_pos weight (nr + 1)).
      pose proof (Z.div_le_mono weight (2 * 20) (nr + 1)).
      pose proof (Z.div_le_compat_l (2 * 20) 2 (nr + 1)).
      change (2 * 20 / 2) with 20 in *. lia. }
    assert (Hstep1 :
      Forall (in_range nr)
        (myServiceLine.arrivals (myServiceLineHierarchy.chief s1)) /\
      myServiceLineHierarchy.nr_of_collaborators s1 = nr).
    { apply hierarchy_time_unit_generated in Hstep
        as (g & [Hp|[(weight & prio & Hw & Hd)|(ttl & prio & Hw & Hd)]]).
      - apply process_all_done in Hp as (b & w2 & Hp & _ & Hn).
        apply process_queued_requests_serves in Hp as ((_ & -> & _) & _).
        done.
      - apply insert_delegated_done in Hd as (subs & w2 & r & _ & Hin & Hn).
        fold nr in Hin, Hn. split; [|done].
        destruct (insert_new_incoming_request_done
                    (myServiceLineHierarchy.chief self) t
                    (weight ÷ (nr + 1) + 1) prio subs w2)
          as (s & Hi & _ & Harr & _).
        rewrite Hi in Hin. injection Hin as _ <- _. rewrite Harr.
        apply Forall_app. split; [done|]. apply Forall_singleton.
        unfold in_range. cbn [fst snd].
        destruct (Hshare weight Hw). destruct subs; lia.
      - apply insert_direct_done in Hd as (r & Hin & _ & Hn).
        split; [|done].
        destruct (insert_new_incoming_request_done
                    (myServiceLineHierarchy.chief self) t ttl prio []
                    (set_rng g w)) as (s & Hi & _ & Harr & _).
        rewrite Hi in Hin. injection Hin as _ <- _. rewrite Harr.
        apply Forall_app. split; [done|]. apply Forall_singleton.
        unfold in_range. cbn [fst snd]. lia. }
    destruct Hstep1 as [Hall1 Hn1].
    destruct (IH s1 w1) as [Hall' Hn']; [by rewrite Hn1|done|by rewrite Hn1|].
    rewrite Hn1 in Hall', Hn'. done.
Qed.

(** X22: the weights that a run generates are in their ranges: in the
    LOG of a line of its own every weight is between 1 and the maximum
    weight; in the LOG of the chief of a hierarchy with at least one
    collaborator, the weight of a delegated entry is a share, between 1
    and the share of the maximum weight, and the weight of any other
    entry is between 1 and the maximum weight. *)
Theorem generated_weights_in_range :
  (forall (service_type : Z) (w0 w : World G) (self : myServiceLine.t),
     myServiceLine.init service_type w0 = Done (self, w) ->
     exists self' w',
       myServiceLine.run_loop [] self (range TOTAL_NR_OF_TIME_UNITS) w =
       Done (self', w') /\
       Forall (fun a => 1 <= snd (fst (fst a))
                        <= RANDOM_MAX_TIME_TO_SERVE_A_REQUEST)
         (myServiceLine.arrivals self')) /\
  (forall (chief_service_type nr collaborator_service_type : Z)
          (w0 w : World G) (self : myServiceLineHierarchy.t),
     0 < nr ->
     myServiceLineHierarchy.init chief_service_type nr
       collaborator_service_type w0 = Done (self, w) ->
     exists self' w',
       myServiceLineHierarchy.run_loop [] self
         (range TOTAL_NR_OF_TIME_UNITS) w = Done (self', w') /\
       Forall (fun a : arrival =>
                 1 <= snd (fst (fst a))
                   <= (if snd a
                            then RANDOM_MAX_TIME_TO_SERVE_A_REQUEST
                                   ÷ (nr + 1) + 1
                            else RANDOM_MAX_TIME_TO_SERVE_A_REQUEST))
         (myServiceLine.arrivals (myServiceLineHierarchy.chief self'))).
Proof.
  split.
  - intros service_type w0 w self Hinit.
    destruct (line_run_books service_type [] w0 w self Hinit)
      as (self' & w' & Hrun & _).
    exists self', w'. split; [done|].
    apply (line_generated_weights (range TOTAL_NR_OF_TIME_UNITS)
             self self' w w' Hrun).
    unfold myServiceLine.init in Hinit.
    destruct (strategy_of_Z service_type); [|discriminate].
    injection Hinit as <- _. constructor.
  - intros chief_service_type nr collaborator_service_type w0 w self Hnr Hinit.
    destruct (hierarchy_run_books chief_service_type nr
                collaborator_service_type [] w0 w self) as
      (self' & w' & Hrun & (_ & Hlog & _)); [lia|done|].
    exists self', w'. split; [done|].
    apply hierarchy_init_done in Hinit as Hnew.
    destruct Hnew as (Hown & _ & _ & _ & Hnr' & _).
    destruct (hierarchy_generated_weights (range TOTAL_NR_OF_TIME_UNITS)
                self self' w w') as [Hall _];
      [by rewrite Hnr'|done| |by rewrite Hnr' in Hall].
    assert (myServiceLine.arrivals (myServiceLineHierarchy.chief self) = [])
      as ->; [|constructor].
    unfold myServiceLineHierarchy.init in Hinit.
    apply bind_done in Hinit as (id & w1 & _ & Hinit).
    apply bind_done in Hinit as (c & w2 & Hc & Hinit).
    apply bind_done in Hinit as (l & w3 & Hl & Hinit).
    apply ret_done in Hinit as [-> ->]. cbn.
    unfold myServiceLine.init in Hc.
    destruct (strategy_of_Z chief_service_type); [|discriminate].
    by injection Hc as <- _.
Qed.

Lemma ticks_after_weaken (lo lo' : Z) (l : list Z) :
  lo' <= lo -> ticks_after lo l -> ticks_after lo' l.
Proof. destruct l as [|a l]; [done|]. intros Hle [Ha Hl]. split; [lia|done]. Qed.

Lemma ticks_after_sublist (lo : Z) (l l' : list Z) :
  l' `sublist_of` l -> ticks_after lo l -> ticks_after lo l'.
Proof.
  intros Hsub. revert lo. induction Hsub as [|x l1 l2 _ IH|x l1 l2 _ IH];
    intros lo Hl; [done| |].
  - destruct Hl as [Hx Hl]. split; [done|]. by apply IH.
  - destruct Hl as [Hx Hl]. apply IH.
    eapply ticks_after_weaken; [|exact Hl]. lia.
Qed.

Lemma arrivals_for_single_line_times (l : list arrival) :
  times (arrivals_for_single_line l) `sublist_of` times l.
Proof.
  unfold times, arrivals_for_single_line.
  induction l as [|[[[x t] y] d] l IH]; [done|].
  rewrite filter_cons. destruct (decide (snd (x, t, y, d) = true)).
  - rewrite !fmap_cons. cbn [fst]. by apply sublist_skip.
  - rewrite fmap_cons. by apply sublist_cons.
Qed.

(** X23: the LOG that the emulation hands to the single lines (line
    703) can be replayed and stays clear of the sentinel of LOOKFORMIN:
    when it is taken from the generated LOG of the chief of a hierarchy
    of [NR_OF_COLLABORATORS] collaborators, its entries are the delegated
    ones, in increasing time units of the timeline, and every weight is
    between 4 and 44, below 3 * RANDOM_MAX_TIME_TO_SERVE_A_REQUEST. *)
Theorem single_line_log_of_emulation
    (chief_service_type collaborator_service_type : Z) (w0 w : World G)
    (self : myServiceLineHierarchy.t) :
  myServiceLineHierarchy.init chief_service_type NR_OF_COLLABORATORS
    collaborator_service_type w0 = Done (self, w) ->
  exists self' w',
    myServiceLineHierarchy.run_loop [] self
      (range TOTAL_NR_OF_TIME_UNITS) w = Done (self', w') /\
    let log :=
      arrivals_for_single_line
        (myServiceLine.arrivals (myServiceLineHierarchy.chief self')) in
    Forall (fun a => snd a = true /\
                     4 <= snd (fst (fst a)) <= 44 /\
                     snd (fst (fst a))
                       < 3 * RANDOM_MAX_TIME_TO_SERVE_A_REQUEST) log /\
    ticks_after (-1) (times log) /\
    Forall (fun t => t < TOTAL_NR_OF_TIME_UNITS) (times log).
Proof.
  intros Hinit.
  destruct (hierarchy_run_books chief_service_type NR_OF_COLLABORATORS
              collaborator_service_type [] w0 w self) as
    (self' & w' & Hrun & (_ & _ & Hticks & Hle & _)); [done|done|].
  exists self', w'. split; [done|].
  apply hierarchy_init_done in Hinit as Hnew.
  destruct Hnew as (_ & _ & _ & _ & Hnr' & _).
  destruct (hierarchy_generated_weights (range TOTAL_NR_OF_TIME_UNITS)
              self self' w w') as [Hall _]; [by rewrite Hnr'|done| |].
  { assert (myServiceLine.arrivals (myServiceLineHierarchy.chief self) = [])
      as ->; [|constructor].
    unfold myServiceLineHierarchy.init in Hinit.
    apply bind_done in Hinit as (id & w1 & _ & Hinit).
    apply bind_done in Hinit as (c & w2 & Hc & Hinit).
    apply bind_done in Hinit as (l & w3 & Hl & Hinit).
    apply ret_done in Hinit as [-> ->]. cbn.
    unfold myServiceLine.init in Hc.
    destruct (strategy_of_Z chief_service_type); [|discriminate].
    by injection Hc as <- _. }
  rewrite Hnr' in Hall. cbn zeta.
  pose proof (arrivals_for_single_line_times
                (myServiceLine.arrivals (myServiceLineHierarchy.chief self')))
    as Hsub.
  split; [|split].
  - unfold arrivals_for_single_line. apply Forall_fmap.
    apply Forall_forall. intros [[[x t] y] d] Hin.
    apply list_elem_of_filter in Hin as [Hd Hin]. cbn in Hd. subst d.
    rewrite Forall_forall in Hall. specialize (Hall _ Hin). cbn in Hall.
    cbn. split; [done|].
    change (RANDOM_MAX_TIME_TO_SERVE_A_REQUEST ÷ (NR_OF_COLLABORATORS + 1) + 1)
      with 11 in Hall.
    change (NR_OF_COLLABORATORS + 1) with 4.
    change (3 * RANDOM_MAX_TIME_TO_SERVE_A_REQUEST) with 120. lia.
  - by eapply ticks_after_sublist.
  - apply Forall_forall. intros t Ht.
    rewrite Forall_forall in Hle.
    specialize (Hle t (elem_of_sublist _ _ t Ht Hsub)). cbn beta in *. lia.
Qed.

(** X24: LOOKFORMIN selects a request whenever the queue is not empty
    and every remaining workload is below the sentinel, three times the
    maximum weight: under that condition a call on a non-empty queue
    returns True and counts no empty time unit. *)
Theorem look_for_min_finds_below_sentinel (self : myServiceLine.t)
    (time_unit : Z) (w : World G) :
  service_type self = LOOKFORMIN ->
  queue self <> [] ->
  (forall x, x ∈ queue self -> well_formed (heap w !!! x)) ->
  (forall x, x ∈ queue self ->
     time_to_live (heap w !!! x) < 3 * RANDOM_MAX_TIME_TO_SERVE_A_REQUEST) ->
  exists self' w',
    process_queued_requests self time_unit w = Done ((true, self'), w') /\
    nr_of_times_empty_line self' = nr_of_times_empty_line self.
Proof.
  intros Hty Hne Hwf Hlt.
  destruct (process_queued_requests_total self time_unit w Hwf)
    as (b & self' & w' & Hp).
  exists self', w'.
  pose proof (process_queued_requests_empty_line _ _ _ _ _ _ Hp) as [He _].
  destruct b; [split; [done|lia]|]. exfalso.
  unfold process_queued_requests in Hp.
  destruct (serve_priority self time_unit (heap w)) as [[[] h1]|e] eqn:Hsp;
    [discriminate| |discriminate].
  apply serve_priority_false in Hsp as ->.
  pose proof (observe_queue_fields self (heap w)) as (Hq & Hs & _).
  unfold apply_strategy in Hp. rewrite Hs, Hty, Hq in Hp.
  cbn [heap set_heap] in Hp.
  destruct (look_for_min_spec (queue self) (heap w)
              (3 * RANDOM_MAX_TIME_TO_SERVE_A_REQUEST) None)
    as [(r & Hl & _)|[_ Hall]].
  - rewrite Hl in Hp. destruct (serve_and_ignore _ _ _); discriminate.
  - destruct (queue self) as [|a q]; [done|].
    assert (Ha : a ∈ a :: q) by left.
    specialize (Hall a Ha). specialize (Hlt a Ha). lia.
Qed.

(** ** The total score *)

Lemma total_score_finite (accumulated empty peak : Z) (x0 ratio : Q) :
  (0 <= x0)%Q -> 0 <= accumulated -> 0 <= empty ->
  empty < TOTAL_NR_OF_TIME_UNITS -> (0 <= ratio)%Q -> 1 <= peak ->
  exists s,
    get_total_score
      [x0; true_div accumulated TOTAL_NR_OF_TIME_UNITS; inject_Z empty;
       ratio; inject_Z peak] = Done (Finite s) /\
    (s < 1)%Q.
Proof.
  intros Hx0 Hacc He0 He Hr Hp. unfold get_total_score, np_div.
  assert (Hpq : (1 <= inject_Z peak)%Q).
  { change 1%Q with (inject_Z 1). by rewrite <- Zle_Qle. }
  destruct (Qeq_bool (inject_Z peak) 0) eqn:Hz.
  { apply Qeq_bool_iff in Hz. rewrite Hz in Hpq. by exfalso. }
  cbn [np_rsub np_add]. eexists. split; [reflexivity|].
  set (mean := true_div accumulated TOTAL_NR_OF_TIME_UNITS).
  assert (Hmean : (0 <= mean / inject_Z peak)%Q).
  { apply Qle_shift_div_l; [lra|]. rewrite Qmult_0_l.
    unfold mean, true_div, Qle. cbn. lia. }
  assert (Hempty : (inject_Z empty / inject_Z TOTAL_NR_OF_TIME_UNITS < 1)%Q).
  { apply Qlt_shift_div_r; [done|]. rewrite Qmult_1_l.
    by rewrite <- Zlt_Qlt. }
  assert (Hpeak : (0 <= inject_Z peak /
                     true_div TOTAL_NR_OF_TIME_UNITS
                       RANDOM_MAX_TIME_TO_SERVE_A_REQUEST)%Q).
  { apply Qle_shift_div_l; [done|]. lra. }
  assert (Hextra : (0 <= x0 / inject_Z (4 * RANDOM_MAX_TIME_TO_SERVE_A_REQUEST))%Q).
  { apply Qle_shift_div_l; [done|]. lra. }
  revert Hmean Hempty Hpeak Hextra.
  generalize (mean / inject_Z peak)%Q.
  generalize (inject_Z empty / inject_Z TOTAL_NR_OF_TIME_UNITS)%Q.
  generalize (inject_Z peak /
              true_div TOTAL_NR_OF_TIME_UNITS
                RANDOM_MAX_TIME_TO_SERVE_A_REQUEST)%Q.
  intros a b c Hc Hb Ha Hextra.
  assert (Hneg : (- x0 / inject_Z (4 * RANDOM_MAX_TIME_TO_SERVE_A_REQUEST) ==
                  - (x0 / inject_Z (4 * RANDOM_MAX_TIME_TO_SERVE_A_REQUEST)))%Q).
  { unfold Qdiv. ring. }
  rewrite Hneg. lra.
Qed.

(** X25: the total score of the result of a run of a line of its own
    is always a finite number, and it is less than 1: the peak counter,
    by which the score divides, is at least 1 whenever [run] returns. *)
Theorem total_score_of_a_line_run (service_type : Z)
    (arrivals : list arrival) (w0 w w' : World G)
    (self self' : myServiceLine.t) (v : list Q) :
  myServiceLine.init service_type w0 = Done (self, w) ->
  myServiceLine.run self arrivals w = Done ((v, self'), w') ->
  exists s, get_total_score v = Done (Finite s) /\ (s < 1)%Q.
Proof.
  intros Hinit Hrun.
  apply line_init_done in Hinit as Hnew. destruct Hnew as (Hq & _).
  destruct (line_run_spec self arrivals w)
    as (k & s1 & w1 & Hloop1 & _ & _ & Hret).
  { rewrite Hq. apply consistent_nil. }
  apply line_run_done in Hrun as Hdone. destruct Hdone as [Hloop Hperf].
  rewrite Hloop in Hloop1. injection Hloop1 as <- <-.
  destruct (line_run_books service_type arrivals w0 w self Hinit)
    as (s2 & w2 & Hloop2 & Ha & Hu).
  rewrite Hloop in Hloop2. injection Hloop2 as <- <-.
  apply performance_world in Hperf as (_ & v0 & -> & r & Hr & Hc).
  destruct Hret as (v' & Hrun' & _ & Hpos & _); [by exists r|].
  rewrite Hrun in Hrun'. injection Hrun' as <-. cbn [nth] in Hpos.
  destruct Ha as (_ & _ & _ & _ & He0 & He & Hacc & Hpct & _).
  destruct Hu as (_ & _ & _ & Hone).
  assert (Hne : queue self' <> [])
    by (intros Hq'; rewrite Hq' in Hr; inversion Hr).
  assert (Hlen : (0 < length (queue self'))%nat)
    by (destruct (queue self'); [done|cbn; lia]).
  apply total_score_finite;
    [done|done|done| |apply Hpct|by apply Hone].
  unfold TOTAL_NR_OF_TIME_UNITS in *. lia.
Qed.

(** X26: the total score of the result of a run of a hierarchy is a
    finite number less than 1 when the peak counter of the chief is at
    least 1; when that counter is 0 the score divides by zero and is
    minus infinity or not-a-number. *)
Theorem total_score_of_a_hierarchy_run
    (chief_service_type nr collaborator_service_type : Z)
    (arrivals : list arrival) (w0 w w' : World G)
    (self self' : myServiceLineHierarchy.t) (v : list Q) :
  0 <= nr ->
  myServiceLineHierarchy.init chief_service_type nr
    collaborator_service_type w0 = Done (self, w) ->
  myServiceLineHierarchy.run self arrivals w = Done ((v, self'), w') ->
  let peak :=
    max_nr_of_pending_requests (myServiceLineHierarchy.chief self') in
  (1 <= peak /\
   exists s, get_total_score v = Done (Finite s) /\ (s < 1)%Q) \/
  (peak = 0 /\
   (get_total_score v = Done MinusInfinity \/
    get_total_score v = Done NotANumber)).
Proof.
  intros Hnr Hinit Hrun peak. subst peak.
  apply hierarchy_init_done in Hinit as Hnew.
  destruct Hnew as (Hown & _ & _ & _ & Hnr' & Hlen & _).
  destruct (hierarchy_run_spec self arrivals w)
    as (k & s1 & w1 & Hloop1 & _ & _ & Hret).
  { split; [lia|by rewrite Hnr']. }
  { rewrite Hown. apply consistent_nil. }
  apply hierarchy_run_done in Hrun as Hdone. destruct Hdone as [Hloop Hperf].
  rewrite Hloop in Hloop1. injection Hloop1 as <- <-.
  destruct (hierarchy_run_books chief_service_type nr
              collaborator_service_type arrivals w0 w self Hnr Hinit)
    as (s2 & w2 & Hloop2 & Ha).
  rewrite Hloop in Hloop2. injection Hloop2 as <- <-.
  apply performance_world in Hperf as (_ & v0 & -> & r & Hr & Hc).
  destruct Hret as (v' & Hrun' & _ & Hpos & _); [by exists r|].
  rewrite Hrun in Hrun'. injection Hrun' as <-. cbn [nth] in Hpos.
  destruct Ha as (_ & _ & _ & _ & He0 & He & Hacc & Hpct & Hmax).
  assert (Hqlen : (0 < length (queue (myServiceLineHierarchy.chief self')))%nat).
  { destruct (queue (myServiceLineHierarchy.chief self'));
      [inversion Hr|cbn; lia]. }
  destruct (decide (max_nr_of_pending_requests
                      (myServiceLineHierarchy.chief self') = 0)) as [Hz|Hnz].
  - right. split; [done|]. rewrite Hz.
    unfold get_total_score, np_div.
    change (Qeq_bool (inject_Z 0) 0) with true. cbn iota.
    destruct (Qcompare_spec
                (true_div (accumulate_nr_of_active_requests
                             (myServiceLineHierarchy.chief self'))
                   TOTAL_NR_OF_TIME_UNITS) 0) as [Heq|Hlt|Hgt].
    + by right.
    + exfalso. unfold true_div, Qlt in Hlt. cbn in Hlt. lia.
    + by left.
  - left. split; [lia|].
    apply total_score_finite; [done|done|done| |apply Hpct|lia].
    unfold TOTAL_NR_OF_TIME_UNITS in *. lia.
Qed.

(** ** Identifiers and arrivals *)

Lemma line_run_loop_world_ind (I : Z -> myServiceLine.t -> World G -> Prop)
    (arrivals : list arrival) :
  (forall k self w g, I k self w -> I k self (set_rng g w)) ->
  (forall k t self w b self' w',
     I k self w -> k < t ->
     process_queued_requests self t w = Done ((b, self'), w') ->
     I t self' w') ->
  (forall k t self w ttl prio r self' w',
     I k self w -> k < t ->
     insert_new_incoming_request self t ttl prio [] w =
     Done ((r, self'), w') ->
     I t self' w') ->
  forall time_units k self w self' w',
    I k self w -> ticks_after k time_units ->
    myServiceLine.run_loop arrivals self time_units w = Done (self', w') ->
    I (default k (last time_units)) self' w'.
Proof.
  intros Hrng Hproc Hins time_units.
  induction time_units as [|t ts IH]; intros k self w self' w' Hi Ht Hrun.
  - cbn in Hrun. apply ret_done in Hrun as [-> ->]. done.
  - destruct Ht as [Hk Hts]. cbn [myServiceLine.run_loop] in Hrun.
    apply bind_done in Hrun as (self1 & w1 & Hstep & Hrun).
    assert (Hi1 : I t self1 w1).
    { apply line_time_unit_cases in Hstep
        as (g & [(b & Hp)|(ttl & prio & r & Hin & _)]).
      - eapply (Hproc k t self (set_rng g w)); [by apply Hrng|done|exact Hp].
      - eapply (Hins k t self (set_rng g w)); [by apply Hrng|done|exact Hin]. }
    specialize (IH t self1 w1 self' w' Hi1 Hts Hrun).
    rewrite last_cons. by destruct (last ts).
Qed.

Lemma process_numbered (first : Z) (self self' : myServiceLine.t)
    (t : Z) (w w' : World G) (b : bool) :
  numbered first self w ->
  process_queued_requests self t w = Done ((b, self'), w') ->
  numbered first self' w'.
Proof.
  intros (Hin & Hids & Hnext) Hp.
  pose proof (process_queued_requests_evolves _ _ _ _ _ _ Hp) as [Hl Hev].
  apply process_queued_requests_serves in Hp
    as ((Hq & _) & (Hid & _) & _).
  unfold numbered. rewrite Hq, Hid. split; [|split; [|done]].
  - eapply Forall_impl; [exact Hin|]. intros r Hr. cbn beta in *. lia.
  - rewrite <- Hids. apply Forall_fmap_ext_1.
    eapply Forall_impl; [exact Hin|]. intros r Hr. cbn beta in *.
    by destruct (Hev r Hr) as (-> & _).
Qed.

Lemma insert_numbered (first : Z) (self self' : myServiceLine.t)
    (t ttl : Z) (prio : bool) (waiting_for : list loc) (w w' : World G)
    (r : loc) :
  numbered first self w ->
  insert_new_incoming_request self t ttl prio waiting_for w =
  Done ((r, self'), w') ->
  numbered first self' w'.
Proof.
  intros (Hin & Hids & Hnext).
  destruct (insert_new_incoming_request_done self t ttl prio waiting_for w)
    as (s & Hi & Hq & _).
  rewrite Hi. intros [= <- <- <-]. unfold numbered.
  cbn [heap ID_REQUESTS]. rewrite Hq, !length_app. cbn [length].
  split; [|split; [|lia]].
  - apply Forall_forall. intros x Hx.
    apply elem_of_app in Hx as [Hx|Hx].
    + rewrite Forall_forall in Hin. specialize (Hin x Hx). lia.
    + apply list_elem_of_singleton in Hx as ->. lia.
  - rewrite fmap_app, Nat.add_1_r, seq_S, fmap_app. cbn [fmap list_fmap].
    f_equal.
    + rewrite <- Hids. apply Forall_fmap_ext_1.
      eapply Forall_impl; [exact Hin|]. intros x Hx. cbn beta in *.
      by rewrite lookup_total_app_l.
    + rewrite lookup_total_app_r by done. rewrite Nat.sub_diag. cbn.
      f_equal. lia.
Qed.

(** X27: a line numbers its requests consecutively: after the loop of
    [run], the identifiers of the requests of the queue are, in queue
    order, the values that the global counter of requests took from the
    start of the run, and the counter has advanced by the number of
    requests of the queue. *)
Theorem line_request_identifiers (service_type : Z)
    (arrivals : list arrival) (w0 w : World G) (self : myServiceLine.t) :
  myServiceLine.init service_type w0 = Done (self, w) ->
  exists self' w',
    myServiceLine.run_loop arrivals self (range TOTAL_NR_OF_TIME_UNITS) w =
    Done (self', w') /\
    (fun r => service_id (heap w' !!! r)) <$> queue self' =
    (fun i => ID_REQUESTS w + Z.of_nat i) <$> seq 0 (length (queue self')) /\
    ID_REQUESTS w' = ID_REQUESTS w + Z.of_nat (length (queue self')).
Proof.
  intros Hinit.
  destruct (line_run_books service_type arrivals w0 w self Hinit)
    as (self' & w' & Hrun & _).
  exists self', w'. split; [done|].
  apply line_init_done in Hinit as (Hq & _).
  assert (Hn : numbered (ID_REQUESTS w) self w).
  { unfold numbered. rewrite Hq. cbn. split; [constructor|]. split; [done|lia]. }
  pose proof (line_run_loop_world_ind
                (fun _ s v => numbered (ID_REQUESTS w) s v) arrivals) as Hind.
  destruct (Hind (fun _ s v g Hs => Hs)
              (fun _ t s v b s' v' Hs _ Hp =>
                 process_numbered _ s s' t v v' b Hs Hp)
              (fun _ t s v ttl prio r s' v' Hs _ Hi =>
                 insert_numbered _ s s' t ttl prio [] v v' r Hs Hi)
              (range TOTAL_NR_OF_TIME_UNITS) (-1) self w self' w' Hn
              (range_ticks _) Hrun) as (_ & Hids & Hnext).
  done.
Qed.

Lemma insert_sub_requests_grows (indices : list Z)
    (cs cs' : list myServiceLine.t) (time_unit ttl : Z) (prio : bool)
    (subs subs' : list loc) (w w' : World G) :
  myServiceLineHierarchy.insert_sub_requests indices cs time_unit ttl prio
    subs w = Done ((cs', subs'), w') ->
  exists news, heap w' = heap w ++ news.
Proof.
  revert cs subs w. induction indices as [|i indices IH]; intros cs subs w.
  - cbn. intros Hr. apply ret_done in Hr as [_ ->].
    exists []. by rewrite app_nil_r.
  - cbn [myServiceLineHierarchy.insert_sub_requests].
    destruct (cs !! Z.to_nat i) as [c|]; [|discriminate].
    intros Hrun. apply bind_done in Hrun as ([r c'] & w1 & Hi & Hrun).
    destruct (insert_new_incoming_request_done c time_unit ttl prio [] w)
      as (s & Hi' & _).
    rewrite Hi' in Hi. injection Hi as _ _ <-.
    apply IH in Hrun as (news & Hnews). cbn [heap] in Hnews.
    eexists. rewrite Hnews, <- app_assoc. reflexivity.
Qed.

(** X28: a time unit in which a request arrives serves nothing: when
    the loop body of [run] lengthens the queue of the line (of the chief,
    for a hierarchy), every request object that existed before is exactly
    as it was, no dispatcher has run (the counts of empty time units and
    of active requests are unchanged), and only new objects have been
    added to the store. *)
Theorem arrival_time_unit_serves_nothing (arrivals : list arrival)
    (time_unit : Z) (w w' : World G) :
  (forall self self',
     myServiceLine.run_time_unit arrivals self time_unit w =
     Done (self', w') ->
     queue self' <> queue self ->
     (exists new, heap w' = heap w ++ [new] /\
                  queue self' = queue self ++ [length (heap w)]) /\
     nr_of_times_empty_line self' = nr_of_times_empty_line self /\
     accumulate_nr_of_active_requests self' =
     accumulate_nr_of_active_requests self) /\
  (forall self self',
     myServiceLineHierarchy.run_time_unit arrivals self time_unit w =
     Done (self', w') ->
     queue (myServiceLineHierarchy.chief self') <>
     queue (myServiceLineHierarchy.chief self) ->
     (exists news, heap w' = heap w ++ news /\
                   queue (myServiceLineHierarchy.chief self') =
                   queue (myServiceLineHierarchy.chief self) ++
                   [(length (heap w) + length news - 1)%nat]) /\
     nr_of_times_empty_line (myServiceLineHierarchy.chief self') =
     nr_of_times_empty_line (myServiceLineHierarchy.chief self) /\
     accumulate_nr_of_active_requests (myServiceLineHierarchy.chief self') =
     accumulate_nr_of_active_requests (myServiceLineHierarchy.chief self)).
Proof.
  split; intros self self' Hstep Hq.
  - apply line_time_unit_cases in Hstep
      as (g & [(b & Hp)|(ttl & prio & r & Hin & _)]).
    + apply process_queued_requests_serves in Hp as ((Hq' & _) & _). done.
    + destruct (insert_new_incoming_request_done self time_unit ttl prio []
                  (set_rng g w)) as (s & Hi & Hq' & _ & _ & _ & He & Ha & _).
      rewrite Hi in Hin. injection Hin as _ <- <-. cbn [heap set_rng].
      split; [|done]. by eexists.
  - apply hierarchy_time_unit_cases in Hstep
      as (g & [Hp|[(ttl & prio & Hd)|(ttl & prio & Hd)]]).
    + apply process_all_done in Hp as (b & w1 & Hp & _).
      apply process_queued_requests_serves in Hp as ((Hq' & _) & _). done.
    + apply insert_delegated_done in Hd as (subs & w1 & r & Hs & Hin & _).
      destruct (insert_new_incoming_request_done
                  (myServiceLineHierarchy.chief self) time_unit ttl prio
                  subs w1) as (s & Hi & Hq' & _ & _ & _ & He & Ha & _).
      rewrite Hi in Hin. injection Hin as _ <- <-. cbn [heap].
      split; [|done].
      destruct (insert_sub_requests_grows _ _ _ _ _ _ _ _ _ _ Hs)
        as (olds & Holds).
 cbn [heap set_rng] in Holds.
      exists (olds ++ [myServiceRequest.init (ID_REQUESTS w1) time_unit ttl
                         prio subs]).
      rewrite Hq', Holds, app_assoc. split; [done|].
      rewrite !length_app. cbn [length].
      replace (length (heap w) + (length olds + 1) - 1)%nat
        with (length (heap w) + length olds)%nat by lia.
      done.
    + apply insert_direct_done in Hd as (r & Hin & _).
      destruct (insert_new_incoming_request_done
                  (myServiceLineHierarchy.chief self) time_unit ttl prio []
                  (set_rng g w)) as (s & Hi & Hq' & _ & _ & _ & He & Ha & _).
      rewrite Hi in Hin. injection Hin as _ <- <-. cbn [heap set_rng].
      split; [|done]. eexists [_]. split; [done|]. rewrite Hq'.
      cbn [length].
      replace (length (heap w) + 1 - 1)%nat with (length (heap w)) by lia.
      done.
Qed.

(** ** Replaying a LOG on a hierarchy *)

Lemma hierarchy_replay_time_unit (arrivals : list arrival)
    (self self' : myServiceLineHierarchy.t) (time_unit : Z)
    (w w' : World G) :
  staffed self -> arrivals <> [] ->
  myServiceLineHierarchy.run_time_unit arrivals self time_unit w =
  Done (self', w') ->
  myServiceLine.arrivals (myServiceLineHierarchy.chief self') =
  myServiceLine.arrivals (myServiceLineHierarchy.chief self) ++
  (redelegate (myServiceLineHierarchy.nr_of_collaborators self)
     <$> admitted arrivals [time_unit]) /\
  myServiceLineHierarchy.nr_of_collaborators self' =
  myServiceLineHierarchy.nr_of_collaborators self.
Proof.
  intros Hst Hne. unfold myServiceLineHierarchy.run_time_unit, admitted.
  destruct arrivals as [|a0 l]; [done|]. cbn [omap list_omap].
  destruct (search_result_list (a0 :: l) time_unit)
    as [|[[[x ttl] p] d] rest] eqn:Hs; cbn [head].
  - intros Hp. apply process_all_done in Hp as (b & w1 & Hp & _ & Hn).
    apply process_queued_requests_serves in Hp as ((_ & -> & _) & _).
    cbn. by rewrite app_nil_r.
  - assert (Hx : x = time_unit).
    { apply (search_result_list_time (a0 :: l) time_unit (x, ttl, p, d)).
      rewrite Hs. left. }
    subst x. destruct d.
    + intros Hd.
      apply insert_delegated_done in Hd as (subs & w1 & r & Hsub & Hin & Hn).
      split; [|done].
      destruct Hst as [Hnr Hlen].
      destruct (insert_sub_requests_spec
                  (Z.to_nat (myServiceLineHierarchy.nr_of_collaborators self))
                  0 (myServiceLineHierarchy.list_of_collaborators self)
                  time_unit ttl p [] w) as (cs' & w2 & Hsub' & _);
        [lia|].
      unfold range in Hsub. rewrite Hsub' in Hsub. cbn [app] in Hsub.
      injection Hsub as _ Hsubs _. subst subs.
      destruct (insert_new_incoming_request_done
                  (myServiceLineHierarchy.chief self) time_unit ttl p
                  (seq (length (heap w))
                     (Z.to_nat (myServiceLineHierarchy.nr_of_collaborators
                                  self))) w1)
        as (s & Hi & _ & Harr & _).
      rewrite Hi in Hin. injection Hin as _ <- _. rewrite Harr.
      cbn [fmap list_fmap app]. unfold redelegate. cbn [fst snd andb].
      do 3 f_equal.
      destruct (Z.ltb_spec 0 (myServiceLineHierarchy.nr_of_collaborators self))
        as [Hpos|Hzero].
      * destruct (Z.to_nat _) eqn:Hn'; [lia|done].
      * by replace (Z.to_nat _) with 0%nat by lia.
    + intros Hd. apply insert_direct_done in Hd as (r & Hin & _ & Hn).
      split; [|done].
      destruct (insert_new_incoming_request_done
                  (myServiceLineHierarchy.chief self) time_unit ttl p [] w)
        as (s & Hi & _ & Harr & _).
      rewrite Hi in Hin. injection Hin as _ <- _. by rewrite Harr.
Qed.

Lemma hierarchy_replay_loop (arrivals : list arrival) (time_units : list Z)
    (k : Z) (self self' : myServiceLineHierarchy.t) (w w' : World G) :
  staffed self -> consistent k (owned self) (heap w) ->
  ticks_after k time_units -> arrivals <> [] ->
  myServiceLineHierarchy.run_loop arrivals self time_units w =
  Done (self', w') ->
  myServiceLine.arrivals (myServiceLineHierarchy.chief self') =
  myServiceLine.arrivals (myServiceLineHierarchy.chief self) ++
  (redelegate (myServiceLineHierarchy.nr_of_collaborators self)
     <$> admitted arrivals time_units).
Proof.
  intros Hst Hc Ht Hne. revert k self w Hst Hc Ht.
  induction time_units as [|t ts IH]; intros k self w Hst Hc Ht Hrun.
  - cbn in Hrun. apply ret_done in Hrun as [-> ->]. cbn.
    by rewrite app_nil_r.
  - destruct Ht as [Hk Hts]. cbn [myServiceLineHierarchy.run_loop] in Hrun.
    apply bind_done in Hrun as (s1 & w1 & Hstep & Hrun).
    destruct (hierarchy_time_unit_consistent k arrivals self t w Hst Hc Hk)
      as (s2 & w2 & Hstep2 & Hst1 & Hc1).
    rewrite Hstep in Hstep2. injection Hstep2 as <- <-.
    destruct (hierarchy_replay_time_unit arrivals self s1 t w w1 Hst Hne Hstep)
      as [Harr Hn].
    rewrite (IH t s1 w1 Hst1 Hc1 Hts Hrun), Harr, Hn.
    by rewrite (admitted_cons arrivals t ts), fmap_app, app_assoc.
Qed.

Lemma hierarchy_init_chief_log
    (chief_service_type nr collaborator_service_type : Z) (w0 w : World G)
    (self : myServiceLineHierarchy.t) :
  myServiceLineHierarchy.init chief_service_type nr
    collaborator_service_type w0 = Done (self, w) ->
  myServiceLine.arrivals (myServiceLineHierarchy.chief self) = [].
Proof.
  unfold myServiceLineHierarchy.init. intros Hinit.
  apply bind_done in Hinit as (id & w1 & _ & Hinit).
  apply bind_done in Hinit as (c & w2 & Hc & Hinit).
  apply bind_done in Hinit as (l & w3 & Hl & Hinit).
  apply ret_done in Hinit as [-> ->]. cbn.
  unfold myServiceLine.init in Hc.
  destruct (strategy_of_Z chief_service_type); [|discriminate].
  by injection Hc as <- _.
Qed.

(** X29: a hierarchy that replays a LOG admits, for every time unit
    of the timeline in turn, the first entry of the LOG with that time
    unit: after the loop of [run] on a non-empty LOG the LOG of the chief
    is the list of these entries, each with its delegation flag if the
    hierarchy has a collaborator, and with False if it has none. *)
Theorem hierarchy_replay_admits
    (chief_service_type nr collaborator_service_type : Z)
    (arrivals : list arrival) (w0 w : World G)
    (self : myServiceLineHierarchy.t) :
  0 <= nr ->
  myServiceLineHierarchy.init chief_service_type nr
    collaborator_service_type w0 = Done (self, w) ->
  arrivals <> [] ->
  exists self' w',
    myServiceLineHierarchy.run_loop arrivals self
      (range TOTAL_NR_OF_TIME_UNITS) w = Done (self', w') /\
    myServiceLine.arrivals (myServiceLineHierarchy.chief self') =
    redelegate nr <$> admitted arrivals (range TOTAL_NR_OF_TIME_UNITS).
Proof.
  intros Hnr Hinit Hne.
  apply hierarchy_init_done in Hinit as Hnew.
  destruct Hnew as (Hown & _ & _ & _ & Hnr' & Hlen & _).
  assert (Hst : staffed self) by (split; [lia|by rewrite Hnr']).
  assert (Hc : consistent (-1) (owned self) (heap w)).
  { rewrite Hown. apply consistent_nil. }
  destruct (hierarchy_run_spec self arrivals w Hst Hc)
    as (k & self' & w' & Hrun & _).
  exists self', w'. split; [done|].
  rewrite (hierarchy_replay_loop arrivals (range TOTAL_NR_OF_TIME_UNITS)
             (-1) self self' w w' Hst Hc (range_ticks _) Hne Hrun).
  by rewrite (hierarchy_init_chief_log _ _ _ _ _ _ Hinit), Hnr'.
Qed.

(** X30: the LOG that a run of a hierarchy leaves in its chief can be
    replayed: a new hierarchy with at least one collaborator, whatever
    its strategies, that runs on that LOG (not empty) admits the same
    requests at the same time units, delegates the same ones, and ends
    with the same LOG in its chief. *)
Theorem hierarchy_replay_of_recorded_log
    (chief_service_type nr collaborator_service_type : Z)
    (chief_service_type' nr' collaborator_service_type' : Z)
    (arrivals : list arrival) (w0 w w1 v0 v : World G)
    (self self1 other : myServiceLineHierarchy.t) :
  0 <= nr ->
  myServiceLineHierarchy.init chief_service_type nr
    collaborator_service_type w0 = Done (self, w) ->
  myServiceLineHierarchy.run_loop arrivals self
    (range TOTAL_NR_OF_TIME_UNITS) w = Done (self1, w1) ->
  myServiceLine.arrivals (myServiceLineHierarchy.chief self1) <> [] ->
  0 < nr' ->
  myServiceLineHierarchy.init chief_service_type' nr'
    collaborator_service_type' v0 = Done (other, v) ->
  exists other1 v1,
    myServiceLineHierarchy.run_loop
      (myServiceLine.arrivals (myServiceLineHierarchy.chief self1)) other
      (range TOTAL_NR_OF_TIME_UNITS) v = Done (other1, v1) /\
    myServiceLine.arrivals (myServiceLineHierarchy.chief other1) =
    myServiceLine.arrivals (myServiceLineHierarchy.chief self1).
Proof.
  intros Hnr Hinit Hrun Hne Hnr' Hinit'.
  destruct (hierarchy_run_books chief_service_type nr
              collaborator_service_type arrivals w0 w self Hnr Hinit)
    as (s & w2 & Hrun2 & (_ & _ & Hticks & Hle & _)).
  rewrite Hrun in Hrun2. injection Hrun2 as <- <-.
  apply hierarchy_init_done in Hinit' as Hnew.
  destruct Hnew as (Hown & _ & _ & _ & Hnr'' & Hlen & _).
  assert (Hst : staffed other) by (split; [lia|by rewrite Hnr'']).
  assert (Hc : consistent (-1) (owned other) (heap v)).
  { rewrite Hown. apply consistent_nil. }
  destruct (hierarchy_run_spec other
              (myServiceLine.arrivals (myServiceLineHierarchy.chief self1))
              v Hst Hc) as (k & other1 & v1 & Hrun' & _).
  exists other1, v1. split; [done|].
  rewrite (hierarchy_replay_loop _ (range TOTAL_NR_OF_TIME_UNITS)
             (-1) other other1 v v1 Hst Hc (range_ticks _) Hne Hrun').
  rewrite (hierarchy_init_chief_log _ _ _ _ _ _ Hinit'), Hnr''.
  cbn [app]. unfold range.
  rewrite (admitted_chronological (Z.to_nat TOTAL_NR_OF_TIME_UNITS) 0).
  - rewrite <- (list_fmap_id (myServiceLine.arrivals _)) at 2.
    apply list_fmap_ext. intros i [[[x t] y] d] _. unfold redelegate.
    cbn. assert ((0 <? nr') = true) as -> by by apply Z.ltb_lt.
    by rewrite andb_true_r.
  - done.
  - eapply Forall_impl; [exact Hle|]. intros t Ht. cbn beta in *.
    unfold TOTAL_NR_OF_TIME_UNITS in *. lia.
Qed.

(** ** The cursor of CONCURRENT, call by call and over whole runs *)

(** The scan of lines 262-271 over [pre ++ r :: post]: when no request of
    [pre] stops it, it stops at [r] if the service of [r] reports work and
    the identifier of [r] is above the cursor. *)
Lemma serve_rotating_found (whole pre post : list loc) (r : loc)
    (idx time_unit : Z) (h h0 h' : store) :
  serve_rotating whole pre idx time_unit h = Done (None, h0) ->
  serve_request r time_unit h0 = Done (true, h') ->
  idx < service_id (h' !!! r) ->
  serve_rotating whole (pre ++ r :: post) idx time_unit h =
  Done (Some (match remaining_requests h' whole (service_id (h' !!! r)) with
              | [] => 0
              | _ :: _ => service_id (h' !!! r)
              end), h').
Proof.
  revert h. induction pre as [|x pre IH]; intros h; simpl.
  - intros [= <-] Hs Hlt. rewrite Hs. apply Z.ltb_lt in Hlt. rewrite Hlt.
    simpl. by destruct (remaining_requests _ _ _).
  - destruct (serve_request x time_unit h) as [[b h1]|e]; [|discriminate].
    destruct (b && _).
    + destruct (_ =? _)%nat; discriminate.
    + apply IH.
Qed.

Lemma req_step_served (time_unit : Z) (r r' : myServiceRequest.t) :
  req_step time_unit r r' true ->
  time_to_live r <= minimum_duration r -> served r'.
Proof.
  intros Hs Hle. unfold served.
  inversion Hs as [|Hact Hlt|Hact Hlt|Hwait Hne]; subst; simpl.
  - split; [congruence|]. left. lia.
  - split; [discriminate|]. left. lia.
  - split; [discriminate|]. by right.
Qed.

Lemma cursor_sound_evolves (self : myServiceLine.t) (h h' : store) :
  cursor_sound self h -> evolves h h' -> cursor_sound self h'.
Proof.
  intros [Hq Hc] [Hlen Hev]. split.
  - eapply Forall_impl; [exact Hq|]. intros r [Hr Hle]. cbn beta.
    destruct (Hev r Hr) as (_ & _ & Hmin & _ & _ & Httl & _).
    split; [lia|]. rewrite Hmin. lia.
  - destruct Hc as [H0|(Hst & r & Hr & Hid & Hnw & Hwork)]; [by left|].
    right. split; [done|]. exists r.
    rewrite Forall_forall in Hq. destruct (Hq r Hr) as [Hlt Hle].
    destruct (Hev r Hlt) as (Hid' & _ & Hmin & _ & Hsubs & Httl & _ & Hwait).
    split; [done|]. split; [congruence|]. split.
    + intros Hw. apply Hnw. specialize (Hwait Hw). congruence.
    + destruct Hwork as [Hwork|Hwork]; [left; lia|right; congruence].
Qed.

Lemma init_cursor_sound (service_type : Z) (w w' : World G)
    (self : myServiceLine.t) (h : store) :
  myServiceLine.init service_type w = Done (self, w') -> cursor_sound self h.
Proof.
  intros Hi. destruct (line_init_done _ _ _ _ Hi) as (Hq & _ & _ & _ & Hc & _).
  split; [rewrite Hq; constructor|by left].
Qed.

Lemma insert_cursor_sound (self self' : myServiceLine.t)
    (time_unit ttl : Z) (prio : bool) (waiting_for : list loc)
    (w w' : World G) (r : loc) :
  cursor_sound self (heap w) ->
  insert_new_incoming_request self time_unit ttl prio waiting_for w =
  Done ((r, self'), w') ->
  cursor_sound self' (heap w').
Proof.
  intros Hs Hi.
  destruct (insert_new_incoming_request_done self time_unit ttl prio
              waiting_for w) as (s & Heq & Hq & _ & Hst & Hidx & _).
  rewrite Heq in Hi. injection Hi as <- <- <-. cbn [heap].
  destruct (cursor_sound_evolves _ _ _ Hs
              (alloc_evolves (heap w)
                 [myServiceRequest.init (ID_REQUESTS w) time_unit ttl prio
                    waiting_for])) as [Hq' Hc'].
  split.
  - rewrite Hq. apply Forall_app. split; [exact Hq'|].
    apply Forall_singleton. rewrite length_app. cbn [length].
    split; [lia|]. rewrite lookup_total_app_r by done.
    rewrite Nat.sub_diag. cbn. lia.
  - destruct Hc' as [H0|(Hct & x & Hx & Hid & Hserved)].
    + left. congruence.
    + right. split; [congruence|]. exists x.
      split; [rewrite Hq; apply elem_of_app; by left|].
      split; [congruence|done].
Qed.

Lemma process_cursor_sound (self self' : myServiceLine.t) (time_unit : Z)
    (w w' : World G) (b : bool) :
  cursor_sound self (heap w) ->
  process_queued_requests self time_unit w = Done ((b, self'), w') ->
  cursor_sound self' (heap w').
Proof.
  intros Hs Hp.
  pose proof (process_queued_requests_evolves _ _ _ _ _ _ Hp) as Hev.
  destruct (cursor_sound_evolves _ _ _ Hs Hev) as [Hq' Hc'].
  destruct (process_queued_requests_serves _ _ _ _ _ _ Hp)
    as ((Hq & _ & _ & Hst & _) & _).
  split; [by rewrite Hq|].
  destruct (process_queued_requests_cursor _ _ _ _ _ _ Hp)
    as [Hsame|(Hconc & _ & _ & pre & r & post & h0 & Hqq & Hpre & Hsr & Hlt
               & Hcur)].
  - destruct Hc' as [H0|(Hct & x & Hx & Hid & Hserved)].
    + left. congruence.
    + right. split; [congruence|]. exists x.
      split; [by rewrite Hq|]. split; [congruence|done].
  - destruct (remaining_requests (heap w') (queue self)
                (service_id (heap w' !!! r))); [by left|].
    right. split; [congruence|]. exists r.
    split; [rewrite Hq, Hqq; apply elem_of_app; right; by left|].
    split; [done|].
    destruct Hs as [Hin _]. rewrite Forall_forall in Hin.
    destruct (Hin r) as [Hr Hle].
    { rewrite Hqq. apply elem_of_app. right. by left. }
    destruct (serve_rotating_serves _ _ _ _ _ _ _ Hpre) as (rs & _ & Hrs).
    destruct (serves_evolves _ _ _ _ Hrs) as [Hlen0 Hev0].
    destruct (Hev0 r Hr) as (_ & _ & Hmin & _ & _ & Httl & _).
    destruct (serve_request_done _ _ _ _ _ Hsr) as (r' & Hh' & Hstep).
    rewrite Hh', list_lookup_total_insert_eq by lia.
    apply (req_step_served _ _ _ Hstep). lia.
Qed.

Lemma line_run_loop_cursor (arrivals : list arrival) (time_units : list Z)
    (self self' : myServiceLine.t) (w w' : World G) :
  cursor_sound self (heap w) ->
  myServiceLine.run_loop arrivals self time_units w = Done (self', w') ->
  cursor_sound self' (heap w').
Proof.
  revert self w. induction time_units as [|t ts IH]; intros self w Hs Hrun.
  - cbn in Hrun. apply ret_done in Hrun as [-> ->]. done.
  - cbn [myServiceLine.run_loop] in Hrun.
    apply bind_done in Hrun as (self1 & w1 & Hstep & Hrun).
    apply (IH self1 w1); [|exact Hrun].
    apply line_time_unit_cases in Hstep
      as (g & [(b & Hp)|(ttl & prio & r & Hin & _)]).
    + exact (process_cursor_sound self self1 t (set_rng g w) w1 b Hs Hp).
    + exact (insert_cursor_sound self self1 t ttl prio [] (set_rng g w) w1 r
               Hs Hin).
Qed.

Lemma process_collaborators_cursor (indices : list Z)
    (cs cs' : list myServiceLine.t) (time_unit : Z) (w w' : World G) :
  Forall (fun c => cursor_sound c (heap w)) cs ->
  myServiceLineHierarchy.process_collaborators indices cs time_unit w =
  Done (cs', w') ->
  Forall (fun c => cursor_sound c (heap w')) cs'.
Proof.
  revert cs w. induction indices as [|i indices IH]; intros cs w Hall.
  - cbn. intros Hr. apply ret_done in Hr as [-> ->]. done.
  - cbn [myServiceLineHierarchy.process_collaborators].
    destruct (cs !! Z.to_nat i) as [c|] eqn:Hc; [|discriminate].
    intros Hrun. apply bind_done in Hrun as ([b c'] & w1 & Hp & Hrun).
    eapply IH; [|exact Hrun].
    cbn [snd]. apply Forall_insert.
    + eapply Forall_impl; [exact Hall|]. intros x Hx. cbn beta.
      eapply cursor_sound_evolves; [exact Hx|].
      by eapply process_queued_requests_evolves.
    + eapply process_cursor_sound; [|exact Hp].
      by apply (Forall_lookup_1 _ _ _ _ Hall Hc).
Qed.

Lemma insert_sub_requests_cursor (indices : list Z)
    (cs cs' : list myServiceLine.t) (time_unit ttl : Z) (prio : bool)
    (subs subs' : list loc) (w w' : World G) :
  Forall (fun c => cursor_sound c (heap w)) cs ->
  myServiceLineHierarchy.insert_sub_requests indices cs time_unit ttl prio
    subs w = Done ((cs', subs'), w') ->
  Forall (fun c => cursor_sound c (heap w')) cs'.
Proof.
  revert cs subs w.
  induction indices as [|i indices IH]; intros cs subs w Hall.
  - cbn. intros Hr. apply ret_done in Hr as [[= -> ->] ->]. done.
  - cbn [myServiceLineHierarchy.insert_sub_requests].
    destruct (cs !! Z.to_nat i) as [c|] eqn:Hc; [|discriminate].
    intros Hrun. apply bind_done in Hrun as ([r c'] & w1 & Hi & Hrun).
    eapply IH; [|exact Hrun].
    cbn [snd]. apply Forall_insert.
    + eapply Forall_impl; [exact Hall|]. intros x Hx. cbn beta.
      eapply cursor_sound_evolves; [exact Hx|].
      by eapply insert_new_incoming_request_evolves.
    + eapply insert_cursor_sound; [|exact Hi].
      by apply (Forall_lookup_1 _ _ _ _ Hall Hc).
Qed.

Lemma cursor_sound_lines (cs : list myServiceLine.t) (h h' : store) :
  Forall (fun c => cursor_sound c h) cs -> evolves h h' ->
  Forall (fun c => cursor_sound c h') cs.
Proof.
  intros Hall Hev. eapply Forall_impl; [exact Hall|].
  intros x Hx. exact (cursor_sound_evolves x h h' Hx Hev).
Qed.

Lemma hierarchy_run_loop_cursor (arrivals : list arrival)
    (time_units : list Z) (self self' : myServiceLineHierarchy.t)
    (w w' : World G) :
  cursors_sound self (heap w) ->
  myServiceLineHierarchy.run_loop arrivals self time_units w =
  Done (self', w') ->
  cursors_sound self' (heap w').
Proof.
  revert self w. induction time_units as [|t ts IH]; intros self w Hs Hrun.
  - cbn in Hrun. apply ret_done in Hrun as [-> ->]. done.
  - cbn [myServiceLineHierarchy.run_loop] in Hrun.
    apply bind_done in Hrun as (self1 & w1 & Hstep & Hrun).
    apply (IH self1 w1); [|exact Hrun].
    destruct Hs as [Hchief Hall].
    apply hierarchy_time_unit_cases in Hstep
      as (g & [Hp|[(ttl & prio & Hd)|(ttl & prio & Hd)]]).
    + apply process_all_done in Hp as (b & w2 & Hp & Hc & _).
      split.
      * eapply cursor_sound_evolves;
          [exact (process_cursor_sound _ _ t (set_rng g w) w2 b Hchief Hp)|].
        by eapply process_collaborators_evolves.
      * eapply process_collaborators_cursor; [|exact Hc].
        eapply cursor_sound_lines; [exact Hall|].
        by apply process_queued_requests_evolves in Hp.
    + apply insert_delegated_done in Hd as (subs & w2 & r & Hsub & Hin & _).
      split.
      * eapply insert_cursor_sound; [|exact Hin].
        eapply cursor_sound_evolves; [exact Hchief|].
        by apply insert_sub_requests_evolves in Hsub.
      * eapply cursor_sound_lines.
        -- eapply insert_sub_requests_cursor; [|exact Hsub]. exact Hall.
        -- by eapply insert_new_incoming_request_evolves.
    + apply insert_direct_done in Hd as (r & Hin & Hcs & _).
      split.
      * exact (insert_cursor_sound _ _ t ttl prio [] (set_rng g w) w1 r
                 Hchief Hin).
      * rewrite Hcs. eapply cursor_sound_lines; [exact Hall|].
        exact (insert_new_incoming_request_evolves _ _ t ttl prio []
                 (set_rng g w) w1 r Hin).
Qed.

Lemma append_collaborators_cursor (n : nat) (service_type : Z)
    (l l' : list myServiceLine.t) (w w' : World G) (h : store) :
  myServiceLineHierarchy.append_collaborators n service_type l w =
  Done (l', w') ->
  Forall (fun c => cursor_sound c h) l ->
  Forall (fun c => cursor_sound c h) l'.
Proof.
  revert l w. induction n as [|n IH]; intros l w; simpl.
  - intros Hr. apply ret_done in Hr as [-> ->]. done.
  - intros Hr Hall. apply bind_done in Hr as (c & w1 & Hc & Hr).
    apply (IH _ _ Hr). apply Forall_app. split; [done|].
    apply Forall_singleton. by eapply init_cursor_sound.
Qed.

Lemma hierarchy_init_cursor (chief_service_type nr collaborator_service_type : Z)
    (w w' : World G) (self : myServiceLineHierarchy.t) (h : store) :
  myServiceLineHierarchy.init chief_service_type nr
    collaborator_service_type w = Done (self, w') ->
  cursors_sound self h.
Proof.
  unfold myServiceLineHierarchy.init. intros Hr.
  apply bind_done in Hr as (id & w1 & Hid & Hr).
  apply bind_done in Hr as (c & w2 & Hc & Hr).
  apply bind_done in Hr as (l & w3 & Hl & Hr).
  apply ret_done in Hr as [-> ->]. split; cbn.
  - by eapply init_cursor_sound.
  - eapply append_collaborators_cursor; [exact Hl|constructor].
Qed.

(** C5 (as amended).  The cursor is 0 in a new line and the insertion of
    a request does not touch it.  A call of [process_queued_requests]
    leaves it as it was when the line is not CONCURRENT, when the priority
    step has reported work, and when the call returns [False].  In a
    CONCURRENT line whose priority step reports nothing, the requests of
    the queue are served in turn, and the first request [r] whose service
    reports work and whose identifier is above the cursor ends the call:
    the call returns [True] with the cursor at the identifier of [r], or
    at 0 when no active or waiting request of the queue has a greater
    identifier; the requests served before [r] do not move the cursor, and
    every call that returns [True] past the priority step is of this form.
    So, after any number of time units of a run, the cursor of a new line,
    and of the chief and of every collaborator of a new hierarchy, is 0 or
    the identifier of a served request of the queue of a CONCURRENT
    line. *)
Theorem concurrent_cursor :
  (forall service_type (w w' : World G) self,
     myServiceLine.init service_type w = Done (self, w') ->
     concurrent_idx self = 0) /\
  (forall self time_unit ttl prio waiting_for (w w' : World G) r self',
     insert_new_incoming_request self time_unit ttl prio waiting_for w =
     Done ((r, self'), w') ->
     concurrent_idx self' = concurrent_idx self) /\
  (forall self time_unit (w w' : World G) b self',
     process_queued_requests self time_unit w = Done ((b, self'), w') ->
     service_type self <> CONCURRENT \/
     (exists h1, serve_priority self time_unit (heap w) = Done (true, h1)) \/
     b = false ->
     concurrent_idx self' = concurrent_idx self) /\
  (forall self time_unit (w : World G) pre r post h0 h',
     service_type self = CONCURRENT ->
     serve_priority self time_unit (heap w) = Done (false, heap w) ->
     queue self = pre ++ r :: post ->
     serve_rotating (queue self) pre (concurrent_idx self) time_unit
       (heap w) = Done (None, h0) ->
     serve_request r time_unit h0 = Done (true, h') ->
     concurrent_idx self < service_id (h' !!! r) ->
     process_queued_requests self time_unit w =
     Done ((true,
            set_concurrent_idx
              (match remaining_requests h' (queue self)
                       (service_id (h' !!! r)) with
               | [] => 0
               | _ :: _ => service_id (h' !!! r)
               end)
              (observe_queue self (heap w))),
           set_heap h' w)) /\
  (forall self time_unit (w w' : World G) self' h1,
     service_type self = CONCURRENT ->
     serve_priority self time_unit (heap w) = Done (false, h1) ->
     process_queued_requests self time_unit w = Done ((true, self'), w') ->
     exists pre r post h0,
       queue self = pre ++ r :: post /\
       serve_rotating (queue self) pre (concurrent_idx self) time_unit
         (heap w) = Done (None, h0) /\
       serve_request r time_unit h0 = Done (true, heap w') /\
       concurrent_idx self < service_id (heap w' !!! r) /\
       concurrent_idx self' =
       match remaining_requests (heap w') (queue self)
               (service_id (heap w' !!! r)) with
       | [] => 0
       | _ :: _ => service_id (heap w' !!! r)
       end) /\
  (forall service_type arrivals time_units (w0 w w' : World G) self self',
     myServiceLine.init service_type w0 = Done (self, w) ->
     myServiceLine.run_loop arrivals self time_units w = Done (self', w') ->
     cursor_on_served_request self' (heap w')) /\
  (forall chief_service_type nr collaborator_service_type arrivals time_units
          (w0 w w' : World G) self self',
     myServiceLineHierarchy.init chief_service_type nr
       collaborator_service_type w0 = Done (self, w) ->
     myServiceLineHierarchy.run_loop arrivals self time_units w =
     Done (self', w') ->
     cursor_on_served_request (myServiceLineHierarchy.chief self')
       (heap w') /\
     Forall (fun c => cursor_on_served_request c (heap w'))
       (myServiceLineHierarchy.list_of_collaborators self')).
Proof.
  split; [|split; [|split; [|split; [|split; [|split]]]]].
  - intros st w w' self Hi.
    by destruct (line_init_done _ _ _ _ Hi) as (_ & _ & _ & _ & Hc & _).
  - intros self t ttl prio wf w w' r self' Hi.
    destruct (insert_new_incoming_request_done self t ttl prio wf w)
      as (s & Heq & _ & _ & _ & Hidx & _).
    rewrite Heq in Hi. by injection Hi as <- <- <-.
  - intros self t w w' b self' Hp Hcase.
    destruct (process_queued_requests_cursor _ _ _ _ _ _ Hp)
      as [Hsame|(Hconc & Hb & Hprio & _)]; [done|].
    destruct Hcase as [Hst|[(h1 & Hpre)|Hfalse]]; [done| |congruence].
    rewrite Hprio in Hpre. discriminate.
  - intros self t w pre r post h0 h' Hconc Hprio Hq Hpre Hs Hlt.
    destruct (observe_queue_fields self (heap w)) as (Hq' & Hst & Hidx & _).
    pose proof (serve_rotating_found (queue self) pre post r _ _ _ _ _
                  Hpre Hs Hlt) as Hrot.
    rewrite <- Hq in Hrot.
    unfold process_queued_requests. cbv zeta. rewrite Hprio.
    unfold apply_strategy. cbv zeta. rewrite Hst, Hconc, Hq', Hidx.
    cbn [heap set_heap]. rewrite Hrot. reflexivity.
  - intros self t w w' self' h1 Hconc Hprio Hp.
    pose proof (serve_priority_false _ _ _ _ Hprio) as ->.
    destruct (observe_queue_fields self (heap w)) as (Hq' & Hst & Hidx & _).
    revert Hp. unfold process_queued_requests. cbv zeta. rewrite Hprio.
    unfold apply_strategy. cbv zeta. rewrite Hst, Hconc, Hq', Hidx.
    cbn [heap set_heap].
    destruct (serve_rotating _ _ _ _ _) as [[[c|] h2]|e] eqn:Hrot;
      [|discriminate|discriminate].
    intros [= <- <-]. cbn [heap set_heap].
    destruct (serve_rotating_some _ _ _ _ _ _ _ Hrot)
      as (pre & r & post & h0 & Hqq & Hpre & Hs & Hlt & Hc).
    exists pre, r, post, h0. done.
  - intros st arrivals time_units w0 w w' self self' Hi Hrun.
    apply (line_run_loop_cursor arrivals time_units self self' w w');
      [by eapply init_cursor_sound|exact Hrun].
  - intros cst nr ost arrivals time_units w0 w w' self self' Hi Hrun.
    destruct (hierarchy_run_loop_cursor arrivals time_units self self' w w')
      as [Hc Hall]; [by eapply hierarchy_init_cursor|exact Hrun|].
    split; [apply Hc|].
    eapply Forall_impl; [exact Hall|]. by intros c [_ Hx].
Qed.

End Simulation.

(** * The properties on concrete inputs *)

Import myServiceLine.

(** C2 on [waiting_store]: the waiting request wakes up. *)
Lemma serve_request_waiting_witness :
  exists h',
    serve_request 1 3 waiting_store = Done (true, h') /\
    status (h' !!! 1%nat) = ACTIVE_REQUEST /\
    time_to_live (h' !!! 1%nat) = 2.
Proof.
  destruct (serve_request_waiting waiting_store 1 3 eq_refl)
    as (_ & _ & Hwake).
  destruct Hwake as (h' & Hs & _ & _ & Hself).
  - discriminate.
  - intros r Hr. apply list_elem_of_singleton in Hr as ->. reflexivity.
  - exists h'. split; [exact Hs|].
    destruct Hself as (Hst & Httl & _); [simpl; lia|]. split; [exact Hst|].
    exact Httl.
Defined.

(** C1 on a line with a priority request: whatever the strategy. *)
Lemma priority_preemption_witness :
  Forall (fun s => exists h1,
    process_queued_requests (two_requests_line s) 2 two_requests_world =
    Done ((true, observe_queue (two_requests_line s)
                   (heap two_requests_world)),
          set_heap h1 two_requests_world) /\
    time_to_live (h1 !!! 0%nat) = 1)
  [SEQUENTIAL; CONCURRENT; LOOKFORMAX; LOOKFORMIN; RANDOMCHOICE].
Proof.
  apply Forall_forall. intros s _.
  destruct (proj2 (priority_preemption (two_requests_line s) 2
                     two_requests_world) 0%nat)
    as (pre & r & post & h1 & Hq & Hp & Hpre & Hs & Hr & _).
  - left.
  - reflexivity.
  - reflexivity.
  - intros x Hx Hw. exfalso.
    apply elem_of_cons in Hx as [->|Hx]; [discriminate|].
    apply list_elem_of_singleton in Hx as ->. discriminate.
  - exists h1. split; [exact Hr|].
    destruct pre as [|x pre]; simpl in Hq.
    + injection Hq as <- <-. simpl in Hs. by injection Hs as <-.
    + injection Hq as <- Hq. specialize (Hpre 0%nat).
      discriminate Hpre; [left|reflexivity].
Defined.

(** C4 on a new hierarchy of three collaborators and a request of weight
    10: three sub-requests of weight 3, and the request of the chief, of
    weight 3, waits for them. *)
Lemma hierarchy_fan_out_witness :
  exists self' w',
    myServiceLineHierarchy.run_time_unit [] three_collaborators 0
      fan_out_world = Done (self', w') /\
    heap w' =
    [myServiceRequest.mk 1 0 3 3 None ACTIVE_REQUEST false [];
     myServiceRequest.mk 2 0 3 3 None ACTIVE_REQUEST false [];
     myServiceRequest.mk 3 0 3 3 None ACTIVE_REQUEST false [];
     myServiceRequest.mk 4 0 3 3 None WAITING_REQUEST false
       [0%nat; 1%nat; 2%nat]] /\
    queue (myServiceLineHierarchy.chief self') = [3%nat].
Proof.
  destruct (hierarchy_fan_out three_collaborators 0 fan_out_world)
    as (_ & _ & self' & w' & Hr & Hh & _ & _ & Hq & _).
  - split; [simpl; lia|reflexivity].
  - reflexivity.
  - reflexivity.
  - exists self', w'. split; [exact Hr|]. split; [exact Hh|exact Hq].
Defined.

(** C7 on a LOOKFORMIN line with one completed request: the completed
    request is selected and the active one is left alone. *)
Lemma look_for_min_selects_completed_witness :
  look_for_min (queue one_completed_line) (heap one_completed_world)
    (3 * RANDOM_MAX_TIME_TO_SERVE_A_REQUEST) None = Some 1%nat /\
  process_queued_requests one_completed_line 3 one_completed_world =
  Done ((true, observe_queue one_completed_line (heap one_completed_world)),
        one_completed_world).
Proof.
  destruct (look_for_min_selects_completed one_completed_line 3
              one_completed_world 1%nat (heap one_completed_world))
    as (r & Hl & _ & _ & _ & _ & Hp & _).
  - reflexivity.
  - reflexivity.
  - right. left.
  - reflexivity.
  - intros x Hx Hst.
    apply elem_of_cons in Hx as [->|Hx]; [discriminate|].
    apply list_elem_of_singleton in Hx as ->. simpl. lia.
  - intros x Hx Hst.
    apply elem_of_cons in Hx as [->|Hx]; [simpl; lia|].
    apply list_elem_of_singleton in Hx as ->. by destruct Hst.
  - split; [|exact Hp]. reflexivity.
Defined.

(** C3 on a SEQUENTIAL line and a LOG of two requests: both are
    completed at the end, and the mean extra duration is 3/2. *)
Lemma extra_duration_not_negative_witness :
  exists self' w',
    myServiceLine.run (new_line 1 SEQUENTIAL)
      [(0, 2, false, false); (1, 1, false, false)] (mkWorld [] 1 2 1 []) =
    Done (([3 # 2; 5 # 3000; 2995 # 1; 0 # 2; 2 # 1]%Q, self'), w') /\
    forall r, r ∈ queue self' ->
      status (heap w' !!! r) = REQUEST_COMPLETION ->
      exists c, time_of_completion (heap w' !!! r) = Some c /\
                0 <= c - time_to_start (heap w' !!! r)
                       - minimum_duration (heap w' !!! r).
Proof.
  eassert (Hrun : myServiceLine.run (new_line 1 SEQUENTIAL)
                    [(0, 2, false, false); (1, 1, false, false)]
                    (mkWorld [] 1 2 1 []) = _)
    by (vm_compute; reflexivity).
  destruct (proj1 (extra_duration_not_negative (G := list nat)) 1
              [(0, 2, false, false); (1, 1, false, false)]
              (fresh_world []) (mkWorld [] 1 2 1 []) (new_line 1 SEQUENTIAL)
              eq_refl)
    as (self' & w' & Hl & Hdone & [Hquit|(v & Hv & Hpos)]).
  - rewrite Hrun in Hquit. discriminate Hquit.
  - exists self', w'. split; [|exact Hdone].
    rewrite Hrun in Hv. injection Hv as <- <- <-. exact Hrun.
Defined.

(** C8 on a SEQUENTIAL line: a LOG of two requests gives the five
    parameters, computed from the two completed requests and the counters
    of the line; a LOG whose only request arrives in the last time unit
    gives [quit()]. *)
Lemma run_quits_or_returns_witness :
  (exists v d self' w',
     myServiceLine.run (new_line 1 SEQUENTIAL)
       [(0, 2, false, false); (1, 1, false, false)] (mkWorld [] 1 2 1 []) =
     Done ((v, self'), w') /\ length v = 5%nat /\
     Forall2 (extra_duration_of (heap w'))
       (completed_requests (heap w') (queue self')) d /\
     v = [np_mean d;
          true_div (accumulate_nr_of_active_requests self')
            TOTAL_NR_OF_TIME_UNITS;
          inject_Z (nr_of_times_empty_line self');
          percentage_of_active_requests self';
          inject_Z (max_nr_of_pending_requests self')] /\
     v = [3 # 2; 5 # 3000; 2995 # 1; 0 # 2; 2 # 1]) /\
  myServiceLine.run (new_line 1 SEQUENTIAL) [(2999, 5, false, false)]
    (mkWorld [] 1 2 1 []) = Raise SystemExit.
Proof.
  split.
  - eassert (Hloop : myServiceLine.run_loop
                       [(0, 2, false, false); (1, 1, false, false)]
                       (new_line 1 SEQUENTIAL) (range TOTAL_NR_OF_TIME_UNITS)
                       (mkWorld [] 1 2 1 []) = _)
      by (vm_compute; reflexivity).
    eassert (Hrun : myServiceLine.run (new_line 1 SEQUENTIAL)
                      [(0, 2, false, false); (1, 1, false, false)]
                      (mkWorld [] 1 2 1 []) = _)
      by (vm_compute; reflexivity).
    destruct (proj1 (run_quits_or_returns (G := list nat)) 1
                [(0, 2, false, false); (1, 1, false, false)]
                (fresh_world []) (mkWorld [] 1 2 1 []) (new_line 1 SEQUENTIAL)
                eq_refl)
      as (self' & w' & Hl & _ & Hret).
    destruct Hret as (v & d & Hv & Hlen & Hd & Hvec).
    + rewrite Hloop in Hl. injection Hl as <- <-. exists 0%nat.
      split; [left|reflexivity].
    + exists v, d, self', w'. repeat split; try assumption.
      rewrite Hrun in Hv. injection Hv as <- _ _. reflexivity.
  - eassert (Hloop : myServiceLine.run_loop [(2999, 5, false, false)]
                       (new_line 1 SEQUENTIAL) (range TOTAL_NR_OF_TIME_UNITS)
                       (mkWorld [] 1 2 1 []) = _)
      by (vm_compute; reflexivity).
    destruct (proj1 (run_quits_or_returns (G := list nat)) 1
                [(2999, 5, false, false)]
                (fresh_world []) (mkWorld [] 1 2 1 []) (new_line 1 SEQUENTIAL)
                eq_refl)
      as (self' & w' & Hl & Hquit & _).
    apply Hquit. rewrite Hloop in Hl. injection Hl as <- <-.
    intros r Hr. apply list_elem_of_singleton in Hr as ->. discriminate.
Defined.

(** C5 on a CONCURRENT line with two active requests.  With the cursor at
    0 the call stops at request 1 and the cursor is 1, since request 2 is
    still to be served; with the cursor at 1 the call serves request 1,
    stops at request 2 and the cursor is back at 0.  In the hierarchy of
    the LOG with a delegated request, the cursor of the chief after the
    time units 0 to 4 is the identifier of a served request. *)
Lemma concurrent_cursor_witness :
  (exists self' w',
     process_queued_requests (rotating_line 0) 2 rotating_world =
     Done ((true, self'), w') /\ concurrent_idx self' = 1) /\
  (exists self' w',
     process_queued_requests (rotating_line 1) 2 rotating_world =
     Done ((true, self'), w') /\
     time_to_live (heap w' !!! 0%nat) = 1 /\
     time_to_live (heap w' !!! 1%nat) = 2 /\
     concurrent_idx self' = 0) /\
  (exists self' w',
     myServiceLineHierarchy.run_loop rotation_log rotation_hierarchy
       [0; 1; 2; 3; 4] rotation_world = Done (self', w') /\
     concurrent_idx (myServiceLineHierarchy.chief self') = 2 /\
     cursor_on_served_request (myServiceLineHierarchy.chief self')
       (heap w')).
Proof.
  split; [|split].
  - eassert (Hs : serve_request 0%nat 2 (heap rotating_world) = _)
      by (vm_compute; reflexivity).
    eexists _, _. split.
    + refine (proj1 (proj2 (proj2 (proj2 (concurrent_cursor (G := list nat)))))
                (rotating_line 0) 2 rotating_world [] 0%nat [1%nat]
                (heap rotating_world) _ eq_refl eq_refl eq_refl eq_refl Hs _).
      vm_compute. reflexivity.
    + vm_compute. reflexivity.
  - eassert (Hpre : serve_rotating (queue (rotating_line 1)) [0%nat] 1 2
                      (heap rotating_world) = Done (None, _))
      by (vm_compute; reflexivity).
    match type of Hpre with
    | _ = Done (None, ?h0) =>
        eassert (Hs : serve_request 1%nat 2 h0 = _)
          by (vm_compute; reflexivity)
    end.
    eexists _, _. split.
    + refine (proj1 (proj2 (proj2 (proj2 (concurrent_cursor (G := list nat)))))
                (rotating_line 1) 2 rotating_world [0%nat] 1%nat []
                _ _ eq_refl eq_refl eq_refl Hpre Hs _).
      vm_compute. reflexivity.
    + repeat split; vm_compute; reflexivity.
  - eassert (Hrun : myServiceLineHierarchy.run_loop rotation_log
                      rotation_hierarchy [0; 1; 2; 3; 4] rotation_world = _)
      by (vm_compute; reflexivity).
    eexists _, _. split; [exact Hrun|]. split; [reflexivity|].
    refine (proj1 (proj2 (proj2 (proj2 (proj2 (proj2 (proj2
              (concurrent_cursor (G := list nat))))))) 2 1 1 rotation_log
              [0; 1; 2; 3; 4] (fresh_world []) rotation_world _
              rotation_hierarchy _ eq_refl Hrun)).
Defined.

(** C5 as stated fails, inside the scan of CONCURRENT.  In a hierarchy
    with a CONCURRENT chief, after the time units 0 to 4 of the LOG the
    chief holds request 1 (active), request 2 (completed) and request 4
    (waiting for a sub-request that is not completed), and its cursor
    is 2.  No request has priority.  The call of time unit 5 serves
    request 1 (one unit of its work is done), finds no request above the
    cursor that reports work and returns [False]: the cursor is not the
    identifier of the served request, it is still 2, although request 4,
    above identifier 1, still waits. *)
Lemma concurrent_cursor_counterexample :
  exists self4 w4 self' w',
    myServiceLineHierarchy.run_loop rotation_log rotation_hierarchy
      [0; 1; 2; 3; 4] rotation_world = Done (self4, w4) /\
    service_type (myServiceLineHierarchy.chief self4) = CONCURRENT /\
    concurrent_idx (myServiceLineHierarchy.chief self4) = 2 /\
    serve_priority (myServiceLineHierarchy.chief self4) 5 (heap w4) =
    Done (false, heap w4) /\
    process_queued_requests (myServiceLineHierarchy.chief self4) 5 w4 =
    Done ((false, self'), w') /\
    status (heap w4 !!! 0%nat) = ACTIVE_REQUEST /\
    service_id (heap w' !!! 0%nat) = 1 /\
    time_to_live (heap w' !!! 0%nat) = time_to_live (heap w4 !!! 0%nat) - 1 /\
    remaining_requests (heap w') (queue self')
      (service_id (heap w' !!! 0%nat)) = [3%nat] /\
    concurrent_idx self' = 2.
Proof.
  eexists _, _, _, _. split; [vm_compute; reflexivity|].
  split; [reflexivity|]. split; [reflexivity|].
  split; [vm_compute; reflexivity|].
  split; [vm_compute; reflexivity|].
  repeat split; reflexivity.
Qed.

(** C6: the code at a weight that reaches the sentinel.  The queue of
    the LOOKFORMIN line is not empty, its only request is active with
    120 units to live; the search finds no request, the call counts an
    empty time unit and returns [False], and the request is not served.
    LOOKFORMAX serves the same request. *)
Lemma look_for_min_misses_heavy_request :
  queue heavy_request_line = [0%nat] /\
  status (heap heavy_request_world !!! 0%nat) = ACTIVE_REQUEST /\
  look_for_min (queue heavy_request_line) (heap heavy_request_world)
    (3 * RANDOM_MAX_TIME_TO_SERVE_A_REQUEST) None = None /\
  process_queued_requests heavy_request_line 1 heavy_request_world =
  Done ((false,
         set_nr_of_times_empty_line 1
           (observe_queue heavy_request_line (heap heavy_request_world))),
        heavy_request_world) /\
  (exists self' w',
     process_queued_requests
       (set_service_type LOOKFORMAX heavy_request_line) 1
       heavy_request_world = Done ((true, self'), w') /\
     time_to_live (heap w' !!! 0%nat) = 119).
Proof.
  split; [reflexivity|]. split; [reflexivity|]. split; [reflexivity|].
  split; [reflexivity|]. eexists _, _. split; reflexivity.
Qed.

(** C6, through [run]: with the LOG [[(0, 120, False, False)]] the run of
    a new LOOKFORMIN line never serves the request and ends in [quit()];
    the run of a new LOOKFORMAX line completes it. *)
Lemma look_for_min_run_never_serves :
  returned ((line ← myServiceLine.init 4;
             myServiceLine.run line [(0, 120, false, false)])
              (fresh_world [])) = Raise SystemExit /\
  returned ((line ← myServiceLine.init 3;
             myServiceLine.run line [(0, 120, false, false)])
              (fresh_world [])) =
  Done [0 # 1; 120 # 3000; 0 # 1; 0 # 1; 1 # 1]%Q.
Proof. split; vm_compute; reflexivity. Qed.

(** C9: the code on a hierarchy with one collaborator and the LOG
    [[(0, 2, False, True)]].  The request of the chief is inserted while
    it waits (no active request in the queue of the chief: the counter
    stays 0); it becomes active at time unit 3, so the greatest number of
    active requests in the queue of the chief during the run is 1; the
    fifth parameter that the run returns is 0. *)
Lemma peak_counter_misses_wake_up :
  peak_of_active_requests [(0, 2, false, true)]
    (myServiceLineHierarchy.mk 1 (new_line 1 SEQUENTIAL)
       [new_line 2 SEQUENTIAL] 1)
    (range TOTAL_NR_OF_TIME_UNITS) (mkWorld [] 1 3 2 []) = 1 /\
  returned (run_hierarchy 1 1 1 [(0, 2, false, true)] (fresh_world [])) =
  Done [3 # 1; 2 # 3000; 2996 # 1; 0 # 1; 0 # 1]%Q.
Proof. split; vm_compute; reflexivity. Qed.

(** C10 as stated fails.  Two runs in a row of new RANDOMCHOICE lines on
    the same LOG [[(0, 2, False, False), (1, 1, False, False)]]: when the
    generator draws the first request of the queue all through the first
    run and the second one all through the second run, the first run
    completes the request of weight 2 only and the second run the request
    of weight 1 only; the performance parameters differ. *)
Lemma random_choice_replay_counterexample :
  value_of (run_twice 5 [(0, 2, false, false); (1, 1, false, false)]
              (fresh_world (replicate 2998 0%nat ++ replicate 2998 1%nat))) =
  Done ([1 # 1; 3000 # 3000; 0 # 1; 1 # 2; 2 # 1]%Q,
        [0 # 1; 2999 # 3000; 0 # 1; 1 # 2; 2 # 1]%Q).
Proof. vm_compute. reflexivity. Qed.

(** C10 (as amended) on two CONCURRENT lines and the same LOG: one run
    starts when the program starts, the other in a process that has
    already created six requests and has another tape of draws. *)
Lemma replay_determinism_witness :
  returned (myServiceLine.run (new_line 1 CONCURRENT)
              [(0, 2, false, false); (1, 1, false, false)]
              (mkWorld [] 1 2 1 [])) =
  returned (myServiceLine.run (new_line 3 CONCURRENT)
              [(0, 2, false, false); (1, 1, false, false)]
              (mkWorld waiting_store 7 4 1 [4; 2]%nat)).
Proof.
  apply (replay_determinism 2 [(0, 2, false, false); (1, 1, false, false)]
           (fresh_world []) (mkWorld waiting_store 7 3 1 [4; 2]%nat)).
  - reflexivity.
  - reflexivity.
  - simpl. lia.
  - simpl. lia.
  - right. split; intros Heq; discriminate Heq.
Defined.

(** * The further properties on concrete inputs *)

(** A request of weight 3 served at the time units 5, 6, 9 and 10. *)
Lemma request_completes_after_its_weight_witness :
  let h := [myServiceRequest.mk 1 0 3 3 None ACTIVE_REQUEST false []] in
  serve_repeatedly 0 [5; 6] h =
  Done (<[0%nat := set_time_to_live 1 (h !!! 0%nat)]> h) /\
  serve_repeatedly 0 ([5; 6] ++ 9 :: [10]) h =
  Done (<[0%nat := set_time_of_completion (Some 9)
                     (set_status REQUEST_COMPLETION
                        (set_time_to_live 0 (h !!! 0%nat)))]> h).
Proof.
  apply (request_completes_after_its_weight
           [myServiceRequest.mk 1 0 3 3 None ACTIVE_REQUEST false []]
           0 [5; 6] 9 [10]).
  - simpl. lia.
  - reflexivity.
  - reflexivity.
Defined.

(** A new RANDOMCHOICE line at time unit 7. *)
Lemma dispatch_on_empty_queue_witness :
  process_queued_requests (new_line 1 RANDOMCHOICE) 7 (fresh_world [3%nat]) =
  Done ((false, empty_time_unit (new_line 1 RANDOMCHOICE)),
        fresh_world [3%nat]).
Proof. apply dispatch_on_empty_queue. reflexivity. Defined.

(** A SEQUENTIAL line with two active requests: the call returns True
    and the count of empty time units stays 0. *)
Lemma empty_counter_counts_false_returns_witness :
  exists self' w',
    process_queued_requests (plain_line SEQUENTIAL) 2 (plain_world []) =
    Done ((true, self'), w') /\
    nr_of_times_empty_line self' =
    nr_of_times_empty_line (plain_line SEQUENTIAL) + 0.
Proof.
  eassert (Hp : process_queued_requests (plain_line SEQUENTIAL) 2
                  (plain_world []) = _) by (vm_compute; reflexivity).
  eexists _, _. split; [exact Hp|].
  exact (empty_counter_counts_false_returns _ _ _ _ _ _ Hp).
Defined.

(** A LOOKFORMAX line with two active requests: the store after the
    call is the store after one [serve_request]. *)
Lemma one_request_served_per_call_witness :
  exists self' w',
    process_queued_requests (plain_line LOOKFORMAX) 2 (plain_world []) =
    Done ((true, self'), w') /\
    exists r b', r ∈ queue (plain_line LOOKFORMAX) /\
                 serve_request r 2 (heap (plain_world [])) =
                 Done (b', heap w').
Proof.
  eassert (Hp : process_queued_requests (plain_line LOOKFORMAX) 2
                  (plain_world []) = _) by (vm_compute; reflexivity).
  eexists _, _. split; [exact Hp|].
  refine (proj2 (one_request_served_per_call _ _ _ _ _ _ _ Hp) eq_refl).
  intros Heq. discriminate Heq.
Defined.

(** A SEQUENTIAL line whose queue holds a completed request and then an
    active one: the active one is served. *)
Lemma sequential_serves_first_unfinished_witness :
  exists h1,
    serve_request 0 3 (heap one_completed_world) = Done (true, h1) /\
    (forall x, x <> 0%nat -> h1 !!! x = heap one_completed_world !!! x) /\
    process_queued_requests
      (set_service_type SEQUENTIAL (set_queue [1; 0]%nat one_completed_line))
      3 one_completed_world =
    Done ((true,
           observe_queue
             (set_service_type SEQUENTIAL
                (set_queue [1; 0]%nat one_completed_line))
             (heap one_completed_world)),
          set_heap h1 one_completed_world).
Proof.
  apply (sequential_serves_first_unfinished
           (set_service_type SEQUENTIAL
              (set_queue [1; 0]%nat one_completed_line))
           3 one_completed_world [1%nat] [] 0%nat).
  - reflexivity.
  - reflexivity.
  - intros x Hx. apply elem_of_cons in Hx as [->|Hx]; [reflexivity|].
    apply list_elem_of_singleton in Hx as ->. reflexivity.
  - intros x Hx. apply list_elem_of_singleton in Hx as ->. left. reflexivity.
  - reflexivity.
Defined.

(** A LOOKFORMAX line with requests of 2 and 3 units left: the second
    one is served. *)
Lemma look_for_max_serves_heaviest_witness :
  exists pre r post b h1,
    queue (plain_line LOOKFORMAX) = pre ++ r :: post /\
    (forall x, x ∈ pre ->
       time_to_live (heap (plain_world []) !!! x)
       < time_to_live (heap (plain_world []) !!! r)) /\
    (forall x, x ∈ post ->
       time_to_live (heap (plain_world []) !!! x)
       <= time_to_live (heap (plain_world []) !!! r)) /\
    serve_request r 2 (heap (plain_world [])) = Done (b, h1) /\
    process_queued_requests (plain_line LOOKFORMAX) 2 (plain_world []) =
    Done ((true, observe_queue (plain_line LOOKFORMAX)
                   (heap (plain_world []))),
          set_heap h1 (plain_world [])).
Proof.
  apply (look_for_max_serves_heaviest (plain_line LOOKFORMAX) 2
           (plain_world [])).
  - reflexivity.
  - intros x Hx. apply elem_of_cons in Hx as [->|Hx]; [reflexivity|].
    apply list_elem_of_singleton in Hx as ->. reflexivity.
  - intros x Hx. apply elem_of_cons in Hx as [->|Hx].
    + split; intros Hs; discriminate Hs.
    + apply list_elem_of_singleton in Hx as ->.
      split; intros Hs; discriminate Hs.
  - exists 0%nat. split; [left|simpl; lia].
Defined.

(** A RANDOMCHOICE line with two requests and the draw 1. *)
Lemma random_choice_serves_queue_member_witness :
  exists r b h1,
    queue (plain_line RANDOMCHOICE) !! 1%nat = Some r /\
    serve_request r 2 (heap (plain_world [1%nat])) = Done (b, h1) /\
    process_queued_requests (plain_line RANDOMCHOICE) 2
      (plain_world [1%nat]) =
    Done ((true, observe_queue (plain_line RANDOMCHOICE)
                   (heap (plain_world [1%nat]))),
          set_rng [] (set_heap h1 (plain_world [1%nat]))).
Proof.
  refine (random_choice_serves_queue_member (plain_line RANDOMCHOICE) 2
            (plain_world [1%nat]) _ _ _ _).
  - reflexivity.
  - intros Heq. discriminate Heq.
  - intros x Hx. apply elem_of_cons in Hx as [->|Hx]; [reflexivity|].
    apply list_elem_of_singleton in Hx as ->. reflexivity.
  - intros x Hx. apply elem_of_cons in Hx as [->|Hx].
    + split; intros Hs; discriminate Hs.
    + apply list_elem_of_singleton in Hx as ->.
      split; intros Hs; discriminate Hs.
Defined.

(** A CONCURRENT line with the cursor on the first of its two active
    requests: one call does a unit of work on both. *)
Lemma concurrent_serves_up_to_cursor_witness :
  exists self' w',
    process_queued_requests (set_concurrent_idx 1 (plain_line CONCURRENT)) 2
      (plain_world []) = Done ((true, self'), w') /\
    (forall x, x ∈ [0%nat] ++ [1%nat] ->
       time_to_live (heap w' !!! x) =
       time_to_live (heap (plain_world []) !!! x) - 1) /\
    (forall x, x ∉ [0%nat] ++ [1%nat] ->
       heap w' !!! x = heap (plain_world []) !!! x) /\
    nr_of_times_empty_line self' =
    nr_of_times_empty_line (set_concurrent_idx 1 (plain_line CONCURRENT)).
Proof.
  apply (concurrent_serves_up_to_cursor
           (set_concurrent_idx 1 (plain_line CONCURRENT)) 2 (plain_world [])
           [0%nat] [] 1%nat).
  - reflexivity.
  - reflexivity.
  - apply (bool_decide_unpack _). vm_compute. exact I.
  - intros x Hx. apply elem_of_cons in Hx as [->|Hx]; [reflexivity|].
    apply list_elem_of_singleton in Hx as ->. reflexivity.
  - intros x Hx. apply elem_of_cons in Hx as [->|Hx].
    + split; [simpl; lia|reflexivity].
    + apply list_elem_of_singleton in Hx as ->.
      split; [simpl; lia|reflexivity].
  - intros x Hx. apply list_elem_of_singleton in Hx as ->. simpl. lia.
  - simpl. lia.
Defined.

(** A SEQUENTIAL line that replays [short_log]. *)
Lemma line_log_mirrors_queue_witness :
  exists self' w',
    myServiceLine.run_loop short_log (new_line 1 SEQUENTIAL)
      (range TOTAL_NR_OF_TIME_UNITS) (mkWorld [] 1 2 1 []) =
    Done (self', w') /\
    myServiceLine.arrivals self' =
    (fun r => (time_to_start (heap w' !!! r),
               minimum_duration (heap w' !!! r),
               priority (heap w' !!! r), false)) <$> queue self'.
Proof.
  exact (line_log_mirrors_queue 1 short_log (fresh_world [])
           (mkWorld [] 1 2 1 []) (new_line 1 SEQUENTIAL) eq_refl).
Defined.

(** A CONCURRENT line that generates its arrivals. *)
Lemma line_log_is_chronological_witness :
  exists self' w',
    myServiceLine.run_loop [] (new_line 1 CONCURRENT)
      (range TOTAL_NR_OF_TIME_UNITS) (mkWorld [] 1 2 1 [5; 9; 500]%nat) =
    Done (self', w') /\
    ticks_after (-1) (times (myServiceLine.arrivals self')) /\
    Forall (fun t => t < TOTAL_NR_OF_TIME_UNITS)
      (times (myServiceLine.arrivals self')).
Proof.
  exact (line_log_is_chronological 2 [] (fresh_world [5; 9; 500]%nat)
           (mkWorld [] 1 2 1 [5; 9; 500]%nat) (new_line 1 CONCURRENT)
           eq_refl).
Defined.

(** The run of a SEQUENTIAL line on [short_log]. *)
Lemma line_statistics_in_range_witness :
  exists v self' w',
    myServiceLine.run (new_line 1 SEQUENTIAL) short_log
      (mkWorld [] 1 2 1 []) = Done ((v, self'), w') /\
    exists v0 accumulated empty ratio peak,
      v = [v0; true_div accumulated TOTAL_NR_OF_TIME_UNITS; inject_Z empty;
           ratio; inject_Z peak] /\
      0 <= accumulated <= TOTAL_NR_OF_TIME_UNITS * peak /\
      (0 <= true_div accumulated TOTAL_NR_OF_TIME_UNITS <= inject_Z peak)%Q /\
      0 <= empty /\
      empty + Z.of_nat (length (queue self')) <= TOTAL_NR_OF_TIME_UNITS /\
      (0 <= ratio <= 1)%Q /\
      1 <= peak <= Z.of_nat (length (queue self')).
Proof.
  eassert (Hrun : myServiceLine.run (new_line 1 SEQUENTIAL) short_log
                    (mkWorld [] 1 2 1 []) = _) by (vm_compute; reflexivity).
  eexists _, _, _. split; [exact Hrun|].
  exact (line_statistics_in_range 1 short_log (fresh_world []) _ _ _ _ _
           eq_refl Hrun).
Defined.

(** A LOOKFORMIN line that replays [short_log]. *)
Lemma line_peak_counter_is_peak_witness :
  exists self' w',
    myServiceLine.run_loop short_log (new_line 1 LOOKFORMIN)
      (range TOTAL_NR_OF_TIME_UNITS) (mkWorld [] 1 2 1 []) =
    Done (self', w') /\
    max_nr_of_pending_requests self' =
    peak_of_line short_log (new_line 1 LOOKFORMIN)
      (range TOTAL_NR_OF_TIME_UNITS) (mkWorld [] 1 2 1 []).
Proof.
  exact (line_peak_counter_is_peak 4 short_log (fresh_world [])
           (mkWorld [] 1 2 1 []) (new_line 1 LOOKFORMIN) eq_refl).
Defined.

(** A SEQUENTIAL line that replays [noisy_log]. *)
Lemma replay_admits_first_entry_per_time_unit_witness :
  exists self' w',
    myServiceLine.run_loop noisy_log (new_line 1 SEQUENTIAL)
      (range TOTAL_NR_OF_TIME_UNITS) (mkWorld [] 1 2 1 []) =
    Done (self', w') /\
    myServiceLine.arrivals self' =
    undelegate <$> admitted noisy_log (range TOTAL_NR_OF_TIME_UNITS).
Proof.
  refine (replay_admits_first_entry_per_time_unit 1 noisy_log
            (fresh_world []) (mkWorld [] 1 2 1 []) (new_line 1 SEQUENTIAL)
            eq_refl _).
  intros Heq. discriminate Heq.
Defined.

(** The LOG of a SEQUENTIAL line that has replayed [noisy_log], replayed
    by a LOOKFORMAX line. *)
Lemma replay_of_recorded_log_witness :
  exists self1 w1,
    myServiceLine.run_loop noisy_log (new_line 1 SEQUENTIAL)
      (range TOTAL_NR_OF_TIME_UNITS) (mkWorld [] 1 2 1 []) =
    Done (self1, w1) /\
    exists other1 v1,
      myServiceLine.run_loop (myServiceLine.arrivals self1)
        (new_line 1 LOOKFORMAX) (range TOTAL_NR_OF_TIME_UNITS)
        (mkWorld [] 1 2 1 []) = Done (other1, v1) /\
      myServiceLine.arrivals other1 = myServiceLine.arrivals self1.
Proof.
  eassert (Hrun : myServiceLine.run_loop noisy_log (new_line 1 SEQUENTIAL)
                    (range TOTAL_NR_OF_TIME_UNITS) (mkWorld [] 1 2 1 []) = _)
    by (vm_compute; reflexivity).
  eexists _, _. split; [exact Hrun|].
  refine (replay_of_recorded_log 1 3 noisy_log (fresh_world [])
            (mkWorld [] 1 2 1 []) _ (fresh_world []) (mkWorld [] 1 2 1 [])
            (new_line 1 SEQUENTIAL) _ (new_line 1 LOOKFORMAX)
            eq_refl Hrun _ eq_refl).
  intros Heq. discriminate Heq.
Defined.

(** [noisy_log] and [short_log] give the same run. *)
Lemma replay_reads_first_entries_only_witness :
  myServiceLine.run (new_line 1 CONCURRENT) noisy_log (mkWorld [] 1 2 1 []) =
  myServiceLine.run (new_line 1 CONCURRENT) short_log (mkWorld [] 1 2 1 []).
Proof.
  apply replay_reads_first_entries_only.
  - intros Heq. discriminate Heq.
  - intros Heq. discriminate Heq.
  - apply Forall_forall. apply (bool_decide_unpack _). vm_compute. exact I.
Defined.

(** Three time units of a SEQUENTIAL line with two requests in its
    queue. *)
Lemma runs_only_evolve_requests_witness :
  exists self' w',
    myServiceLine.run_loop short_log (plain_line SEQUENTIAL) [2; 3; 4]
      (plain_world []) = Done (self', w') /\
    evolves (heap (plain_world [])) (heap w').
Proof.
  eassert (Hrun : myServiceLine.run_loop short_log (plain_line SEQUENTIAL)
                    [2; 3; 4] (plain_world []) = _)
    by (vm_compute; reflexivity).
  eexists _, _. split; [exact Hrun|].
  exact (proj1 (runs_only_evolve_requests short_log [2; 3; 4]
                  (plain_world []) _) _ _ Hrun).
Defined.

(** A new hierarchy of three collaborators that generates its
    arrivals. *)
Lemma chief_log_mirrors_queue_witness :
  exists self' w',
    myServiceLineHierarchy.run_loop [] three_collaborators
      (range TOTAL_NR_OF_TIME_UNITS) (mkWorld [] 1 5 2 [5; 9; 500; 100]%nat) =
    Done (self', w') /\
    let chief := myServiceLineHierarchy.chief self' in
    myServiceLine.arrivals chief =
    (fun r => (time_to_start (heap w' !!! r),
               minimum_duration (heap w' !!! r),
               priority (heap w' !!! r),
               match list_of_requests_it_is_waiting_for (heap w' !!! r) with
               | [] => false
               | _ :: _ => true
               end)) <$> queue chief /\
    ticks_after (-1) (times (myServiceLine.arrivals chief)) /\
    Forall (fun t => t < TOTAL_NR_OF_TIME_UNITS)
      (times (myServiceLine.arrivals chief)).
Proof.
  refine (chief_log_mirrors_queue 1 3 1 []
            (fresh_world [5; 9; 500; 100]%nat)
            (mkWorld [] 1 5 2 [5; 9; 500; 100]%nat) three_collaborators
            _ eq_refl).
  lia.
Defined.

(** The run of a hierarchy of three collaborators on a LOG with one
    delegated request. *)
Lemma chief_statistics_in_range_witness :
  exists v self' w',
    myServiceLineHierarchy.run three_collaborators [(0, 2, false, true)]
      (mkWorld [] 1 5 2 []) = Done ((v, self'), w') /\
    let chief := myServiceLineHierarchy.chief self' in
    exists v0 accumulated empty ratio peak,
      v = [v0; true_div accumulated TOTAL_NR_OF_TIME_UNITS; inject_Z empty;
           ratio; inject_Z peak] /\
      0 <= accumulated /\
      0 <= empty /\
      empty + Z.of_nat (length (queue chief)) <= TOTAL_NR_OF_TIME_UNITS /\
      (0 <= ratio <= 1)%Q /\
      0 <= peak <= Z.of_nat (length (queue chief)).
Proof.
  eassert (Hrun : myServiceLineHierarchy.run three_collaborators
                    [(0, 2, false, true)] (mkWorld [] 1 5 2 []) = _)
    by (vm_compute; reflexivity).
  eexists _, _, _. split; [exact Hrun|].
  refine (chief_statistics_in_range 1 3 1 [(0, 2, false, true)]
            (fresh_world []) _ _ _ _ _ _ eq_refl Hrun).
  lia.
Defined.

(** A hierarchy of three collaborators that replays a LOG with a
    delegated request and one that is not. *)
Lemma delegating_request_completes_last_witness :
  exists self' w',
    myServiceLineHierarchy.run_loop [(0, 2, false, true); (3, 1, true, false)]
      three_collaborators (range TOTAL_NR_OF_TIME_UNITS)
      (mkWorld [] 1 5 2 []) = Done (self', w') /\
    forall r, r ∈ queue (myServiceLineHierarchy.chief self') ->
      (status (heap w' !!! r) <> WAITING_REQUEST ->
       forall s, s ∈ list_of_requests_it_is_waiting_for (heap w' !!! r) ->
         status (heap w' !!! s) = REQUEST_COMPLETION) /\
      (status (heap w' !!! r) = REQUEST_COMPLETION ->
       exists c, time_of_completion (heap w' !!! r) = Some c /\
         forall s, s ∈ list_of_requests_it_is_waiting_for (heap w' !!! r) ->
           exists cs, time_of_completion (heap w' !!! s) = Some cs /\
                      cs < c).
Proof.
  refine (delegating_request_completes_last 1 3 1
            [(0, 2, false, true); (3, 1, true, false)] (fresh_world [])
            (mkWorld [] 1 5 2 []) three_collaborators _ eq_refl).
  lia.
Defined.

(** A request of weight 10: no share without lines, a share of 3 among
    a chief and three collaborators. *)
Lemma sub_request_share_witness :
  1 <= 10 <= RANDOM_MAX_TIME_TO_SERVE_A_REQUEST /\
  myServiceLineHierarchy.time_to_serve_a_subrequest 10 (-1) (fresh_world []) =
  Raise ZeroDivisionError /\
  exists share,
    myServiceLineHierarchy.time_to_serve_a_subrequest 10 3 (fresh_world []) =
    Done (share, fresh_world []) /\
    1 <= share <= 10 + 1 /\
    10 < (3 + 1) * share <= 10 + 3 + 1.
Proof.
  assert (Hw : 1 <= 10 <= RANDOM_MAX_TIME_TO_SERVE_A_REQUEST)
    by (vm_compute; split; discriminate).
  split; [exact Hw|]. split.
  - apply (proj1 (sub_request_share 10 (-1) (fresh_world []) Hw)). reflexivity.
  - apply (proj2 (sub_request_share 10 3 (fresh_world []) Hw)). lia.
Defined.

(** A SEQUENTIAL line and a hierarchy of three collaborators that
    generate their arrivals. *)
Lemma generated_weights_in_range_witness :
  (exists self' w',
     myServiceLine.run_loop [] (new_line 1 SEQUENTIAL)
       (range TOTAL_NR_OF_TIME_UNITS) (mkWorld [] 1 2 1 [5; 9; 500]%nat) =
     Done (self', w') /\
     Forall (fun a => 1 <= snd (fst (fst a))
                      <= RANDOM_MAX_TIME_TO_SERVE_A_REQUEST)
       (myServiceLine.arrivals self')) /\
  (exists self' w',
     myServiceLineHierarchy.run_loop [] three_collaborators
       (range TOTAL_NR_OF_TIME_UNITS)
       (mkWorld [] 1 5 2 [5; 9; 500; 100]%nat) = Done (self', w') /\
     Forall (fun a : arrival =>
               1 <= snd (fst (fst a))
                 <= (if snd a
                     then RANDOM_MAX_TIME_TO_SERVE_A_REQUEST ÷ (3 + 1) + 1
                     else RANDOM_MAX_TIME_TO_SERVE_A_REQUEST))
       (myServiceLine.arrivals (myServiceLineHierarchy.chief self'))).
Proof.
  split.
  - exact (proj1 (generated_weights_in_range (G := list nat)) 1
             (fresh_world [5; 9; 500]%nat)
             (mkWorld [] 1 2 1 [5; 9; 500]%nat) (new_line 1 SEQUENTIAL)
             eq_refl).
  - refine (proj2 (generated_weights_in_range (G := list nat)) 1 3 1
              (fresh_world [5; 9; 500; 100]%nat)
              (mkWorld [] 1 5 2 [5; 9; 500; 100]%nat) three_collaborators
              _ eq_refl).
    lia.
Defined.

(** The first hierarchy of the emulation, with generated arrivals. *)
Lemma single_line_log_of_emulation_witness :
  exists self' w',
    myServiceLineHierarchy.run_loop [] three_collaborators
      (range TOTAL_NR_OF_TIME_UNITS)
      (mkWorld [] 1 5 2 [5; 9; 500; 100]%nat) = Done (self', w') /\
    let log :=
      arrivals_for_single_line
        (myServiceLine.arrivals (myServiceLineHierarchy.chief self')) in
    Forall (fun a => snd a = true /\
                     4 <= snd (fst (fst a)) <= 44 /\
                     snd (fst (fst a))
                       < 3 * RANDOM_MAX_TIME_TO_SERVE_A_REQUEST) log /\
    ticks_after (-1) (times log) /\
    Forall (fun t => t < TOTAL_NR_OF_TIME_UNITS) (times log).
Proof.
  exact (single_line_log_of_emulation 1 1
           (fresh_world [5; 9; 500; 100]%nat)
           (mkWorld [] 1 5 2 [5; 9; 500; 100]%nat) three_collaborators
           eq_refl).
Defined.

(** A LOOKFORMIN line with requests of 2 and 3 units left. *)
Lemma look_for_min_finds_below_sentinel_witness :
  exists self' w',
    process_queued_requests (plain_line LOOKFORMIN) 2 (plain_world []) =
    Done ((true, self'), w') /\
    nr_of_times_empty_line self' =
    nr_of_times_empty_line (plain_line LOOKFORMIN).
Proof.
  apply (look_for_min_finds_below_sentinel (plain_line LOOKFORMIN) 2
           (plain_world [])).
  - reflexivity.
  - intros Heq. discriminate Heq.
  - intros x Hx. apply elem_of_cons in Hx as [->|Hx].
    + split; intros Hs; discriminate Hs.
    + apply list_elem_of_singleton in Hx as ->.
      split; intros Hs; discriminate Hs.
  - intros x Hx. apply elem_of_cons in Hx as [->|Hx]; [reflexivity|].
    apply list_elem_of_singleton in Hx as ->. reflexivity.
Defined.

(** The score of the run of a SEQUENTIAL line on [short_log]. *)
Lemma total_score_of_a_line_run_witness :
  exists v self' w',
    myServiceLine.run (new_line 1 SEQUENTIAL) short_log
      (mkWorld [] 1 2 1 []) = Done ((v, self'), w') /\
    exists s, get_total_score v = Done (Finite s) /\ (s < 1)%Q.
Proof.
  eassert (Hrun : myServiceLine.run (new_line 1 SEQUENTIAL) short_log
                    (mkWorld [] 1 2 1 []) = _) by (vm_compute; reflexivity).
  eexists _, _, _. split; [exact Hrun|].
  exact (total_score_of_a_line_run 1 short_log (fresh_world []) _ _ _ _ _
           eq_refl Hrun).
Defined.

(** The score of the run of a hierarchy on a LOG with one delegated
    request: the peak counter of the chief is 0. *)
Lemma total_score_of_a_hierarchy_run_witness :
  exists v self' w',
    myServiceLineHierarchy.run three_collaborators [(0, 2, false, true)]
      (mkWorld [] 1 5 2 []) = Done ((v, self'), w') /\
    let peak :=
      max_nr_of_pending_requests (myServiceLineHierarchy.chief self') in
    (1 <= peak /\
     exists s, get_total_score v = Done (Finite s) /\ (s < 1)%Q) \/
    (peak = 0 /\
     (get_total_score v = Done MinusInfinity \/
      get_total_score v = Done NotANumber)).
Proof.
  eassert (Hrun : myServiceLineHierarchy.run three_collaborators
                    [(0, 2, false, true)] (mkWorld [] 1 5 2 []) = _)
    by (vm_compute; reflexivity).
  eexists _, _, _. split; [exact Hrun|].
  refine (total_score_of_a_hierarchy_run 1 3 1 [(0, 2, false, true)]
            (fresh_world []) _ _ _ _ _ _ eq_refl Hrun).
  lia.
Defined.

(** A RANDOMCHOICE line that replays [short_log] in a process that has
    already created six requests. *)
Lemma line_request_identifiers_witness :
  exists self' w',
    myServiceLine.run_loop short_log (new_line 3 RANDOMCHOICE)
      (range TOTAL_NR_OF_TIME_UNITS) (mkWorld waiting_store 7 4 1 [4; 2]%nat) =
    Done (self', w') /\
    (fun r => service_id (heap w' !!! r)) <$> queue self' =
    (fun i => 7 + Z.of_nat i) <$> seq 0 (length (queue self')) /\
    ID_REQUESTS w' = 7 + Z.of_nat (length (queue self')).
Proof.
  exact (line_request_identifiers 5 short_log
           (mkWorld waiting_store 7 3 1 [4; 2]%nat)
           (mkWorld waiting_store 7 4 1 [4; 2]%nat) (new_line 3 RANDOMCHOICE)
           eq_refl).
Defined.

(** The first time unit of a SEQUENTIAL line that replays [short_log],
    with two requests already in its queue. *)
Lemma arrival_time_unit_serves_nothing_witness :
  exists self' w',
    myServiceLine.run_time_unit short_log (plain_line SEQUENTIAL) 0
      (plain_world []) = Done (self', w') /\
    (exists new, heap w' = heap (plain_world []) ++ [new] /\
                 queue self' =
                 queue (plain_line SEQUENTIAL) ++
                 [length (heap (plain_world []))]) /\
    nr_of_times_empty_line self' =
    nr_of_times_empty_line (plain_line SEQUENTIAL) /\
    accumulate_nr_of_active_requests self' =
    accumulate_nr_of_active_requests (plain_line SEQUENTIAL).
Proof.
  eassert (Hstep : myServiceLine.run_time_unit short_log
                     (plain_line SEQUENTIAL) 0 (plain_world []) = _)
    by (vm_compute; reflexivity).
  eexists _, _. split; [exact Hstep|].
  refine (proj1 (arrival_time_unit_serves_nothing short_log 0
                   (plain_world []) _) _ _ Hstep _).
  intros Heq. discriminate Heq.
Defined.

(** A hierarchy without collaborators that replays a LOG with a
    delegated request. *)
Lemma hierarchy_replay_admits_witness :
  exists self' w',
    myServiceLineHierarchy.run_loop [(0, 2, false, true); (0, 5, true, true)]
      (myServiceLineHierarchy.mk 1 (new_line 1 CONCURRENT) [] 0)
      (range TOTAL_NR_OF_TIME_UNITS) (mkWorld [] 1 2 2 []) =
    Done (self', w') /\
    myServiceLine.arrivals (myServiceLineHierarchy.chief self') =
    redelegate 0 <$> admitted [(0, 2, false, true); (0, 5, true, true)]
                       (range TOTAL_NR_OF_TIME_UNITS).
Proof.
  refine (hierarchy_replay_admits 2 0 1
            [(0, 2, false, true); (0, 5, true, true)] (fresh_world [])
            (mkWorld [] 1 2 2 [])
            (myServiceLineHierarchy.mk 1 (new_line 1 CONCURRENT) [] 0)
            _ eq_refl _).
  - lia.
  - intros Heq. discriminate Heq.
Defined.

(** The LOG of the chief of a hierarchy of three collaborators that has
    replayed a LOG with a delegated request, replayed by a hierarchy of
    one collaborator. *)
Lemma hierarchy_replay_of_recorded_log_witness :
  exists self1 w1,
    myServiceLineHierarchy.run_loop
      [(0, 2, false, true); (3, 1, true, false)] three_collaborators
      (range TOTAL_NR_OF_TIME_UNITS) (mkWorld [] 1 5 2 []) =
    Done (self1, w1) /\
    exists other1 v1,
      myServiceLineHierarchy.run_loop
        (myServiceLine.arrivals (myServiceLineHierarchy.chief self1))
        (myServiceLineHierarchy.mk 1 (new_line 1 CONCURRENT)
           [new_line 2 SEQUENTIAL] 1)
        (range TOTAL_NR_OF_TIME_UNITS) (mkWorld [] 1 3 2 []) =
      Done (other1, v1) /\
      myServiceLine.arrivals (myServiceLineHierarchy.chief other1) =
      myServiceLine.arrivals (myServiceLineHierarchy.chief self1).
Proof.
  eassert (Hrun : myServiceLineHierarchy.run_loop
                    [(0, 2, false, true); (3, 1, true, false)]
                    three_collaborators (range TOTAL_NR_OF_TIME_UNITS)
                    (mkWorld [] 1 5 2 []) = _)
    by (vm_compute; reflexivity).
  eexists _, _. split; [exact Hrun|].
  refine (hierarchy_replay_of_recorded_log 1 3 1 2 1 1
            [(0, 2, false, true); (3, 1, true, false)] (fresh_world [])
            (mkWorld [] 1 5 2 []) _ (fresh_world []) (mkWorld [] 1 3 2 [])
            three_collaborators _
            (myServiceLineHierarchy.mk 1 (new_line 1 CONCURRENT)
               [new_line 2 SEQUENTIAL] 1)
            _ eq_refl Hrun _ _ eq_refl).
  - lia.
  - intros Heq. discriminate Heq.
  - lia.
Defined.
